(* ===== verification/_CoqProject ===== *)
-Q . S2P
Prelude.v
PyStr.v
Uuid.v
Effects.v
Confinement.v
Json.v
Schemas.v
SchemaJson.v
Cases.v
Ledger.v
Database.v
Migrations.v
MigrationTheorems.v
InMemory.v
SqlActions.v
Governance.v
Lifecycle.v
GovernanceProofs.v
GovernanceTheorems.v
GovernanceOutcomes.v
Workflows.v
Outbox.v
OutboxProofs.v
System.v
SystemTheorems.v
Identity.v
ModelGateway.v
JsonTextCode.v
RemoteModels.v
ModelTheorems.v
ReviewGraph.v
ReviewMachine.v
ReviewRuntime.v
ReviewTheorems.v
Chunking.v
Settings.v
Ingestion.v
Workers.v
WorkerTheorems.v
Retrieval.v
Embeddings.v
RetrievalTheorems.v
Api.v
Http.v
ApiProofs.v
ApiWorld.v
ApiTheorems.v
Tenancy.v
TenancyProofs.v
TenancyTheorems.v
SqlCases.v
EntryPoints.v
EntryPointTheorems.v
PgVector.v
CaseRefinement.v
CaseTheorems.v
PgVectorTheorems.v
Container.v
ContainerTheorems.v
Smoke.v
SmokeTheorems.v
SchemaTheorems.v
