(* ===== verification/Prelude.v ===== *)
(** * Supplier Assurance Copilot: a verification library

    The program is a service for supplier onboarding: clients create supplier cases with
    documents, a graph of model-backed specialists reviews a case, an analyst may have to
    confirm the evidence, and the recommendation becomes a governed action that another
    person approves and an executor carries out in the supplier system.  This library is a
    shallow embedding of that Python code (paths below are under [src/]) with the theorems
    that make its parts correct.  Names follow the source; a definition's comment names the
    Python method where the names differ.

    ** How the code is read

    - [Effects]: an [async] method is a [prog S A], a sequence of atomic sections over a
      shared state [S] ending in a value or an exception of type [exn].  An atomic section
      is what runs between two suspension points: a body under [asyncio.Lock], one database
      transaction or statement, one call of an external client.  [run] executes a program
      alone, [pool_step] interleaves several, [wp] is a rely/guarantee logic and [pool_safe]
      its soundness theorem.  [Confinement] is a relational logic for programs of several
      parties, whose soundness theorem [purge] removes the moves of the others.  Readings of
      the clock and of [uuid4] are arguments ([Fresh], [Readings], [Environment]), so a
      theorem holds for all of them.
    - [PyStr], [Uuid], [Json], [SchemaJson], [JsonTextCode]: strings as lists of code
      points with the methods the code calls, UUIDs and their text, JSON values and
      Pydantic fields with [extra="forbid"], [model_dump] and [model_validate] of each
      schema, and one concrete JSON text for examples.  Floats are IEEE binary64 of the
      Standard Library.
    - [Schemas]: the Pydantic models of [packages/schemas] with their field constraints.

    ** The parts and their files

    - Cases ([packages/persistence/repositories.py]): [Cases] has the protocol
      [CaseRepository] and the in-memory repository, [SqlCases] the PostgreSQL one over the
      tables of [Database] ([packages/persistence/models.py]), whose columns refuse what
      PostgreSQL refuses: long texts, U+0000, surrogates, vectors out of range; a stored
      vector has single precision.  [CaseRefinement] relates
      their states and [CaseTheorems] states that they answer alike.
    - Schema ([apps/api/migrations], [packages/persistence/models.py]): [Migrations] has the
      operations of each script, what they do to a catalogue and to stored rows (the
      documented meaning of the DDL), the run of [env.py] and the metadata of the mapped
      classes; [MigrationTheorems] relates scripts and metadata, [SchemaTheorems] the
      migrated schema and the tables of [Database].
    - Governance ([packages/governance]): [Ledger] has the protocols [ActionRepository],
      [ApprovalWorkflow], [SupplierSystem] and, as classes of laws, what each promises the
      service; [InMemory] and [SqlActions] implement and discharge them; [Governance] is
      the service; [Lifecycle] is the life of an action; [GovernanceProofs],
      [GovernanceTheorems] and [GovernanceOutcomes] prove it safe under interleaving and
      give its decision tables, against the laws and hence for both containers.
    - Approval workflows ([packages/workflows]): [Workflows], the Step Functions adapter
      with the documented behaviour of [StartExecution] as hypotheses.
    - Outbox ([packages/outbox]): [Outbox] and [OutboxProofs], the repository, handler and
      dispatcher; [System] and [SystemTheorems] run API requests and dispatcher polls
      together on one database.  Supplier receipts live in the memory of a process, so
      [SqlWorld] has the adapter of the one process that executes actions.  [Workers] is
      the process of [apps/outbox_worker/main.py], [WorkerTheorems] its runs.
    - Entry points: [EntryPoints] has the tool of [apps/mcp_server/main.py] and the function
      of [apps/approval_status/lambda_handler.py]; [EntryPointTheorems].
    - Identity ([packages/identity/auth.py]): [Identity], both authenticators; the token
      library is a parameter.
    - Models ([packages/model_gateway]): [ModelGateway] has the contracts and the
      deterministic backend, [RemoteModels] the OpenAI, LiteLLM and Bedrock adapters and
      the factory, [ModelTheorems] what they answer.
    - Review graph ([packages/graphs/supplier_review.py]): [ReviewGraph] has the state, the
      nodes, the edges, the snapshots and the operations of [SupplierReviewWorkflow].
      LangGraph is the parameter [CompiledGraph]; [runtime_laws] says what it does one
      super-step at a time ([invoked]): updates of parallel nodes are applied in some
      order, an interrupt or a failure leaves a checkpoint.  [ReviewMachine] is the
      abstract machine of one execution (waiting, finished, abandoned, stuck) and the
      simulation; [ReviewRuntime] is a concrete runtime that keeps the laws.
    - Retrieval ([packages/retrieval]): [Chunking] the structural chunker, [Retrieval] the
      hash embeddings and the in-memory service, [RetrievalTheorems]; [Embeddings] the Titan
      provider and the factory; [PgVector] the service on PostgreSQL, whose transaction is
      split where two of them can interleave, and [PgVectorTheorems].
    - Ingestion ([packages/ingestion/docling_parser.py]): [Ingestion]; the file system and
      Docling are parameters.
    - Settings ([packages/settings.py], [packages/persistence/secrets.py]): [Settings], the
      fields, their assembly into database URLs and the lookup of secrets.
    - HTTP API ([apps/api/main.py]): [Api] has every request handler over any container;
      [ApiProofs] the portfolio of cases, reviews and trails and the effect of each call on
      it; [ApiWorld] the parts of the in-memory container; [ApiTheorems].  [Http] is the
      application: its routes as one type of requests, served for the principal they
      authenticate.  [Tenancy] says which tenant each record is of and what a tenant sees,
      [TenancyProofs] that every handler is confined to its tenant; [TenancyTheorems].
    - Container ([apps/api/dependencies.py], with the lifespans of [apps/api/main.py] and
      [apps/agent_runtime/main.py]): [Container] builds, starts and closes a container for
      either backend; [ContainerTheorems].
    - Smoke script ([scripts/smoke.py]): [Smoke] runs it against a container, the worker and
      the tool; [SmokeTheorems].

    ** What is shown

    - [GovernanceTheorems], [GovernanceOutcomes]: however requests interleave, no action is
      executed that another person has not approved, decisions race to one outcome,
      proposals and executions are idempotent, every branch of the service follows its
      table ([decide] with other requests between its two sections); two ways in which keys
      of different tenants interfere.  On PostgreSQL any requests may be served.  The
      in-memory repository files a proposal over the action of another key that has its
      identifier, and there the theorems take it that the identifiers derived for proposals
      stand for one tenant and key each ([admissible]), which leaves out an administrator who
      proposes for another tenant's case with a key that its own tenant uses.
    - [ReviewTheorems]: the workflow implements the execution machine over any runtime and
      any backend, failing ones included; settled executions stay; with the deterministic
      backend a review completes with the findings and the decision of the rules.
    - [ApiTheorems]: tenants do not see each other's cases; each call about a review
      changes the case, its reviews and its trail as [effect] says; a confirmed review is
      filed.  Three concrete runs show a stranded case, a wrongly reset case and a
      completion announced twice.
    - [TenancyTheorems]: with requests of several tenants interleaved in any way on the
      in-memory container, one tenant is answered and served as if it were alone, but for a
      decision on an action of another tenant, which is refused in any case and, unlike a
      read, tells whether there is one.
    - [Settings]: user names, passwords and paths are quoted into the assembled URLs as
      form values, so that a space becomes a plus sign, and the given secrets are in them.
    - [SystemTheorems], [WorkerTheorems]: atomic proposals, one message per action, bounded
      attempts, exclusive leases, delivery and retry; whole worker processes interleaved
      with requests are safe, stop when told to, and drain the outbox.
    - [EntryPointTheorems]: the tool executes approved actions only and answers one receipt;
      the status the durable workflow polls is the one the service reads.
    - [MigrationTheorems], [SchemaTheorems]: the scripts reach the declared metadata and keep
      the rows of an older database; a downgrade is exact or, after use, loses tenants and
      actions; insertions of the modelled tables are those the migrated schema admits, and
      every row the repositories insert or update fits the columns of its table, or is
      refused by the check of the model.
    - [PgVectorTheorems]: interleaved index and search calls leave complete indexes; indexing
      answers as in memory and stores the same vectors, rounded.  Racing index calls, a long
      heading and a blank query fail.
    - [ContainerTheorems]: a container is built exactly from complete settings and gives back
      its checkpointer connection whatever fails.  [SmokeTheorems] runs every part together:
      one computed run of the smoke script, which it passes.
    - [CaseTheorems], [Workflows], [Identity], [ModelTheorems], [Chunking],
      [RetrievalTheorems]: refinement between the repositories, idempotent starts,
      credentials, the answers of the deterministic backend, complete and bounded chunks,
      nearest results with their distances from the query, JSON round trips.

    ** Fuel and bounds

    The packing loop of the chunker takes fuel [fuel_for] (twice the length of the text and
    one), proved enough whenever the overlap leaves room and proved never enough for the
    settings where the loop diverges.  [ReviewRuntime.drive] takes three super-steps, the
    longest path of the graph.  [split_paragraphs] takes the length of its text.  [path_up] and
    [path_down] take at most one step per script.  [poll_loop] takes a turn of the worker per
    unit, and [worker_stops] shows that any fuel above the turn of the stop signal is
    enough; [wait_for_workflow_reference] takes the number of polls before its deadline,
    which is a real bound of the script.  The example decoder of [JsonTextCode] takes the
    length of its text.  No other definition has fuel.  Python integers are [Z]; lengths of columns and of Pydantic
    strings are checked where the code or the database checks them.

    ** Assumptions about other people's code

    [uuid5] is a function, of which a theorem assumes no more than it says;
    what building a client or an engine comes to, the JSON text, the ISO text of instants,
    lower-casing beyond ASCII, SHA-256, the token library, boto3, the provider clients, the
    checkpointer and LangGraph are parameters, with named laws where a theorem needs them,
    and each such theorem with such laws has a witness with a concrete instance.  The database
    applies a commit atomically and enforces its constraints; the reads of a session before
    it are atomic sections of their own, and scan orders are arguments.  Names of workers
    come from the environment and the host, and names of errors are names of classes: both
    are taken to be texts the database can hold.

    ** Not modelled

    FastAPI routing and request parsing, HTTP and MCP transports, logging, reading environment
    files.  Of [packages/persistence/database.py] the engine factory is in [Workers] and the
    session factory is a constructor of SQLAlchemy; [apps/api/lambda_handler.py] is one of
    Mangum and [apps/worker/main.py] a placeholder that logs; of [env.py] the
    offline mode, which prints statements, and the engine.  Vectors are compared by a parameter, and the approximation an HNSW index may make is the
    freedom of [plan].
    [ApiTheorems] is about one request at a time; interleaving is treated in
    [GovernanceTheorems], [SystemTheorems], [CaseTheorems], [PgVectorTheorems] and, for all
    routes of the in-memory container together, in [TenancyTheorems], where an administrator,
    who may write to every tenant, sends no request and identifiers of different tenants are
    taken to be different names. *)
From stdpp Require Export base tactics option list list_numbers numbers gmap strings sorting.
From Stdlib Require Export ZArith NArith Lia.

(** ** Scope and databases of the development *)

Declare Scope py_scope.
Delimit Scope py_scope with py.

Create HintDb py.
Create Rewrite HintDb py.

(** ** Tactics *)

(** Case analysis on every match and [if] of the goal or a hypothesis, with the
    constructor equations it produces used at once. *)
Ltac py_cases := repeat first [progress (simplify_eq/=) | case_match | case_decide].

(** [py_solve] closes the leaves of such an analysis. *)
Ltac py_solve := py_cases; eauto with py; try congruence; try lia.

(** Splits every conjunction of the goal and tries the shared hints. *)
Ltac py_split := repeat split; eauto with py.

(** ** Options *)

Definition is_some {A} (o : option A) : bool := match o with Some _ => true | None => false end.

Lemma is_some_true {A} (o : option A) : is_some o = true <-> is_Some o.
Proof. destruct o; simpl; split; intros H; [eauto|done|done|by destruct H]. Qed.

(** ** Lists *)

Section lists.
Context {A : Type}.
Implicit Types (l k : list A).

(** A fixed-length suffix makes a concatenation injective. *)
Lemma app_inj_suffix l1 l2 k1 k2 :
  length k1 = length k2 -> l1 ++ k1 = l2 ++ k2 -> l1 = l2 /\ k1 = k2.
Proof. intros Hlen Heq. by apply app_inj_2. Qed.

(** The first [n] elements and the rest never exceed the list. *)
Lemma take_drop_length n l : length (take n l) + length (drop n l) = length l.
Proof. rewrite <- length_app, take_drop. done. Qed.

(** The last [n] elements, Python's [l[-n:]] for [n > 0]. *)
Definition suffix_of_length (n : nat) l : list A := drop (length l - n) l.

Lemma suffix_of_length_length n l : length (suffix_of_length n l) = n `min` length l.
Proof. unfold suffix_of_length. rewrite length_drop. lia. Qed.

Lemma suffix_of_length_suffix n l : suffix_of_length n l `suffix_of` l.
Proof.
  exists (take (length l - n) l). unfold suffix_of_length. by rewrite take_drop.
Qed.

Lemma suffix_of_length_all n l : length l <= n -> suffix_of_length n l = l.
Proof. intros H. unfold suffix_of_length. by replace (length l - n) with 0 by lia. Qed.
End lists.

(** The decidable order on a key, as the boolean a Python [sorted(key=...)] uses. *)
Definition Z_le_dec_bool (x y : Z) : bool := bool_decide (x <= y)%Z.
