(* ===== verification/PyStr.v ===== *)
(** * Python strings

    A Python [str] is a sequence of Unicode code points; it is modelled as the
    list of those code points.  The operations are the ones the sources use:
    [strip], [split], [splitlines], [in], [partition], [join], slicing and the
    f-string conversion of integers.  [u] embeds an ASCII literal. *)
From S2P Require Import Prelude.
From Stdlib Require Import DecimalString DecimalZ DecimalNat.

Abbreviation pystr := (list N).

Fixpoint u (s : string) : pystr :=
  match s with
  | EmptyString => []
  | String c s' => Ascii.N_of_ascii c :: u s'
  end.

(** ** Character classes *)

(** [str.isspace] on one code point (also the class of the regular expression [\s]). *)
Definition isspace (c : N) : bool :=
  ((9 <=? c) && (c <=? 13) || (28 <=? c) && (c <=? 32) || (c =? 133) || (c =? 160)
   || (c =? 5760) || (8192 <=? c) && (c <=? 8202) || (c =? 8232) || (c =? 8233)
   || (c =? 8239) || (c =? 8287) || (c =? 12288))%N.

(** The line boundaries of [str.splitlines], the two-character [\r\n] apart. *)
Definition is_linebreak (c : N) : bool :=
  ((10 <=? c) && (c <=? 13) || (28 <=? c) && (c <=? 30) || (c =? 133)
   || (c =? 8232) || (c =? 8233))%N.

Definition newline : N := 10%N.

(** ** Stripping *)

Fixpoint lstrip (s : pystr) : pystr :=
  match s with
  | [] => []
  | c :: s' => if isspace c then lstrip s' else s
  end.

Definition rstrip (s : pystr) : pystr := reverse (lstrip (reverse s)).

Definition strip (s : pystr) : pystr := rstrip (lstrip s).

(** Truth value of [s.strip()]: some character is not white space. *)
Definition has_text (s : pystr) : bool := existsb (fun c => negb (isspace c)) s.

(** ** Splitting *)

(** The longest prefix of characters satisfying [p], and the rest. *)
Fixpoint span (p : N -> bool) (s : pystr) : pystr * pystr :=
  match s with
  | [] => ([], [])
  | c :: s' => if p c then let '(a, b) := span p s' in (c :: a, b) else ([], s)
  end.

(** [str.split()]: maximal runs of non-space characters.  [cur] is the run being
    read, reversed. *)
Fixpoint split_words (cur : pystr) (s : pystr) : list pystr :=
  match s with
  | [] => match cur with [] => [] | _ => [reverse cur] end
  | c :: s' =>
      if isspace c
      then match cur with [] => split_words [] s' | _ => reverse cur :: split_words [] s' end
      else split_words (c :: cur) s'
  end.

Definition split (s : pystr) : list pystr := split_words [] s.

(** [str.split(c)] for a one-character separator. *)
Fixpoint split_on (sep : N) (cur : pystr) (s : pystr) : list pystr :=
  match s with
  | [] => [reverse cur]
  | c :: s' => if (c =? sep)%N then reverse cur :: split_on sep [] s' else split_on sep (c :: cur) s'
  end.

(** [str.splitlines()]: no final empty line, [\r\n] counts once. *)
Fixpoint splitlines_from (cur : pystr) (s : pystr) : list pystr :=
  match s with
  | [] => match cur with [] => [] | _ => [reverse cur] end
  | c :: s' =>
      if (c =? 13)%N
      then match s' with
           | d :: s'' => if (d =? 10)%N then reverse cur :: splitlines_from [] s''
                         else reverse cur :: splitlines_from [] s'
           | [] => [reverse cur]
           end
      else if is_linebreak c then reverse cur :: splitlines_from [] s'
      else splitlines_from (c :: cur) s'
  end.

Definition splitlines (s : pystr) : list pystr := splitlines_from [] s.

(** [str.partition(sep)] for a one-character separator. *)
Definition partition (sep : N) (s : pystr) : pystr * pystr * pystr :=
  let '(a, b) := span (fun c => negb (c =? sep)%N) s in
  match b with
  | [] => (a, [], [])
  | c :: b' => (a, [c], b')
  end.

(** [sep.join(parts)]. *)
Fixpoint join (sep : pystr) (parts : list pystr) : pystr :=
  match parts with
  | [] => []
  | [p] => p
  | p :: ps => p ++ sep ++ join sep ps
  end.

(** ** Searching *)

Fixpoint startswith (p s : pystr) : bool :=
  match p, s with
  | [], _ => true
  | c :: p', d :: s' => (c =? d)%N && startswith p' s'
  | _ :: _, [] => false
  end.

(** [p in s]. *)
Fixpoint contains (p s : pystr) : bool :=
  startswith p s || match s with [] => false | _ :: s' => contains p s' end.

(** The two sides of the first occurrence of [p], as [s.split(p, maxsplit=1)]
    returns them when [p in s]. *)
Fixpoint split_first (p s : pystr) : option (pystr * pystr) :=
  if startswith p s then Some ([], drop (length p) s)
  else match s with
       | [] => None
       | c :: s' => match split_first p s' with
                    | Some (a, b) => Some (c :: a, b)
                    | None => None
                    end
       end.

(** ** Conversions *)

Definition str_int (z : Z) : pystr := u (NilEmpty.string_of_int (Z.to_int z)).

(** [str.lower]: ASCII letters here, the rest of the Unicode table is given. *)
Class UnicodeLower := { lower_other : N -> pystr }.

Definition lower_char `{UnicodeLower} (c : N) : pystr :=
  if ((65 <=? c) && (c <=? 90))%N then [(c + 32)%N] else if (c <? 128)%N then [c] else lower_other c.

Definition lower `{UnicodeLower} (s : pystr) : pystr := s ≫= lower_char.

(** ** Lemmas *)

Lemma u_inj s t : u s = u t -> s = t.
Proof.
  revert t. induction s as [|c s IH]; intros [|d t]; simpl; intros H; try done.
  injection H as Hc Hs. f_equal; [|auto].
  by rewrite <- (Ascii.ascii_N_embedding c), <- (Ascii.ascii_N_embedding d), Hc.
Qed.

Lemma has_text_cons c s : has_text (c :: s) = negb (isspace c) || has_text s.
Proof. done. Qed.

Lemma has_text_app s t : has_text (s ++ t) = has_text s || has_text t.
Proof. unfold has_text. apply existsb_app. Qed.

Lemma has_text_reverse s : has_text (reverse s) = has_text s.
Proof.
  induction s as [|c s IH]; [done|].
  rewrite reverse_cons, has_text_app, IH, has_text_cons. simpl.
  rewrite orb_false_r. apply orb_comm.
Qed.

Lemma lstrip_has_text s : has_text (lstrip s) = has_text s.
Proof. induction s as [|c s IH]; simpl; [done|]. destruct (isspace c) eqn:E; simpl; rewrite ?E; auto. Qed.

Lemma lstrip_split s : exists a, s = a ++ lstrip s /\ has_text a = false.
Proof.
  induction s as [|c s (a & Ha & Ht)]; simpl; [by exists []|].
  destruct (isspace c) eqn:E; [|by exists []].
  exists (c :: a). simpl. rewrite E. split; [by f_equal|done].
Qed.

Lemma lstrip_suffix s : lstrip s `suffix_of` s.
Proof.
  induction s as [|c s IH]; simpl; [done|].
  destruct (isspace c); [by apply suffix_cons_r|done].
Qed.

Lemma lstrip_length s : length (lstrip s) <= length s.
Proof. apply suffix_length, lstrip_suffix. Qed.

Lemma lstrip_nil s : lstrip s = [] <-> has_text s = false.
Proof.
  induction s as [|c s IH]; simpl; [done|].
  destruct (isspace c); simpl; [done|]. split; done.
Qed.

Lemma rstrip_nil s : rstrip s = [] <-> has_text s = false.
Proof.
  unfold rstrip. rewrite <- (has_text_reverse s), <- lstrip_nil. split; intros H.
  - rewrite <- (reverse_involutive (lstrip _)), H. done.
  - by rewrite H.
Qed.

(** [if s.strip()] tests that [s] has a visible character. *)
Lemma strip_nil s : strip s = [] <-> has_text s = false.
Proof. unfold strip. by rewrite rstrip_nil, lstrip_has_text. Qed.

Lemma rstrip_has_text s : has_text (rstrip s) = has_text s.
Proof. unfold rstrip. by rewrite has_text_reverse, lstrip_has_text, has_text_reverse. Qed.

Lemma strip_has_text s : has_text (strip s) = has_text s.
Proof. unfold strip. by rewrite rstrip_has_text, lstrip_has_text. Qed.

Lemma rstrip_length s : length (rstrip s) <= length s.
Proof.
  unfold rstrip. rewrite length_reverse. pose proof (lstrip_length (reverse s)).
  by rewrite length_reverse in *.
Qed.

Lemma strip_length s : length (strip s) <= length s.
Proof. unfold strip. pose proof (rstrip_length (lstrip s)). pose proof (lstrip_length s). lia. Qed.

(** Stripping removes a white prefix and a white suffix and nothing else. *)
Lemma strip_infix s : exists a b, s = a ++ strip s ++ b /\ has_text a = false /\ has_text b = false.
Proof.
  destruct (lstrip_split s) as (a & Ha & Hta).
  destruct (lstrip_split (reverse (lstrip s))) as (b & Hb & Htb).
  exists a, (reverse b). rewrite has_text_reverse. split; [|done].
  unfold strip, rstrip. rewrite <- reverse_app, <- Hb, reverse_involutive. done.
Qed.

Lemma lstrip_lead c s : isspace c = false -> lstrip (c :: s) = c :: s.
Proof. simpl. by intros ->. Qed.

Lemma lstrip_idemp s : lstrip (lstrip s) = lstrip s.
Proof. induction s as [|c s IH]; simpl; [done|]. destruct (isspace c) eqn:E; [done|]. simpl. by rewrite E. Qed.

Lemma span_app p s : let '(a, b) := span p s in s = a ++ b.
Proof.
  induction s as [|c s IH]; simpl; [done|]. destruct (p c); [|done].
  destruct (span p s). simpl. congruence.
Qed.

Lemma split_first_app p s a b : split_first p s = Some (a, b) -> s = a ++ p ++ b.
Proof.
  revert a b. induction s as [|c s IH]; intros a b; simpl.
  - destruct p; simpl; intros; by simplify_eq.
  - destruct (startswith p (c :: s)) eqn:E.
    + intros [= <- <-]. simpl. clear IH. revert E. generalize (c :: s). clear.
      induction p as [|d p IH]; intros s; simpl; [done|].
      destruct s as [|e s]; [done|]. intros [H1%N.eqb_eq H2]%andb_prop.
      subst. simpl. f_equal. by apply IH.
    + destruct (split_first p s) as [[a' b']|]; [|done]. intros [= <- <-].
      simpl. f_equal. by apply IH.
Qed.

Lemma contains_split_first p s : contains p s = is_some (split_first p s).
Proof.
  induction s as [|c s IH].
  - simpl. destruct (startswith p []) eqn:E; rewrite ?E; done.
  - cbn [contains split_first]. destruct (startswith p (c :: s)); [done|]. simpl.
    rewrite IH. by destruct (split_first p s) as [[]|].
Qed.

#[export] Hint Rewrite has_text_app has_text_reverse lstrip_has_text rstrip_has_text strip_has_text : py.

#[global] Arguments u : simpl never.
#[global] Arguments str_int : simpl never.
