(* ===== verification/Uuid.v ===== *)
(** * UUIDs

    [uuid.UUID] of the Python standard library: a 128-bit integer with its
    canonical text form.  [str] and [hex] print it, [UUID_of_str] is the
    constructor [UUID(text)] on hyphenated or plain hexadecimal text, and the
    round trip between them is proved.  [uuid5] is a parameter where it is used:
    no property depends on the hash it computes. *)
From S2P Require Import Prelude PyStr.
Local Open Scope N_scope.

Definition uuid_bound : N := 2 ^ 128.

Record UUID := mkUUID { uuid_int : N; uuid_lt : (uuid_int <? uuid_bound) = true }.

Definition UUID_of_N (n : N) : option UUID :=
  match (n <? uuid_bound) as b return (n <? uuid_bound) = b -> option UUID with
  | true => fun H => Some (mkUUID n H)
  | false => fun _ => None
  end eq_refl.

(** ** Hexadecimal text *)

Definition hexdigit (d : N) : N := if d <? 10 then 48 + d else 87 + d.

Definition unhexdigit (c : N) : option N :=
  if (48 <=? c) && (c <=? 57) then Some (c - 48)
  else if (97 <=? c) && (c <=? 102) then Some (c - 87)
  else if (65 <=? c) && (c <=? 70) then Some (c - 55)
  else None.

(** [n] digits of [v], most significant first. *)
Fixpoint to_hex (n : nat) (v : N) : pystr :=
  match n with
  | O => []
  | S n' => to_hex n' (v / 16) ++ [hexdigit (v mod 16)]
  end.

Fixpoint of_hex (acc : N) (s : pystr) : option N :=
  match s with
  | [] => Some acc
  | c :: s' => match unhexdigit c with
               | Some d => of_hex (16 * acc + d) s'
               | None => None
               end
  end.

Definition hyphen : N := 45.

(** [UUID.hex] *)
Definition uuid_hex (i : UUID) : pystr := to_hex 32 (uuid_int i).

(** [str(uuid)]: groups of 8, 4, 4, 4 and 12 digits. *)
Definition str_uuid (i : UUID) : pystr :=
  let h := uuid_hex i in
  take 8 h ++ [hyphen] ++ take 4 (drop 8 h) ++ [hyphen] ++ take 4 (drop 12 h)
    ++ [hyphen] ++ take 4 (drop 16 h) ++ [hyphen] ++ drop 20 h.

(** [UUID(text)]: hyphens are removed and 32 hexadecimal digits must be left;
    [None] stands for the [ValueError]. *)
Definition UUID_of_str (s : pystr) : option UUID :=
  let h := filter (fun c => c <> hyphen) s in
  if bool_decide (length h = 32%nat)
  then match of_hex 0 h with Some n => UUID_of_N n | None => None end
  else None.

(** ** Instances *)

Lemma uuid_eq i j : uuid_int i = uuid_int j -> i = j.
Proof.
  destruct i as [m Hm], j as [n Hn]. simpl. intros <-. f_equal.
  apply proof_irrel.
Qed.

#[export] Instance UUID_eq_dec : EqDecision UUID.
Proof.
  intros i j. destruct (decide (uuid_int i = uuid_int j)) as [E|E].
  - left. by apply uuid_eq.
  - right. congruence.
Defined.

Lemma UUID_of_N_int i : UUID_of_N (uuid_int i) = Some i.
Proof.
  destruct i as [n Hn]. unfold UUID_of_N. simpl.
  generalize (eq_refl (n <? uuid_bound)).
  generalize (n <? uuid_bound) at 2 3. intros [] H; [|congruence].
  f_equal. by apply uuid_eq.
Qed.

#[export] Instance UUID_countable : Countable UUID.
Proof. exact (inj_countable uuid_int UUID_of_N UUID_of_N_int). Defined.

(** ** Lemmas *)

Lemma to_hex_length n v : length (to_hex n v) = n.
Proof. revert v. induction n as [|n IH]; intros v; simpl; [done|]. rewrite length_app, IH. simpl. lia. Qed.

Lemma unhexdigit_hexdigit d : d < 16 -> unhexdigit (hexdigit d) = Some d.
Proof.
  intros H. unfold hexdigit, unhexdigit. destruct (N.ltb_spec d 10).
  - replace (48 <=? 48 + d) with true by (symmetry; apply N.leb_le; lia).
    replace (48 + d <=? 57) with true by (symmetry; apply N.leb_le; lia).
    simpl. f_equal. lia.
  - replace (87 + d <=? 57) with false by (symmetry; apply N.leb_gt; lia).
    replace (97 <=? 87 + d) with true by (symmetry; apply N.leb_le; lia).
    replace (87 + d <=? 102) with true by (symmetry; apply N.leb_le; lia).
    rewrite andb_false_r. simpl. f_equal. lia.
Qed.

Lemma hexdigit_not_hyphen d : d < 16 -> hexdigit d <> hyphen.
Proof. unfold hexdigit, hyphen. destruct (N.ltb_spec d 10); lia. Qed.

Lemma of_hex_app acc s t :
  of_hex acc (s ++ t) = match of_hex acc s with Some a => of_hex a t | None => None end.
Proof. revert acc. induction s as [|c s IH]; intros acc; simpl; [done|]. by destruct (unhexdigit c). Qed.

Lemma of_hex_to_hex n v acc :
  v < 16 ^ N.of_nat n -> of_hex acc (to_hex n v) = Some (16 ^ N.of_nat n * acc + v).
Proof.
  revert v acc. induction n as [|n IH]; intros v acc Hv.
  - simpl in *. f_equal. lia.
  - cbn [to_hex]. rewrite Nat2N.inj_succ, N.pow_succ_r' in *. rewrite of_hex_app.
    rewrite IH by (apply N.Div0.div_lt_upper_bound; lia).
    cbn [of_hex]. rewrite unhexdigit_hexdigit by (apply N.mod_lt; lia).
    f_equal. pose proof (N.div_mod v 16 ltac:(lia)). nia.
Qed.

Lemma to_hex_no_hyphen n v : Forall (fun c => c <> hyphen) (to_hex n v).
Proof.
  revert v. induction n as [|n IH]; intros v; cbn [to_hex]; [constructor|].
  apply Forall_app. split; [apply IH|]. constructor; [|constructor].
  apply hexdigit_not_hyphen, N.mod_lt. lia.
Qed.

Lemma filter_id {A} (P : A -> Prop) `{!forall x, Decision (P x)} (l : list A) :
  Forall P l -> filter P l = l.
Proof. induction 1; [done|]. rewrite filter_cons_True by done. by f_equal. Qed.

Lemma take_drop_glue {A} (n m k : nat) (l : list A) :
  k = (m + n)%nat -> take n (drop m l) ++ drop k l = drop m l.
Proof. intros ->. rewrite <- drop_drop. apply take_drop. Qed.

(** Removing the hyphens of the printed form gives the 32 digits. *)
Lemma filter_str_uuid i : filter (fun c => c <> hyphen) (str_uuid i) = uuid_hex i.
Proof.
  unfold str_uuid. set (h := uuid_hex i).
  assert (Hh : Forall (fun c => c <> hyphen) h) by apply to_hex_no_hyphen.
  rewrite !filter_app, !(filter_cons_False _ _ _), !filter_nil by (intros E; exact (E eq_refl)).
  rewrite !filter_id by (try apply Forall_take; try apply Forall_drop; done).
  rewrite !app_nil_l, (take_drop_glue 4 16 20), (take_drop_glue 4 12 16), (take_drop_glue 4 8 12) by done.
  apply take_drop.
Qed.

Lemma uuid_hex_length i : length (uuid_hex i) = 32%nat.
Proof. apply to_hex_length. Qed.

Lemma str_uuid_length i : length (str_uuid i) = 36%nat.
Proof.
  unfold str_uuid. pose proof (uuid_hex_length i).
  rewrite !length_app, !length_take, !length_drop. simpl. lia.
Qed.

Lemma UUID_of_str_str i : UUID_of_str (str_uuid i) = Some i.
Proof.
  unfold UUID_of_str. rewrite filter_str_uuid, uuid_hex_length.
  rewrite bool_decide_true by done. unfold uuid_hex.
  rewrite of_hex_to_hex.
  - rewrite N.mul_0_r, N.add_0_l. apply UUID_of_N_int.
  - pose proof (uuid_lt i) as H. apply N.ltb_lt in H. exact H.
Qed.

Lemma str_uuid_inj i j : str_uuid i = str_uuid j -> i = j.
Proof. intros H. apply (f_equal UUID_of_str) in H. rewrite !UUID_of_str_str in H. congruence. Qed.

#[export] Instance str_uuid_Inj : Inj (=) (=) str_uuid.
Proof. intros i j. apply str_uuid_inj. Qed.

#[global] Arguments str_uuid : simpl never.
#[global] Arguments uuid_hex : simpl never.
#[global] Arguments UUID_of_str : simpl never.
#[global] Arguments UUID_of_N : simpl never.
