(* ===== verification/Effects.v ===== *)
(** * Effects: exceptions, atomic steps and interleaving

    The asynchronous methods of the program are modelled as resumptions: a
    [prog S A] is a sequence of atomic sections over a shared state [S], each of
    which returns a value or raises a Python exception, followed by a final
    value or exception.  An atomic section stands for what the code does between
    two suspension points: a body under [asyncio.Lock], a database transaction,
    one call of an external client.  [run] executes a program alone; [pool_step]
    interleaves any number of them.  [wp] is a rely/guarantee logic for programs
    run under interference, and [pool_safe] is its soundness. *)
From S2P Require Import Prelude PyStr.

(** ** Exceptions *)

(** The exception classes the program raises or catches, with their message. *)
Inductive exn : Type :=
  | ActionNotFoundError (msg : pystr)
  | ActionTransitionConflictError (msg : pystr)
  | AuthorizationDeniedError (msg : pystr)
  | ActionStateError (msg : pystr)
  | IdempotencyConflictError (msg : pystr)
  | CaseNotFoundError (msg : pystr)
  | ReviewNotFoundError (msg : pystr)
  | ReviewExecutionNotFoundError (msg : pystr)
  | ReviewExecutionStateError (msg : pystr)
  | OutboxMessageNotFoundError (msg : pystr)
  | OutboxLeaseLostError (msg : pystr)
  | AuthenticationError (msg : pystr)
  | ValueError (msg : pystr)
  | RuntimeError (msg : pystr)
  | ValidationError (msg : pystr)
  | IntegrityError (msg : pystr)
  | ClientError (code : option pystr)
  | HTTPException (status_code : Z) (detail : pystr)
  | OtherError (type_name : pystr) (msg : pystr).

(** [type(exc).__name__]. *)
Definition exn_name (e : exn) : pystr :=
  match e with
  | ActionNotFoundError _ => u "ActionNotFoundError"
  | ActionTransitionConflictError _ => u "ActionTransitionConflictError"
  | AuthorizationDeniedError _ => u "AuthorizationDeniedError"
  | ActionStateError _ => u "ActionStateError"
  | IdempotencyConflictError _ => u "IdempotencyConflictError"
  | CaseNotFoundError _ => u "CaseNotFoundError"
  | ReviewNotFoundError _ => u "ReviewNotFoundError"
  | ReviewExecutionNotFoundError _ => u "ReviewExecutionNotFoundError"
  | ReviewExecutionStateError _ => u "ReviewExecutionStateError"
  | OutboxMessageNotFoundError _ => u "OutboxMessageNotFoundError"
  | OutboxLeaseLostError _ => u "OutboxLeaseLostError"
  | AuthenticationError _ => u "AuthenticationError"
  | ValueError _ => u "ValueError"
  | RuntimeError _ => u "RuntimeError"
  | ValidationError _ => u "ValidationError"
  | IntegrityError _ => u "IntegrityError"
  | ClientError _ => u "ClientError"
  | HTTPException _ _ => u "HTTPException"
  | OtherError n _ => n
  end.

(** ** Results *)

Inductive result (A : Type) : Type :=
  | Ok (a : A)
  | Raise (e : exn).
Arguments Ok {A} a.
Arguments Raise {A} e.

#[export] Instance result_ret : MRet result := @Ok.
#[export] Instance result_bind : MBind result := fun A B f r =>
  match r with Ok a => f a | Raise e => Raise e end.
#[export] Instance result_fmap : FMap result := fun A B f r =>
  match r with Ok a => Ok (f a) | Raise e => Raise e end.

Definition of_option {A} (e : exn) (o : option A) : result A :=
  match o with Some a => Ok a | None => Raise e end.

Definition to_option {A} (r : result A) : option A :=
  match r with Ok a => Some a | Raise _ => None end.

Lemma to_option_Some {A} (r : result A) a : to_option r = Some a <-> r = Ok a.
Proof. destruct r; simpl; split; congruence. Qed.

(** A list comprehension whose element expression may raise. *)
Fixpoint mapR {A B} (f : A -> result B) (l : list A) : result (list B) :=
  match l with
  | [] => Ok []
  | x :: xs => y ← f x; ys ← mapR f xs; Ok (y :: ys)
  end.

Lemma mapR_fmap_ok {A B C} (f : A -> result B) (g : C -> A) (h : C -> B) (l : list C) :
  (forall c, c ∈ l -> f (g c) = Ok (h c)) -> mapR f (g <$> l) = Ok (h <$> l).
Proof.
  induction l as [|c l IH]; intros H; [done|]. csimpl.
  rewrite H by (by left). simpl. rewrite IH; [done|]. intros d Hd. apply H. by right.
Qed.

(** ** Programs *)

Inductive prog (S A : Type) : Type :=
  | Ret (a : A)
  | Throw (e : exn)
  | Step (X : Type) (f : S -> result X * S) (k : result X -> prog S A).
Arguments Ret {S A} a.
Arguments Throw {S A} e.
Arguments Step {S A X} f k.

Fixpoint prog_bind_def {S A B} (m : prog S A) (f : A -> prog S B) : prog S B :=
  match m with
  | Ret a => f a
  | Throw e => Throw e
  | Step g k => Step g (fun r => prog_bind_def (k r) f)
  end.

#[export] Instance prog_ret {S} : MRet (prog S) := fun A => @Ret S A.
#[export] Instance prog_bind {S} : MBind (prog S) := fun A B f m => prog_bind_def m f.

#[export] Instance prog_fmap {S} : FMap (prog S) := fun A B f m => m ≫= fun a => Ret (f a).

(** [try: m except ...: h]; a handler that does not catch [e] rethrows it. *)
Fixpoint catch {S A} (m : prog S A) (h : exn -> prog S A) : prog S A :=
  match m with
  | Ret a => Ret a
  | Throw e => h e
  | Step g k => Step g (fun r => catch (k r) h)
  end.

Definition of_result {S A} (r : result A) : prog S A :=
  match r with Ok a => Ret a | Raise e => Throw e end.

(** One atomic section. *)
Definition atomic {S A} (f : S -> result A * S) : prog S A := Step f of_result.

(** An atomic section that only reads. *)
Definition reads {S A} (f : S -> result A) : prog S A := atomic (fun s => (f s, s)).

(** [if c: raise e]. *)
Definition raise_if {S} (c : bool) (e : exn) : prog S unit := if c then Throw e else Ret tt.

(** A program that runs alone. *)
Fixpoint run {S A} (m : prog S A) (s : S) : result A * S :=
  match m with
  | Ret a => (Ok a, s)
  | Throw e => (Raise e, s)
  | Step f k => let '(r, s') := f s in run (k r) s'
  end.

(** A program over a part of a larger state. *)
Fixpoint zoom {S T A} (get : S -> T) (put : T -> S -> S) (m : prog T A) : prog S A :=
  match m with
  | Ret a => Ret a
  | Throw e => Throw e
  | Step f k => Step (fun s => let '(r, t) := f (get s) in (r, put t s))
                     (fun r => zoom get put (k r))
  end.

Notation "'try' m 'except' h" := (catch m h)
  (at level 10, m at level 100, h at level 200) : py_scope.

(** ** Running *)

Section run_lemmas.
Context {S : Type}.

Lemma run_bind {A B} (m : prog S A) (f : A -> prog S B) s :
  run (m ≫= f) s = match run m s with
                   | (Ok a, s') => run (f a) s'
                   | (Raise e, s') => (Raise e, s')
                   end.
Proof.
  revert s. induction m as [a|e|X g k IH]; intros s; [done|done|].
  simpl. destruct (g s) as [r s']. apply IH.
Qed.

Lemma run_catch {A} (m : prog S A) h s :
  run (catch m h) s = match run m s with
                      | (Ok a, s') => (Ok a, s')
                      | (Raise e, s') => run (h e) s'
                      end.
Proof.
  revert s. induction m as [a|e|X g k IH]; intros s; [done|done|].
  simpl. destruct (g s) as [r s']. apply IH.
Qed.

Lemma run_of_result {A} (r : result A) (s : S) : run (of_result r) s = (r, s).
Proof. by destruct r. Qed.

Lemma run_atomic {A} (f : S -> result A * S) s : run (atomic f) s = f s.
Proof. unfold atomic. simpl. destruct (f s). apply run_of_result. Qed.

Lemma run_reads {A} (f : S -> result A) s : run (reads f) s = (f s, s).
Proof. unfold reads. by rewrite run_atomic. Qed.

Lemma run_raise_if c e (s : S) : run (raise_if c e) s = (if c then Raise e else Ok tt, s).
Proof. by destruct c. Qed.

Lemma run_zoom {T A} get put (m : prog T A) (s : S) :
  (forall t s, get (put t s) = t) -> (forall s, put (get s) s = s) ->
  (forall t t' s, put t (put t' s) = put t s) ->
  run (zoom get put m) s = let '(r, t) := run m (get s) in (r, put t s).
Proof.
  intros Hgp Hpg Hpp. revert s. induction m as [a|e|X g k IH]; intros s; simpl.
  - by rewrite Hpg.
  - by rewrite Hpg.
  - destruct (g (get s)) as [r t]. rewrite IH, Hgp. destruct (run (k r) t). by rewrite Hpp.
Qed.
End run_lemmas.

#[export] Hint Rewrite @run_bind @run_catch @run_of_result @run_atomic @run_reads @run_raise_if : py.

(** Executes the program of the goal as far as its branches are decided. *)
Ltac py_run := repeat (autorewrite with py; simpl).

(** ** Rely/guarantee *)

Section rely_guarantee.
Context {S : Type}.

(** [wp Inv R G m Q s]: from a state reached from [s], under interference [R]
    that keeps [Inv], every atomic section of [m] keeps [Inv] and makes a change
    in [G], and [m] ends with an outcome and a state in [Q]. *)
Fixpoint wp (Inv : S -> Prop) (R G : S -> S -> Prop) {A} (m : prog S A)
    (Q : result A -> S -> Prop) (s : S) : Prop :=
  match m with
  | Ret a => Q (Ok a) s
  | Throw e => Q (Raise e) s
  | Step f k => forall s', R s s' -> Inv s' ->
      let '(r, s'') := f s' in
      Inv s'' /\ G s' s'' /\ wp Inv R G (k r) Q s''
  end.

(** Threads under interleaving: one thread performs its next atomic section. *)
Inductive pool_step {A} : list (prog S A) * S -> list (prog S A) * S -> Prop :=
  | pool_step_intro ts1 X (f : S -> result X * S) k ts2 s r s' :
      f s = (r, s') ->
      pool_step (ts1 ++ Step f k :: ts2, s) (ts1 ++ k r :: ts2, s').

(** A schedule, as the indices of the threads that move; a finished thread stutters. *)
Fixpoint run_schedule {A} (sched : list nat) (ts : list (prog S A)) (s : S) : list (prog S A) * S :=
  match sched with
  | [] => (ts, s)
  | i :: sched' =>
      match ts !! i with
      | Some (Step f k) => let '(r, s') := f s in run_schedule sched' (<[i := k r]> ts) s'
      | _ => run_schedule sched' ts s
      end
  end.
End rely_guarantee.

Section wp_rules.
Context {S : Type} (Inv : S -> Prop) (R G : S -> S -> Prop).
#[local] Abbreviation wp := (wp Inv R G).

Lemma wp_mono {A} (m : prog S A) (Q Q' : result A -> S -> Prop) s :
  (forall r s', Q r s' -> Q' r s') -> wp m Q s -> wp m Q' s.
Proof.
  intros HQ. revert s. induction m as [a|e|X f k IH]; intros s; simpl; [auto|auto|].
  intros H s' Hs' HI. specialize (H s' Hs' HI). destruct (f s') as [r s''].
  destruct H as (? & ? & ?). eauto.
Qed.

Lemma wp_bind {A B} (m : prog S A) (f : A -> prog S B) Q s :
  wp m (fun r s' => match r with Ok a => wp (f a) Q s' | Raise e => Q (Raise e) s' end) s ->
  wp (m ≫= f) Q s.
Proof.
  revert s. induction m as [a|e|X g k IH]; intros s; [done|done|]. simpl.
  intros H s' Hs' HI. specialize (H s' Hs' HI). destruct (g s') as [r s''].
  destruct H as (? & ? & ?). split; [done|]. split; [done|]. by apply IH.
Qed.

Lemma wp_catch {A} (m : prog S A) h Q s :
  wp m (fun r s' => match r with Ok a => Q (Ok a) s' | Raise e => wp (h e) Q s' end) s ->
  wp (catch m h) Q s.
Proof.
  revert s. induction m as [a|e|X g k IH]; intros s; [done|done|]. simpl.
  intros H s' Hs' HI. specialize (H s' Hs' HI). destruct (g s') as [r s''].
  destruct H as (? & ? & ?). split; [done|]. split; [done|]. by apply IH.
Qed.

Lemma wp_of_result {A} (r : result A) Q s : Q r s -> wp (of_result r) Q s.
Proof. by destruct r. Qed.

Lemma wp_atomic {A} (f : S -> result A * S) Q s :
  (forall s', R s s' -> Inv s' ->
     Inv (f s').2 /\ G s' (f s').2 /\ Q (f s').1 (f s').2) ->
  wp (atomic f) Q s.
Proof.
  intros H s' Hs' HI. specialize (H s' Hs' HI). destruct (f s') as [r s'']. simpl in *.
  destruct H as (? & ? & ?). split; [done|]. split; [done|]. by apply wp_of_result.
Qed.

Lemma wp_raise_if c e Q s :
  (c = true -> Q (Raise e) s) -> (c = false -> Q (Ok tt) s) -> wp (raise_if c e) Q s.
Proof. destruct c; simpl; auto. Qed.

(** Interference before the first atomic section is absorbed. *)
Lemma wp_stable {A} (m : prog S A) Q s s' :
  Transitive R -> (forall r t t', Q r t -> R t t' -> Q r t') ->
  R s s' -> wp m Q s -> wp m Q s'.
Proof.
  intros HT HQ HR. destruct m as [a|e|X f k]; simpl; [by eauto|by eauto|].
  intros H t Ht. apply H. by etransitivity.
Qed.

(** Soundness: verified threads may be interleaved in any way; [Qs] lists the
    postcondition of each thread. *)
Lemma pool_safe {A} `{!PreOrder R} (Qs : list (result A -> S -> Prop)) (c c' : list (prog S A) * S) :
  (forall t t', G t t' -> R t t') ->
  Forall (fun Q => forall r t t', Q r t -> R t t' -> Q r t') Qs ->
  rtc pool_step c c' -> Inv c.2 -> Forall2 (fun Q m => wp m Q c.2) Qs c.1 ->
  Inv c'.2 /\ R c.2 c'.2 /\ Forall2 (fun Q m => wp m Q c'.2) Qs c'.1.
Proof.
  intros HGR HQ Hsteps. induction Hsteps as [c|c1 c2 c3 Hstep _ IH]; intros HI HF; [done|].
  destruct Hstep as [ts1 X f k ts2 s r s' Hf]. simpl in *.
  apply Forall2_app_inv_r in HF as (Qs1 & Qs2' & HF1 & HF2 & ->).
  apply Forall2_cons_inv_r in HF2 as (Q & Qs2 & Hm & HF2 & ->).
  apply Forall_app in HQ as [HQ1 HQ2]. apply Forall_cons in HQ2 as [HQ HQ2].
  specialize (Hm s ltac:(reflexivity) HI). rewrite Hf in Hm. destruct Hm as (HI' & HG & Hm).
  assert (R s s') as HR by auto.
  assert (Hstable : forall Qs ts, Forall (fun Q => forall r t t', Q r t -> R t t' -> Q r t') Qs ->
    Forall2 (fun Q m => wp m Q s) Qs ts -> Forall2 (fun (Q : result A -> S -> Prop) m => wp m Q s') Qs ts).
  { intros Qs ts HQs. induction 1 as [|Q' m Qs ts Hm' _ IHF]; constructor;
      apply Forall_cons in HQs as [HQ' HQs]; [|by apply IHF].
    eapply wp_stable; [apply _|exact HQ'|exact HR|exact Hm']. }
  destruct IH as (HI3 & HR3 & HF3); [done| |].
  - apply Forall2_app; [by apply Hstable|]. constructor; [done|by apply Hstable].
  - split; [done|]. split; [by etransitivity|done].
Qed.
End wp_rules.

(** Two guarantees of one program hold together. *)
Section wp_both.
Context {S : Type} (Inv1 Inv2 : S -> Prop) (R1 R2 G1 G2 : S -> S -> Prop).

Definition both_inv (s : S) : Prop := Inv1 s /\ Inv2 s.
Definition both_rel (R R' : S -> S -> Prop) (s s' : S) : Prop := R s s' /\ R' s s'.

#[export] Instance both_preorder `{!PreOrder R1, !PreOrder R2} : PreOrder (both_rel R1 R2).
Proof. split; [by split|]. intros s1 s2 s3 [? ?] [? ?]. split; by etransitivity. Qed.

Lemma wp_both {A} (m : prog S A) (Q1 Q2 : result A -> S -> Prop) s :
  wp Inv1 R1 G1 m Q1 s -> wp Inv2 R2 G2 m Q2 s ->
  wp both_inv (both_rel R1 R2) (both_rel G1 G2) m (fun r s' => Q1 r s' /\ Q2 r s') s.
Proof.
  revert s. induction m as [a|e|X f k IH]; intros s; [done|done|]. simpl.
  intros H1 H2 s' [Hs1 Hs2] [HI1 HI2]. specialize (H1 s' Hs1 HI1). specialize (H2 s' Hs2 HI2).
  destruct (f s') as [r s'']. destruct H1 as (? & ? & ?), H2 as (? & ? & ?).
  split; [by split|]. split; [by split|]. by apply IH.
Qed.
End wp_both.

(** ** Programs over a part of the state *)

Section wp_zoom.
Context {S T : Type} (get : S -> T) (put : T -> S -> S).
Context (Inv : S -> Prop) (R G : S -> S -> Prop).

Lemma wp_zoom_atomic {A} (f : T -> result A * T) Q s :
  (forall s', R s s' -> Inv s' ->
     let s'' := put (f (get s')).2 s' in
     Inv s'' /\ G s' s'' /\ Q (f (get s')).1 s'') ->
  wp Inv R G (zoom get put (atomic f)) Q s.
Proof.
  intros H s' Hs' HI. specialize (H s' Hs' HI). simpl in *.
  destruct (f (get s')) as [r t]. simpl in *. destruct H as (? & ? & ?).
  split; [done|]. split; [done|]. by destruct r.
Qed.

(** A single atomic section meets a specification stated on [run]. *)
Lemma wp_zoom_run {A} (f : T -> result A * T) Q s :
  (forall s' r s'', R s s' -> Inv s' -> run (zoom get put (atomic f)) s' = (r, s'') ->
     Inv s'' /\ G s' s'' /\ Q r s'') ->
  wp Inv R G (zoom get put (atomic f)) Q s.
Proof.
  intros H. apply wp_zoom_atomic. intros s' Hs' HI.
  apply (H s' (f (get s')).1 _ Hs' HI). simpl. destruct (f (get s')) as [[a|x] t]; done.
Qed.

Lemma wp_zoom_reads {A} (f : T -> result A) Q s :
  (forall s', put (get s') s' = s') -> Reflexive G ->
  (forall s', R s s' -> Inv s' -> Q (f (get s')) s') ->
  wp Inv R G (zoom get put (reads f)) Q s.
Proof. intros Hput HG H. apply wp_zoom_atomic. intros s' Hs' HI. simpl. rewrite Hput. auto. Qed.

Lemma wp_zoom_bind {A B} (m : prog T A) (f : A -> prog T B) Q s :
  wp Inv R G (zoom get put m) (fun r s' => match r with
    | Ok a => wp Inv R G (zoom get put (f a)) Q s'
    | Raise e => Q (Raise e) s' end) s ->
  wp Inv R G (zoom get put (m ≫= f)) Q s.
Proof.
  revert s. induction m as [a|e|X g k IH]; intros s; [done|done|]. simpl.
  intros H s' Hs' HI. specialize (H s' Hs' HI). destruct (g (get s')) as [r t].
  destruct H as (? & ? & ?). split; [done|]. split; [done|]. by apply IH.
Qed.

Lemma wp_zoom_catch {A} (m : prog T A) h Q s :
  wp Inv R G (zoom get put m) (fun r s' => match r with
    | Ok a => Q (Ok a) s'
    | Raise e => wp Inv R G (zoom get put (h e)) Q s' end) s ->
  wp Inv R G (zoom get put (catch m h)) Q s.
Proof.
  revert s. induction m as [a|e|X g k IH]; intros s; [done|done|]. simpl.
  intros H s' Hs' HI. specialize (H s' Hs' HI). destruct (g (get s')) as [r t].
  destruct H as (? & ? & ?). split; [done|]. split; [done|]. by apply IH.
Qed.
End wp_zoom.

(** A deterministic schedule is one of the interleavings. *)
Lemma run_schedule_steps {S A} sched (ts : list (prog S A)) (s : S) :
  rtc pool_step (ts, s) (run_schedule sched ts s).
Proof.
  revert ts s. induction sched as [|i sched IH]; intros ts s; simpl; [done|].
  destruct (ts !! i) as [[a|e|X f k]|] eqn:E; try apply IH.
  destruct (f s) as [r s'] eqn:Ef. eapply rtc_l; [|apply IH].
  pose proof (lookup_lt_Some _ _ _ E) as Hlt.
  rewrite <- (take_drop_middle ts i (Step f k) E) at 1.
  rewrite (insert_take_drop ts i (k r)) by done. by constructor.
Qed.

(** Without interference, [wp] is the outcome of [run]. *)
Lemma wp_run {S A} (m : prog S A) (Q : result A -> S -> Prop) s :
  wp (fun _ => True) (=) (fun _ _ => True) m Q s <-> Q (run m s).1 (run m s).2.
Proof.
  revert s. induction m as [a|e|X f k IH]; intros s; [done|done|]. simpl.
  destruct (f s) as [r s'] eqn:E. rewrite <- IH. split.
  - intros H. specialize (H s eq_refl I). rewrite E in H. by destruct H as (_ & _ & ?).
  - intros H t <- _. by rewrite E.
Qed.
