(* ===== verification/Confinement.v ===== *)
(** * Confinement: programs of several parties on one state

    Every program belongs to a party, and a state looks to each party like some states and
    unlike others ([sees]).  [agree t m1 m2 Q] compares two programs of the party [t] that run
    in lockstep on states that look alike to [t]: each section keeps the invariant and is not
    seen by any other party, the states go on looking alike to [t], and the outcomes are
    related by [Q].  [confined t m] compares a program with itself.  [purge] is the soundness
    of the judgment: whatever the schedule, removing the moves of all other parties changes
    nothing the party can see. *)
From S2P Require Import Prelude PyStr Effects.

Definition outcome {S A} (m : prog S A) : option (result A) :=
  match m with Ret a => Some (Ok a) | Throw e => Some (Raise e) | Step _ _ => None end.

(** What follows an outcome of the first part of a [bind], and of the body of a [try]. *)
Definition next {S A B} (f : A -> prog S B) (r : result A) : prog S B :=
  match r with Ok a => f a | Raise e => Throw e end.
Definition handled {S A} (h : exn -> prog S A) (r : result A) : prog S A :=
  match r with Ok a => Ret a | Raise e => h e end.

Section judgment.
Context {S T : Type} (Inv : S -> Prop) (sees : T -> S -> S -> Prop).
Context `{Hsees : forall t, Equivalence (sees t)}.

(** A change the party [t] makes. *)
Definition hidden (t : T) (s s' : S) : Prop := Inv s' /\ forall t', t' <> t -> sees t' s s'.

Fixpoint agree (t : T) {A} (m1 m2 : prog S A) (Q : result A -> result A -> Prop) : Prop :=
  match m1, m2 with
  | Ret a, Ret b => Q (Ok a) (Ok b)
  | Ret a, Throw e => Q (Ok a) (Raise e)
  | Throw e, Ret b => Q (Raise e) (Ok b)
  | Throw e, Throw e' => Q (Raise e) (Raise e')
  | Step f k, Step g h => forall s1 s2, Inv s1 -> Inv s2 -> sees t s1 s2 ->
      hidden t s1 (f s1).2 /\ hidden t s2 (g s2).2 /\ sees t (f s1).2 (g s2).2 /\
      agree t (k (f s1).1) (h (g s2).1) Q
  | _, _ => False
  end.

(** The two runs of one program end alike, in an outcome in [P]. *)
Definition confined (t : T) {A} (m : prog S A) (P : result A -> Prop) : Prop := agree t m m (fun r1 r2 => r1 = r2 /\ P r1).

(** ** Rules *)

Lemma agree_mono t {A} (m1 m2 : prog S A) (Q Q' : result A -> result A -> Prop) :
  (forall r1 r2, Q r1 r2 -> Q' r1 r2) -> agree t m1 m2 Q -> agree t m1 m2 Q'.
Proof.
  intros HQ. revert m2. induction m1 as [a|e|X f k IH]; intros [b|e'|Y g h]; cbn [agree]; auto.
  intros H s1 s2 H1 H2 Hs. destruct (H s1 s2 H1 H2 Hs) as (? & ? & ? & ?). auto 6.
Qed.

Lemma agree_bind t {A B} (m1 m2 : prog S A) (f1 f2 : A -> prog S B) Q :
  agree t m1 m2 (fun r1 r2 => agree t (next f1 r1) (next f2 r2) Q) -> agree t (m1 ≫= f1) (m2 ≫= f2) Q.
Proof.
  revert m2. induction m1 as [a|e|X f k IH]; intros [b|e'|Y g h]; try done.
  intros H s1 s2 H1 H2 Hs. destruct (H s1 s2 H1 H2 Hs) as (? & ? & ? & ?). split_and!; try done. by apply IH.
Qed.

Lemma agree_catch t {A} (m1 m2 : prog S A) (h1 h2 : exn -> prog S A) Q :
  agree t m1 m2 (fun r1 r2 => agree t (handled h1 r1) (handled h2 r2) Q) -> agree t (catch m1 h1) (catch m2 h2) Q.
Proof.
  revert m2. induction m1 as [a|e|X f k IH]; intros [b|e'|Y g h]; try done.
  intros H s1 s2 H1 H2 Hs. destruct (H s1 s2 H1 H2 Hs) as (? & ? & ? & ?). split_and!; try done. by apply IH.
Qed.

(** Nothing is seen of a section that changes nothing. *)
Lemma hidden_refl t s : Inv s -> hidden t s s.
Proof. intros H. split; [done|]. intros t' _. reflexivity. Qed.

Lemma hidden_trans t s1 s2 s3 : hidden t s1 s2 -> hidden t s2 s3 -> hidden t s1 s3.
Proof. intros [_ H1] [? H2]. split; [done|]. intros t' Ht'. etrans; [by apply H1|by apply H2]. Qed.

(** A program of one section. *)
Definition section {S' A} (m : prog S' A) (f : S' -> result A * S') : Prop :=
  match m with
  | Step g k => forall s, (g s).2 = (f s).2 /\ outcome (k (g s).1) = Some (f s).1
  | _ => False
  end.

Lemma agree_outcomes t {A} (m1 m2 : prog S A) r1 r2 (Q : result A -> result A -> Prop) :
  outcome m1 = Some r1 -> outcome m2 = Some r2 -> Q r1 r2 -> agree t m1 m2 Q.
Proof. by destruct m1, m2; try done; intros [= <-] [= <-]. Qed.

Lemma agree_section t {A} (m : prog S A) f (Q : result A -> result A -> Prop) :
  section m f -> (forall s, Inv s -> hidden t s (f s).2) ->
  (forall s1 s2, Inv s1 -> Inv s2 -> sees t s1 s2 -> sees t (f s1).2 (f s2).2 /\ Q (f s1).1 (f s2).1) ->
  agree t m m Q.
Proof.
  destruct m as [a|e|X g k]; try done. intros Hm Hh Ha s1 s2 H1 H2 Hs.
  destruct (Hm s1) as [-> Ho1], (Hm s2) as [-> Ho2], (Ha s1 s2 H1 H2 Hs) as [? E].
  split_and!; auto. by eapply agree_outcomes.
Qed.

Lemma confined_section t {A} (m : prog S A) f (P : result A -> Prop) :
  section m f ->
  (forall s, Inv s -> hidden t s (f s).2 /\ P (f s).1) ->
  (forall s1 s2, Inv s1 -> Inv s2 -> sees t s1 s2 -> sees t (f s1).2 (f s2).2 /\ (f s1).1 = (f s2).1) ->
  confined t m P.
Proof.
  intros Hm Hh Ha. eapply agree_section; [exact Hm|intros s Hs; by apply Hh|].
  intros s1 s2 H1 H2 Hs. destruct (Ha s1 s2 H1 H2 Hs), (Hh s1 H1). done.
Qed.

(** A section that only reads. *)
Lemma agree_reads t {A} (m : prog S A) (f : S -> result A) (Q : result A -> result A -> Prop) :
  section m (fun s => (f s, s)) -> (forall s1 s2, Inv s1 -> Inv s2 -> sees t s1 s2 -> Q (f s1) (f s2)) -> agree t m m Q.
Proof. intros Hm HQ. eapply agree_section; [exact Hm|intros s Hs; by apply hidden_refl|]. intros s1 s2 H1 H2 Hs. split; [done|by apply HQ]. Qed.

Lemma confined_reads t {A} (m : prog S A) (f : S -> result A) (P : result A -> Prop) :
  section m (fun s => (f s, s)) -> (forall s, Inv s -> P (f s)) ->
  (forall s1 s2, Inv s1 -> Inv s2 -> sees t s1 s2 -> f s1 = f s2) -> confined t m P.
Proof. intros Hm HP Hf. eapply agree_reads; [exact Hm|]. intros s1 s2 H1 H2 Hs. auto. Qed.

(** ** Confined programs *)

Lemma confined_mono t {A} (m : prog S A) (P P' : result A -> Prop) :
  (forall r, P r -> P' r) -> confined t m P -> confined t m P'.
Proof. intros HP. apply agree_mono. intros r1 r2 [? ?]. auto. Qed.

Lemma confined_bind t {A B} (m : prog S A) (f : A -> prog S B) P P' :
  confined t m P -> (forall a, P (Ok a) -> confined t (f a) P') -> (forall e, P (Raise e) -> P' (Raise e)) ->
  confined t (m ≫= f) P'.
Proof.
  intros Hm Hf He. apply agree_bind. eapply agree_mono; [|exact Hm]. intros [a|e] r2 [<- HP]; [by apply Hf|by split; [|apply He]].
Qed.

Lemma confined_catch t {A} (m : prog S A) (h : exn -> prog S A) P P' :
  confined t m P -> (forall a, P (Ok a) -> P' (Ok a)) -> (forall e, P (Raise e) -> confined t (h e) P') ->
  confined t (catch m h) P'.
Proof.
  intros Hm Ha Hh. apply agree_catch. eapply agree_mono; [|exact Hm]. intros [a|e] r2 [<- HP]; [by split; [|apply Ha]|by apply Hh].
Qed.

Lemma confined_ret t {A} (a : A) (P : result A -> Prop) : P (Ok a) -> confined t (Ret a) P.
Proof. by split. Qed.

Lemma confined_throw t {A} e (P : result A -> Prop) : P (Raise e) -> confined t (Throw e) P.
Proof. by split. Qed.

Lemma confined_of_result t {A} (r : result A) (P : result A -> Prop) : P r -> confined t (of_result r) P.
Proof. by destruct r. Qed.

Lemma confined_raise_if t (c : bool) e (P : result unit -> Prop) :
  (c = true -> P (Raise e)) -> (c = false -> P (Ok tt)) -> confined t (raise_if c e) P.
Proof. destruct c; intros; by split; auto. Qed.

(** ** What a program answers when it raises nothing *)

Definition gives {A} (P : A -> Prop) (r : result A) : Prop := forall a, r = Ok a -> P a.

Lemma gives_any t {A} (m : prog S A) : confined t m (fun _ => True) -> confined t m (gives (fun _ => True)).
Proof. by apply confined_mono. Qed.

Lemma gives_ret t {A} (a : A) (P : A -> Prop) : P a -> confined t (Ret a) (gives P).
Proof. intros H. apply confined_ret. by intros b [= <-]. Qed.

Lemma gives_throw t {A} e (P : A -> Prop) : confined t (Throw e) (gives P).
Proof. by apply confined_throw. Qed.

Lemma gives_result t {A} (r : result A) (P : A -> Prop) : (forall a, r = Ok a -> P a) -> confined t (of_result r) (gives P).
Proof. intros H. by apply confined_of_result. Qed.

Lemma gives_raise_if t (c : bool) e : confined t (raise_if c e) (gives (fun _ => c = false)).
Proof. by apply confined_raise_if; intros -> []. Qed.

Lemma gives_bind t {A B} (m : prog S A) (f : A -> prog S B) P P' :
  confined t m (gives P) -> (forall a, P a -> confined t (f a) (gives P')) -> confined t (m ≫= f) (gives P').
Proof. intros Hm Hf. eapply confined_bind; [exact Hm| |done]. intros a Ha. by apply Hf, Ha. Qed.

Lemma gives_catch t {A} (m : prog S A) (h : exn -> prog S A) P :
  confined t m (gives P) -> (forall e, confined t (h e) (gives P)) -> confined t (catch m h) (gives P).
Proof. intros Hm Hh. eapply confined_catch; [exact Hm|done|auto]. Qed.

(** ** Schedules *)

(** A program of a party, which may end differently where states look alike to the party, or
    of nobody: then it is over. *)
Definition of_party {A} (l : option T) (m : prog S A) : Prop :=
  match l with Some t => agree t m m (fun _ _ => True) | None => is_Some (outcome m) end.

Definition own_moves `{EqDecision T} (ls : list (option T)) (t : T) (sched : list nat) : list nat :=
  filter (fun i => ls !! i = Some (Some t)) sched.

Lemma of_party_step {A} l X (f : S -> result X * S) (k : result X -> prog S A) s :
  of_party l (Step f k) -> Inv s -> exists t, l = Some t /\ hidden t s (f s).2 /\ of_party l (k (f s).1).
Proof.
  destruct l as [t|]; cbn [of_party]; [|by intros [? ?]]. intros H Hs. exists t. split; [done|].
  by destruct (H s s Hs Hs ltac:(reflexivity)) as (? & _ & _ & ?).
Qed.

(** The programs of [t] in two pools; [Qs] relates the outcomes of each. *)
Definition alike {A} (Qs : nat -> result A -> result A -> Prop) (ls : list (option T)) (t : T) (ts1 ts2 : list (prog S A)) : Prop :=
  forall i, ls !! i = Some (Some t) -> exists m1 m2, ts1 !! i = Some m1 /\ ts2 !! i = Some m2 /\ agree t m1 m2 (Qs i).

Lemma alike_insert {A} Qs ls t (ts1 ts2 : list (prog S A)) i m1 m2 :
  alike Qs ls t ts1 ts2 -> agree t m1 m2 (Qs i) -> alike Qs ls t (<[i := m1]> ts1) (<[i := m2]> ts2).
Proof.
  intros H Hm j Hj. destruct (H j Hj) as (n1 & n2 & H1 & H2 & Hn). destruct (decide (i = j)) as [->|Hij].
  - exists m1, m2. rewrite !list_lookup_insert_eq by (by eapply lookup_lt_Some). done.
  - exists n1, n2. by rewrite !list_lookup_insert_ne.
Qed.

Lemma alike_insert_other {A} Qs ls t (ts1 ts2 : list (prog S A)) i m1 :
  alike Qs ls t ts1 ts2 -> ls !! i <> Some (Some t) -> alike Qs ls t (<[i := m1]> ts1) ts2.
Proof.
  intros H Hi j Hj. destruct (H j Hj) as (n1 & n2 & H1 & H2 & Hn). exists n1, n2.
  rewrite list_lookup_insert_ne; [done|]. intros ->. done.
Qed.

Lemma parties_insert {A} ls (ts : list (prog S A)) i l m :
  Forall2 of_party ls ts -> ls !! i = Some l -> of_party l m -> Forall2 of_party ls (<[i := m]> ts).
Proof. intros H Hl Hm. rewrite <- (list_insert_id ls i l Hl). by apply Forall2_insert. Qed.

Lemma purge `{EqDecision T} {A} Qs ls t sched (ts1 ts2 : list (prog S A)) s1 s2 :
  Inv s1 -> Inv s2 -> sees t s1 s2 -> Forall2 of_party ls ts1 -> alike Qs ls t ts1 ts2 ->
  let all := run_schedule sched ts1 s1 in
  let own := run_schedule (own_moves ls t sched) ts2 s2 in
  Inv all.2 /\ sees t all.2 own.2 /\ alike Qs ls t all.1 own.1.
Proof.
  revert ts1 ts2 s1 s2. induction sched as [|i sched IH]; intros ts1 ts2 s1 s2 H1 H2 Hs Hts Ha; [done|].
  cbn [run_schedule own_moves]. unfold own_moves. rewrite filter_cons.
  destruct (ts1 !! i) as [m|] eqn:Em.
  2:{ case_decide as Hi; [|by apply IH]. destruct (Ha i Hi) as (m1 & m2 & Hm & _). congruence. }
  destruct (Forall2_lookup_r _ _ _ _ _ Hts Em) as (l & Hl & Hm).
  case_decide as Hi.
  - destruct (Ha i Hi) as (m1 & m2 & Hm1 & Hm2 & Hag). assert (m1 = m) as -> by congruence.
    cbn [run_schedule]. rewrite Hm2. destruct m as [a|e|X f k], m2 as [b|e'|Y g h]; try contradiction; [by apply IH..|].
    destruct (of_party_step l X f k s1 Hm H1) as (t0 & -> & _ & Hk).
    destruct (Hag s1 s2 H1 H2 Hs) as ([? _] & [? _] & ? & ?).
    destruct (f s1) as [r1 s1'], (g s2) as [r2 s2']. cbn [fst snd] in *.
    apply IH; [done..|exact (parties_insert _ _ _ _ _ Hts Hl Hk)|by apply alike_insert].
  - destruct m as [a|e|X f k]; [by apply IH..|].
    destruct (of_party_step l X f k s1 Hm H1) as (t0 & -> & [? Hother] & Hk).
    destruct (f s1) as [r1 s1']. cbn [fst snd] in *.
    apply IH; [done..| |exact (parties_insert _ _ _ _ _ Hts Hl Hk)|by apply alike_insert_other].
    transitivity s1; [symmetry; apply Hother|done]. intros ->. done.
Qed.

(** Related programs end together, in related outcomes. *)
Lemma agree_outcome t {A} (m1 m2 : prog S A) Q : agree t m1 m2 Q -> option_Forall2 Q (outcome m1) (outcome m2).
Proof. destruct m1, m2; cbn [agree outcome]; try done; by constructor. Qed.
End judgment.

(** ** Sections of a part of the state *)

Lemma section_atomic {S A} (f : S -> result A * S) : section (atomic f) f.
Proof. intros s. split; [done|]. by destruct (f s).1. Qed.

Lemma section_ext {S A} (m : prog S A) f g : section m f -> (forall s, f s = g s) -> section m g.
Proof. destruct m as [a|e|X h k]; try done. intros H E s. rewrite <- E. apply H. Qed.

Lemma outcome_zoom {S T A} (get : S -> T) put (m : prog T A) r : outcome m = Some r -> outcome (zoom get put m) = Some r.
Proof. by destruct m. Qed.

Lemma section_zoom {S T A} (get : S -> T) put (m : prog T A) f :
  section m f -> section (zoom get put m) (fun s => ((f (get s)).1, put (f (get s)).2 s)).
Proof.
  destruct m as [a|e|X g k]; try done. intros H s. destruct (H (get s)) as [Hs Ho]. cbn [zoom section fst snd].
  destruct (g (get s)) as [r u] eqn:E. cbn [fst snd] in *. subst u. split; [done|]. by apply outcome_zoom.
Qed.

Section zoomed.
Context {S T U : Type} (Inv : S -> Prop) (sees : T -> S -> S -> Prop) (get : S -> U) (put : U -> S -> S).

Lemma confined_zoom_bind t {A B} (m : prog U A) (f : A -> prog U B) P P' :
  confined Inv sees t (zoom get put m) P -> (forall a, P (Ok a) -> confined Inv sees t (zoom get put (f a)) P') ->
  (forall e, P (Raise e) -> P' (Raise e)) -> confined Inv sees t (zoom get put (m ≫= f)) P'.
Proof.
  intros Hm Hf He. unfold confined.
  enough (forall m1 m2 : prog U A, agree Inv sees t (zoom get put m1) (zoom get put m2) (fun r1 r2 => r1 = r2 /\ P r1) ->
    agree Inv sees t (zoom get put (m1 ≫= f)) (zoom get put (m2 ≫= f)) (fun r1 r2 => r1 = r2 /\ P' r1)) as H by by apply H.
  clear m Hm. intros m1. induction m1 as [a|e|X g k IH]; intros [b|e'|Y h l]; try done.
  - intros [[= <-] HP]. by apply Hf.
  - by intros [? ?].
  - by intros [? ?].
  - intros [[= <-] HP]. split; [done|]. by apply He.
  - intros H s1 s2 H1 H2 Hs. specialize (H s1 s2 H1 H2 Hs). revert H. cbn.
    destruct (g (get s1)) as [r1 u1], (h (get s2)) as [r2 u2]. cbn [fst snd]. intros (? & ? & ? & Hk).
    split_and!; try done. by apply IH.
Qed.
End zoomed.
