(* ===== verification/Json.v ===== *)
(** * JSON values and Pydantic fields

    [model_dump(mode="json")] and [model_validate] of the schemas go through JSON
    objects.  This file has the JSON type, the field decoders the schema classes
    declare (string lengths, enumerations, UUIDs, nested models, lists, defaults)
    and [extra="forbid"].  A decoder accepts the JSON type its field declares and
    raises [ValidationError] otherwise; the coercions Pydantic adds in lax mode
    between scalar types are not modelled, except integer to float. *)
From S2P Require Import Prelude PyStr Uuid Effects.
From Corelib Require Import SpecFloat.

(** IEEE 754 binary64, as mantissa and exponent. *)
Abbreviation float64 := spec_float.

Definition float_prec : Z := 53.
Definition float_emax : Z := 1024.

(** [x <= y] on floats, false on NaN. *)
Definition fle (x y : float64) : bool := SFleb x y.
Definition flt (x y : float64) : bool := SFltb x y.
Definition float_of_int (z : Z) : float64 := binary_normalize float_prec float_emax z 0 false.

Definition float_zero : float64 := S754_zero false.
Definition is_finite (x : float64) : bool := match x with S754_zero _ | S754_finite _ _ _ => true | _ => false end.
Definition float_one : float64 := S754_finite false 4503599627370496 (-52).

#[local] Set Warnings "-register-all".

Inductive json : Type :=
  | JNull
  | JBool (b : bool)
  | JInt (z : Z)
  | JFloat (f : float64)
  | JStr (s : pystr)
  | JArr (l : list json)
  | JObj (fields : list (pystr * json)).

(** ** Objects *)

Fixpoint pystr_eqb (s t : pystr) : bool :=
  match s, t with
  | [], [] => true
  | c :: s', d :: t' => (c =? d)%N && pystr_eqb s' t'
  | _, _ => false
  end.

(** [d.get(k)] *)
Fixpoint assoc {V} (k : pystr) (l : list (pystr * V)) : option V :=
  match l with
  | [] => None
  | (k', v) :: l' => if pystr_eqb k k' then Some v else assoc k l'
  end.

(** [extra="forbid"]: every key is a declared field. *)
Definition only_keys (allowed : list pystr) (fields : list (pystr * json)) : bool :=
  forallb (fun kv => existsb (pystr_eqb kv.1) allowed) fields.

Definition invalid {A} (why : string) : result A := Raise (ValidationError (u why)).

(** The fields of an object that has no undeclared key. *)
Definition model_fields (allowed : list pystr) (j : json) : result (list (pystr * json)) :=
  match j with
  | JObj fields => if only_keys allowed fields then Ok fields else invalid "extra_forbidden"
  | _ => invalid "model_type"
  end.

(** A required field and a field with a default. *)
Definition field {A} (k : string) (dec : json -> result A) (fields : list (pystr * json)) : result A :=
  match assoc (u k) fields with Some j => dec j | None => invalid "missing" end.

Definition field_default {A} (k : string) (dec : json -> result A) (d : A)
    (fields : list (pystr * json)) : result A :=
  match assoc (u k) fields with Some j => dec j | None => Ok d end.

(** ** Field types *)

Definition len_between (lo hi : nat) (n : nat) : bool := (lo <=? n)%nat && (n <=? hi)%nat.
Definition len_at_least (lo : nat) (n : nat) : bool := (lo <=? n)%nat.

Definition dec_str (j : json) : result pystr :=
  match j with JStr s => Ok s | _ => invalid "string_type" end.

(** [Field(min_length=..., max_length=...)] *)
Definition dec_str_where (p : nat -> bool) (j : json) : result pystr :=
  match j with
  | JStr s => if p (length s) then Ok s else invalid "string_length"
  | _ => invalid "string_type"
  end.

Definition dec_bool (j : json) : result bool :=
  match j with JBool b => Ok b | _ => invalid "bool_type" end.

Definition dec_int_ge (lo : Z) (j : json) : result Z :=
  match j with
  | JInt z => if (lo <=? z)%Z then Ok z else invalid "greater_than_equal"
  | _ => invalid "int_type"
  end.

(** [confidence: float = Field(ge=0.0, le=1.0)] *)
Definition unit_interval (f : float64) : bool := fle float_zero f && fle f float_one.


#[global] Arguments unit_interval : simpl never.

Definition dec_unit_float (j : json) : result float64 :=
  match j with
  | JFloat f => if unit_interval f then Ok f else invalid "float_bounds"
  | JInt z => let f := float_of_int z in if unit_interval f then Ok f else invalid "float_bounds"
  | _ => invalid "float_type"
  end.

Definition dec_uuid (j : json) : result UUID :=
  match j with
  | JStr s => of_option (ValidationError (u "uuid_parsing")) (UUID_of_str s)
  | _ => invalid "uuid_type"
  end.

Definition dec_opt {A} (dec : json -> result A) (j : json) : result (option A) :=
  match j with JNull => Ok None | _ => Some <$> dec j end.

Definition dec_list {A} (dec : json -> result A) (j : json) : result (list A) :=
  match j with JArr l => mapR dec l | _ => invalid "list_type" end.

(** [Field(max_length=n)] on a list. *)
Definition dec_list_max {A} (n : nat) (dec : json -> result A) (j : json) : result (list A) :=
  match j with
  | JArr l => if (length l <=? n)%nat then mapR dec l else invalid "too_long"
  | _ => invalid "list_type"
  end.

Definition enc_opt {A} (enc : A -> json) (o : option A) : json :=
  match o with Some a => enc a | None => JNull end.

Definition enc_list {A} (enc : A -> json) (l : list A) : json := JArr (enc <$> l).

Definition enc_uuid (i : UUID) : json := JStr (str_uuid i).

(** ** Enumerations *)

(** A [StrEnum]: its members and their distinct string values. *)
Class StrEnum (A : Type) := {
  value : A -> pystr;
  members : list A;
  members_complete : forall a, a ∈ members;
  value_inj : forall a b, value a = value b -> a = b;
}.

(** [E(text)]; [None] stands for the [ValueError]. *)
Definition of_value `{StrEnum A} (s : pystr) : option A :=
  List.find (fun a => pystr_eqb (value a) s) members.

Definition dec_enum `{StrEnum A} (j : json) : result A :=
  match j with
  | JStr s => of_option (ValidationError (u "enum")) (of_value s)
  | _ => invalid "enum"
  end.

Definition enc_enum `{StrEnum A} (a : A) : json := JStr (value a).

(** ** Timestamps *)

(** A [datetime] is the number of microseconds since the epoch, in UTC.  Its JSON
    text is produced and read by Pydantic; the program relies on reading back
    what was written. *)
Abbreviation datetime := Z.

Class DatetimeText := {
  dt_dump : datetime -> pystr;
  dt_load : pystr -> option datetime;
  dt_load_dump : forall t, dt_load (dt_dump t) = Some t;
}.

Definition dec_datetime `{DatetimeText} (j : json) : result datetime :=
  match j with
  | JStr s => of_option (ValidationError (u "datetime_parsing")) (dt_load s)
  | _ => invalid "datetime_type"
  end.

Definition enc_datetime `{DatetimeText} (t : datetime) : json := JStr (dt_dump t).

(** ** Lemmas *)

Lemma pystr_eqb_eq s t : pystr_eqb s t = true <-> s = t.
Proof.
  revert t. induction s as [|c s IH]; intros [|d t]; simpl; split; try done.
  - intros [->%N.eqb_eq ->%IH]%andb_prop. done.
  - intros [= -> ->]. rewrite N.eqb_refl. by apply IH.
Qed.

Lemma pystr_eqb_refl s : pystr_eqb s s = true.
Proof. by apply pystr_eqb_eq. Qed.

Section enums.
Context `{StrEnum A}.

Lemma of_value_value (a : A) : of_value (value a) = Some a.
Proof.
  unfold of_value. destruct (List.find _ members) as [b|] eqn:E.
  - apply List.find_some in E as [_ E%pystr_eqb_eq]. f_equal. by apply value_inj.
  - pose proof (List.find_none _ _ E a) as Hn. cbv beta in Hn. rewrite pystr_eqb_refl in Hn.
    discriminate Hn. apply list_elem_of_In, members_complete.
Qed.

Lemma of_value_Some s (a : A) : of_value s = Some a -> value a = s.
Proof. unfold of_value. intros [_ E%pystr_eqb_eq]%List.find_some. done. Qed.

Lemma dec_enc_enum (a : A) : dec_enum (enc_enum a) = Ok a.
Proof. simpl. by rewrite of_value_value. Qed.

Lemma dec_enum_value (a : A) : dec_enum (JStr (value a)) = Ok a.
Proof. exact (dec_enc_enum a). Qed.

Lemma dec_enum_Ok s (a : A) : dec_enum (JStr s) = Ok a -> value a = s.
Proof. simpl. destruct (of_value s) as [b|] eqn:E; [|done]. intros [= <-]. by apply of_value_Some. Qed.
End enums.

Lemma dec_enc_uuid i : dec_uuid (enc_uuid i) = Ok i.
Proof. unfold dec_uuid, enc_uuid. by rewrite UUID_of_str_str. Qed.

Lemma dec_enc_datetime `{DatetimeText} t : dec_datetime (enc_datetime t) = Ok t.
Proof. simpl. by rewrite dt_load_dump. Qed.

Lemma dec_str_where_ok p s : p (length s) = true -> dec_str_where p (JStr s) = Ok s.
Proof. simpl. by intros ->. Qed.

Lemma dec_unit_float_ok f : unit_interval f = true -> dec_unit_float (JFloat f) = Ok f.
Proof. intros H. unfold dec_unit_float. rewrite H. reflexivity. Qed.

Lemma dec_enc_opt {A} (enc : A -> json) dec (o : option A) :
  (forall a, o = Some a -> enc a <> JNull /\ dec (enc a) = Ok a) ->
  dec_opt dec (enc_opt enc o) = Ok o.
Proof.
  destruct o as [a|]; intros H; [|done]. destruct (H a eq_refl) as [Hn Hd].
  simpl. unfold dec_opt. destruct (enc a); try done; by rewrite Hd.
Qed.

Lemma dec_enc_list {A} (enc : A -> json) dec (l : list A) :
  (forall a, a ∈ l -> dec (enc a) = Ok a) -> dec_list dec (enc_list enc l) = Ok l.
Proof.
  intros H. simpl. rewrite <- (list_fmap_id l) at 2. by apply mapR_fmap_ok.
Qed.

Lemma dec_enc_list_max {A} n (enc : A -> json) dec (l : list A) :
  (length l <=? n)%nat = true -> (forall a, a ∈ l -> dec (enc a) = Ok a) ->
  dec_list_max n dec (enc_list enc l) = Ok l.
Proof. intros Hn H. simpl. rewrite length_fmap, Hn. by apply dec_enc_list. Qed.

#[export] Hint Resolve dec_enc_enum dec_enc_uuid dec_enc_datetime dec_enc_list dec_enc_list_max
  dec_str_where_ok dec_unit_float_ok dec_enc_opt : py.
#[export] Hint Rewrite @dec_enc_enum @dec_enum_value dec_enc_uuid @dec_enc_datetime : py.
