(* ===== verification/Schemas.v ===== *)
(** * Schemas

    The Pydantic models of [packages/schemas]: the string enumerations with their
    values, the records, and the field constraints as boolean validity predicates.
    A model constructor that Pydantic would refuse is [construct] with a false
    predicate.  Constructor names follow the source; a prefix is added where two
    enumerations use the same member name. *)
From S2P Require Import Prelude PyStr Uuid Effects Json.

(** ** Enumerations *)

Ltac str_enum_members := intros a; destruct a; repeat (first [left; reflexivity | right]).
Ltac str_enum_inj := intros a b; destruct a, b; first [reflexivity | intros H; vm_compute in H; discriminate H].

Inductive Role : Type :=
  | ANALYST
  | APPROVER
  | EXECUTOR
  | ADMIN.

#[export] Instance Role_eq_dec : EqDecision Role.
Proof. solve_decision. Defined.

Definition Role_value (a : Role) : pystr :=
  match a with
  | ANALYST => u "analyst"
  | APPROVER => u "approver"
  | EXECUTOR => u "executor"
  | ADMIN => u "admin"
  end.

#[export, refine] Instance Role_StrEnum : StrEnum Role := {|
  value := Role_value;
  members := [ANALYST; APPROVER; EXECUTOR; ADMIN];
|}.
Proof. - abstract str_enum_members. - abstract str_enum_inj. Defined.

Inductive CaseStatus : Type :=
  | NEW
  | IN_REVIEW
  | CASE_PENDING_APPROVAL
  | CASE_APPROVED
  | CASE_REJECTED
  | REVIEW_FAILED.

#[export] Instance CaseStatus_eq_dec : EqDecision CaseStatus.
Proof. solve_decision. Defined.

Definition CaseStatus_value (a : CaseStatus) : pystr :=
  match a with
  | NEW => u "new"
  | IN_REVIEW => u "in_review"
  | CASE_PENDING_APPROVAL => u "pending_approval"
  | CASE_APPROVED => u "approved"
  | CASE_REJECTED => u "rejected"
  | REVIEW_FAILED => u "review_failed"
  end.

#[export, refine] Instance CaseStatus_StrEnum : StrEnum CaseStatus := {|
  value := CaseStatus_value;
  members := [NEW; IN_REVIEW; CASE_PENDING_APPROVAL; CASE_APPROVED; CASE_REJECTED; REVIEW_FAILED];
|}.
Proof. - abstract str_enum_members. - abstract str_enum_inj. Defined.

Inductive RiskCategory : Type :=
  | SECURITY
  | LEGAL
  | FINANCIAL.

#[export] Instance RiskCategory_eq_dec : EqDecision RiskCategory.
Proof. solve_decision. Defined.

Definition RiskCategory_value (a : RiskCategory) : pystr :=
  match a with
  | SECURITY => u "security"
  | LEGAL => u "legal"
  | FINANCIAL => u "financial"
  end.

#[export, refine] Instance RiskCategory_StrEnum : StrEnum RiskCategory := {|
  value := RiskCategory_value;
  members := [SECURITY; LEGAL; FINANCIAL];
|}.
Proof. - abstract str_enum_members. - abstract str_enum_inj. Defined.

Inductive Severity : Type :=
  | LOW
  | MEDIUM
  | HIGH
  | CRITICAL.

#[export] Instance Severity_eq_dec : EqDecision Severity.
Proof. solve_decision. Defined.

Definition Severity_value (a : Severity) : pystr :=
  match a with
  | LOW => u "low"
  | MEDIUM => u "medium"
  | HIGH => u "high"
  | CRITICAL => u "critical"
  end.

#[export, refine] Instance Severity_StrEnum : StrEnum Severity := {|
  value := Severity_value;
  members := [LOW; MEDIUM; HIGH; CRITICAL];
|}.
Proof. - abstract str_enum_members. - abstract str_enum_inj. Defined.

Inductive Decision : Type :=
  | APPROVE
  | REMEDIATE
  | ESCALATE
  | REJECT.

#[export] Instance Decision_eq_dec : EqDecision Decision.
Proof. solve_decision. Defined.

Definition Decision_value (a : Decision) : pystr :=
  match a with
  | APPROVE => u "approve"
  | REMEDIATE => u "remediate"
  | ESCALATE => u "escalate"
  | REJECT => u "reject"
  end.

#[export, refine] Instance Decision_StrEnum : StrEnum Decision := {|
  value := Decision_value;
  members := [APPROVE; REMEDIATE; ESCALATE; REJECT];
|}.
Proof. - abstract str_enum_members. - abstract str_enum_inj. Defined.

Inductive EvidenceConfirmationDecision : Type :=
  | EC_CONFIRM
  | EC_REJECT.

#[export] Instance EvidenceConfirmationDecision_eq_dec : EqDecision EvidenceConfirmationDecision.
Proof. solve_decision. Defined.

Definition EvidenceConfirmationDecision_value (a : EvidenceConfirmationDecision) : pystr :=
  match a with
  | EC_CONFIRM => u "confirm"
  | EC_REJECT => u "reject"
  end.

#[export, refine] Instance EvidenceConfirmationDecision_StrEnum : StrEnum EvidenceConfirmationDecision := {|
  value := EvidenceConfirmationDecision_value;
  members := [EC_CONFIRM; EC_REJECT];
|}.
Proof. - abstract str_enum_members. - abstract str_enum_inj. Defined.

Inductive ReviewExecutionStatus : Type :=
  | RUNNING
  | AWAITING_INPUT
  | COMPLETED
  | CANCELLED.

#[export] Instance ReviewExecutionStatus_eq_dec : EqDecision ReviewExecutionStatus.
Proof. solve_decision. Defined.

Definition ReviewExecutionStatus_value (a : ReviewExecutionStatus) : pystr :=
  match a with
  | RUNNING => u "running"
  | AWAITING_INPUT => u "awaiting_input"
  | COMPLETED => u "completed"
  | CANCELLED => u "cancelled"
  end.

#[export, refine] Instance ReviewExecutionStatus_StrEnum : StrEnum ReviewExecutionStatus := {|
  value := ReviewExecutionStatus_value;
  members := [RUNNING; AWAITING_INPUT; COMPLETED; CANCELLED];
|}.
Proof. - abstract str_enum_members. - abstract str_enum_inj. Defined.

Inductive ActionStatus : Type :=
  | PENDING_APPROVAL
  | APPROVED
  | REJECTED
  | EXECUTED
  | FAILED.

#[export] Instance ActionStatus_eq_dec : EqDecision ActionStatus.
Proof. solve_decision. Defined.

Definition ActionStatus_value (a : ActionStatus) : pystr :=
  match a with
  | PENDING_APPROVAL => u "pending_approval"
  | APPROVED => u "approved"
  | REJECTED => u "rejected"
  | EXECUTED => u "executed"
  | FAILED => u "failed"
  end.

#[export, refine] Instance ActionStatus_StrEnum : StrEnum ActionStatus := {|
  value := ActionStatus_value;
  members := [PENDING_APPROVAL; APPROVED; REJECTED; EXECUTED; FAILED];
|}.
Proof. - abstract str_enum_members. - abstract str_enum_inj. Defined.

Inductive ApprovalDecision : Type :=
  | AD_APPROVE
  | AD_REJECT.

#[export] Instance ApprovalDecision_eq_dec : EqDecision ApprovalDecision.
Proof. solve_decision. Defined.

Definition ApprovalDecision_value (a : ApprovalDecision) : pystr :=
  match a with
  | AD_APPROVE => u "approve"
  | AD_REJECT => u "reject"
  end.

#[export, refine] Instance ApprovalDecision_StrEnum : StrEnum ApprovalDecision := {|
  value := ApprovalDecision_value;
  members := [AD_APPROVE; AD_REJECT];
|}.
Proof. - abstract str_enum_members. - abstract str_enum_inj. Defined.

Inductive ToolName : Type :=
  | SUPPLIER_SET_ONBOARDING_DECISION.

#[export] Instance ToolName_eq_dec : EqDecision ToolName.
Proof. solve_decision. Defined.

Definition ToolName_value (a : ToolName) : pystr :=
  match a with
  | SUPPLIER_SET_ONBOARDING_DECISION => u "supplier.set_onboarding_decision"
  end.

#[export, refine] Instance ToolName_StrEnum : StrEnum ToolName := {|
  value := ToolName_value;
  members := [SUPPLIER_SET_ONBOARDING_DECISION];
|}.
Proof. - abstract str_enum_members. - abstract str_enum_inj. Defined.

Inductive OutboxEventType : Type :=
  | APPROVAL_WORKFLOW_START.

#[export] Instance OutboxEventType_eq_dec : EqDecision OutboxEventType.
Proof. solve_decision. Defined.

Definition OutboxEventType_value (a : OutboxEventType) : pystr :=
  match a with
  | APPROVAL_WORKFLOW_START => u "approval.workflow.start"
  end.

#[export, refine] Instance OutboxEventType_StrEnum : StrEnum OutboxEventType := {|
  value := OutboxEventType_value;
  members := [APPROVAL_WORKFLOW_START];
|}.
Proof. - abstract str_enum_members. - abstract str_enum_inj. Defined.

Inductive OutboxStatus : Type :=
  | PENDING
  | PUBLISHED
  | DEAD_LETTERED.

#[export] Instance OutboxStatus_eq_dec : EqDecision OutboxStatus.
Proof. solve_decision. Defined.

Definition OutboxStatus_value (a : OutboxStatus) : pystr :=
  match a with
  | PENDING => u "pending"
  | PUBLISHED => u "published"
  | DEAD_LETTERED => u "dead_lettered"
  end.

#[export, refine] Instance OutboxStatus_StrEnum : StrEnum OutboxStatus := {|
  value := OutboxStatus_value;
  members := [PENDING; PUBLISHED; DEAD_LETTERED];
|}.
Proof. - abstract str_enum_members. - abstract str_enum_inj. Defined.

Inductive ModelTask : Type :=
  | SECURITY_REVIEW
  | LEGAL_REVIEW
  | FINANCIAL_REVIEW
  | SYNTHESIZE.

#[export] Instance ModelTask_eq_dec : EqDecision ModelTask.
Proof. solve_decision. Defined.

Definition ModelTask_value (a : ModelTask) : pystr :=
  match a with
  | SECURITY_REVIEW => u "security_review"
  | LEGAL_REVIEW => u "legal_review"
  | FINANCIAL_REVIEW => u "financial_review"
  | SYNTHESIZE => u "synthesize"
  end.

#[export, refine] Instance ModelTask_StrEnum : StrEnum ModelTask := {|
  value := ModelTask_value;
  members := [SECURITY_REVIEW; LEGAL_REVIEW; FINANCIAL_REVIEW; SYNTHESIZE];
|}.
Proof. - abstract str_enum_members. - abstract str_enum_inj. Defined.

(** An enumeration is countable through its values. *)
#[export] Instance Role_countable : Countable Role.
Proof. exact (inj_countable value of_value of_value_value). Defined.

(** ** Construction *)

(** A model is built from its fields or Pydantic raises. *)
Definition construct {A} (valid : A -> bool) (a : A) : result A :=
  if valid a then Ok a else Raise (ValidationError (u "validation_error")).

Definition opt_forallb {A} (p : A -> bool) (o : option A) : bool :=
  match o with Some a => p a | None => true end.

(** ** Identity *)

Record Principal := {
  subject : pystr;
  principal_tenant_id : pystr;
  roles : gset Role;
  scopes : gset pystr;
}.

Definition valid_Principal (p : Principal) : bool :=
  len_between 1 255 (length (subject p)) && len_between 1 255 (length (principal_tenant_id p)).

Definition has_role (p : Principal) (role : Role) : bool :=
  bool_decide (role ∈ roles p) || bool_decide (ADMIN ∈ roles p).

(** ** Cases *)

Record DocumentInput := {
  doc_title : pystr;
  doc_content : pystr;
  doc_source_uri : option pystr;
}.

Definition valid_DocumentInput (d : DocumentInput) : bool :=
  len_between 1 255 (length (doc_title d)) && len_at_least 1 (length (doc_content d)).

Record SupplierCaseCreate := {
  scc_supplier_name : pystr;
  scc_description : pystr;
  scc_documents : list DocumentInput;
}.

Definition valid_SupplierCaseCreate (c : SupplierCaseCreate) : bool :=
  len_between 2 255 (length (scc_supplier_name c))
  && len_between 0 2000 (length (scc_description c))
  && (length (scc_documents c) <=? 50)%nat && forallb valid_DocumentInput (scc_documents c).

Record SupplierCase := {
  case_id : UUID;
  case_tenant_id : pystr;
  supplier_name : pystr;
  description : pystr;
  case_status : CaseStatus;
  documents : list DocumentInput;
  case_created_at : datetime;
  case_updated_at : datetime;
}.

Definition valid_SupplierCase (c : SupplierCase) : bool :=
  len_between 1 255 (length (case_tenant_id c)) && forallb valid_DocumentInput (documents c).

(** ** Reviews *)

Record Evidence := {
  ev_document_title : pystr;
  ev_quote : pystr;
  ev_source_uri : option pystr;
}.

Definition valid_Evidence (e : Evidence) : bool := len_between 1 1000 (length (ev_quote e)).

Record Finding := {
  finding_id : UUID;
  category : RiskCategory;
  severity : Severity;
  finding_title : pystr;
  summary : pystr;
  evidence : list Evidence;
  remediation : pystr;
  finding_confidence : float64;
}.

Definition valid_Finding (f : Finding) : bool :=
  forallb valid_Evidence (evidence f) && unit_interval (finding_confidence f).

Record Recommendation := {
  rec_decision : Decision;
  rec_rationale : pystr;
  rec_required_actions : list pystr;
  rec_confidence : float64;
}.

Definition valid_Recommendation (r : Recommendation) : bool := unit_interval (rec_confidence r).

Record ReviewResult := {
  rv_review_id : UUID;
  rv_case_id : UUID;
  rv_findings : list Finding;
  rv_recommendation : Recommendation;
  rv_model_backend : pystr;
  rv_started_at : datetime;
  rv_completed_at : datetime;
}.

Record EvidenceConfirmation := {
  ec_decision : EvidenceConfirmationDecision;
  ec_comment : pystr;
}.

Definition valid_EvidenceConfirmation (c : EvidenceConfirmation) : bool :=
  len_between 1 2000 (length (ec_comment c)).

Record ReviewInterrupt := {
  ri_question : pystr;
  ri_finding_count : Z;
  ri_categories : list RiskCategory;
}.

Definition valid_ReviewInterrupt (i : ReviewInterrupt) : bool := (0 <=? ri_finding_count i)%Z.

Record ReviewExecution := {
  ex_execution_id : UUID;
  ex_case_id : UUID;
  ex_status : ReviewExecutionStatus;
  ex_interrupt : option ReviewInterrupt;
  ex_result : option ReviewResult;
}.

(** ** Governed actions *)

Record SupplierDecisionArguments := {
  args_supplier_case_id : UUID;
  args_review_id : UUID;
  args_decision : Decision;
  args_rationale : pystr;
  args_required_actions : list pystr;
}.

Definition valid_SupplierDecisionArguments (a : SupplierDecisionArguments) : bool :=
  len_between 1 4000 (length (args_rationale a)) && (length (args_required_actions a) <=? 100)%nat.

Record ActionProposalRequest := { apr_idempotency_key : UUID }.

Record ApprovalRequest := {
  ar_decision : ApprovalDecision;
  ar_comment : pystr;
}.

Definition valid_ApprovalRequest (r : ApprovalRequest) : bool :=
  len_between 0 2000 (length (ar_comment r)).

Record ApprovalStatusResponse := { asr_action_id : UUID; asr_status : ActionStatus }.

Record ExecutionReceipt := {
  rc_action_id : UUID;
  rc_external_reference : pystr;
  rc_applied_decision : Decision;
  rc_executed_at : datetime;
}.

Definition valid_ExecutionReceipt (r : ExecutionReceipt) : bool :=
  len_between 1 255 (length (rc_external_reference r)).

Record GovernedAction := {
  ga_id : UUID;
  ga_case_id : UUID;
  ga_review_id : UUID;
  ga_tenant_id : pystr;
  ga_tool_name : ToolName;
  ga_arguments : SupplierDecisionArguments;
  ga_status : ActionStatus;
  ga_proposer_id : pystr;
  ga_approver_id : option pystr;
  ga_approval_comment : pystr;
  ga_idempotency_key : UUID;
  ga_workflow_execution_arn : option pystr;
  ga_execution_receipt : option ExecutionReceipt;
  ga_created_at : datetime;
  ga_decided_at : option datetime;
  ga_executed_at : option datetime;
}.

Definition valid_GovernedAction (a : GovernedAction) : bool :=
  len_between 1 255 (length (ga_tenant_id a))
  && valid_SupplierDecisionArguments (ga_arguments a)
  && len_between 1 255 (length (ga_proposer_id a))
  && opt_forallb (fun s => len_between 0 255 (length s)) (ga_approver_id a)
  && len_between 0 2000 (length (ga_approval_comment a))
  && opt_forallb (fun s => len_between 0 2048 (length s)) (ga_workflow_execution_arn a)
  && opt_forallb valid_ExecutionReceipt (ga_execution_receipt a).

(** ** Audit *)

Record AuditEventCreate := {
  ae_case_id : UUID;
  ae_event_type : pystr;
  ae_actor_id : pystr;
  ae_payload : list (pystr * json);
}.

Definition valid_AuditEventCreate (e : AuditEventCreate) : bool :=
  len_between 1 128 (length (ae_event_type e)) && len_between 1 255 (length (ae_actor_id e)).

Record AuditEvent := {
  event_create : AuditEventCreate;
  event_id : UUID;
  event_created_at : datetime;
}.

(** ** Outbox *)

Record ApprovalWorkflowStartPayload := {
  wp_action_id : UUID;
  wp_case_id : UUID;
  wp_tenant_id : pystr;
}.

Definition valid_ApprovalWorkflowStartPayload (p : ApprovalWorkflowStartPayload) : bool :=
  len_between 1 255 (length (wp_tenant_id p)).

Record OutboxMessageCreate := {
  omc_aggregate_id : UUID;
  omc_event_type : OutboxEventType;
  omc_payload : ApprovalWorkflowStartPayload;
}.

Definition aggregate_type_literal : pystr := u "governed_action".

Record OutboxMessage := {
  om_create : OutboxMessageCreate;
  om_id : UUID;
  om_status : OutboxStatus;
  om_attempt_count : Z;
  om_available_at : datetime;
  om_locked_at : option datetime;
  om_locked_by : option pystr;
  om_published_at : option datetime;
  om_dead_lettered_at : option datetime;
  om_last_error : option pystr;
  om_delivery_result : option (list (pystr * pystr));
  om_created_at : datetime;
}.

Definition valid_OutboxMessage (m : OutboxMessage) : bool :=
  valid_ApprovalWorkflowStartPayload (omc_payload (om_create m))
  && (0 <=? om_attempt_count m)%Z
  && opt_forallb (fun s => len_between 0 255 (length s)) (om_locked_by m)
  && opt_forallb (fun s => len_between 0 255 (length s)) (om_last_error m).

Record OutboxDispatchResult := {
  claimed : Z;
  published : Z;
  retried : Z;
  dead_lettered : Z;
}.

(** ** Clock and random readings *)

(** What one call reads from [datetime.now(UTC)] and [uuid4()]: arguments of the
    operation that reads them, so that every theorem holds for all readings. *)
Record Fresh := {
  now : datetime;
  new_event_id : UUID;
  new_message_id : UUID;
}.

(** ** Lemmas *)

Lemma construct_Ok {A} (valid : A -> bool) a b : construct valid a = Ok b <-> valid a = true /\ b = a.
Proof. unfold construct. destruct (valid a); split; intros H; [by simplify_eq|by destruct H as [_ ->]|done|by destruct H]. Qed.

Lemma construct_valid {A} (valid : A -> bool) a : valid a = true -> construct valid a = Ok a.
Proof. unfold construct. by intros ->. Qed.

Lemma construct_Raise {A} (valid : A -> bool) a e :
  construct valid a = Raise e -> e = ValidationError (u "validation_error").
Proof. unfold construct. destruct (valid a); congruence. Qed.

Lemma has_role_spec p r : has_role p r = true <-> r ∈ roles p \/ ADMIN ∈ roles p.
Proof. unfold has_role. rewrite orb_true_iff, !bool_decide_eq_true. done. Qed.
