(* ===== verification/SchemaJson.v ===== *)
(** * JSON forms of the schemas

    [dump_X] is [X.model_dump(mode="json")] and [validate_X] is [X.model_validate]:
    the declared fields in order, their constraints, defaults and
    [extra="forbid"].  [validate_dump_X] is the round trip the JSON columns, the
    checkpoints and the model answers rely on. *)
From S2P Require Import Prelude PyStr Uuid Effects Json Schemas.

(** [type: Literal["evidence_confirmation"]] *)
Definition dec_interrupt_type (j : json) : result unit :=
  match j with
  | JStr s => if pystr_eqb s (u "evidence_confirmation") then Ok tt else invalid "literal_error"
  | _ => invalid "literal_error"
  end.

Definition dump_DocumentInput (x : DocumentInput) : json :=
  JObj [
    (u "title", JStr (doc_title x));
    (u "content", JStr (doc_content x));
    (u "source_uri", enc_opt JStr (doc_source_uri x))
  ].

Definition validate_DocumentInput (j : json) : result DocumentInput :=
  d ← model_fields [u "title"; u "content"; u "source_uri"] j;
  f_title ← field "title" (dec_str_where (len_between 1 255)) d;
  f_content ← field "content" (dec_str_where (len_at_least 1)) d;
  f_source_uri ← field_default "source_uri" (dec_opt dec_str) None d;
  Ok {| doc_title := f_title; doc_content := f_content; doc_source_uri := f_source_uri |}.

Definition dump_Evidence (x : Evidence) : json :=
  JObj [
    (u "document_title", JStr (ev_document_title x));
    (u "quote", JStr (ev_quote x));
    (u "source_uri", enc_opt JStr (ev_source_uri x))
  ].

Definition validate_Evidence (j : json) : result Evidence :=
  d ← model_fields [u "document_title"; u "quote"; u "source_uri"] j;
  f_document_title ← field "document_title" dec_str d;
  f_quote ← field "quote" (dec_str_where (len_between 1 1000)) d;
  f_source_uri ← field_default "source_uri" (dec_opt dec_str) None d;
  Ok {| ev_document_title := f_document_title; ev_quote := f_quote; ev_source_uri := f_source_uri |}.

Definition dump_Finding (x : Finding) : json :=
  JObj [
    (u "id", enc_uuid (finding_id x));
    (u "category", enc_enum (category x));
    (u "severity", enc_enum (severity x));
    (u "title", JStr (finding_title x));
    (u "summary", JStr (summary x));
    (u "evidence", enc_list dump_Evidence (evidence x));
    (u "remediation", JStr (remediation x));
    (u "confidence", JFloat (finding_confidence x))
  ].

Definition validate_Finding (j : json) : result Finding :=
  d ← model_fields [u "id"; u "category"; u "severity"; u "title"; u "summary"; u "evidence"; u "remediation"; u "confidence"] j;
  f_id ← field "id" dec_uuid d;
  f_category ← field "category" (dec_enum (A := RiskCategory)) d;
  f_severity ← field "severity" (dec_enum (A := Severity)) d;
  f_title ← field "title" dec_str d;
  f_summary ← field "summary" dec_str d;
  f_evidence ← field_default "evidence" (dec_list validate_Evidence) [] d;
  f_remediation ← field "remediation" dec_str d;
  f_confidence ← field "confidence" dec_unit_float d;
  Ok {| finding_id := f_id; category := f_category; severity := f_severity; finding_title := f_title; summary := f_summary; evidence := f_evidence; remediation := f_remediation; finding_confidence := f_confidence |}.

Definition dump_Recommendation (x : Recommendation) : json :=
  JObj [
    (u "decision", enc_enum (rec_decision x));
    (u "rationale", JStr (rec_rationale x));
    (u "required_actions", enc_list JStr (rec_required_actions x));
    (u "confidence", JFloat (rec_confidence x))
  ].

Definition validate_Recommendation (j : json) : result Recommendation :=
  d ← model_fields [u "decision"; u "rationale"; u "required_actions"; u "confidence"] j;
  f_decision ← field "decision" (dec_enum (A := Decision)) d;
  f_rationale ← field "rationale" dec_str d;
  f_required_actions ← field "required_actions" (dec_list dec_str) d;
  f_confidence ← field "confidence" dec_unit_float d;
  Ok {| rec_decision := f_decision; rec_rationale := f_rationale; rec_required_actions := f_required_actions; rec_confidence := f_confidence |}.

Definition dump_EvidenceConfirmation (x : EvidenceConfirmation) : json :=
  JObj [
    (u "decision", enc_enum (ec_decision x));
    (u "comment", JStr (ec_comment x))
  ].

Definition validate_EvidenceConfirmation (j : json) : result EvidenceConfirmation :=
  d ← model_fields [u "decision"; u "comment"] j;
  f_decision ← field "decision" (dec_enum (A := EvidenceConfirmationDecision)) d;
  f_comment ← field "comment" (dec_str_where (len_between 1 2000)) d;
  Ok {| ec_decision := f_decision; ec_comment := f_comment |}.

Definition dump_SupplierDecisionArguments (x : SupplierDecisionArguments) : json :=
  JObj [
    (u "supplier_case_id", enc_uuid (args_supplier_case_id x));
    (u "review_id", enc_uuid (args_review_id x));
    (u "decision", enc_enum (args_decision x));
    (u "rationale", JStr (args_rationale x));
    (u "required_actions", enc_list JStr (args_required_actions x))
  ].

Definition validate_SupplierDecisionArguments (j : json) : result SupplierDecisionArguments :=
  d ← model_fields [u "supplier_case_id"; u "review_id"; u "decision"; u "rationale"; u "required_actions"] j;
  f_supplier_case_id ← field "supplier_case_id" dec_uuid d;
  f_review_id ← field "review_id" dec_uuid d;
  f_decision ← field "decision" (dec_enum (A := Decision)) d;
  f_rationale ← field "rationale" (dec_str_where (len_between 1 4000)) d;
  f_required_actions ← field_default "required_actions" (dec_list_max 100 dec_str) [] d;
  Ok {| args_supplier_case_id := f_supplier_case_id; args_review_id := f_review_id; args_decision := f_decision; args_rationale := f_rationale; args_required_actions := f_required_actions |}.

Definition dump_ApprovalWorkflowStartPayload (x : ApprovalWorkflowStartPayload) : json :=
  JObj [
    (u "action_id", enc_uuid (wp_action_id x));
    (u "case_id", enc_uuid (wp_case_id x));
    (u "tenant_id", JStr (wp_tenant_id x))
  ].

Definition validate_ApprovalWorkflowStartPayload (j : json) : result ApprovalWorkflowStartPayload :=
  d ← model_fields [u "action_id"; u "case_id"; u "tenant_id"] j;
  f_action_id ← field "action_id" dec_uuid d;
  f_case_id ← field "case_id" dec_uuid d;
  f_tenant_id ← field "tenant_id" (dec_str_where (len_between 1 255)) d;
  Ok {| wp_action_id := f_action_id; wp_case_id := f_case_id; wp_tenant_id := f_tenant_id |}.

Definition dump_ExecutionReceipt `{DatetimeText} (x : ExecutionReceipt) : json :=
  JObj [
    (u "action_id", enc_uuid (rc_action_id x));
    (u "external_reference", JStr (rc_external_reference x));
    (u "applied_decision", enc_enum (rc_applied_decision x));
    (u "executed_at", enc_datetime (rc_executed_at x))
  ].

Definition validate_ExecutionReceipt `{DatetimeText} (j : json) : result ExecutionReceipt :=
  d ← model_fields [u "action_id"; u "external_reference"; u "applied_decision"; u "executed_at"] j;
  f_action_id ← field "action_id" dec_uuid d;
  f_external_reference ← field "external_reference" (dec_str_where (len_between 1 255)) d;
  f_applied_decision ← field "applied_decision" (dec_enum (A := Decision)) d;
  f_executed_at ← field "executed_at" dec_datetime d;
  Ok {| rc_action_id := f_action_id; rc_external_reference := f_external_reference; rc_applied_decision := f_applied_decision; rc_executed_at := f_executed_at |}.

Definition dump_SupplierCase `{DatetimeText} (x : SupplierCase) : json :=
  JObj [
    (u "id", enc_uuid (case_id x));
    (u "tenant_id", JStr (case_tenant_id x));
    (u "supplier_name", JStr (supplier_name x));
    (u "description", JStr (description x));
    (u "status", enc_enum (case_status x));
    (u "documents", enc_list dump_DocumentInput (documents x));
    (u "created_at", enc_datetime (case_created_at x));
    (u "updated_at", enc_datetime (case_updated_at x))
  ].

Definition validate_SupplierCase `{DatetimeText} (j : json) : result SupplierCase :=
  d ← model_fields [u "id"; u "tenant_id"; u "supplier_name"; u "description"; u "status"; u "documents"; u "created_at"; u "updated_at"] j;
  f_id ← field "id" dec_uuid d;
  f_tenant_id ← field "tenant_id" (dec_str_where (len_between 1 255)) d;
  f_supplier_name ← field "supplier_name" dec_str d;
  f_description ← field "description" dec_str d;
  f_status ← field "status" (dec_enum (A := CaseStatus)) d;
  f_documents ← field "documents" (dec_list validate_DocumentInput) d;
  f_created_at ← field "created_at" dec_datetime d;
  f_updated_at ← field "updated_at" dec_datetime d;
  Ok {| case_id := f_id; case_tenant_id := f_tenant_id; supplier_name := f_supplier_name; description := f_description; case_status := f_status; documents := f_documents; case_created_at := f_created_at; case_updated_at := f_updated_at |}.

Definition dump_ReviewInterrupt (x : ReviewInterrupt) : json :=
  JObj [
    (u "type", JStr (u "evidence_confirmation"));
    (u "question", JStr (ri_question x));
    (u "finding_count", JInt (ri_finding_count x));
    (u "categories", enc_list enc_enum (ri_categories x))
  ].

Definition validate_ReviewInterrupt (j : json) : result ReviewInterrupt :=
  d ← model_fields [u "type"; u "question"; u "finding_count"; u "categories"] j;
  _ ← field_default "type" dec_interrupt_type tt d;
  f_question ← field "question" dec_str d;
  f_finding_count ← field "finding_count" (dec_int_ge 0) d;
  f_categories ← field "categories" (dec_list (dec_enum (A := RiskCategory))) d;
  Ok {| ri_question := f_question; ri_finding_count := f_finding_count; ri_categories := f_categories |}.

(** [FindingBatch.model_validate_json] on parsed JSON, and its dump. *)
Definition dump_FindingBatch (fs : list Finding) : json :=
  JObj [(u "findings", enc_list dump_Finding fs)].

Definition validate_FindingBatch (j : json) : result (list Finding) :=
  d ← model_fields [u "findings"] j;
  field "findings" (dec_list validate_Finding) d.

(** ** Field lookup *)

Lemma model_fields_ok allowed l : only_keys allowed l = true -> model_fields allowed (JObj l) = Ok l.
Proof. unfold model_fields. by intros ->. Qed.

Section lookup.
Context {A : Type} (k : string) (dec : json -> result A).

Lemma field_here j l : field k dec ((u k, j) :: l) = dec j.
Proof. unfold field. simpl. by rewrite pystr_eqb_refl. Qed.

Lemma field_skip k' j l : pystr_eqb (u k) k' = false -> field k dec ((k', j) :: l) = field k dec l.
Proof. unfold field. simpl. by intros ->. Qed.

Lemma field_default_here d j l : field_default k dec d ((u k, j) :: l) = dec j.
Proof. unfold field_default. simpl. by rewrite pystr_eqb_refl. Qed.

Lemma field_default_skip d k' j l :
  pystr_eqb (u k) k' = false -> field_default k dec d ((k', j) :: l) = field_default k dec d l.
Proof. unfold field_default. simpl. by intros ->. Qed.
End lookup.

Lemma dec_opt_str o : dec_opt dec_str (enc_opt JStr o) = Ok o.
Proof. by destruct o. Qed.

Lemma dec_list_str l : dec_list dec_str (enc_list JStr l) = Ok l.
Proof. by apply dec_enc_list. Qed.

Lemma dec_list_enum `{StrEnum A} (l : list A) : dec_list dec_enum (enc_list enc_enum l) = Ok l.
Proof. apply dec_enc_list. auto with py. Qed.

Lemma dec_interrupt_type_ok : dec_interrupt_type (JStr (u "evidence_confirmation")) = Ok tt.
Proof. reflexivity. Qed.

Lemma dec_int_ge_ok lo z : (lo <=? z)%Z = true -> dec_int_ge lo (JInt z) = Ok z.
Proof. simpl. by intros ->. Qed.

#[export] Hint Rewrite dec_interrupt_type_ok : py.
#[export] Hint Rewrite @dec_opt_str @dec_list_str @dec_list_enum : py.

(** Finds every field of a dumped record and decodes it; [H] is its validity. *)
Ltac json_field :=
  first [ rewrite field_here | rewrite field_default_here
        | rewrite field_skip by reflexivity | rewrite field_default_skip by reflexivity ].

Ltac json_decode := cbn [mbind result_bind dec_str];
  first [ progress autorewrite with py
        | rewrite dec_str_where_ok by assumption
        | rewrite dec_unit_float_ok by assumption
        | rewrite dec_int_ge_ok by assumption
        | rewrite dec_enc_list by eauto with py
        | rewrite dec_enc_list_max by eauto with py ].

Ltac json_round_trip :=
  rewrite model_fields_ok by reflexivity; cbn [mbind result_bind];
  repeat first [ json_field | json_decode ]; cbn [mbind result_bind dec_str].

Lemma forallb_elem {A} (p : A -> bool) l x : forallb p l = true -> x ∈ l -> p x = true.
Proof. rewrite List.forallb_forall. intros H Hx. by apply H, list_elem_of_In. Qed.

(** ** Round trips *)

Lemma validate_dump_DocumentInput x : valid_DocumentInput x = true -> validate_DocumentInput (dump_DocumentInput x) = Ok x.
Proof.
  intros Hv. unfold valid_DocumentInput in Hv. apply andb_prop in Hv as [Ht Hc].
  unfold validate_DocumentInput, dump_DocumentInput.
  json_round_trip. by destruct x.
Qed.

Lemma validate_dump_Evidence x : valid_Evidence x = true -> validate_Evidence (dump_Evidence x) = Ok x.
Proof.
  intros Hv. unfold valid_Evidence in Hv. unfold validate_Evidence, dump_Evidence.
  json_round_trip. by destruct x.
Qed.

Lemma validate_dump_Finding x : valid_Finding x = true -> validate_Finding (dump_Finding x) = Ok x.
Proof.
  intros Hv. unfold valid_Finding in Hv. apply andb_prop in Hv as [He Hc].
  assert (forall e, e ∈ evidence x -> validate_Evidence (dump_Evidence e) = Ok e)
    by (intros e Hin; apply validate_dump_Evidence; by eapply forallb_elem).
  unfold validate_Finding, dump_Finding.
  json_round_trip. by destruct x.
Qed.

Lemma validate_dump_Recommendation x : valid_Recommendation x = true -> validate_Recommendation (dump_Recommendation x) = Ok x.
Proof.
  intros Hv. unfold valid_Recommendation in Hv. unfold validate_Recommendation, dump_Recommendation.
  json_round_trip. by destruct x.
Qed.

Lemma validate_dump_EvidenceConfirmation x : valid_EvidenceConfirmation x = true -> validate_EvidenceConfirmation (dump_EvidenceConfirmation x) = Ok x.
Proof.
  intros Hv. unfold valid_EvidenceConfirmation in Hv. unfold validate_EvidenceConfirmation, dump_EvidenceConfirmation.
  json_round_trip. by destruct x.
Qed.

Lemma validate_dump_SupplierDecisionArguments x : valid_SupplierDecisionArguments x = true -> validate_SupplierDecisionArguments (dump_SupplierDecisionArguments x) = Ok x.
Proof.
  intros Hv. unfold valid_SupplierDecisionArguments in Hv. apply andb_prop in Hv as [Ht Hc].
  unfold validate_SupplierDecisionArguments, dump_SupplierDecisionArguments.
  json_round_trip. by destruct x.
Qed.

Lemma validate_dump_ApprovalWorkflowStartPayload x : valid_ApprovalWorkflowStartPayload x = true -> validate_ApprovalWorkflowStartPayload (dump_ApprovalWorkflowStartPayload x) = Ok x.
Proof.
  intros Hv. unfold valid_ApprovalWorkflowStartPayload in Hv. unfold validate_ApprovalWorkflowStartPayload, dump_ApprovalWorkflowStartPayload.
  json_round_trip. by destruct x.
Qed.

Lemma validate_dump_ExecutionReceipt `{DatetimeText} x : valid_ExecutionReceipt x = true -> validate_ExecutionReceipt (dump_ExecutionReceipt x) = Ok x.
Proof.
  intros Hv. unfold valid_ExecutionReceipt in Hv. unfold validate_ExecutionReceipt, dump_ExecutionReceipt.
  json_round_trip. by destruct x.
Qed.

Lemma validate_dump_SupplierCase `{DatetimeText} x : valid_SupplierCase x = true -> validate_SupplierCase (dump_SupplierCase x) = Ok x.
Proof.
  intros Hv. unfold valid_SupplierCase in Hv. apply andb_prop in Hv as [Ht Hd].
  assert (forall e, e ∈ documents x -> validate_DocumentInput (dump_DocumentInput e) = Ok e)
    by (intros e Hin; apply validate_dump_DocumentInput; by eapply forallb_elem).
  unfold validate_SupplierCase, dump_SupplierCase.
  json_round_trip. by destruct x.
Qed.

Lemma validate_dump_ReviewInterrupt x : valid_ReviewInterrupt x = true -> validate_ReviewInterrupt (dump_ReviewInterrupt x) = Ok x.
Proof.
  intros Hv. unfold valid_ReviewInterrupt in Hv. unfold validate_ReviewInterrupt, dump_ReviewInterrupt.
  json_round_trip. by destruct x.
Qed.

