(* ===== verification/Cases.v ===== *)
(** * Supplier cases, reviews and the audit trail

    [packages/persistence/repositories.py]: the [CaseRepository] protocol and the
    in-memory repository.  Each method body that runs under the repository's lock
    is one atomic section; a method that first awaits [get] is two. *)
From S2P Require Import Prelude PyStr Uuid Effects Json Schemas.

(** ** Protocol *)

Class CaseRepository (S : Type) := {
  create_case : SupplierCase -> prog S SupplierCase;
  get_case : UUID -> prog S SupplierCase;
  set_status : Fresh -> UUID -> CaseStatus -> prog S SupplierCase;
  save_review : ReviewResult -> prog S ReviewResult;
  get_latest_review : UUID -> prog S ReviewResult;
  get_review : UUID -> prog S ReviewResult;
  append_audit_event : Fresh -> AuditEventCreate -> prog S AuditEvent;
  list_audit_events : UUID -> prog S (list AuditEvent);
}.

Definition case_not_found (i : UUID) : exn :=
  CaseNotFoundError (u "Supplier case " ++ str_uuid i ++ u " was not found").

Definition review_not_found (i : UUID) : exn :=
  ReviewNotFoundError (u "Review " ++ str_uuid i ++ u " was not found").

Definition no_completed_review (i : UUID) : exn :=
  ReviewNotFoundError (u "Supplier case " ++ str_uuid i ++ u " has no completed review").

(** [model_copy(update={"status": ..., "updated_at": ...})] *)
Definition with_status (c : SupplierCase) (st : CaseStatus) (t : datetime) : SupplierCase := {|
  case_id := case_id c; case_tenant_id := case_tenant_id c; supplier_name := supplier_name c;
  description := description c; case_status := st; documents := documents c;
  case_created_at := case_created_at c; case_updated_at := t |}.

(** ** In-memory repository *)

Module InMemoryCaseRepository.

Record t := {
  cases : gmap UUID SupplierCase;
  reviews : gmap UUID (list ReviewResult);
  reviews_by_id : gmap UUID ReviewResult;
  events : gmap UUID (list AuditEvent);
}.

Definition empty : t := {| cases := ∅; reviews := ∅; reviews_by_id := ∅; events := ∅ |}.

Definition set_cases (m : gmap UUID SupplierCase) (s : t) : t :=
  {| cases := m; reviews := reviews s; reviews_by_id := reviews_by_id s; events := events s |}.

Definition set_reviews (m : gmap UUID (list ReviewResult)) (b : gmap UUID ReviewResult) (s : t) : t :=
  {| cases := cases s; reviews := m; reviews_by_id := b; events := events s |}.

Definition set_events (m : gmap UUID (list AuditEvent)) (s : t) : t :=
  {| cases := cases s; reviews := reviews s; reviews_by_id := reviews_by_id s; events := m |}.

(** [d.setdefault(k, []).append(v)] and [d.get(k, [])] *)
Definition push {V} (k : UUID) (v : V) (m : gmap UUID (list V)) : gmap UUID (list V) :=
  <[k := default [] (m !! k) ++ [v]]> m.

Definition get_list {V} (k : UUID) (m : gmap UUID (list V)) : list V := default [] (m !! k).

Definition create (c : SupplierCase) : prog t SupplierCase :=
  atomic (fun s => (Ok c, set_cases (<[case_id c := c]> (cases s)) s)).

Definition get (i : UUID) : prog t SupplierCase :=
  reads (fun s => of_option (case_not_found i) (cases s !! i)).

Definition set_status (fr : Fresh) (i : UUID) (st : CaseStatus) : prog t SupplierCase :=
  atomic (fun s =>
    match cases s !! i with
    | None => (Raise (case_not_found i), s)
    | Some current =>
        let updated := with_status current st (now fr) in
        (Ok updated, set_cases (<[i := updated]> (cases s)) s)
    end).

Definition save_review (r : ReviewResult) : prog t ReviewResult :=
  atomic (fun s =>
    match reviews_by_id s !! rv_review_id r with
    | Some existing => (Ok existing, s)
    | None =>
        (Ok r, set_reviews (push (rv_case_id r) r (reviews s))
                           (<[rv_review_id r := r]> (reviews_by_id s)) s)
    end).

Definition get_latest_review (i : UUID) : prog t ReviewResult :=
  _ ← get i;
  reads (fun s => of_option (no_completed_review i) (last (get_list i (reviews s)))).

Definition get_review (i : UUID) : prog t ReviewResult :=
  reads (fun s => of_option (review_not_found i) (reviews_by_id s !! i)).

Definition append_audit_event (fr : Fresh) (e : AuditEventCreate) : prog t AuditEvent :=
  _ ← get (ae_case_id e);
  let stored := {| event_create := e; event_id := new_event_id fr; event_created_at := now fr |} in
  atomic (fun s => (Ok stored, set_events (push (ae_case_id e) stored (events s)) s)).

Definition list_audit_events (i : UUID) : prog t (list AuditEvent) :=
  _ ← get i;
  reads (fun s => Ok (get_list i (events s))).

#[export] Instance repository : CaseRepository t := {|
  create_case := create;
  get_case := get;
  Cases.set_status := set_status;
  Cases.save_review := save_review;
  Cases.get_latest_review := get_latest_review;
  Cases.get_review := get_review;
  Cases.append_audit_event := append_audit_event;
  Cases.list_audit_events := list_audit_events;
|}.

(** A call of the repository, for statements about every method at once. *)
Inductive call :=
  | Create (c : SupplierCase)
  | Get (i : UUID)
  | SetStatus (fr : Fresh) (i : UUID) (st : CaseStatus)
  | SaveReview (r : ReviewResult)
  | GetLatestReview (i : UUID)
  | GetReview (i : UUID)
  | AppendAuditEvent (fr : Fresh) (e : AuditEventCreate)
  | ListAuditEvents (i : UUID).

Definition ignore {S A} (p : prog S A) : prog S unit := _ ← p; Ret tt.

Definition perform (c : call) : prog t unit :=
  match c with
  | Create c => ignore (create c)
  | Get i => ignore (get i)
  | SetStatus fr i st => ignore (set_status fr i st)
  | SaveReview r => ignore (save_review r)
  | GetLatestReview i => ignore (get_latest_review i)
  | GetReview i => ignore (get_review i)
  | AppendAuditEvent fr e => ignore (append_audit_event fr e)
  | ListAuditEvents i => ignore (list_audit_events i)
  end.

(** ** Invariant and evolution *)

(** The two review indexes agree, records are filed under their own keys, and
    every audit event belongs to an existing case. *)
Record wf (s : t) : Prop := {
  wf_cases : forall i c, cases s !! i = Some c -> case_id c = i;
  wf_by_id : forall i r, reviews_by_id s !! i = Some r ->
    rv_review_id r = i /\ r ∈ get_list (rv_case_id r) (reviews s);
  wf_reviews : forall i r, r ∈ get_list i (reviews s) ->
    rv_case_id r = i /\ reviews_by_id s !! rv_review_id r = Some r;
  wf_nodup : forall i, NoDup (get_list i (reviews s));
  wf_events : forall i e, e ∈ get_list i (events s) ->
    ae_case_id (event_create e) = i /\ is_Some (cases s !! i);
}.

(** What later states keep: cases, reviews and the audit trail only grow, stored
    reviews and events never change. *)
Record evolves (s s' : t) : Prop := {
  ev_cases : forall i, is_Some (cases s !! i) -> is_Some (cases s' !! i);
  ev_reviews_by_id : reviews_by_id s ⊆ reviews_by_id s';
  ev_reviews : forall i, get_list i (reviews s) `prefix_of` get_list i (reviews s');
  ev_events : forall i, get_list i (events s) `prefix_of` get_list i (events s');
}.

(** ** Lemmas *)

Lemma get_list_push {V} k i (v : V) m :
  get_list i (push k v m) = if decide (i = k) then get_list i m ++ [v] else get_list i m.
Proof.
  unfold get_list, push. case_decide as E; [subst; by rewrite lookup_insert_eq|].
  by rewrite lookup_insert_ne.
Qed.

#[export] Instance evolves_preorder : PreOrder evolves.
Proof.
  split.
  - intros s. split; auto.
  - intros s1 s2 s3 [A1 B1 C1 D1] [A2 B2 C2 D2].
    split; [auto|etransitivity; eauto|..]; intros i; etransitivity; eauto.
Qed.

Lemma wf_empty : wf empty.
Proof.
  split; simpl; try done.
  - intros i r H. by apply elem_of_nil in H.
  - intros i. constructor.
  - intros i e H. by apply elem_of_nil in H.
Qed.

(** Each state change of the repository keeps the invariant and evolves. *)
Definition good_change (s s' : t) : Prop := wf s' /\ evolves s s'.

Lemma good_refl s : wf s -> good_change s s.
Proof. by split. Qed.

Lemma good_set_cases s i c :
  wf s -> case_id c = i -> good_change s (set_cases (<[i := c]> (cases s)) s).
Proof.
  intros H Hc. split; [split; simpl|split; simpl]; try by (destruct H; eauto).
  - intros j c'. rewrite lookup_insert. case_decide; [by intros [= <-]; subst|]. by apply wf_cases.
  - intros j e He. apply (wf_events _ H) in He as [? Hs]. split; [done|].
    rewrite lookup_insert. by case_decide.
  - intros j Hj. rewrite lookup_insert. by case_decide.
Qed.

Lemma good_save s r :
  wf s -> reviews_by_id s !! rv_review_id r = None ->
  good_change s (set_reviews (push (rv_case_id r) r (reviews s))
                             (<[rv_review_id r := r]> (reviews_by_id s)) s).
Proof.
  intros H Hnew. assert (Hfresh : forall i, r ∉ get_list i (reviews s)).
  { intros i Hin. apply (wf_reviews _ H) in Hin as [_ E]. congruence. }
  split; [split; simpl|split; simpl]; try by (destruct H; eauto).
  - intros i r'. rewrite lookup_insert, get_list_push. intros Hr.
    case_decide; [simplify_eq; split; [done|]|].
    + rewrite decide_True by done. set_solver.
    + apply (wf_by_id _ H) in Hr as [? ?]. split; [done|]. case_decide; set_solver.
  - intros i r'. rewrite get_list_push. intros Hr.
    assert (r' = r /\ i = rv_case_id r \/ r' ∈ get_list i (reviews s)) as [[-> ->]|Hin].
    { case_decide; set_solver. }
    + by rewrite lookup_insert_eq.
    + pose proof (wf_reviews _ H _ _ Hin) as [? Hl]. split; [done|].
      rewrite lookup_insert_ne by congruence. done.
  - intros i. rewrite get_list_push. case_decide; [|by apply H].
    apply NoDup_app. split; [by apply H|]. split; [|apply NoDup_singleton].
    intros x Hx ->%list_elem_of_singleton. by eapply Hfresh.
  - by apply insert_subseteq.
  - intros i. rewrite get_list_push. case_decide; [by apply prefix_app_r|done].
Qed.

Lemma good_push_event s e :
  wf s -> is_Some (cases s !! ae_case_id (event_create e)) ->
  good_change s (set_events (push (ae_case_id (event_create e)) e (events s)) s).
Proof.
  intros H Hc. split; [split; simpl|split; simpl]; try by (destruct H; eauto).
  - intros i e'. rewrite get_list_push. case_decide as E; [|by apply (wf_events _ H)].
    intros [Hin| ->%list_elem_of_singleton]%elem_of_app; [by apply (wf_events _ H)|by subst].
  - intros i. rewrite get_list_push. case_decide; [by apply prefix_app_r|done].
Qed.

#[local] Hint Resolve good_refl good_set_cases good_save : py.

(** The proof outline of every method, under interference by the others. *)
Abbreviation rg := (wp wf evolves evolves).

Lemma rg_get_case (Q : result SupplierCase -> t -> Prop) i s :
  (forall s', evolves s s' -> wf s' -> Q (of_option (case_not_found i) (cases s' !! i)) s') ->
  rg (get i) Q s.
Proof. intros H. apply wp_atomic. intros s' Hs HI. simpl. split; [done|]. split; [done|]. auto. Qed.

Lemma rg_ignore {A} (p : prog t A) s :
  rg p (fun _ _ => True) s -> rg (ignore p) (fun _ _ => True) s.
Proof. intros H. apply wp_bind. eapply wp_mono; [|exact H]. intros [] ? ?; done. Qed.

Lemma rg_change {A} (f : t -> result A * t) s :
  (forall s', wf s' -> good_change s' (f s').2) -> rg (atomic f) (fun _ _ => True) s.
Proof. intros H. apply wp_atomic. intros s' _ HI. destruct (H s' HI). done. Qed.

Lemma rg_append_audit_event fr e s : rg (append_audit_event fr e) (fun _ _ => True) s.
Proof.
  apply wp_bind, rg_get_case. intros s' _ HI. destruct (cases s' !! ae_case_id e) as [c|] eqn:E; [|done].
  apply wp_atomic. intros s'' Hs'' HI''. simpl.
  destruct (good_push_event s'' {| event_create := e; event_id := new_event_id fr;
    event_created_at := now fr |} HI'') as [? ?]; [|done].
  apply (ev_cases _ _ Hs''). simpl. by rewrite E.
Qed.

Lemma rg_perform c s : rg (perform c) (fun _ _ => True) s.
Proof.
  destruct c; apply rg_ignore.
  - apply rg_change. intros s' HI. by apply good_set_cases.
  - by apply rg_get_case.
  - apply rg_change. intros s' HI. destruct (cases s' !! i) eqn:E; [|by apply good_refl].
    apply good_set_cases; [done|]. simpl. by eapply (wf_cases _ HI).
  - apply rg_change. intros s' HI.
    destruct (reviews_by_id s' !! rv_review_id r) eqn:E; [by apply good_refl|by apply good_save].
  - apply wp_bind, rg_get_case. intros s' _ HI. destruct (cases s' !! i); [|done].
    apply rg_change. auto with py.
  - apply rg_change. auto with py.
  - apply rg_append_audit_event.
  - apply wp_bind, rg_get_case. intros s' _ HI. destruct (cases s' !! i); [|done].
    apply rg_change. auto with py.
Qed.

End InMemoryCaseRepository.
