(* ===== verification/Ledger.v ===== *)
(** * The contract of the governed-action repositories

    The abstract state of [packages/governance]: the actions by identifier, the
    audit trail, and the decisions the supplier system has applied.  The classes
    state the three protocols the governance service is written against
    ([ActionRepository], [ApprovalWorkflow], [SupplierSystem]) and, separately,
    what they promise in terms of that abstract state.  Each promise is logically
    atomic: it holds under interference by other requests. *)
From S2P Require Import Prelude PyStr Uuid Effects Json Schemas.

(** ** Protocols *)

Class ActionRepository (S : Type) := {
  uses_transactional_outbox : bool;
  create_proposal : Fresh -> GovernedAction -> AuditEventCreate -> OutboxMessageCreate ->
    prog S (GovernedAction * bool);
  get_action : UUID -> prog S GovernedAction;
  save_transition : Fresh -> GovernedAction -> AuditEventCreate -> ActionStatus ->
    prog S GovernedAction;
}.

Class ApprovalWorkflow (S : Type) := {
  start_workflow : GovernedAction -> prog S pystr;
}.

Class SupplierSystem (S : Type) := {
  set_onboarding_decision : Fresh -> UUID -> UUID -> SupplierDecisionArguments ->
    prog S ExecutionReceipt;
}.

Definition action_not_found (i : UUID) : exn :=
  ActionNotFoundError (u "Governed action " ++ str_uuid i ++ u " was not found").

Definition transition_conflict (i : UUID) (st : ActionStatus) : exn :=
  ActionTransitionConflictError (u "Action " ++ str_uuid i ++ u " is already " ++ value st).

(** ** Updates of an action *)

(** The fields [save_transition] may change, taken from [a], over [cur]. *)
Definition apply_transition (cur a : GovernedAction) : GovernedAction := {|
  ga_id := ga_id cur; ga_case_id := ga_case_id cur; ga_review_id := ga_review_id cur;
  ga_tenant_id := ga_tenant_id cur; ga_tool_name := ga_tool_name cur;
  ga_arguments := ga_arguments cur; ga_status := ga_status a;
  ga_proposer_id := ga_proposer_id cur; ga_approver_id := ga_approver_id a;
  ga_approval_comment := ga_approval_comment a; ga_idempotency_key := ga_idempotency_key cur;
  ga_workflow_execution_arn := ga_workflow_execution_arn cur;
  ga_execution_receipt := ga_execution_receipt a; ga_created_at := ga_created_at cur;
  ga_decided_at := ga_decided_at a; ga_executed_at := ga_executed_at a |}.

(** What a proposal fixes for ever. *)
Definition proposal_of (a : GovernedAction) :=
  (ga_id a, ga_case_id a, ga_review_id a, ga_tenant_id a, ga_tool_name a, ga_arguments a,
   ga_proposer_id a, ga_idempotency_key a, ga_created_at a).

(** What decisions and executions write. *)
Definition progress_of (a : GovernedAction) :=
  (ga_status a, ga_approver_id a, ga_approval_comment a, ga_execution_receipt a,
   ga_decided_at a, ga_executed_at a).

Definition action_key (a : GovernedAction) : pystr * UUID := (ga_tenant_id a, ga_idempotency_key a).

(** ** Abstract state and specifications *)

Record Ledger := {
  l_actions : gmap UUID GovernedAction;
  l_audit : list AuditEventCreate;
}.

Definition has_key (L : Ledger) (k : pystr * UUID) : Prop :=
  exists i b, l_actions L !! i = Some b /\ action_key b = k.

(** An identifier that is already taken is taken by the same idempotency key. *)
Definition id_owned (a : GovernedAction) (L : Ledger) : Prop :=
  forall b, l_actions L !! ga_id a = Some b -> action_key b = action_key a.

(** Exceptions of the storage layer, which no service catches. *)
Definition storage_error (e : exn) : Prop :=
  match e with
  | IntegrityError _ | CaseNotFoundError _ => True
  | OtherError name _ => name = u "DBAPIError"
  | _ => False
  end.

(** Outcomes of [create_proposal]. *)
Inductive create_spec (a : GovernedAction) (e : AuditEventCreate) (L : Ledger) :
    result (GovernedAction * bool) -> Ledger -> Prop :=
  | create_replayed i b :
      l_actions L !! i = Some b -> action_key b = action_key a ->
      create_spec a e L (Ok (b, false)) L
  | create_stored L' :
      ~ has_key L (action_key a) -> l_actions L !! ga_id a = None ->
      l_actions L' = <[ga_id a := a]> (l_actions L) -> l_audit L' ≡ₚ e :: l_audit L ->
      create_spec a e L (Ok (a, true)) L'
  | create_failed x :
      storage_error x -> create_spec a e L (Raise x) L.

(** Outcomes of [save_transition]. *)
Inductive save_spec (a : GovernedAction) (e : AuditEventCreate) (expected : ActionStatus)
    (L : Ledger) : result GovernedAction -> Ledger -> Prop :=
  | save_missing :
      l_actions L !! ga_id a = None ->
      save_spec a e expected L (Raise (action_not_found (ga_id a))) L
  | save_conflict cur :
      l_actions L !! ga_id a = Some cur -> ga_status cur <> expected ->
      save_spec a e expected L (Raise (transition_conflict (ga_id a) (ga_status cur))) L
  | save_stored cur st L' :
      l_actions L !! ga_id a = Some cur -> ga_status cur = expected ->
      st = a \/ st = apply_transition cur a ->
      l_actions L' = <[ga_id a := st]> (l_actions L) -> l_audit L' ≡ₚ e :: l_audit L ->
      save_spec a e expected L (Ok a) L'
  | save_failed x :
      storage_error x -> save_spec a e expected L (Raise x) L.

(** Outcomes of [set_onboarding_decision] on the applied decisions. *)
Inductive supplier_spec (t : datetime) (i key : UUID) (args : SupplierDecisionArguments)
    (m : gmap UUID ExecutionReceipt) : result ExecutionReceipt -> gmap UUID ExecutionReceipt -> Prop :=
  | supplier_replayed r : m !! key = Some r -> supplier_spec t i key args m (Ok r) m
  | supplier_applied r :
      m !! key = None -> rc_action_id r = i -> rc_applied_decision r = args_decision args ->
      rc_executed_at r = t -> valid_ExecutionReceipt r = true ->
      supplier_spec t i key args m (Ok r) (<[key := r]> m).

(** ** Promises *)

(** [overwrites]: [create_proposal] files an action over one of another key that is stored
    under the same identifier, as a Python dict does and a primary key does not. *)
Class LedgerView (S : Type) := {
  ledger : S -> Ledger;
  applied : S -> gmap UUID ExecutionReceipt;
  repo_inv : S -> Prop;
  overwrites : bool;
}.
#[global] Arguments overwrites S {_}.

Class ActionRepositoryLaws (S : Type) `{!ActionRepository S, !LedgerView S} := {
  get_law Inv (R G : S -> S -> Prop) Q i s :
    (forall s', Inv s' -> repo_inv s') -> Reflexive G ->
    (forall s', R s s' -> Inv s' ->
       Q (of_option (action_not_found i) (l_actions (ledger s') !! i)) s') ->
    wp Inv R G (get_action i) Q s;
  create_law Inv (R G : S -> S -> Prop) Q fr a e m s :
    (forall s', Inv s' -> repo_inv s' /\ (overwrites S = true -> id_owned a (ledger s'))) -> Reflexive G -> PreOrder R ->
    valid_GovernedAction a = true -> ga_execution_receipt a = None ->
    (forall s' r s'', R s s' -> Inv s' -> repo_inv s'' ->
       create_spec a e (ledger s') r (ledger s'') -> applied s'' = applied s' ->
       Inv s'' /\ G s' s'' /\ Q r s'') ->
    wp Inv R G (create_proposal fr a e m) Q s;
  save_law Inv (R G : S -> S -> Prop) Q fr a e expected s :
    (forall s', Inv s' -> repo_inv s') -> Reflexive G ->
    valid_GovernedAction a = true ->
    (forall s', R s s' -> Inv s' -> forall b, l_actions (ledger s') !! ga_id a = Some b ->
       proposal_of b = proposal_of a) ->
    (forall s' r s'', R s s' -> Inv s' -> repo_inv s'' ->
       save_spec a e expected (ledger s') r (ledger s'') -> applied s'' = applied s' ->
       Inv s'' /\ G s' s'' /\ Q r s'') ->
    wp Inv R G (save_transition fr a e expected) Q s;
}.

(** A workflow start leaves the program's own state alone and returns a reference
    that fits its column. *)
Class ApprovalWorkflowLaws (S : Type) `{!ApprovalWorkflow S} := {
  start_law Inv (R G : S -> S -> Prop) Q a s :
    Reflexive G -> PreOrder R ->
    (forall r s', R s s' ->
       (forall ref, r = Ok ref -> len_between 0 2048 (length ref) = true) -> Q r s') ->
    wp Inv R G (start_workflow a) Q s;
}.

Class SupplierSystemLaws (S : Type) `{!SupplierSystem S, !LedgerView S} := {
  supplier_law Inv (R G : S -> S -> Prop) Q fr i key args s :
    (forall s', Inv s' -> repo_inv s') ->
    (forall s' r s'', R s s' -> Inv s' -> repo_inv s'' -> ledger s'' = ledger s' ->
       supplier_spec (now fr) i key args (applied s') r (applied s'') ->
       Inv s'' /\ G s' s'' /\ Q r s'') ->
    wp Inv R G (set_onboarding_decision fr i key args) Q s;
}.

(** ** Lemmas *)

Lemma apply_transition_proposal cur a : proposal_of (apply_transition cur a) = proposal_of cur.
Proof. done. Qed.

Lemma apply_transition_progress cur a : progress_of (apply_transition cur a) = progress_of a.
Proof. done. Qed.

Lemma valid_apply_transition cur a :
  valid_GovernedAction cur = true -> valid_GovernedAction a = true ->
  valid_GovernedAction (apply_transition cur a) = true.
Proof.
  unfold valid_GovernedAction. simpl. rewrite !andb_true_iff. tauto.
Qed.

Lemma valid_action_arguments a :
  valid_GovernedAction a = true -> valid_SupplierDecisionArguments (ga_arguments a) = true.
Proof. unfold valid_GovernedAction. rewrite !andb_true_iff. by intros [[[[[[_ ?] _] _] _] _] _]. Qed.

Lemma valid_action_receipt a r :
  valid_GovernedAction a = true -> ga_execution_receipt a = Some r -> valid_ExecutionReceipt r = true.
Proof. unfold valid_GovernedAction. rewrite !andb_true_iff. intros [_ Hr] Heq. by rewrite Heq in Hr. Qed.

Lemma proposal_of_id a b : proposal_of a = proposal_of b -> ga_id a = ga_id b.
Proof. unfold proposal_of. congruence. Qed.

Lemma proposal_of_key a b : proposal_of a = proposal_of b -> action_key a = action_key b.
Proof. unfold proposal_of, action_key. congruence. Qed.

#[export] Hint Resolve valid_apply_transition proposal_of_key : py.
