(* ===== verification/Database.v ===== *)
(** * The relational store

    The tables of [packages/persistence/models.py] and the migrations: one finite
    map per table from primary key to row, and the constraints an insertion must
    meet (primary keys, the two unique constraints, the foreign keys).  Columns
    keep their stored types: enumerations are strings, nested models are JSON, the
    components of a vector are single-precision numbers ([float4]).  A transaction is
    one atomic section; a failed one changes nothing and raises [IntegrityError] for a
    violated constraint, and [DBAPIError] for a value its column does not take
    ([column_fits]: a text that is too long or that PostgreSQL cannot hold, a vector of
    another dimension or out of range). *)
From S2P Require Import Prelude PyStr Uuid Effects Json Schemas SchemaJson Ledger.
From Corelib Require Import SpecFloat.

(** ** Rows *)

Record SupplierCaseRecord := {
  scr_id : UUID; scr_tenant_id : pystr; scr_supplier_name : pystr; scr_description : pystr;
  scr_status : pystr; scr_created_at : datetime; scr_updated_at : datetime;
}.

Record DocumentRecord := {
  dr_id : UUID; dr_case_id : UUID; dr_title : pystr; dr_position : Z; dr_content : pystr;
  dr_source_uri : option pystr; dr_checksum : option pystr; dr_metadata_json : list (pystr * json);
}.

Record DocumentChunkRecord := {
  chr_id : UUID; chr_document_id : UUID; chr_case_id : UUID; chr_position : Z;
  chr_heading : option pystr; chr_content : pystr; chr_token_count : Z;
  chr_metadata_json : list (pystr * json); chr_embedding : list float64;
}.

Record ReviewRunRecord := {
  rrr_id : UUID; rrr_case_id : UUID; rrr_model_backend : pystr; rrr_decision : option pystr;
  rrr_rationale : option pystr; rrr_required_actions_json : list pystr;
  rrr_confidence : option float64; rrr_started_at : datetime; rrr_completed_at : option datetime;
}.

Record FindingRecord := {
  fr_id : UUID; fr_review_run_id : UUID; fr_category : pystr; fr_severity : pystr;
  fr_title : pystr; fr_summary : pystr; fr_evidence_json : list json; fr_remediation : pystr;
  fr_confidence : float64;
}.

Record GovernedActionRecord := {
  gar_id : UUID; gar_case_id : UUID; gar_review_id : UUID; gar_tenant_id : pystr;
  gar_tool_name : pystr; gar_arguments_json : json; gar_status : pystr; gar_proposer_id : pystr;
  gar_approver_id : option pystr; gar_approval_comment : pystr; gar_idempotency_key : UUID;
  gar_workflow_execution_arn : option pystr; gar_execution_receipt_json : option json;
  gar_created_at : datetime; gar_decided_at : option datetime; gar_executed_at : option datetime;
}.

Record AuditEventRecord := {
  aer_id : UUID; aer_case_id : UUID; aer_event_type : pystr; aer_actor_id : pystr;
  aer_payload_json : list (pystr * json); aer_created_at : datetime;
}.

Record OutboxMessageRecord := {
  omr_id : UUID; omr_aggregate_type : pystr; omr_aggregate_id : UUID; omr_event_type : pystr;
  omr_payload_json : json; omr_attempt_count : Z; omr_available_at : datetime;
  omr_locked_at : option datetime; omr_locked_by : option pystr;
  omr_published_at : option datetime; omr_dead_lettered_at : option datetime;
  omr_last_error : option pystr; omr_delivery_result_json : option (list (pystr * pystr));
  omr_created_at : datetime;
}.

(** ** Tables *)

Record Db := {
  t_cases : gmap UUID SupplierCaseRecord;
  t_documents : gmap UUID DocumentRecord;
  t_chunks : gmap UUID DocumentChunkRecord;
  t_reviews : gmap UUID ReviewRunRecord;
  t_findings : gmap UUID FindingRecord;
  t_actions : gmap UUID GovernedActionRecord;
  t_audit : gmap UUID AuditEventRecord;
  t_outbox : gmap UUID OutboxMessageRecord;
}.

Definition db_empty : Db := {| t_cases := ∅; t_documents := ∅; t_chunks := ∅; t_reviews := ∅; t_findings := ∅;
  t_actions := ∅; t_audit := ∅; t_outbox := ∅ |}.

Definition put_case (r : SupplierCaseRecord) (d : Db) : Db := {|
  t_cases := <[scr_id r := r]> (t_cases d); t_documents := t_documents d; t_chunks := t_chunks d; t_reviews := t_reviews d;
  t_findings := t_findings d; t_actions := t_actions d; t_audit := t_audit d; t_outbox := t_outbox d |}.
Definition put_document (r : DocumentRecord) (d : Db) : Db := {|
  t_cases := t_cases d; t_documents := <[dr_id r := r]> (t_documents d); t_chunks := t_chunks d; t_reviews := t_reviews d;
  t_findings := t_findings d; t_actions := t_actions d; t_audit := t_audit d; t_outbox := t_outbox d |}.
Definition set_chunks (m : gmap UUID DocumentChunkRecord) (d : Db) : Db := {|
  t_cases := t_cases d; t_documents := t_documents d; t_chunks := m; t_reviews := t_reviews d;
  t_findings := t_findings d; t_actions := t_actions d; t_audit := t_audit d; t_outbox := t_outbox d |}.
Definition put_chunk (r : DocumentChunkRecord) (d : Db) : Db := set_chunks (<[chr_id r := r]> (t_chunks d)) d.
Definition put_review (r : ReviewRunRecord) (d : Db) : Db := {|
  t_cases := t_cases d; t_documents := t_documents d; t_chunks := t_chunks d; t_reviews := <[rrr_id r := r]> (t_reviews d);
  t_findings := t_findings d; t_actions := t_actions d; t_audit := t_audit d; t_outbox := t_outbox d |}.
Definition put_finding (r : FindingRecord) (d : Db) : Db := {|
  t_cases := t_cases d; t_documents := t_documents d; t_chunks := t_chunks d; t_reviews := t_reviews d;
  t_findings := <[fr_id r := r]> (t_findings d); t_actions := t_actions d; t_audit := t_audit d;
  t_outbox := t_outbox d |}.
Definition put_action (r : GovernedActionRecord) (d : Db) : Db := {|
  t_cases := t_cases d; t_documents := t_documents d; t_chunks := t_chunks d; t_reviews := t_reviews d;
  t_findings := t_findings d; t_actions := <[gar_id r := r]> (t_actions d); t_audit := t_audit d;
  t_outbox := t_outbox d |}.
Definition put_audit (r : AuditEventRecord) (d : Db) : Db := {|
  t_cases := t_cases d; t_documents := t_documents d; t_chunks := t_chunks d; t_reviews := t_reviews d;
  t_findings := t_findings d; t_actions := t_actions d; t_audit := <[aer_id r := r]> (t_audit d);
  t_outbox := t_outbox d |}.
Definition put_outbox (r : OutboxMessageRecord) (d : Db) : Db := {|
  t_cases := t_cases d; t_documents := t_documents d; t_chunks := t_chunks d; t_reviews := t_reviews d;
  t_findings := t_findings d; t_actions := t_actions d; t_audit := t_audit d;
  t_outbox := <[omr_id r := r]> (t_outbox d) |}.

(** ** Constraints *)

Inductive row :=
  | RowCase (r : SupplierCaseRecord)
  | RowDocument (r : DocumentRecord)
  | RowChunk (r : DocumentChunkRecord)
  | RowReview (r : ReviewRunRecord)
  | RowFinding (r : FindingRecord)
  | RowAction (r : GovernedActionRecord)
  | RowAudit (r : AuditEventRecord)
  | RowOutbox (r : OutboxMessageRecord).

Definition absent {V} (k : UUID) (m : gmap UUID V) : bool := negb (is_some (m !! k)).
Definition present {V} (k : UUID) (m : gmap UUID V) : bool := is_some (m !! k).

Definition row_key (r : GovernedActionRecord) : pystr * UUID := (gar_tenant_id r, gar_idempotency_key r).

(** [uq_governed_actions_tenant_idempotency] *)
Definition unique_action_key (r : GovernedActionRecord) (m : gmap UUID GovernedActionRecord) : bool :=
  forallb (fun '(_, r') => negb (bool_decide (row_key r' = row_key r))) (map_to_list m).

Definition outbox_key (r : OutboxMessageRecord) : pystr * UUID * pystr :=
  (omr_aggregate_type r, omr_aggregate_id r, omr_event_type r).

(** [uq_outbox_messages_aggregate_event] *)
Definition unique_outbox_key (r : OutboxMessageRecord) (m : gmap UUID OutboxMessageRecord) : bool :=
  forallb (fun '(_, r') => negb (bool_decide (outbox_key r' = outbox_key r))) (map_to_list m).

(** [INSERT]; [None] is a violated constraint. *)
Definition insert_row (r : row) (d : Db) : option Db :=
  match r with
  | RowCase r => if absent (scr_id r) (t_cases d) then Some (put_case r d) else None
  | RowDocument r =>
      if absent (dr_id r) (t_documents d) && present (dr_case_id r) (t_cases d)
      then Some (put_document r d) else None
  | RowChunk r =>
      if absent (chr_id r) (t_chunks d) && present (chr_document_id r) (t_documents d)
         && present (chr_case_id r) (t_cases d)
      then Some (put_chunk r d) else None
  | RowReview r =>
      if absent (rrr_id r) (t_reviews d) && present (rrr_case_id r) (t_cases d)
      then Some (put_review r d) else None
  | RowFinding r =>
      if absent (fr_id r) (t_findings d) && present (fr_review_run_id r) (t_reviews d)
      then Some (put_finding r d) else None
  | RowAction r =>
      if absent (gar_id r) (t_actions d) && unique_action_key r (t_actions d)
         && present (gar_case_id r) (t_cases d) && present (gar_review_id r) (t_reviews d)
      then Some (put_action r d) else None
  | RowAudit r =>
      if absent (aer_id r) (t_audit d) && present (aer_case_id r) (t_cases d)
      then Some (put_audit r d) else None
  | RowOutbox r =>
      if absent (omr_id r) (t_outbox d) && unique_outbox_key r (t_outbox d)
      then Some (put_outbox r d) else None
  end.

(** A text a column can hold: UTF-8 has no surrogates and PostgreSQL no U+0000. *)
Definition storable (s : pystr) : bool :=
  forallb (fun c => (0 <? c)%N && negb ((55296 <=? c)%N && (c <=? 57343)%N)) s.

(** [VARCHAR(n)] *)
Definition varchar (n : nat) (s : pystr) : bool := len_between 0 n (length s) && storable s.

(** A number as [VECTOR] keeps it: the nearest binary32. *)
Definition float4 (x : float64) : float64 :=
  match x with
  | S754_finite s m e =>
      match binary_round 24 128 s m e with
      | S754_finite s' m' e' => binary_round 53 1024 s' m' e'
      | y => y
      end
  | _ => x
  end.

(** The texts and the vector of a row fit their columns; a vector has no infinite or undefined
    component.  The columns whose values are literals of the code, enumerations or JSON are
    not listed: JSON text is ASCII, U+0000 an escape in it.  Nor are the columns of a message
    that a claim or a failure writes: worker names come from the environment and the host,
    errors are the names of classes. *)
Definition column_fits (r : row) : bool :=
  match r with
  | RowCase r => varchar 255 (scr_tenant_id r) && varchar 255 (scr_supplier_name r) && storable (scr_description r)
  | RowDocument r =>
      varchar 255 (dr_title r) && storable (dr_content r) && opt_forallb (varchar 2048) (dr_source_uri r)
  | RowChunk r =>
      opt_forallb (varchar 500) (chr_heading r) && storable (chr_content r)
      && (length (chr_embedding r) =? 1024)%nat && forallb is_finite (chr_embedding r)
  | RowReview r => varchar 64 (rrr_model_backend r) && opt_forallb storable (rrr_rationale r)
  | RowFinding r => varchar 255 (fr_title r) && storable (fr_summary r) && storable (fr_remediation r)
  | RowAction r =>
      varchar 255 (gar_tenant_id r) && varchar 255 (gar_proposer_id r) && opt_forallb (varchar 255) (gar_approver_id r)
      && storable (gar_approval_comment r) && opt_forallb (varchar 2048) (gar_workflow_execution_arn r)
  | RowAudit r => varchar 128 (aer_event_type r) && varchar 255 (aer_actor_id r)
  | RowOutbox _ => true
  end.

Definition integrity_error : exn := IntegrityError (u "IntegrityError").

(** A value the column does not take. *)
Definition data_error : exn := OtherError (u "DBAPIError") (u "invalid input").

(** The [INSERT]s of a flush: the first that fails decides the exception. *)
Definition flush_row (r : row) (d : Db) : result Db :=
  if column_fits r then of_option integrity_error (insert_row r d) else Raise data_error.

Fixpoint flush (rs : list row) (d : Db) : result Db :=
  match rs with
  | [] => Ok d
  | r :: rs' => d' ← flush_row r d; flush rs' d'
  end.

(** [session.add_all(rows); await session.commit()] *)
Definition commit (rs : list row) (d : Db) : result unit * Db :=
  match flush rs d with
  | Ok d' => (Ok tt, d')
  | Raise e => (Raise e, d)
  end.

(** ** Lemmas *)

Lemma absent_true {V} k (m : gmap UUID V) : absent k m = true <-> m !! k = None.
Proof. unfold absent, is_some. by destruct (m !! k). Qed.

Lemma present_true {V} k (m : gmap UUID V) : present k m = true <-> is_Some (m !! k).
Proof. unfold present. apply is_some_true. Qed.

Lemma unique_action_key_true r m :
  unique_action_key r m = true <-> forall i r', m !! i = Some r' -> row_key r' <> row_key r.
Proof.
  unfold unique_action_key. rewrite List.forallb_forall. split.
  - intros H i r' Hr'. specialize (H (i, r')). rewrite <- list_elem_of_In, elem_of_map_to_list in H.
    specialize (H Hr'). by apply negb_true_iff, bool_decide_eq_false in H.
  - intros H [i r'] Hin. apply list_elem_of_In, elem_of_map_to_list in Hin.
    apply negb_true_iff, bool_decide_eq_false. by eapply H.
Qed.

Lemma unique_outbox_key_true r m :
  unique_outbox_key r m = true <-> forall i r', m !! i = Some r' -> outbox_key r' <> outbox_key r.
Proof.
  unfold unique_outbox_key. rewrite List.forallb_forall. split.
  - intros H i r' Hr'. specialize (H (i, r')). rewrite <- list_elem_of_In, elem_of_map_to_list in H.
    specialize (H Hr'). by apply negb_true_iff, bool_decide_eq_false in H.
  - intros H [i r'] Hin. apply list_elem_of_In, elem_of_map_to_list in Hin.
    apply negb_true_iff, bool_decide_eq_false. by eapply H.
Qed.

Lemma flush_row_Ok r d d' : flush_row r d = Ok d' -> column_fits r = true /\ insert_row r d = Some d'.
Proof. unfold flush_row. destruct (column_fits r); [|done]. destruct (insert_row r d); naive_solver. Qed.

Lemma flush_row_error r d e : flush_row r d = Raise e -> e = integrity_error \/ e = data_error.
Proof. unfold flush_row. destruct (column_fits r); [destruct (insert_row r d)|]; naive_solver. Qed.

Lemma flush_error rs d e : flush rs d = Raise e -> e = integrity_error \/ e = data_error.
Proof.
  revert d. induction rs as [|r rs IH]; intros d; [done|]. cbn [flush].
  destruct (flush_row r d) as [d'|x] eqn:E; cbn [mbind result_bind]; [apply IH|].
  intros [= <-]. by eapply flush_row_error.
Qed.

Lemma commit_error rs d e d' : commit rs d = (Raise e, d') -> (e = integrity_error \/ e = data_error) /\ d' = d.
Proof. unfold commit. destruct (flush rs d) eqn:E; [done|]. intros [= <- <-]. split; [|done]. by eapply flush_error. Qed.
