(* ===== verification/Migrations.v ===== *)
(** * The schema and its migrations

    The Alembic scripts of [apps/api/migrations] as lists of operations on a catalogue and
    on the rows of its tables, the runner of [env.py], and the metadata the classes of
    [packages/persistence/models.py] declare.  What PostgreSQL refuses is a
    [ProgrammingError]; a run of the scripts is one transaction. *)
From S2P Require Import Prelude PyStr Uuid Effects Json Schemas Database.
From stdpp Require Import gmap.
Local Open Scope py_scope.

(** ** Catalogue *)

Inductive column_type :=
  | Uuid | String_ (length : N) | Text | DateTimeTz | Integer | Float_ | JSON_ | VECTOR (dim : N).

#[export] Instance column_type_eq_dec : EqDecision column_type.
Proof. solve_decision. Defined.

Record Column := {
  cl_name : pystr;
  cl_type : column_type;
  cl_nullable : bool;
  cl_server_default : option pystr;
}.

Inductive constraint :=
  | PrimaryKeyConstraint (columns : list pystr)
  | ForeignKeyConstraint (column : pystr) (target : pystr * pystr) (ondelete : pystr)
  | UniqueConstraint (columns : list pystr) (name : pystr).

(** An index: its columns, and the method and operator class when not the default. *)
Record IndexDef := { id_columns : list pystr; id_using : option (pystr * pystr) }.

(** Columns, foreign keys (by column), unique constraints and indexes (by name): order
    does not matter, since statements address them by name. *)
Record Table := {
  tb_columns : gmap pystr (column_type * bool * option pystr);
  tb_primary_key : list pystr;
  tb_foreign_keys : gmap pystr (pystr * pystr * pystr);
  tb_unique : gmap pystr (list pystr);
  tb_indexes : gmap pystr (list pystr * option (pystr * pystr));
}.

#[export] Instance table_eq_dec : EqDecision Table.
Proof. solve_decision. Defined.

Record Catalogue := {
  extensions : list pystr;
  tables : gmap pystr Table;
}.

Definition set_tables (m : gmap pystr Table) (c : Catalogue) : Catalogue := {| extensions := extensions c; tables := m |}.

Definition set_columns (m : gmap pystr (column_type * bool * option pystr)) (t : Table) : Table := {|
  tb_columns := m; tb_primary_key := tb_primary_key t; tb_foreign_keys := tb_foreign_keys t;
  tb_unique := tb_unique t; tb_indexes := tb_indexes t |}.
Definition set_indexes (m : gmap pystr (list pystr * option (pystr * pystr))) (t : Table) : Table := {|
  tb_columns := tb_columns t; tb_primary_key := tb_primary_key t; tb_foreign_keys := tb_foreign_keys t;
  tb_unique := tb_unique t; tb_indexes := m |}.

(** ** Operations *)

Inductive operation :=
  | Execute_create_extension (name : pystr)
  | CreateTable (name : pystr) (columns : list Column) (constraints : list constraint)
  | CreateIndex (name table : pystr) (definition : IndexDef)
  | DropTable (name : pystr)
  | AddColumn (table : pystr) (column : Column)
  | AlterServerDefault (table column : pystr) (server_default : option pystr)
  | DropIndex (name table : pystr)
  | DropColumn (table column : pystr).

Definition programming_error (why : string) : exn := OtherError (u "ProgrammingError") (u why).

Definition guard (b : bool) (why : string) : result unit := if b then Ok tt else Raise (programming_error why).

Definition find_table (name : pystr) (c : Catalogue) : result Table :=
  of_option (programming_error "relation does not exist") (tables c !! name).

Definition column_entry (cl : Column) : pystr * (column_type * bool * option pystr) :=
  (cl_name cl, (cl_type cl, cl_nullable cl, cl_server_default cl)).

Definition table_of (columns : list Column) (constraints : list constraint) : Table := {|
  tb_columns := list_to_map (column_entry <$> columns);
  tb_primary_key := constraints ≫= (fun k => match k with PrimaryKeyConstraint cs => cs | _ => [] end);
  tb_foreign_keys := list_to_map (omap (fun k => match k with
    | ForeignKeyConstraint c (t, tc) od => Some (c, (t, tc, od)) | _ => None end) constraints);
  tb_unique := list_to_map (omap (fun k => match k with UniqueConstraint cs n => Some (n, cs) | _ => None end) constraints);
  tb_indexes := ∅ |}.

(** Columns a constraint names, and the table it refers to. *)
Definition constraint_ok (c : Catalogue) (t : Table) (k : constraint) : bool :=
  let known cs := forallb (fun n => is_some (tb_columns t !! n)) cs in
  match k with
  | PrimaryKeyConstraint cs | UniqueConstraint cs _ => known cs
  | ForeignKeyConstraint cl (target, tc) _ =>
      known [cl] && match tables c !! target with Some t' => bool_decide (tb_primary_key t' = [tc]) | None => false end
  end.

Definition is_vector (ty : column_type) : bool := match ty with VECTOR _ => true | _ => false end.

(** Index names are those of the whole schema. *)
Definition index_known (name : pystr) (c : Catalogue) : bool :=
  existsb (fun nt => is_some (tb_indexes nt.2 !! name)) (map_to_list (tables c)).

Definition referenced (name : pystr) (c : Catalogue) : bool :=
  existsb (fun nt => negb (bool_decide (nt.1 = name))
                     && existsb (fun fk => bool_decide (fk.2.1.1 = name)) (map_to_list (tb_foreign_keys nt.2)))
          (map_to_list (tables c)).

Definition mentions (column : pystr) (cs : list pystr) : bool := bool_decide (column ∈ cs).

(** What an operation does to the catalogue. *)
Definition apply_schema (o : operation) (c : Catalogue) : result Catalogue :=
  match o with
  | Execute_create_extension n => Ok {| extensions := if mentions n (extensions c) then extensions c else n :: extensions c; tables := tables c |}
  | CreateTable name columns constraints =>
      let t := table_of columns constraints in
      _ ← guard (negb (is_some (tables c !! name))) "relation already exists";
      _ ← guard (bool_decide (NoDup (cl_name <$> columns))) "column specified more than once";
      _ ← guard (forallb (constraint_ok c t) constraints) "constraint names an unknown column or table";
      _ ← guard (negb (existsb (fun cl => is_vector (cl_type cl)) columns) || mentions (u "vector") (extensions c)) "type vector does not exist";
      Ok (set_tables (<[name := t]> (tables c)) c)
  | CreateIndex name table definition =>
      t ← find_table table c;
      _ ← guard (forallb (fun n => is_some (tb_columns t !! n)) (id_columns definition)) "column does not exist";
      _ ← guard (negb (index_known name c)) "relation already exists";
      Ok (set_tables (<[table := set_indexes (<[name := (id_columns definition, id_using definition)]> (tb_indexes t)) t]> (tables c)) c)
  | DropTable name =>
      _ ← find_table name c;
      _ ← guard (negb (referenced name c)) "other objects depend on it";
      Ok (set_tables (delete name (tables c)) c)
  | AddColumn table column =>
      t ← find_table table c;
      _ ← guard (negb (is_some (tb_columns t !! cl_name column))) "column already exists";
      let '(name, entry) := column_entry column in
      Ok (set_tables (<[table := set_columns (<[name := entry]> (tb_columns t)) t]> (tables c)) c)
  | AlterServerDefault table column server_default =>
      t ← find_table table c;
      entry ← of_option (programming_error "column does not exist") (tb_columns t !! column);
      let '(ty, nullable, _) := entry : column_type * bool * option pystr in
      Ok (set_tables (<[table := set_columns (<[column := (ty, nullable, server_default)]> (tb_columns t)) t]> (tables c)) c)
  | DropIndex name table =>
      t ← find_table table c;
      _ ← guard (is_some (tb_indexes t !! name)) "index does not exist";
      Ok (set_tables (<[table := set_indexes (delete name (tb_indexes t)) t]> (tables c)) c)
  | DropColumn table column =>
      t ← find_table table c;
      _ ← guard (is_some (tb_columns t !! column)) "column does not exist";
      _ ← guard (negb (mentions column (tb_primary_key t) && referenced table c)) "other objects depend on it";
      Ok (set_tables (<[table := {|
        tb_columns := delete column (tb_columns t);
        tb_primary_key := if mentions column (tb_primary_key t) then [] else tb_primary_key t;
        tb_foreign_keys := delete column (tb_foreign_keys t);
        tb_unique := filter (fun kv => mentions column kv.2 = false) (tb_unique t);
        tb_indexes := filter (fun kv => mentions column kv.2.1 = false) (tb_indexes t) |}]> (tables c)) c)
  end.

(** ** Rows *)

Inductive value_ :=
  | VNull | VUuid (i : UUID) | VStr (s : pystr) | VInt (z : Z) | VFloat (f : float64) | VTime (t : datetime)
  | VJson (j : json) | VVector (v : list float64).

(** A row: the values of its columns. *)
Abbreviation Row := (list (pystr * value_)).
Abbreviation Rows := (gmap pystr (list Row)).

(** What an operation does to the rows; a column is added with its server default, and
    without one it must be nullable or the table empty. *)
Definition default_value (column : Column) : value_ :=
  match cl_server_default column with Some s => VStr s | None => VNull end.

Definition without (column : pystr) (r : Row) : Row := List.filter (fun nv => negb (pystr_eqb nv.1 column)) r.

Definition apply_rows (o : operation) (m : Rows) : result Rows :=
  match o with
  | CreateTable name _ _ => Ok (<[name := []]> m)
  | DropTable name => Ok (delete name m)
  | AddColumn table column =>
      _ ← guard (cl_nullable column || is_some (cl_server_default column) || bool_decide (default [] (m !! table) = []))
            "column contains null values";
      Ok (alter (fmap (fun r => r ++ [(cl_name column, default_value column)])) table m)
  | DropColumn table column => Ok (alter (fmap (without column)) table m)
  | _ => Ok m
  end.

Record Store := { st_schema : Catalogue; st_rows : Rows }.

Definition apply_operation (o : operation) (s : Store) : result Store :=
  schema ← apply_schema o (st_schema s);
  rows ← apply_rows o (st_rows s);
  Ok {| st_schema := schema; st_rows := rows |}.

Fixpoint apply_all {A} (step : operation -> A -> result A) (os : list operation) (a : A) : result A :=
  match os with
  | [] => Ok a
  | o :: os => a' ← step o a; apply_all step os a'
  end.

Definition empty_store : Store := {| st_schema := {| extensions := []; tables := ∅ |}; st_rows := ∅ |}.

(** ** The scripts *)

(** [sa.Column(name, type, nullable=...)] *)
Definition column (name : string) (ty : column_type) : Column :=
  {| cl_name := u name; cl_type := ty; cl_nullable := false; cl_server_default := None |}.
Definition nullable (name : string) (ty : column_type) : Column :=
  {| cl_name := u name; cl_type := ty; cl_nullable := true; cl_server_default := None |}.
Definition primary_key_id : constraint := PrimaryKeyConstraint [u "id"].
(** [sa.ForeignKeyConstraint([column], ["target.id"], ondelete="CASCADE")] *)
Definition foreign_key (cl target : string) : constraint := ForeignKeyConstraint (u cl) (u target, u "id") (u "CASCADE").
(** [op.create_index(name, table, columns)] *)
Definition index (name table : string) (columns : list string) : operation :=
  CreateIndex (u name) (u table) {| id_columns := u <$> columns; id_using := None |}.

(** [0001_initial.upgrade] *)
Definition upgrade_0001 : list operation := [
  Execute_create_extension (u "vector");
  CreateTable (u "supplier_cases")
    [column "id" Uuid; column "supplier_name" (String_ 255); column "description" Text; column "status" (String_ 32);
     column "created_at" DateTimeTz; column "updated_at" DateTimeTz] [primary_key_id];
  index "ix_supplier_cases_status" "supplier_cases" ["status"];
  index "ix_supplier_cases_supplier_name" "supplier_cases" ["supplier_name"];
  CreateTable (u "documents")
    [column "id" Uuid; column "case_id" Uuid; column "title" (String_ 255); column "position" Integer; column "content" Text;
     nullable "source_uri" (String_ 2048); nullable "checksum" (String_ 64); column "metadata_json" JSON_]
    [foreign_key "case_id" "supplier_cases"; primary_key_id];
  index "ix_documents_case_id" "documents" ["case_id"];
  CreateTable (u "document_chunks")
    [column "id" Uuid; column "document_id" Uuid; column "case_id" Uuid; column "position" Integer; nullable "heading" (String_ 500);
     column "content" Text; column "token_count" Integer; column "metadata_json" JSON_; column "embedding" (VECTOR 1024)]
    [foreign_key "case_id" "supplier_cases"; foreign_key "document_id" "documents"; primary_key_id];
  index "ix_document_chunks_case_id" "document_chunks" ["case_id"];
  index "ix_document_chunks_document_id" "document_chunks" ["document_id"];
  CreateIndex (u "ix_document_chunks_embedding_hnsw") (u "document_chunks")
    {| id_columns := [u "embedding"]; id_using := Some (u "hnsw", u "vector_cosine_ops") |};
  CreateTable (u "review_runs")
    [column "id" Uuid; column "case_id" Uuid; column "model_backend" (String_ 64); nullable "decision" (String_ 32);
     nullable "rationale" Text; column "required_actions_json" JSON_; nullable "confidence" Float_;
     column "started_at" DateTimeTz; nullable "completed_at" DateTimeTz]
    [foreign_key "case_id" "supplier_cases"; primary_key_id];
  index "ix_review_runs_case_id" "review_runs" ["case_id"];
  CreateTable (u "findings")
    [column "id" Uuid; column "review_run_id" Uuid; column "category" (String_ 32); column "severity" (String_ 16);
     column "title" (String_ 255); column "summary" Text; column "evidence_json" JSON_; column "remediation" Text;
     column "confidence" Float_]
    [foreign_key "review_run_id" "review_runs"; primary_key_id];
  index "ix_findings_category" "findings" ["category"];
  index "ix_findings_review_run_id" "findings" ["review_run_id"];
  index "ix_findings_severity" "findings" ["severity"];
  CreateTable (u "audit_events")
    [column "id" Uuid; column "case_id" Uuid; column "event_type" (String_ 128); column "actor_id" (String_ 255);
     column "payload_json" JSON_; column "created_at" DateTimeTz]
    [foreign_key "case_id" "supplier_cases"; primary_key_id];
  index "ix_audit_events_case_id" "audit_events" ["case_id"];
  index "ix_audit_events_created_at" "audit_events" ["created_at"];
  index "ix_audit_events_event_type" "audit_events" ["event_type"]].

(** [0001_initial.downgrade] *)
Definition downgrade_0001 : list operation :=
  DropTable <$> [u "audit_events"; u "findings"; u "review_runs"; u "document_chunks"; u "documents"; u "supplier_cases"].

(** [0002_governed_actions] *)
Definition legacy_tenant : Column :=
  {| cl_name := u "tenant_id"; cl_type := String_ 255; cl_nullable := false; cl_server_default := Some (u "legacy") |}.

Definition upgrade_0002 : list operation := [
  AddColumn (u "supplier_cases") legacy_tenant;
  AlterServerDefault (u "supplier_cases") (u "tenant_id") None;
  index "ix_supplier_cases_tenant_id" "supplier_cases" ["tenant_id"];
  CreateTable (u "governed_actions")
    [column "id" Uuid; column "case_id" Uuid; column "review_id" Uuid; column "tenant_id" (String_ 255);
     column "tool_name" (String_ 128); column "arguments_json" JSON_; column "status" (String_ 32);
     column "proposer_id" (String_ 255); nullable "approver_id" (String_ 255); column "approval_comment" Text;
     column "idempotency_key" Uuid; nullable "workflow_execution_arn" (String_ 2048); nullable "execution_receipt_json" JSON_;
     column "created_at" DateTimeTz; nullable "decided_at" DateTimeTz; nullable "executed_at" DateTimeTz]
    [foreign_key "case_id" "supplier_cases"; foreign_key "review_id" "review_runs"; primary_key_id;
     UniqueConstraint [u "tenant_id"; u "idempotency_key"] (u "uq_governed_actions_tenant_idempotency")];
  index "ix_governed_actions_case_id" "governed_actions" ["case_id"];
  index "ix_governed_actions_review_id" "governed_actions" ["review_id"];
  index "ix_governed_actions_status" "governed_actions" ["status"];
  index "ix_governed_actions_tenant_id" "governed_actions" ["tenant_id"]].

Definition downgrade_0002 : list operation := [
  DropTable (u "governed_actions");
  DropIndex (u "ix_supplier_cases_tenant_id") (u "supplier_cases");
  DropColumn (u "supplier_cases") (u "tenant_id")].

(** [0003_transactional_outbox] *)
Definition upgrade_0003 : list operation := [
  CreateTable (u "outbox_messages")
    [column "id" Uuid; column "aggregate_type" (String_ 64); column "aggregate_id" Uuid; column "event_type" (String_ 128);
     column "payload_json" JSON_; column "attempt_count" Integer; column "available_at" DateTimeTz;
     nullable "locked_at" DateTimeTz; nullable "locked_by" (String_ 255); nullable "published_at" DateTimeTz;
     nullable "dead_lettered_at" DateTimeTz; nullable "last_error" (String_ 255); nullable "delivery_result_json" JSON_;
     column "created_at" DateTimeTz]
    [primary_key_id; UniqueConstraint [u "aggregate_type"; u "aggregate_id"; u "event_type"] (u "uq_outbox_messages_aggregate_event")];
  index "ix_outbox_messages_aggregate_id" "outbox_messages" ["aggregate_id"];
  index "ix_outbox_messages_created_at" "outbox_messages" ["created_at"];
  index "ix_outbox_messages_dispatch" "outbox_messages" ["published_at"; "dead_lettered_at"; "available_at"];
  index "ix_outbox_messages_event_type" "outbox_messages" ["event_type"]].

Definition downgrade_0003 : list operation := [DropTable (u "outbox_messages")].

(** [revision], [down_revision], [upgrade] and [downgrade] of each script. *)
Record Script := {
  revision : pystr;
  down_revision : option pystr;
  upgrade : list operation;
  downgrade : list operation;
}.

Definition script_0001 : Script := {|
  revision := u "0001_initial"; down_revision := None; upgrade := upgrade_0001; downgrade := downgrade_0001 |}.
Definition script_0002 : Script := {|
  revision := u "0002_governed_actions"; down_revision := Some (u "0001_initial"); upgrade := upgrade_0002; downgrade := downgrade_0002 |}.
Definition script_0003 : Script := {|
  revision := u "0003_transactional_outbox"; down_revision := Some (u "0002_governed_actions");
  upgrade := upgrade_0003; downgrade := downgrade_0003 |}.

Definition scripts : list Script := [script_0001; script_0002; script_0003].

(** ** The runner *)

(** A database with the revision Alembic recorded in it. *)
Record Migrated := { at_revision : option pystr; store : Store }.

Fixpoint find_script (p : Script -> bool) (l : list Script) : option Script :=
  match l with [] => None | s :: l => if p s then Some s else find_script p l end.

(** The scripts that lead from a revision to the head, by [down_revision]. *)
Fixpoint path_up (fuel : nat) (from : option pystr) : list Script :=
  match fuel with
  | O => []
  | S fuel =>
      match find_script (fun s => bool_decide (down_revision s = from)) scripts with
      | Some s => s :: path_up fuel (Some (revision s))
      | None => []
      end
  end.

(** The scripts to undo from a revision down to another. *)
Fixpoint path_down (fuel : nat) (from target : option pystr) : list Script :=
  match fuel, from with
  | S fuel, Some r =>
      if bool_decide (from = target) then []
      else match find_script (fun s => bool_decide (revision s = r)) scripts with
           | Some s => s :: path_down fuel (down_revision s) target
           | None => []
           end
  | _, _ => []
  end.

Definition upgrade_step (s : Script) (m : Migrated) : result Migrated :=
  st ← apply_all apply_operation (upgrade s) (store m); Ok {| at_revision := Some (revision s); store := st |}.

Definition downgrade_step (s : Script) (m : Migrated) : result Migrated :=
  st ← apply_all apply_operation (downgrade s) (store m); Ok {| at_revision := down_revision s; store := st |}.

Fixpoint run_steps (step : Script -> Migrated -> result Migrated) (ss : list Script) (m : Migrated) : result Migrated :=
  match ss with [] => Ok m | s :: ss => m' ← step s m; run_steps step ss m' end.

(** [with context.begin_transaction(): context.run_migrations()] *)
Definition do_run_migrations (go : Migrated -> result Migrated) : prog Migrated unit :=
  atomic (fun m => match go m with Ok m' => (Ok tt, m') | Raise e => (Raise e, m) end).

(** [alembic upgrade head] and [alembic downgrade target] *)
Definition upgrade_head : prog Migrated unit :=
  do_run_migrations (fun m => run_steps upgrade_step (path_up (length scripts) (at_revision m)) m).
Definition downgrade_to (target : option pystr) : prog Migrated unit :=
  do_run_migrations (fun m => run_steps downgrade_step (path_down (S (length scripts)) (at_revision m) target) m).

(** ** The metadata of the mapped classes *)

(** [mapped_column] with its annotation: the attribute, its type, whether [None] is
    allowed, [primary_key], [index] and [ForeignKey(..., ondelete="CASCADE")]. *)
Record MappedColumn := {
  mc_name : pystr;
  mc_type : column_type;
  mc_optional : bool;
  mc_primary_key : bool;
  mc_index : bool;
  mc_foreign_key : option pystr;
}.

(** A class: [__tablename__], its columns and [__table_args__]. *)
Record MappedClass := {
  tablename : pystr;
  mapped : list MappedColumn;
  unique_constraints : list (list pystr * pystr);
  table_indexes : list (pystr * list pystr);
}.

Definition plain_column (name : string) (ty : column_type) : MappedColumn := {|
  mc_name := u name; mc_type := ty; mc_optional := false; mc_primary_key := false; mc_index := false; mc_foreign_key := None |}.
Definition optional_column (name : string) (ty : column_type) : MappedColumn := {|
  mc_name := u name; mc_type := ty; mc_optional := true; mc_primary_key := false; mc_index := false; mc_foreign_key := None |}.
Definition indexed_column (name : string) (ty : column_type) : MappedColumn := {|
  mc_name := u name; mc_type := ty; mc_optional := false; mc_primary_key := false; mc_index := true; mc_foreign_key := None |}.
Definition id_column : MappedColumn := {|
  mc_name := u "id"; mc_type := Uuid; mc_optional := false; mc_primary_key := true; mc_index := false; mc_foreign_key := None |}.
Definition reference_column (name target : string) : MappedColumn := {|
  mc_name := u name; mc_type := Uuid; mc_optional := false; mc_primary_key := false; mc_index := true; mc_foreign_key := Some (u target) |}.

Definition mapped_class (name : string) (columns : list MappedColumn) : MappedClass :=
  {| tablename := u name; mapped := columns; unique_constraints := []; table_indexes := [] |}.

Definition SupplierCaseClass : MappedClass := mapped_class "supplier_cases"
  [id_column; indexed_column "tenant_id" (String_ 255); indexed_column "supplier_name" (String_ 255); plain_column "description" Text;
   indexed_column "status" (String_ 32); plain_column "created_at" DateTimeTz; plain_column "updated_at" DateTimeTz].

Definition DocumentClass : MappedClass := mapped_class "documents"
  [id_column; reference_column "case_id" "supplier_cases"; plain_column "title" (String_ 255); plain_column "position" Integer;
   plain_column "content" Text; optional_column "source_uri" (String_ 2048); optional_column "checksum" (String_ 64);
   plain_column "metadata_json" JSON_].

Definition DocumentChunkClass : MappedClass := mapped_class "document_chunks"
  [id_column; reference_column "document_id" "documents"; reference_column "case_id" "supplier_cases"; plain_column "position" Integer;
   optional_column "heading" (String_ 500); plain_column "content" Text; plain_column "token_count" Integer;
   plain_column "metadata_json" JSON_; plain_column "embedding" (VECTOR 1024)].

Definition ReviewRunClass : MappedClass := mapped_class "review_runs"
  [id_column; reference_column "case_id" "supplier_cases"; plain_column "model_backend" (String_ 64);
   optional_column "decision" (String_ 32); optional_column "rationale" Text; plain_column "required_actions_json" JSON_;
   optional_column "confidence" Float_; plain_column "started_at" DateTimeTz; optional_column "completed_at" DateTimeTz].

Definition FindingClass : MappedClass := mapped_class "findings"
  [id_column; reference_column "review_run_id" "review_runs"; indexed_column "category" (String_ 32);
   indexed_column "severity" (String_ 16); plain_column "title" (String_ 255); plain_column "summary" Text;
   plain_column "evidence_json" JSON_; plain_column "remediation" Text; plain_column "confidence" Float_].

Definition GovernedActionClass : MappedClass := {|
  tablename := u "governed_actions";
  mapped := [id_column; reference_column "case_id" "supplier_cases"; reference_column "review_id" "review_runs";
    indexed_column "tenant_id" (String_ 255); plain_column "tool_name" (String_ 128); plain_column "arguments_json" JSON_;
    indexed_column "status" (String_ 32); plain_column "proposer_id" (String_ 255); optional_column "approver_id" (String_ 255);
    plain_column "approval_comment" Text; plain_column "idempotency_key" Uuid; optional_column "workflow_execution_arn" (String_ 2048);
    optional_column "execution_receipt_json" JSON_; plain_column "created_at" DateTimeTz; optional_column "decided_at" DateTimeTz;
    optional_column "executed_at" DateTimeTz];
  unique_constraints := [([u "tenant_id"; u "idempotency_key"], u "uq_governed_actions_tenant_idempotency")];
  table_indexes := [] |}.

Definition AuditEventClass : MappedClass := mapped_class "audit_events"
  [id_column; reference_column "case_id" "supplier_cases"; indexed_column "event_type" (String_ 128);
   plain_column "actor_id" (String_ 255); plain_column "payload_json" JSON_; indexed_column "created_at" DateTimeTz].

Definition OutboxMessageClass : MappedClass := {|
  tablename := u "outbox_messages";
  mapped := [id_column; plain_column "aggregate_type" (String_ 64); indexed_column "aggregate_id" Uuid;
    indexed_column "event_type" (String_ 128); plain_column "payload_json" JSON_; plain_column "attempt_count" Integer;
    plain_column "available_at" DateTimeTz; optional_column "locked_at" DateTimeTz; optional_column "locked_by" (String_ 255);
    optional_column "published_at" DateTimeTz; optional_column "dead_lettered_at" DateTimeTz; optional_column "last_error" (String_ 255);
    optional_column "delivery_result_json" JSON_; indexed_column "created_at" DateTimeTz];
  unique_constraints := [([u "aggregate_type"; u "aggregate_id"; u "event_type"], u "uq_outbox_messages_aggregate_event")];
  table_indexes := [(u "ix_outbox_messages_dispatch", [u "published_at"; u "dead_lettered_at"; u "available_at"])] |}.

(** [index=True] on a column names the index after the table and the column. *)
Definition column_index (table : pystr) (m : MappedColumn) : option (pystr * (list pystr * option (pystr * pystr))) :=
  if mc_index m then Some (u "ix_" ++ table ++ u "_" ++ mc_name m, ([mc_name m], None)) else None.

(** The table of a class, as [Base.metadata] has it. *)
Definition class_table (c : MappedClass) : Table := {|
  tb_columns := list_to_map ((fun m => (mc_name m, (mc_type m, mc_optional m, None))) <$> mapped c);
  tb_primary_key := mc_name <$> List.filter mc_primary_key (mapped c);
  tb_foreign_keys := list_to_map (omap (fun m => (fun t => (mc_name m, (t, u "id", u "CASCADE"))) <$> mc_foreign_key m) (mapped c));
  tb_unique := list_to_map ((fun '(cs, n) => (n, cs)) <$> unique_constraints c);
  tb_indexes := list_to_map (omap (column_index (tablename c)) (mapped c) ++ ((fun '(n, cs) => (n, (cs, None))) <$> table_indexes c)) |}.

(** [Base.metadata] *)
Definition metadata : gmap pystr Table :=
  list_to_map ((fun c => (tablename c, class_table c)) <$>
    [SupplierCaseClass; DocumentClass; DocumentChunkClass; ReviewRunClass; FindingClass; GovernedActionClass; AuditEventClass;
     OutboxMessageClass]).

(** The catalogue after the scripts up to a revision. *)
Definition schema_after (ss : list Script) : Catalogue :=
  match run_steps upgrade_step ss {| at_revision := None; store := empty_store |} with
  | Ok m => st_schema (store m)
  | Raise _ => st_schema empty_store
  end.
Definition schema_0001 : Catalogue := schema_after [script_0001].
Definition head_schema : Catalogue := schema_after scripts.

(** The index only the first script has. *)
Definition with_hnsw (m : gmap pystr Table) : gmap pystr Table :=
  alter (fun t => set_indexes (<[u "ix_document_chunks_embedding_hnsw" :=
    ([u "embedding"], Some (u "hnsw", u "vector_cosine_ops"))]> (tb_indexes t)) t) (u "document_chunks") m.

Example migrated_is_metadata : tables head_schema = with_hnsw metadata.
Proof. apply (bool_decide_unpack _). vm_compute. exact I. Qed.
