(* ===== verification/MigrationTheorems.v ===== *)
(** * What the migrations guarantee

    The scripts run from every revision, the schema they end in is the one the mapped
    classes declare, they keep the rows, and what a downgrade restores and loses. *)
From S2P Require Import Prelude PyStr Uuid Effects Json Schemas Database Migrations.
Local Open Scope py_scope.

#[export] Instance catalogue_eq_dec : EqDecision Catalogue.
Proof. solve_decision. Defined.

(** ** Schema and rows move separately *)

Lemma apply_all_split os c c' m m' :
  apply_all apply_schema os c = Ok c' -> apply_all apply_rows os m = Ok m' ->
  apply_all apply_operation os {| st_schema := c; st_rows := m |} = Ok {| st_schema := c'; st_rows := m' |}.
Proof.
  revert c m. induction os as [|o os IH]; intros c m; cbn [apply_all]; [by intros [= ->] [= ->]|].
  destruct (apply_schema o c) as [c1|e] eqn:Ec; [|done]. destruct (apply_rows o m) as [m1|e] eqn:Em; [|done].
  assert (apply_operation o {| st_schema := c; st_rows := m |} = Ok {| st_schema := c1; st_rows := m1 |}) as ->
    by (unfold apply_operation; cbn [st_schema st_rows]; by rewrite Ec; cbn [mbind result_bind]; rewrite Em).
  cbn [mbind result_bind]. apply IH.
Qed.

(** A run on the catalogue, decided by evaluation. *)
Definition leads_to (os : list operation) (c c' : Catalogue) : bool :=
  match apply_all apply_schema os c with Ok c1 => bool_decide (c1 = c') | Raise _ => false end.

Lemma leads_to_true os c c' : leads_to os c c' = true -> apply_all apply_schema os c = Ok c'.
Proof.
  unfold leads_to. destruct (apply_all apply_schema os c); [|done]. intros H. apply bool_decide_eq_true in H. by subst.
Qed.

Definition schema_0002 : Catalogue := schema_after [script_0001; script_0002].

(** The catalogue a database has at each revision. *)
Definition schema_at (r : option pystr) : Catalogue :=
  match r with
  | None => st_schema empty_store
  | Some r => if pystr_eqb r (revision script_0001) then schema_0001
              else if pystr_eqb r (revision script_0002) then schema_0002 else head_schema
  end.

(** The rows of the tables after each script. *)
Definition tables_0001 : list pystr :=
  [u "supplier_cases"; u "documents"; u "document_chunks"; u "review_runs"; u "findings"; u "audit_events"].
Definition rows_0001 (m : Rows) : Rows := foldl (fun m n => <[n := []]> m) m tables_0001.
Definition rows_0002 (m : Rows) : Rows :=
  <[u "governed_actions" := []]> (alter (fmap (fun r => r ++ [(u "tenant_id", VStr (u "legacy"))])) (u "supplier_cases") m).
Definition rows_0003 (m : Rows) : Rows := <[u "outbox_messages" := []]> m.

Definition undo_0002 (m : Rows) : Rows :=
  alter (fmap (without (u "tenant_id"))) (u "supplier_cases") (delete (u "governed_actions") m).
Definition undo_0003 (m : Rows) : Rows := delete (u "outbox_messages") m.

Definition at_ (r : option pystr) (m : Rows) : Migrated :=
  {| at_revision := r; store := {| st_schema := schema_at r; st_rows := m |} |}.

Lemma step_up s r m m' :
  revision s = r ->
  leads_to (upgrade s) (schema_at (down_revision s)) (schema_at (Some r)) = true -> apply_all apply_rows (upgrade s) m = Ok m' ->
  upgrade_step s (at_ (down_revision s) m) = Ok (at_ (Some r) m').
Proof.
  intros <- Hs Hr. unfold upgrade_step, at_. cbn [store].
  by rewrite (apply_all_split _ _ _ _ _ (leads_to_true _ _ _ Hs) Hr).
Qed.

Lemma step_down s m m' :
  leads_to (downgrade s) (schema_at (Some (revision s))) (schema_at (down_revision s)) = true -> apply_all apply_rows (downgrade s) m = Ok m' ->
  downgrade_step s (at_ (Some (revision s)) m) = Ok (at_ (down_revision s) m').
Proof.
  intros Hs Hr. unfold downgrade_step, at_. cbn [store].
  by rewrite (apply_all_split _ _ _ _ _ (leads_to_true _ _ _ Hs) Hr).
Qed.

Lemma up_0001 m : upgrade_step script_0001 (at_ None m) = Ok (at_ (Some (revision script_0001)) (rows_0001 m)).
Proof. apply (step_up script_0001); [done|vm_compute; reflexivity|reflexivity]. Qed.
Lemma up_0002 m : upgrade_step script_0002 (at_ (Some (revision script_0001)) m) = Ok (at_ (Some (revision script_0002)) (rows_0002 m)).
Proof. apply (step_up script_0002); [done|vm_compute; reflexivity|reflexivity]. Qed.
Lemma up_0003 m : upgrade_step script_0003 (at_ (Some (revision script_0002)) m) = Ok (at_ (Some (revision script_0003)) (rows_0003 m)).
Proof. apply (step_up script_0003); [done|vm_compute; reflexivity|reflexivity]. Qed.
Lemma down_0003 m : downgrade_step script_0003 (at_ (Some (revision script_0003)) m) = Ok (at_ (Some (revision script_0002)) (undo_0003 m)).
Proof. apply (step_down script_0003); [vm_compute; reflexivity|reflexivity]. Qed.
Lemma down_0002 m : downgrade_step script_0002 (at_ (Some (revision script_0002)) m) = Ok (at_ (Some (revision script_0001)) (undo_0002 m)).
Proof. apply (step_down script_0002); [vm_compute; reflexivity|reflexivity]. Qed.

(** ** Whole runs *)

Lemma run_steps_snoc step ss s m m1 m2 :
  run_steps step ss m = Ok m1 -> step s m1 = Ok m2 -> run_steps step (ss ++ [s]) m = Ok m2.
Proof.
  revert m. induction ss as [|s' ss IH]; intros m; cbn [run_steps app]; [intros [= ->] ->; done|].
  destruct (step s' m) as [m'|e]; [|done]. cbn [mbind result_bind]. apply IH.
Qed.

Lemma run_go go m m' : go m = Ok m' -> run (do_run_migrations go) m = (Ok tt, m').
Proof. intros H. unfold do_run_migrations. by rewrite run_atomic, H. Qed.

Lemma upgrade_from_0001 m :
  run upgrade_head (at_ (Some (revision script_0001)) m) = (Ok tt, at_ (Some (revision script_0003)) (rows_0003 (rows_0002 m))).
Proof.
  apply run_go. change (path_up (length scripts) _) with ([script_0002] ++ [script_0003]).
  eapply run_steps_snoc; [|apply up_0003]. change [script_0002] with ([] ++ [script_0002]).
  eapply run_steps_snoc; [reflexivity|apply up_0002].
Qed.

Lemma upgrade_from_nothing :
  run upgrade_head (at_ None ∅) = (Ok tt, at_ (Some (revision script_0003)) (rows_0003 (rows_0002 (rows_0001 ∅)))).
Proof.
  apply run_go. change (path_up (length scripts) _) with (([] ++ [script_0001]) ++ [script_0002] ++ [script_0003]).
  rewrite app_assoc. eapply run_steps_snoc; [|apply up_0003]. eapply run_steps_snoc; [|apply up_0002].
  eapply run_steps_snoc; [reflexivity|apply up_0001].
Qed.

Lemma downgrade_from_head m :
  run (downgrade_to (Some (revision script_0001))) (at_ (Some (revision script_0003)) m)
  = (Ok tt, at_ (Some (revision script_0001)) (undo_0002 (undo_0003 m))).
Proof.
  apply run_go. change (path_down (S (length scripts)) _ _) with (([] ++ [script_0003]) ++ [script_0002]).
  eapply run_steps_snoc; [|apply down_0002]. eapply run_steps_snoc; [reflexivity|apply down_0003].
Qed.

Lemma head_is_metadata : tables head_schema = with_hnsw metadata.
Proof. apply (bool_decide_unpack _). vm_compute. exact I. Qed.

(** ** Rows *)

(** Rows of the first revision: none in the tables of later scripts, and no tenant. *)
Record first_rows (m : Rows) : Prop := {
  fr_actions : m !! u "governed_actions" = None;
  fr_messages : m !! u "outbox_messages" = None;
  fr_untenanted : forall rs, m !! u "supplier_cases" = Some rs -> Forall (fun r => u "tenant_id" ∉ r.*1) rs;
}.

Lemma without_absent column r : column ∉ r.*1 -> without column r = r.
Proof.
  induction r as [|[n v] r IH]; [done|]. cbn [fmap list_fmap]. intros [Hn Hr]%not_elem_of_cons. cbn [without List.filter fst].
  destruct (pystr_eqb n column) eqn:E; [apply pystr_eqb_eq in E; by subst|]. cbn [negb]. f_equal. by apply IH.
Qed.

Lemma without_added column r v : column ∉ r.*1 -> without column (r ++ [(column, v)]) = r.
Proof.
  intros Hr. unfold without. rewrite List.filter_app. fold (without column r). rewrite without_absent by done.
  cbn [List.filter fst]. rewrite pystr_eqb_refl. by rewrite app_nil_r.
Qed.

Lemma untenanted_back m : first_rows m -> undo_0002 (undo_0003 (rows_0003 (rows_0002 m))) = m.
Proof.
  intros [Ha Hm Hc]. unfold undo_0002, undo_0003, rows_0003, rows_0002.
  assert (u "outbox_messages" <> u "governed_actions" /\ u "outbox_messages" <> u "supplier_cases" /\
          u "governed_actions" <> u "supplier_cases") as (Hoa & Hos & Has) by (split_and!; discriminate).
  rewrite delete_insert_id by (by rewrite lookup_insert_ne, lookup_alter_ne).
  rewrite delete_insert_id by (by rewrite lookup_alter_ne).
  apply map_eq. intros k. destruct (base.decide (k = u "supplier_cases")) as [->|Hk]; [|by rewrite !lookup_alter_ne].
  rewrite !lookup_alter_eq. destruct (m !! u "supplier_cases") as [rs|] eqn:E; [|done]. cbn [fmap option_fmap option_map]. f_equal.
  rewrite <- list_fmap_compose. rewrite <- (list_fmap_id rs) at 2. specialize (Hc rs eq_refl). rewrite Forall_forall in Hc.
  apply list_fmap_ext. intros n r Hr. apply without_added, Hc. by eapply list_elem_of_lookup_2.
Qed.

Definition no_rows (o : option (list Row)) : bool := match o with Some [] => true | _ => false end.

Lemma no_rows_true o : no_rows o = true -> o = Some [].
Proof. by destruct o as [[|]|]. Qed.

Lemma all_empty (tbls : gmap pystr Table) (m : Rows) :
  forallb (fun nt => no_rows (m !! nt.1)) (map_to_list tbls) = true -> forall n, is_Some (tbls !! n) -> m !! n = Some [].
Proof.
  intros Hall n [t Ht]. rewrite forallb_forall in Hall.
  apply no_rows_true, (Hall (n, t)), list_elem_of_In. by apply elem_of_map_to_list.
Qed.

Lemma metadata_empty : forallb (fun nt => no_rows (rows_0003 (rows_0002 (rows_0001 ∅)) !! nt.1)) (map_to_list metadata) = true.
Proof. vm_compute. reflexivity. Qed.

(** C25. On an empty database the scripts end in the tables, columns, keys, constraints and
    indexes the mapped classes declare, with one more index, for the vectors. On a database
    of the first revision, whatever is in it, they end in the same schema and keep every
    row; each case only gains the tenant [legacy]. *)
Theorem migrations_reach_models :
  (exists m, run upgrade_head (at_ None ∅) = (Ok tt, m) /\ tables (st_schema (store m)) = with_hnsw metadata /\
     forall n, is_Some (metadata !! n) -> st_rows (store m) !! n = Some []) /\
  forall m, first_rows m -> exists m',
    run upgrade_head (at_ (Some (revision script_0001)) m) = (Ok tt, m') /\ tables (st_schema (store m')) = with_hnsw metadata /\
    st_rows (store m') !! u "supplier_cases"
      = (fmap (fun r => r ++ [(u "tenant_id", VStr (u "legacy"))])) <$> m !! u "supplier_cases" /\
    forall n, n ∉ [u "supplier_cases"; u "governed_actions"; u "outbox_messages"] -> st_rows (store m') !! n = m !! n.
Proof.
  split.
  - eexists. split; [exact upgrade_from_nothing|]. split; [exact head_is_metadata|]. intros n Hn.
    exact (all_empty _ _ metadata_empty n Hn).
  - intros m _. eexists. split; [apply upgrade_from_0001|]. split; [exact head_is_metadata|]. split.
    + cbn [at_ store st_rows]. unfold rows_0003, rows_0002. rewrite !lookup_insert_ne by discriminate. apply lookup_alter_eq.
    + intros n Hn. cbn [at_ store st_rows]. unfold rows_0003, rows_0002.
      rewrite !lookup_insert_ne by set_solver. apply lookup_alter_ne. set_solver.
Qed.

(** C27. Undoing the later scripts restores a database of the first revision exactly, after
    an upgrade of it; but on a database in use it drops the actions and the messages, and a
    new upgrade puts every case into the tenant [legacy], whatever its tenant was. *)
Theorem downgrade_restores :
  (forall m, first_rows m -> exists m1,
     run upgrade_head (at_ (Some (revision script_0001)) m) = (Ok tt, m1) /\
     run (downgrade_to (Some (revision script_0001))) m1 = (Ok tt, at_ (Some (revision script_0001)) m)) /\
  forall m rs, m !! u "supplier_cases" = Some rs -> exists m1 m2,
    run (downgrade_to (Some (revision script_0001))) (at_ (Some (revision script_0003)) m) = (Ok tt, m1) /\
    run upgrade_head m1 = (Ok tt, m2) /\ st_schema (store m2) = head_schema /\
    st_rows (store m2) !! u "supplier_cases"
      = Some ((fun r => without (u "tenant_id") r ++ [(u "tenant_id", VStr (u "legacy"))]) <$> rs) /\
    st_rows (store m2) !! u "governed_actions" = Some [] /\ st_rows (store m2) !! u "outbox_messages" = Some [].
Proof.
  split.
  - intros m Hm. eexists. split; [apply upgrade_from_0001|]. rewrite downgrade_from_head. by rewrite untenanted_back.
  - intros m rs Hrs. eexists _, _. split; [apply downgrade_from_head|]. split; [apply upgrade_from_0001|]. split; [done|].
    cbn [at_ store st_rows]. unfold rows_0003, rows_0002, undo_0002, undo_0003. split; [|split].
    + rewrite !lookup_insert_ne by discriminate. rewrite !lookup_alter_eq, !lookup_delete_ne by discriminate. rewrite Hrs.
      cbn [fmap option_fmap option_map]. f_equal. by rewrite <- list_fmap_compose.
    + rewrite lookup_insert_ne by discriminate. apply lookup_insert_eq.
    + apply lookup_insert_eq.
Qed.

Section witnesses.
(** Two cases of the first revision. *)
Definition case_one : UUID := mkUUID 1 eq_refl.
Definition case_row_0001 (i : UUID) (name : string) : Row :=
  [(u "id", VUuid i); (u "supplier_name", VStr (u name)); (u "description", VStr []); (u "status", VStr (u "new"));
   (u "created_at", VTime 0); (u "updated_at", VTime 0)].
Definition first_database : Rows :=
  <[u "supplier_cases" := [case_row_0001 case_one "Widgets"]]> (rows_0001 ∅).

Lemma first_database_rows : first_rows first_database.
Proof.
  split; [reflexivity|reflexivity|]. intros rs Hrs. vm_compute in Hrs. injection Hrs as <-.
  repeat constructor. apply (bool_decide_unpack _). vm_compute. exact I.
Qed.

Lemma migrations_reach_models_witness : exists m',
  run upgrade_head (at_ (Some (revision script_0001)) first_database) = (Ok tt, m') /\
  st_rows (store m') !! u "supplier_cases"
    = Some [case_row_0001 case_one "Widgets" ++ [(u "tenant_id", VStr (u "legacy"))]].
Proof.
  destruct migrations_reach_models as [_ H]. destruct (H first_database first_database_rows) as (m' & Hrun & _ & Hcases & _).
  exists m'. split; [exact Hrun|]. rewrite Hcases. reflexivity.
Defined.

Lemma downgrade_restores_witness : exists m1,
  run upgrade_head (at_ (Some (revision script_0001)) first_database) = (Ok tt, m1) /\
  run (downgrade_to (Some (revision script_0001))) m1 = (Ok tt, at_ (Some (revision script_0001)) first_database).
Proof. destruct downgrade_restores as [H _]. exact (H first_database first_database_rows). Defined.
End witnesses.
