(* ===== verification/InMemory.v ===== *)
(** * The in-memory container

    [InMemoryActionRepository] of [packages/governance/repositories.py],
    [InMemorySupplierSystem] of [packages/governance/service.py] and
    [LocalApprovalWorkflow] of [packages/workflows/approvals.py], over the state
    of one process: the action store, the case repository whose
    [append_audit_event] is the audit writer, and the supplier receipts. *)
From S2P Require Import Prelude PyStr Uuid Effects Json Schemas Cases Ledger.

Module InMemoryActionRepository.

Record t := {
  actions : gmap UUID GovernedAction;
  idempotency : gmap (pystr * UUID) UUID;
}.

Definition empty : t := {| actions := ∅; idempotency := ∅ |}.

Definition set_action (i : UUID) (a : GovernedAction) (s : t) : t :=
  {| actions := <[i := a]> (actions s); idempotency := idempotency s |}.

(** [self._actions[action.id] = action; self._idempotency[key] = action.id] *)
Definition store (a : GovernedAction) (s : t) : t :=
  {| actions := <[ga_id a := a]> (actions s);
     idempotency := <[action_key a := ga_id a]> (idempotency s) |}.

(** [self._actions.pop(action.id, None); self._idempotency.pop(key, None)] *)
Definition unstore (a : GovernedAction) (s : t) : t :=
  {| actions := delete (ga_id a) (actions s);
     idempotency := delete (action_key a) (idempotency s) |}.

Section methods.
Context {C : Type} (audit_writer : option (Fresh -> AuditEventCreate -> prog C AuditEvent)).

(** [if self._audit_writer is not None: await self._audit_writer(audit_event)] *)
Definition write_audit (fr : Fresh) (e : AuditEventCreate) (c : C) : result unit * C :=
  match audit_writer with
  | None => (Ok tt, c)
  | Some writer => let '(r, c') := run (writer fr e) c in ((fun _ => tt) <$> r, c')
  end.

(** The body under the lock: the writer never suspends while it runs, because no
    holder of the case repository's lock awaits anything that suspends. *)
Definition create_proposal (fr : Fresh) (a : GovernedAction) (e : AuditEventCreate)
    (_ : OutboxMessageCreate) : prog (t * C) (GovernedAction * bool) :=
  atomic (fun '(s, c) =>
    match idempotency s !! action_key a with
    | Some existing_id =>
        (of_option (OtherError (u "KeyError") (str_uuid existing_id))
           ((fun b => (b, false)) <$> actions s !! existing_id), (s, c))
    | None =>
        let s' := store a s in
        match write_audit fr e c with
        | (Ok _, c') => (Ok (a, true), (s', c'))
        | (Raise x, c') => (Raise x, (unstore a s', c'))
        end
    end).

Definition get (i : UUID) : prog (t * C) GovernedAction :=
  reads (fun '(s, _) => of_option (action_not_found i) (actions s !! i)).

Definition save_transition (fr : Fresh) (a : GovernedAction) (e : AuditEventCreate)
    (expected : ActionStatus) : prog (t * C) GovernedAction :=
  atomic (fun '(s, c) =>
    match actions s !! ga_id a with
    | None => (Raise (action_not_found (ga_id a)), (s, c))
    | Some current =>
        if bool_decide (ga_status current <> expected)
        then (Raise (transition_conflict (ga_id a) (ga_status current)), (s, c))
        else
          let s' := set_action (ga_id a) a s in
          match write_audit fr e c with
          | (Ok _, c') => (Ok a, (s', c'))
          | (Raise x, c') => (Raise x, (set_action (ga_id a) current s', c'))
          end
    end).
End methods.

End InMemoryActionRepository.

Module InMemorySupplierSystem.

Definition reference (i : UUID) : pystr := u "supplier-system://decisions/" ++ str_uuid i.

Definition set_onboarding_decision (fr : Fresh) (i key : UUID) (args : SupplierDecisionArguments) :
    prog (gmap UUID ExecutionReceipt) ExecutionReceipt :=
  atomic (fun receipts =>
    match receipts !! key with
    | Some existing => (Ok existing, receipts)
    | None =>
        let receipt := {| rc_action_id := i; rc_external_reference := reference i;
                          rc_applied_decision := args_decision args; rc_executed_at := now fr |} in
        (Ok receipt, <[key := receipt]> receipts)
    end).

End InMemorySupplierSystem.

Module LocalApprovalWorkflow.

Definition start {S} (a : GovernedAction) : prog S pystr := Ret (u "local://approval/" ++ str_uuid (ga_id a)).

#[export] Instance workflow {S} : ApprovalWorkflow S := {| start_workflow := start |}.

#[export] Instance workflow_laws {S} : ApprovalWorkflowLaws S.
Proof.
  constructor. intros Inv R G Q a s _ HR H. apply H; [reflexivity|].
  intros ref Href. assert (ref = u "local://approval/" ++ str_uuid (ga_id a)) as -> by congruence.
  rewrite length_app, str_uuid_length. reflexivity.
Qed.

End LocalApprovalWorkflow.

(** ** The process state *)

Record MemWorld := {
  mw_actions : InMemoryActionRepository.t;
  mw_cases : InMemoryCaseRepository.t;
  mw_receipts : gmap UUID ExecutionReceipt;
}.

Definition mem_empty : MemWorld := {|
  mw_actions := InMemoryActionRepository.empty;
  mw_cases := InMemoryCaseRepository.empty;
  mw_receipts := ∅ |}.

Definition get_stores (w : MemWorld) := (mw_actions w, mw_cases w).
Definition put_stores (p : InMemoryActionRepository.t * InMemoryCaseRepository.t) (w : MemWorld) :=
  {| mw_actions := p.1; mw_cases := p.2; mw_receipts := mw_receipts w |}.
Definition put_cases (c : InMemoryCaseRepository.t) (w : MemWorld) :=
  {| mw_actions := mw_actions w; mw_cases := c; mw_receipts := mw_receipts w |}.
Definition put_receipts (m : gmap UUID ExecutionReceipt) (w : MemWorld) :=
  {| mw_actions := mw_actions w; mw_cases := mw_cases w; mw_receipts := m |}.

(** [InMemoryActionRepository(audit_writer=cases.append_audit_event)] *)
Definition container_audit_writer := Some InMemoryCaseRepository.append_audit_event.

#[export] Instance mem_actions : ActionRepository MemWorld := {|
  uses_transactional_outbox := false;
  create_proposal fr a e m :=
    zoom get_stores put_stores
      (InMemoryActionRepository.create_proposal container_audit_writer fr a e m);
  get_action i := zoom get_stores put_stores (InMemoryActionRepository.get i);
  save_transition fr a e st :=
    zoom get_stores put_stores
      (InMemoryActionRepository.save_transition container_audit_writer fr a e st);
|}.

#[export] Instance mem_supplier : SupplierSystem MemWorld := {|
  set_onboarding_decision fr i key args :=
    zoom mw_receipts put_receipts
      (InMemorySupplierSystem.set_onboarding_decision fr i key args);
|}.

(** ** The abstract view *)

Definition audit_trail (c : InMemoryCaseRepository.t) : list AuditEventCreate :=
  event_create <$> (map_to_list (InMemoryCaseRepository.events c) ≫= snd).

(** The idempotency index lists exactly the stored actions by their keys. *)
Record mem_inv (s : InMemoryActionRepository.t) : Prop := {
  mi_index k i : InMemoryActionRepository.idempotency s !! k = Some i ->
    exists a, InMemoryActionRepository.actions s !! i = Some a /\ action_key a = k;
  mi_actions i a : InMemoryActionRepository.actions s !! i = Some a ->
    InMemoryActionRepository.idempotency s !! action_key a = Some i;
}.

#[export] Instance mem_view : LedgerView MemWorld := {|
  ledger w := {| l_actions := InMemoryActionRepository.actions (mw_actions w);
                 l_audit := audit_trail (mw_cases w) |};
  applied := mw_receipts;
  repo_inv w := mem_inv (mw_actions w);
  overwrites := true;
|}.

(** ** Lemmas *)

Lemma put_get_stores w : put_stores (get_stores w) w = w.
Proof. by destruct w. Qed.

Lemma put_receipts_same w : put_receipts (mw_receipts w) w = w.
Proof. by destruct w. Qed.

Lemma audit_trail_push k e (c : InMemoryCaseRepository.t) :
  audit_trail (InMemoryCaseRepository.set_events
    (InMemoryCaseRepository.push k e (InMemoryCaseRepository.events c)) c)
  ≡ₚ event_create e :: audit_trail c.
Proof.
  unfold audit_trail, InMemoryCaseRepository.push. simpl.
  set (m := InMemoryCaseRepository.events c). rewrite <- insert_delete_eq.
  rewrite map_to_list_insert by apply lookup_delete_eq. simpl.
  destruct (m !! k) as [l|] eqn:E; simpl.
  - rewrite <- (insert_delete_id m k l) at 2 by done.
    rewrite map_to_list_insert by apply lookup_delete_eq. simpl.
    rewrite !fmap_app. simpl. solve_Permutation.
  - by rewrite delete_id.
Qed.

(** The container's audit writer either appends the event or finds no case. *)
Lemma write_audit_spec fr e c :
  (exists c', InMemoryActionRepository.write_audit container_audit_writer fr e c = (Ok tt, c') /\
     audit_trail c' ≡ₚ e :: audit_trail c)
  \/ InMemoryActionRepository.write_audit container_audit_writer fr e c
     = (Raise (case_not_found (ae_case_id e)), c).
Proof.
  unfold InMemoryActionRepository.write_audit, container_audit_writer.
  unfold InMemoryCaseRepository.append_audit_event, InMemoryCaseRepository.get.
  rewrite run_bind, run_reads.
  destruct (InMemoryCaseRepository.cases c !! ae_case_id e) as [x|]; simpl.
  - left. eexists. split; [done|]. apply audit_trail_push.
  - by right.
Qed.

Section mem_inv_lemmas.
Import InMemoryActionRepository.

Lemma mem_inv_has_key s au a :
  mem_inv s ->
  idempotency s !! action_key a = None <->
  ~ has_key {| l_actions := actions s; l_audit := au |} (action_key a).
Proof.
  intros H. split.
  - intros Hn (i & b & Hi & Hb). simpl in Hi. apply (mi_actions _ H) in Hi. congruence.
  - intros Hn. apply eq_None_not_Some. intros [i Hi].
    apply (mi_index _ H) in Hi as (b & Hb & Hk). apply Hn. by exists i, b.
Qed.

Lemma mem_inv_store s a :
  mem_inv s -> idempotency s !! action_key a = None -> actions s !! ga_id a = None ->
  mem_inv (store a s).
Proof.
  intros H Hk Hi. split; simpl.
  - intros k i. rewrite lookup_insert. case_decide as E; [intros [= <-]; exists a|].
    + by rewrite lookup_insert_eq.
    + intros (b & Hb & Hbk)%(mi_index _ H). exists b.
      rewrite lookup_insert_ne by congruence. done.
  - intros i b. rewrite lookup_insert. case_decide as E; [intros [= <-]; subst|].
    + by rewrite lookup_insert_eq.
    + intros Hb%(mi_actions _ H). rewrite lookup_insert_ne by congruence. done.
Qed.

Lemma unstore_store s a :
  idempotency s !! action_key a = None -> actions s !! ga_id a = None ->
  unstore a (store a s) = s.
Proof.
  intros Hk Hi. unfold unstore, store. simpl. rewrite !delete_insert_id by done. by destruct s.
Qed.

Lemma mem_inv_set_action s a cur :
  mem_inv s -> actions s !! ga_id a = Some cur -> proposal_of cur = proposal_of a ->
  mem_inv (set_action (ga_id a) a s).
Proof.
  intros H Hc Hp. pose proof (proposal_of_key _ _ Hp) as Hk. split; simpl.
  - intros k i (b & Hb & <-)%(mi_index _ H). rewrite lookup_insert. case_decide as E; [|eauto].
    exists a. split; [done|]. congruence.
  - intros i b. rewrite lookup_insert. case_decide as E; [intros [= <-]|by apply (mi_actions _ H)].
    rewrite <- Hk, <- E. by apply (mi_actions _ H).
Qed.

Lemma set_action_back s a cur :
  actions s !! ga_id a = Some cur -> set_action (ga_id a) cur (set_action (ga_id a) a s) = s.
Proof.
  intros Hc. unfold set_action. simpl. rewrite insert_insert_eq, insert_id by done. by destruct s.
Qed.
End mem_inv_lemmas.

(** ** The container keeps the promises *)

#[global] Arguments InMemoryActionRepository.write_audit : simpl never.

Section mem_laws.
Import InMemoryActionRepository.

Lemma mem_create_spec fr a e m w :
  mem_inv (mw_actions w) -> id_owned a (ledger w) ->
  let '(r, w') := run (Ledger.create_proposal fr a e m) w in
  mem_inv (mw_actions w') /\ applied w' = applied w /\ create_spec a e (ledger w) r (ledger w').
Proof.
  intros H Hown. simpl. unfold get_stores. destruct w as [s c rc]. simpl in *.
  destruct (idempotency s !! action_key a) as [i|] eqn:Ek; simpl.
  - apply (mi_index _ H) in Ek as (b & Hb & Hbk). rewrite Hb. simpl.
    split; [done|]. split; [done|]. by eapply create_replayed.
  - assert (actions s !! ga_id a = None) as Hn.
    { apply eq_None_not_Some. intros [b Hb]. specialize (Hown b Hb).
      apply (mi_actions _ H) in Hb. congruence. }
    destruct (write_audit_spec fr e c) as [(c' & -> & Hc')| ->];
      [|rewrite unstore_store by done]; simpl.
    + split; [by apply mem_inv_store|]. split; [done|].
      apply create_stored; simpl; try done. by apply mem_inv_has_key.
    + split; [done|]. split; [done|]. by apply create_failed.
Qed.

Lemma mem_save_spec fr a e expected w :
  mem_inv (mw_actions w) ->
  (forall b, l_actions (ledger w) !! ga_id a = Some b -> proposal_of b = proposal_of a) ->
  let '(r, w') := run (Ledger.save_transition fr a e expected) w in
  mem_inv (mw_actions w') /\ applied w' = applied w /\ save_spec a e expected (ledger w) r (ledger w').
Proof.
  intros H Hp. simpl. unfold get_stores. destruct w as [s c rc]. simpl in *.
  destruct (actions s !! ga_id a) as [cur|] eqn:Ec; simpl.
  - case_bool_decide as Hst; simpl.
    + split; [done|]. split; [done|]. by apply save_conflict.
    + destruct (write_audit_spec fr e c) as [(c' & -> & Hc')| ->];
        [|rewrite set_action_back by done]; simpl.
      * split; [by eapply mem_inv_set_action; eauto|]. split; [done|].
        apply (save_stored _ _ _ _ cur a); simpl; auto.
      * split; [done|]. split; [done|]. by apply save_failed.
  - split; [done|]. split; [done|]. by apply save_missing.
Qed.

#[export] Instance mem_actions_laws : ActionRepositoryLaws MemWorld.
Proof.
  constructor.
  - intros Inv R G Q i s HI HG H. apply wp_zoom_atomic. intros s' Hs' HI'. simpl.
    unfold get_stores, put_stores. simpl. specialize (H s' Hs' HI'). by destruct s'.
  - intros Inv R G Q fr a e m s HI HG HR Hv _ H. apply wp_zoom_run.
    intros s' r s'' Hs' HI' Hrun. destruct (HI s' HI') as [Hi Ho]. specialize (Ho eq_refl).
    pose proof (mem_create_spec fr a e m s' Hi Ho) as Hspec. simpl in Hspec, Hrun.
    rewrite Hrun in Hspec. destruct Hspec as (? & ? & ?). by apply (H s').
  - intros Inv R G Q fr a e st s HI HG Hv Hp H. apply wp_zoom_run.
    intros s' r s'' Hs' HI' Hrun.
    pose proof (mem_save_spec fr a e st s' (HI s' HI') (Hp s' Hs' HI')) as Hspec. simpl in Hspec, Hrun.
    rewrite Hrun in Hspec. destruct Hspec as (? & ? & ?). by apply (H s').
Qed.

#[export] Instance mem_supplier_laws : SupplierSystemLaws MemWorld.
Proof.
  constructor. intros Inv R G Q fr i key args s HI H. apply wp_zoom_atomic.
  intros s' Hs' HI'. simpl. destruct (mw_receipts s' !! key) as [r|] eqn:E; simpl.
  - rewrite put_receipts_same. apply (H s'); auto. by apply supplier_replayed.
  - apply (H s'); [done|done|exact (HI s' HI')|done|]. apply supplier_applied; try done.
Qed.
End mem_laws.
