(* ===== verification/SqlActions.v ===== *)
(** * The PostgreSQL action repository

    [SqlAlchemyActionRepository] of [packages/governance/repositories.py] over the
    tables of [Database].  Each [async with self._sessions()] block is one
    transaction and one atomic section, so [create_proposal] is three sections
    between which other transactions may run. *)
From S2P Require Import Prelude PyStr Uuid Effects Json Schemas SchemaJson Ledger Database InMemory.
Local Open Scope py_scope.

Module SqlAlchemyActionRepository.

Section methods.
Context `{DT : DatetimeText}.

(** [_record_from_action] *)
Definition record_from_action (a : GovernedAction) : GovernedActionRecord := {|
  gar_id := ga_id a; gar_case_id := ga_case_id a; gar_review_id := ga_review_id a;
  gar_tenant_id := ga_tenant_id a; gar_tool_name := value (ga_tool_name a);
  gar_arguments_json := dump_SupplierDecisionArguments (ga_arguments a);
  gar_status := value (ga_status a); gar_proposer_id := ga_proposer_id a;
  gar_approver_id := ga_approver_id a; gar_approval_comment := ga_approval_comment a;
  gar_idempotency_key := ga_idempotency_key a;
  gar_workflow_execution_arn := ga_workflow_execution_arn a;
  gar_execution_receipt_json := None; gar_created_at := ga_created_at a;
  gar_decided_at := ga_decided_at a; gar_executed_at := ga_executed_at a |}.

(** [ExecutionReceipt.model_validate(record.execution_receipt_json)], when there is one. *)
Definition receipt_from_json (j : option json) : result (option ExecutionReceipt) :=
  match j with
  | Some j => Some <$> validate_ExecutionReceipt j
  | None => Ok None
  end.

(** [_action_from_record]: the Pydantic model revalidates every column. *)
Definition action_from_record (r : GovernedActionRecord) : result GovernedAction :=
  tool ← dec_enum (JStr (gar_tool_name r));
  arguments ← validate_SupplierDecisionArguments (gar_arguments_json r);
  status ← dec_enum (JStr (gar_status r));
  receipt ← receipt_from_json (gar_execution_receipt_json r);
  construct valid_GovernedAction {|
    ga_id := gar_id r; ga_case_id := gar_case_id r; ga_review_id := gar_review_id r;
    ga_tenant_id := gar_tenant_id r; ga_tool_name := tool; ga_arguments := arguments;
    ga_status := status; ga_proposer_id := gar_proposer_id r; ga_approver_id := gar_approver_id r;
    ga_approval_comment := gar_approval_comment r; ga_idempotency_key := gar_idempotency_key r;
    ga_workflow_execution_arn := gar_workflow_execution_arn r; ga_execution_receipt := receipt;
    ga_created_at := gar_created_at r; ga_decided_at := gar_decided_at r;
    ga_executed_at := gar_executed_at r |}.

(** [_audit_record] *)
Definition audit_record (fr : Fresh) (e : AuditEventCreate) : AuditEventRecord := {|
  aer_id := new_event_id fr; aer_case_id := ae_case_id e; aer_event_type := ae_event_type e;
  aer_actor_id := ae_actor_id e; aer_payload_json := ae_payload e; aer_created_at := now fr |}.

Definition outbox_record (fr : Fresh) (m : OutboxMessageCreate) : OutboxMessageRecord := {|
  omr_id := new_message_id fr; omr_aggregate_type := aggregate_type_literal;
  omr_aggregate_id := omc_aggregate_id m; omr_event_type := value (omc_event_type m);
  omr_payload_json := dump_ApprovalWorkflowStartPayload (omc_payload m);
  omr_attempt_count := 0; omr_available_at := now fr; omr_locked_at := None; omr_locked_by := None;
  omr_published_at := None; omr_dead_lettered_at := None; omr_last_error := None;
  omr_delivery_result_json := None; omr_created_at := now fr |}.

(** [_get_by_idempotency]: [one_or_none] on the selected rows.  A tenant the database cannot
    hold is refused by the insertion that follows, not yet by the query. *)
Definition by_idempotency (k : pystr * UUID) (d : Db) : list GovernedActionRecord :=
  filter (fun r => row_key r = k) (map_to_list (t_actions d)).*2.

Definition get_by_idempotency (k : pystr * UUID) : prog Db (option GovernedAction) :=
  reads (fun d =>
    match by_idempotency k d with
    | [] => Ok None
    | [r] => Some <$> action_from_record r
    | _ => Raise (OtherError (u "MultipleResultsFound") [])
    end).

Definition create_proposal (fr : Fresh) (a : GovernedAction) (e : AuditEventCreate)
    (m : OutboxMessageCreate) : prog Db (GovernedAction * bool) :=
  existing ← get_by_idempotency (action_key a);
  match existing with
  | Some b => Ret (b, false)
  | None =>
      try (_ ← atomic (commit [RowAction (record_from_action a); RowAudit (audit_record fr e);
                               RowOutbox (outbox_record fr m)]);
           Ret (a, true))
      except (fun x => match x with
        | IntegrityError _ =>
            existing ← get_by_idempotency (action_key a);
            match existing with
            | None => Throw x
            | Some b => Ret (b, false)
            end
        | _ => Throw x
        end)
  end.

Definition get (i : UUID) : prog Db GovernedAction :=
  reads (fun d =>
    match t_actions d !! i with
    | None => Raise (action_not_found i)
    | Some r => action_from_record r
    end).

(** The columns [save_transition] assigns. *)
Definition update_record (r : GovernedActionRecord) (a : GovernedAction) : GovernedActionRecord := {|
  gar_id := gar_id r; gar_case_id := gar_case_id r; gar_review_id := gar_review_id r;
  gar_tenant_id := gar_tenant_id r; gar_tool_name := gar_tool_name r;
  gar_arguments_json := gar_arguments_json r; gar_status := value (ga_status a);
  gar_proposer_id := gar_proposer_id r; gar_approver_id := ga_approver_id a;
  gar_approval_comment := ga_approval_comment a; gar_idempotency_key := gar_idempotency_key r;
  gar_workflow_execution_arn := gar_workflow_execution_arn r;
  gar_execution_receipt_json := dump_ExecutionReceipt <$> ga_execution_receipt a;
  gar_created_at := gar_created_at r; gar_decided_at := ga_decided_at a;
  gar_executed_at := ga_executed_at a |}.

(** The texts among the columns whose value changes; the session writes no others. *)
Definition changes_fit (r : GovernedActionRecord) (a : GovernedAction) : bool :=
  (bool_decide (gar_approver_id r = ga_approver_id a) || opt_forallb (varchar 255) (ga_approver_id a))
  && (bool_decide (gar_approval_comment r = ga_approval_comment a) || storable (ga_approval_comment a)).

Definition save_transition (fr : Fresh) (a : GovernedAction) (e : AuditEventCreate)
    (expected : ActionStatus) : prog Db GovernedAction :=
  atomic (fun d =>
    match t_actions d !! ga_id a with
    | None => (Raise (action_not_found (ga_id a)), d)
    | Some r =>
        if pystr_eqb (gar_status r) (value expected)
        then
          match (if changes_fit r a then flush [RowAudit (audit_record fr e)] (put_action (update_record r a) d)
                 else Raise data_error) with
          | Ok d' => (Ok a, d')
          | Raise x => (Raise x, d)
          end
        else (Raise (ActionTransitionConflictError
                (u "Action " ++ str_uuid (ga_id a) ++ u " is already " ++ gar_status r)), d)
    end).
End methods.

End SqlAlchemyActionRepository.

(** ** The deployed state *)

(** The database and the receipts held by the supplier system. *)
Record SqlWorld := {
  sw_db : Db;
  sw_receipts : gmap UUID ExecutionReceipt;
}.

Definition put_db (d : Db) (w : SqlWorld) : SqlWorld := {| sw_db := d; sw_receipts := sw_receipts w |}.

Section instances.
Context `{DT : DatetimeText}.
Import SqlAlchemyActionRepository.

#[export] Instance sql_actions : ActionRepository SqlWorld := {|
  uses_transactional_outbox := true;
  Ledger.create_proposal fr a e m := zoom sw_db put_db (create_proposal fr a e m);
  get_action i := zoom sw_db put_db (get i);
  Ledger.save_transition fr a e st := zoom sw_db put_db (save_transition fr a e st);
|}.

(** ** The abstract view *)

Definition event_of_row (r : AuditEventRecord) : AuditEventCreate := {|
  ae_case_id := aer_case_id r; ae_event_type := aer_event_type r; ae_actor_id := aer_actor_id r;
  ae_payload := aer_payload_json r |}.

Definition stored_actions (d : Db) : gmap UUID GovernedAction :=
  omap (fun r => to_option (action_from_record r)) (t_actions d).

Definition sql_ledger (d : Db) : Ledger := {|
  l_actions := stored_actions d;
  l_audit := event_of_row <$> (map_to_list (t_audit d)).*2 |}.

(** Rows are filed under their key, every row decodes, and keys are unique. *)
Record sql_inv (d : Db) : Prop := {
  si_id i r : t_actions d !! i = Some r -> gar_id r = i;
  si_decode i r : t_actions d !! i = Some r -> exists a, action_from_record r = Ok a;
  si_key i j r r' : t_actions d !! i = Some r -> t_actions d !! j = Some r' ->
    row_key r = row_key r' -> i = j;
}.

#[export] Instance sql_view : LedgerView SqlWorld := {|
  ledger w := sql_ledger (sw_db w);
  applied := sw_receipts;
  repo_inv w := sql_inv (sw_db w);
  overwrites := false;
|}.

(** ** Rows and models *)

Lemma action_from_record_Ok r a : action_from_record r = Ok a ->
  ga_id a = gar_id r /\ action_key a = row_key r /\ value (ga_status a) = gar_status r /\
  valid_GovernedAction a = true.
Proof.
  unfold action_from_record. destruct (dec_enum (JStr (gar_tool_name r))) as [tool|]; [|done].
  destruct (validate_SupplierDecisionArguments _) as [args|]; [|done].
  destruct (dec_enum (JStr (gar_status r))) as [st|] eqn:Est; [|done].
  cbn [mbind result_bind]. destruct (receipt_from_json (gar_execution_receipt_json r)) as [rc|]; [|done].
  cbn [mbind result_bind]. intros [Hv ->]%construct_Ok. split_and!; try done.
  by apply dec_enum_Ok in Est.
Qed.

Lemma action_from_record_texts r a : action_from_record r = Ok a ->
  gar_approver_id r = ga_approver_id a /\ gar_approval_comment r = ga_approval_comment a.
Proof.
  unfold action_from_record. destruct (dec_enum (JStr (gar_tool_name r))) as [tool|]; [|done].
  destruct (validate_SupplierDecisionArguments _) as [args|]; [|done].
  destruct (dec_enum (JStr (gar_status r))) as [st|]; [|done].
  cbn [mbind result_bind]. destruct (receipt_from_json (gar_execution_receipt_json r)) as [rc|]; [|done].
  cbn [mbind result_bind]. by intros [_ ->]%construct_Ok.
Qed.

(** Writing a valid action and reading it back. *)
Lemma action_from_record_from_action a :
  valid_GovernedAction a = true -> ga_execution_receipt a = None ->
  action_from_record (record_from_action a) = Ok a.
Proof.
  intros Hv Hr. unfold action_from_record, record_from_action.
  cbn [gar_tool_name gar_status gar_arguments_json gar_execution_receipt_json]. rewrite !dec_enum_value.
  rewrite validate_dump_SupplierDecisionArguments by by apply valid_action_arguments.
  cbn [mbind result_bind receipt_from_json]. rewrite construct_valid.
  - f_equal. destruct a. simpl in *. by subst.
  - rewrite <- Hv. unfold valid_GovernedAction. simpl. by rewrite Hr.
Qed.

(** Assigning the transition columns is [apply_transition] on the models. *)
Lemma action_from_record_update r cur a :
  action_from_record r = Ok cur -> valid_GovernedAction a = true ->
  action_from_record (update_record r a) = Ok (apply_transition cur a).
Proof.
  intros Hr Hv. pose proof (action_from_record_Ok _ _ Hr) as (_ & _ & _ & Hvc). revert Hr.
  unfold action_from_record, update_record. cbn [gar_tool_name gar_arguments_json gar_status
    gar_execution_receipt_json].
  destruct (dec_enum (JStr (gar_tool_name r))) as [tool|]; [|done].
  destruct (validate_SupplierDecisionArguments _) as [args|]; [|done].
  destruct (dec_enum (JStr (gar_status r))) as [st|]; [|done].
  cbn [mbind result_bind]. destruct (receipt_from_json (gar_execution_receipt_json r)) as [rc|]; [|done].
  cbn [mbind result_bind]. intros [_ ->]%construct_Ok. rewrite dec_enum_value.
  cbn [mbind result_bind].
  assert (receipt_from_json (dump_ExecutionReceipt <$> ga_execution_receipt a)
          = Ok (ga_execution_receipt a)) as ->.
  { destruct (ga_execution_receipt a) as [x|] eqn:Ex; [|done]. cbn [fmap option_fmap option_map receipt_from_json].
    rewrite validate_dump_ExecutionReceipt; [done|]. by apply (valid_action_receipt a). }
  cbn [mbind result_bind]. apply construct_valid. by apply (valid_apply_transition _ a).
Qed.

(** ** The queries *)

Lemma stored_actions_Some d i a :
  stored_actions d !! i = Some a <-> exists r, t_actions d !! i = Some r /\ action_from_record r = Ok a.
Proof.
  unfold stored_actions. rewrite lookup_omap. destruct (t_actions d !! i) as [r|]; simpl.
  - rewrite to_option_Some. split; [by exists r|]. by intros (r' & [= <-] & ?).
  - split; [done|]. by intros (r' & ? & _).
Qed.

Lemma stored_actions_None d i : sql_inv d -> stored_actions d !! i = None <-> t_actions d !! i = None.
Proof.
  intros H. rewrite !eq_None_not_Some. split; intros Hn [x Hx]; apply Hn.
  - destruct (si_decode _ H _ _ Hx) as [a Ha]. exists a. apply stored_actions_Some. by exists x.
  - apply stored_actions_Some in Hx as (r & Hr & _). by exists r.
Qed.

Lemma by_idempotency_elem k d r :
  r ∈ by_idempotency k d <-> row_key r = k /\ exists i, t_actions d !! i = Some r.
Proof.
  unfold by_idempotency. rewrite list_elem_of_filter, list_elem_of_fmap. split.
  - intros [Hk ([i r'] & -> & Hin)]. apply elem_of_map_to_list in Hin. split; [done|by exists i].
  - intros [Hk [i Hi]]. split; [done|]. exists (i, r). split; [done|]. by apply elem_of_map_to_list.
Qed.

(** The query by key never sees two rows. *)
Lemma by_idempotency_cases k d :
  sql_inv d ->
  (by_idempotency k d = [] /\ ~ has_key (sql_ledger d) k) \/
  exists r a, by_idempotency k d = [r] /\ action_from_record r = Ok a /\ action_key a = k /\
    stored_actions d !! gar_id r = Some a.
Proof.
  intros H. destruct (by_idempotency k d) as [|r l] eqn:E.
  - left. split; [done|]. intros (i & b & Hi & Hb).
    apply stored_actions_Some in Hi as (r & Hr & Hdec). apply action_from_record_Ok in Hdec as (_ & Hk & _).
    assert (r ∈ by_idempotency k d) as Hin by (apply by_idempotency_elem; split; [congruence|by exists i]).
    rewrite E in Hin. by apply elem_of_nil in Hin.
  - right. assert (Hall : forall x, x ∈ r :: l -> row_key x = k /\ t_actions d !! gar_id x = Some x).
    { intros x. rewrite <- E. intros [Hk [i Hi]]%by_idempotency_elem. split; [done|].
      by rewrite (si_id _ H _ _ Hi). }
    destruct (Hall r ltac:(by left)) as [Hk Hr]. destruct (si_decode _ H _ _ Hr) as [a Ha].
    assert (l = []) as ->.
    { destruct l as [|r' l]; [done|]. exfalso.
      destruct (Hall r' ltac:(right; by left)) as [Hk' Hr'].
      assert (gar_id r = gar_id r') as Heq by (apply (si_key _ H _ _ _ _ Hr Hr'); congruence).
      assert (r = r') as <- by congruence.
      assert (NoDup (by_idempotency k d)) as Hnd.
      { unfold by_idempotency. apply NoDup_filter. apply NoDup_fmap_2_strong; [|apply NoDup_map_to_list].
        intros [i x] [j y] Hx%elem_of_map_to_list Hy%elem_of_map_to_list. simpl. intros ->.
        f_equal. rewrite <- (si_id _ H _ _ Hx). by apply (si_id _ H). }
      rewrite E in Hnd. apply NoDup_cons in Hnd as [Hnd _]. apply Hnd. by left. }
    exists r, a. pose proof (action_from_record_Ok _ _ Ha) as (_ & Hka & _).
    split_and!; [done|done|congruence|]. apply stored_actions_Some. by exists r.
Qed.

Lemma get_by_idempotency_spec k d :
  sql_inv d ->
  exists o, run (get_by_idempotency k) d = (Ok o, d) /\
    match o with
    | None => ~ has_key (sql_ledger d) k
    | Some a => action_key a = k /\ exists i, stored_actions d !! i = Some a
    end.
Proof.
  intros H. unfold get_by_idempotency. rewrite run_reads.
  destruct (by_idempotency_cases k d H) as [[-> ?]|(r & a & -> & -> & ? & ?)].
  - by exists None.
  - exists (Some a). split; [done|]. split; [done|]. by exists (gar_id r).
Qed.

(** ** The transactions *)

Lemma put_db_same w : put_db (sw_db w) w = w.
Proof. by destruct w. Qed.

Lemma events_insert (k : UUID) r (m : gmap UUID AuditEventRecord) :
  m !! k = None ->
  event_of_row <$> (map_to_list (<[k := r]> m)).*2 ≡ₚ event_of_row r :: (event_of_row <$> (map_to_list m).*2).
Proof. intros Hk. by rewrite map_to_list_insert. Qed.

(** Committing a proposal stores the three rows, and found no row in their place. *)
Lemma commit_proposal r ar om d d' :
  commit [RowAction r; RowAudit ar; RowOutbox om] d = (Ok tt, d') ->
  t_actions d !! gar_id r = None /\
  (forall i r', t_actions d !! i = Some r' -> row_key r' <> row_key r) /\
  t_audit d !! aer_id ar = None /\ t_outbox d !! omr_id om = None /\
  d' = put_outbox om (put_audit ar (put_action r d)).
Proof.
  unfold commit. cbn [flush].
  destruct (flush_row (RowAction r) d) as [d1|] eqn:E1; [|done]. apply flush_row_Ok in E1 as [_ E1].
  cbn [mbind result_bind]. destruct (flush_row (RowAudit ar) d1) as [d2|] eqn:E2; [|done]. apply flush_row_Ok in E2 as [_ E2].
  cbn [mbind result_bind]. destruct (flush_row (RowOutbox om) d2) as [d3|] eqn:E3; [|done]. apply flush_row_Ok in E3 as [_ E3].
  cbn [mbind result_bind]. intros E4. revert E1 E2 E3. unfold insert_row.
  destruct (absent (gar_id r) (t_actions d) && unique_action_key r (t_actions d) && _ && _) eqn:E1; [|done].
  intros [= <-]. destruct (absent (aer_id ar) _ && _) eqn:E2; [|done]. intros [= <-].
  destruct (absent (omr_id om) _ && _) eqn:E5; [|done]. intros E3.
  assert (d' = put_outbox om (put_audit ar (put_action r d))) as -> by congruence.
  rewrite !andb_true_iff in E1. destruct E1 as [[[Ha Hu] _] _]. apply andb_true_iff in E2 as [Hau _]. apply andb_true_iff in E5 as [Hom _].
  split_and!; [by apply absent_true|by apply unique_action_key_true|by apply absent_true in Hau|by apply absent_true in Hom|done].
Qed.

Lemma stored_actions_insert d d' r a :
  t_actions d' = <[gar_id r := r]> (t_actions d) -> action_from_record r = Ok a ->
  stored_actions d' = <[ga_id a := a]> (stored_actions d).
Proof.
  intros Ht Ha. unfold stored_actions. rewrite Ht.
  pose proof (action_from_record_Ok _ _ Ha) as (-> & _).
  by rewrite (omap_insert_Some _ _ _ _ a) by by rewrite Ha.
Qed.

Lemma sql_inv_insert d d' r a :
  sql_inv d -> t_actions d' = <[gar_id r := r]> (t_actions d) -> action_from_record r = Ok a ->
  (forall i r', t_actions d !! i = Some r' -> row_key r' = row_key r -> i = gar_id r) ->
  sql_inv d'.
Proof.
  intros H Ht Ha Hk. split; rewrite Ht.
  - intros i r'. rewrite lookup_insert. case_decide; [by intros [= <-]|by apply H].
  - intros i r'. rewrite lookup_insert. case_decide; [intros [= <-]; by exists a|by apply H].
  - intros i j r1 r2. rewrite !lookup_insert. do 2 case_decide; intros Hr1 Hr2 He.
    + congruence.
    + assert (r = r1) as <- by congruence. subst i. symmetry. by eapply Hk.
    + assert (r = r2) as <- by congruence. subst j. by eapply Hk.
    + by eapply (si_key _ H).
Qed.

(** The transaction of [create_proposal] meets the contract. *)
Lemma commit_create_spec fr a e m d :
  sql_inv d -> valid_GovernedAction a = true -> ga_execution_receipt a = None ->
  let '(r, d') := commit [RowAction (record_from_action a); RowAudit (audit_record fr e);
                          RowOutbox (outbox_record fr m)] d in
  sql_inv d' /\
  match r with
  | Ok _ => create_spec a e (sql_ledger d) (Ok (a, true)) (sql_ledger d')
  | Raise x => (x = integrity_error \/ x = data_error) /\ d' = d
  end.
Proof.
  intros H Hv Hr. pose proof (action_from_record_from_action a Hv Hr) as Hdec.
  destruct (commit _ d) as [[[]|x] d'] eqn:E.
  - apply commit_proposal in E as (Hn & Hk & Hau & _ & ->). split.
    + apply (sql_inv_insert d _ (record_from_action a) a); [done|done|done|].
      intros i r' Hi Heq. by destruct (Hk i r').
    + apply create_stored.
      * intros (i & b & Hi & Hb). apply stored_actions_Some in Hi as (r' & Hr' & Hdb).
        apply action_from_record_Ok in Hdb as (_ & Hkb & _). apply (Hk _ _ Hr').
        by rewrite <- Hkb, Hb.
      * by apply stored_actions_None.
      * by apply (stored_actions_insert d _ (record_from_action a)).
      * simpl. rewrite events_insert by done. apply reflexive_eq. f_equal. by destruct e.
  - apply commit_error in E as [? ->]. done.
Qed.

Lemma save_transition_spec fr a e expected d :
  sql_inv d -> valid_GovernedAction a = true ->
  (forall b, stored_actions d !! ga_id a = Some b -> proposal_of b = proposal_of a) ->
  let '(r, d') := run (save_transition fr a e expected) d in
  sql_inv d' /\ save_spec a e expected (sql_ledger d) r (sql_ledger d').
Proof.
  intros H Hv Hp. unfold save_transition. rewrite run_atomic.
  destruct (t_actions d !! ga_id a) as [r|] eqn:Er.
  2:{ split; [done|]. apply save_missing. by apply stored_actions_None. }
  destruct (si_decode _ H _ _ Er) as [cur Hcur].
  assert (stored_actions d !! ga_id a = Some cur) as Hs by (apply stored_actions_Some; by exists r).
  pose proof (action_from_record_Ok _ _ Hcur) as (Hid & Hkey & Hst & _).
  pose proof (si_id _ H _ _ Er) as Hir. rewrite <- Hst.
  destruct (pystr_eqb (value (ga_status cur)) (value expected)) eqn:Eq.
  2:{ split; [done|]. apply save_conflict; [done|]. intros He. by rewrite He, pystr_eqb_refl in Eq. }
  apply pystr_eqb_eq, value_inj in Eq.
  pose proof (action_from_record_update r cur a Hcur Hv) as Hup.
  destruct (if changes_fit r a then _ else _) as [d'|x] eqn:Ei.
  2:{ split; [done|]. apply save_failed. destruct (changes_fit r a); [|by injection Ei as <-].
      by apply flush_error in Ei as [-> | ->]. }
  destruct (changes_fit r a); [|done]. cbn [flush] in Ei.
  destruct (flush_row _ _) as [d1|] eqn:Ef; [|done]. cbn [mbind result_bind] in Ei. injection Ei as <-.
  apply flush_row_Ok in Ef as [_ Ei]. rename d1 into d'. simpl in Ei. destruct (absent (new_event_id fr) _ && _) eqn:Ea; [|done].
  apply andb_true_iff in Ea as [Ea _]. apply absent_true in Ea.
  assert (d' = put_audit (audit_record fr e) (put_action (update_record r a) d)) as -> by congruence.
  split.
  - apply (sql_inv_insert d _ (update_record r a) (apply_transition cur a)); [done|done|done|].
    intros i r' Hi Heq. change (i = gar_id r). apply (si_key _ H _ _ _ r Hi); [by rewrite Hir|done].
  - apply (save_stored _ _ _ _ cur (apply_transition cur a)); [done|done|by right|..].
    + replace (ga_id a) with (ga_id (apply_transition cur a)) by (simpl; congruence).
      by apply (stored_actions_insert d _ (update_record r a)).
    + simpl. rewrite events_insert by done. apply reflexive_eq. f_equal. by destruct e.
Qed.

(** ** The repository keeps the promises *)

Section laws.
Context (Inv : SqlWorld -> Prop) (R G : SqlWorld -> SqlWorld -> Prop).
Context (HI : forall s, Inv s -> sql_inv (sw_db s)) (HG : Reflexive G).

Lemma wp_get_by_idempotency k Q s :
  (forall s' o, R s s' -> Inv s' ->
     match o with
     | None => True
     | Some a => action_key a = k /\ exists i, l_actions (ledger s') !! i = Some a
     end -> Q (Ok o) s') ->
  wp Inv R G (zoom sw_db put_db (get_by_idempotency k)) Q s.
Proof.
  intros H. apply wp_zoom_run. intros s' r s'' Hs' Hi Hrun.
  destruct (get_by_idempotency_spec k (sw_db s') (HI _ Hi)) as (o & Hgo & Ho).
  change (run (zoom sw_db put_db (get_by_idempotency k)) s' = (r, s'')) in Hrun.
  rewrite run_zoom in Hrun by (intros []; done). rewrite Hgo, put_db_same in Hrun. injection Hrun as <- <-.
  split; [done|]. split; [done|]. apply H; [done|done|]. by destruct o.
Qed.
End laws.

#[export] Instance sql_actions_laws : ActionRepositoryLaws SqlWorld.
Proof.
  constructor.
  - intros Inv R G Q i s HI HG H. apply wp_zoom_atomic. intros s' Hs' Hi. simpl.
    rewrite put_db_same. split; [done|]. split; [done|]. specialize (H s' Hs' Hi).
    simpl in H. unfold stored_actions in H. rewrite lookup_omap in H.
    destruct (t_actions (sw_db s') !! i) as [r|] eqn:E; [|done].
    destruct (si_decode _ (HI _ Hi) _ _ E) as [a Ha]. simpl in H. by rewrite Ha in *.
  - intros Inv R G Q fr a e m s HI HG HR Hv Hrc H.
    assert (HI' : forall s, Inv s -> sql_inv (sw_db s)) by (intros s0 Hs0; by apply HI).
    assert (Hold : forall s' b, R s s' -> Inv s' ->
      action_key b = action_key a /\ (exists i, l_actions (ledger s') !! i = Some b) -> Q (Ok (b, false)) s').
    { intros s' b Hs' Hi [Hk [i Hb]]. apply (H s'); [done|done|by apply HI'| |done].
      by eapply create_replayed. }
    apply wp_zoom_bind, wp_get_by_idempotency; [done|done|]. intros s1 [b|] Hs1 Hi1 Ho; [by apply Hold|].
    apply wp_zoom_catch, wp_zoom_bind, wp_zoom_run. intros s2 r s3 Hs2 Hi2 Hrun.
    rewrite run_zoom, run_atomic in Hrun by (intros []; done).
    pose proof (commit_create_spec fr a e m (sw_db s2) (HI' _ Hi2) Hv Hrc) as Hc.
    destruct (commit _ (sw_db s2)) as [[[]|x] d] eqn:Ec; injection Hrun as <- <-; destruct Hc as [Hd Hc].
    + apply (H s2); [by etrans|done|done|exact Hc|done].
    + destruct Hc as [[-> | ->] ->]; rewrite put_db_same; split; [done| |done|]; (split; [done|]);
        [|apply (H s2); [by etrans|done|by apply HI'|by apply create_failed|done]].
      apply wp_zoom_bind, wp_get_by_idempotency; [done|done|]. intros s4 [b|] Hs4 Hi4 Ho4.
      * apply Hold; [do 2 (etrans; [eassumption|]); done|done|done].
      * apply (H s4); [do 2 (etrans; [eassumption|]); done|done|by apply HI'|by apply create_failed|done].
  - intros Inv R G Q fr a e st s HI HG Hv Hp H. apply wp_zoom_run.
    intros s' r s'' Hs' Hi Hrun. rewrite run_zoom in Hrun by (intros []; done).
    pose proof (save_transition_spec fr a e st (sw_db s') (HI _ Hi) Hv (Hp s' Hs' Hi)) as Hspec.
    unfold save_transition in Hspec.
    destruct (run _ (sw_db s')) as [r' d'] eqn:Er. injection Hrun as <- <-.
    destruct Hspec as [Hd Hspec]. by apply (H s').
Qed.

End instances.

(** ** The supplier system of the container

    [build_container] wires the same adapter whatever the repository. *)
Definition put_sw_receipts (m : gmap UUID ExecutionReceipt) (w : SqlWorld) : SqlWorld :=
  {| sw_db := sw_db w; sw_receipts := m |}.

#[export] Instance sql_supplier : SupplierSystem SqlWorld := {|
  set_onboarding_decision fr i key args :=
    zoom sw_receipts put_sw_receipts
      (InMemorySupplierSystem.set_onboarding_decision fr i key args);
|}.

#[export] Instance sql_supplier_laws `{DT : DatetimeText} : SupplierSystemLaws SqlWorld.
Proof.
  constructor. intros Inv R G Q fr i key args s HI H. apply wp_zoom_run.
  intros s' r s'' Hs' HI' Hrun.
  assert (Hs : sw_db s'' = sw_db s' /\ supplier_spec (now fr) i key args (applied s') r (applied s'')).
  { simpl in Hrun. destruct (sw_receipts s' !! key) as [rc|] eqn:E; injection Hrun as <- <-.
    - split; [done|]. by apply supplier_replayed.
    - split; [done|]. by apply supplier_applied. }
  destruct Hs as [Hdb Hspec]. apply (H s'); [done|done|..|done].
  - change (sql_inv (sw_db s'')). rewrite Hdb. by apply HI.
  - simpl. by rewrite Hdb.
Qed.
