(* ===== verification/Governance.v ===== *)
(** * The governance service

    [packages/governance/service.py]: [propose], [decide], [get] and [execute],
    written against the protocols of [Ledger].  The names and guards are the
    source's; [t] is the reading of [datetime.now(UTC)] in the method and [fr]
    the readings of the repository or supplier system it calls. *)
From S2P Require Import Prelude PyStr Uuid Effects Json Schemas Ledger.
Local Open Scope py_scope.

(** [uuid.NAMESPACE_URL] *)
Definition NAMESPACE_URL : UUID := mkUUID 0x6ba7b8119dad11d180b400c04fd430c8 eq_refl.

(** The name hashed into an action identifier. *)
Definition action_name (tenant : pystr) (key : UUID) : pystr := tenant ++ u ":" ++ str_uuid key.

(** ** Updates *)

Definition with_arn (a : GovernedAction) (ref : option pystr) : GovernedAction := {|
  ga_id := ga_id a; ga_case_id := ga_case_id a; ga_review_id := ga_review_id a;
  ga_tenant_id := ga_tenant_id a; ga_tool_name := ga_tool_name a; ga_arguments := ga_arguments a;
  ga_status := ga_status a; ga_proposer_id := ga_proposer_id a; ga_approver_id := ga_approver_id a;
  ga_approval_comment := ga_approval_comment a; ga_idempotency_key := ga_idempotency_key a;
  ga_workflow_execution_arn := ref; ga_execution_receipt := ga_execution_receipt a;
  ga_created_at := ga_created_at a; ga_decided_at := ga_decided_at a;
  ga_executed_at := ga_executed_at a |}.

Definition with_decision (a : GovernedAction) (st : ActionStatus) (approver comment : pystr)
    (t : datetime) : GovernedAction := {|
  ga_id := ga_id a; ga_case_id := ga_case_id a; ga_review_id := ga_review_id a;
  ga_tenant_id := ga_tenant_id a; ga_tool_name := ga_tool_name a; ga_arguments := ga_arguments a;
  ga_status := st; ga_proposer_id := ga_proposer_id a; ga_approver_id := Some approver;
  ga_approval_comment := comment; ga_idempotency_key := ga_idempotency_key a;
  ga_workflow_execution_arn := ga_workflow_execution_arn a;
  ga_execution_receipt := ga_execution_receipt a; ga_created_at := ga_created_at a;
  ga_decided_at := Some t; ga_executed_at := ga_executed_at a |}.

Definition with_execution (a : GovernedAction) (r : ExecutionReceipt) : GovernedAction := {|
  ga_id := ga_id a; ga_case_id := ga_case_id a; ga_review_id := ga_review_id a;
  ga_tenant_id := ga_tenant_id a; ga_tool_name := ga_tool_name a; ga_arguments := ga_arguments a;
  ga_status := EXECUTED; ga_proposer_id := ga_proposer_id a; ga_approver_id := ga_approver_id a;
  ga_approval_comment := ga_approval_comment a; ga_idempotency_key := ga_idempotency_key a;
  ga_workflow_execution_arn := ga_workflow_execution_arn a; ga_execution_receipt := Some r;
  ga_created_at := ga_created_at a; ga_decided_at := ga_decided_at a;
  ga_executed_at := Some (rc_executed_at r) |}.

(** ** The service *)

Section service.
Context {S : Type} `{!ActionRepository S, !ApprovalWorkflow S, !SupplierSystem S}.
Context (uuid5 : UUID -> pystr -> UUID).

Definition require_role (p : Principal) (role : Role) : prog S unit :=
  raise_if (negb (has_role p role))
    (AuthorizationDeniedError (u "The " ++ value role ++ u " role is required")).

Definition require_tenant (p : Principal) (tenant : pystr) : prog S unit :=
  raise_if (negb (bool_decide (ADMIN ∈ roles p)) && negb (bool_decide (principal_tenant_id p = tenant)))
    (AuthorizationDeniedError (u "The resource belongs to another tenant")).

(** The action [propose] builds before it is stored. *)
Definition proposed_action (c : SupplierCase) (rv : ReviewResult) (req : ActionProposalRequest)
    (p : Principal) (t : datetime) : result GovernedAction :=
  arguments ← construct valid_SupplierDecisionArguments {|
    args_supplier_case_id := case_id c;
    args_review_id := rv_review_id rv;
    args_decision := rec_decision (rv_recommendation rv);
    args_rationale := rec_rationale (rv_recommendation rv);
    args_required_actions := rec_required_actions (rv_recommendation rv) |};
  construct valid_GovernedAction {|
    ga_id := uuid5 NAMESPACE_URL (action_name (principal_tenant_id p) (apr_idempotency_key req));
    ga_case_id := case_id c;
    ga_review_id := rv_review_id rv;
    ga_tenant_id := case_tenant_id c;
    ga_tool_name := SUPPLIER_SET_ONBOARDING_DECISION;
    ga_arguments := arguments;
    ga_status := PENDING_APPROVAL;
    ga_proposer_id := subject p;
    ga_approver_id := None;
    ga_approval_comment := [];
    ga_idempotency_key := apr_idempotency_key req;
    ga_workflow_execution_arn := None;
    ga_execution_receipt := None;
    ga_created_at := t;
    ga_decided_at := None;
    ga_executed_at := None |}.

Definition proposed_event (a : GovernedAction) (p : Principal) : AuditEventCreate := {|
  ae_case_id := ga_case_id a;
  ae_event_type := u "action.proposed";
  ae_actor_id := subject p;
  ae_payload := [(u "action_id", JStr (str_uuid (ga_id a)));
                 (u "review_id", JStr (str_uuid (ga_review_id a)));
                 (u "tool_name", JStr (value (ga_tool_name a)))] |}.

Definition workflow_start_message (a : GovernedAction) : result OutboxMessageCreate :=
  payload ← construct valid_ApprovalWorkflowStartPayload
    {| wp_action_id := ga_id a; wp_case_id := ga_case_id a; wp_tenant_id := ga_tenant_id a |};
  Ok {| omc_aggregate_id := ga_id a; omc_event_type := APPROVAL_WORKFLOW_START;
        omc_payload := payload |}.

(** The part of [propose] after the action is built: the audit event, the outbox
    message, the repository call and the check of a replayed key. *)
Definition submit (action : GovernedAction) (p : Principal) (fr : Fresh) : prog S GovernedAction :=
  audit_event ← of_result (construct valid_AuditEventCreate (proposed_event action p));
  outbox_message ← of_result (workflow_start_message action);
  stored_created ← create_proposal fr action audit_event outbox_message;
  let stored := stored_created.1 in
  _ ← raise_if (bool_decide (ga_case_id stored <> ga_case_id action)
                || bool_decide (ga_review_id stored <> ga_review_id action))
        (IdempotencyConflictError (u "The idempotency key is already associated with another proposal"));
  Ret stored.

Definition propose (c : SupplierCase) (rv : ReviewResult) (req : ActionProposalRequest)
    (p : Principal) (t : datetime) (fr : Fresh) : prog S GovernedAction :=
  _ ← require_role p ANALYST;
  _ ← require_tenant p (case_tenant_id c);
  _ ← raise_if (bool_decide (rv_case_id rv <> case_id c))
        (ValueError (u "The review does not belong to the supplier case"));
  action ← of_result (proposed_action c rv req p t);
  action ← (if uses_transactional_outbox then Ret action
            else workflow_reference ← start_workflow action;
                 Ret (with_arn action (Some workflow_reference)));
  submit action p fr.

Definition decision_status (d : ApprovalDecision) : ActionStatus :=
  match d with AD_APPROVE => APPROVED | AD_REJECT => REJECTED end.

Definition decided_event (d : GovernedAction) (p : Principal) : AuditEventCreate := {|
  ae_case_id := ga_case_id d;
  ae_event_type := u "action." ++ value (ga_status d);
  ae_actor_id := subject p;
  ae_payload := [(u "action_id", JStr (str_uuid (ga_id d)));
                 (u "comment", JStr (ga_approval_comment d))] |}.

Definition decide (action_id : UUID) (req : ApprovalRequest) (p : Principal)
    (t : datetime) (fr : Fresh) : prog S GovernedAction :=
  _ ← require_role p APPROVER;
  action ← get_action action_id;
  _ ← require_tenant p (ga_tenant_id action);
  _ ← raise_if (bool_decide (ga_proposer_id action = subject p))
        (AuthorizationDeniedError (u "A proposer cannot approve their own action"));
  _ ← raise_if (bool_decide (ga_status action <> PENDING_APPROVAL))
        (ActionStateError (u "Action " ++ str_uuid (ga_id action) ++ u " is already "
                             ++ value (ga_status action)));
  let decided := with_decision action (decision_status (ar_decision req)) (subject p)
                               (ar_comment req) t in
  _ ← (try (event ← of_result (construct valid_AuditEventCreate (decided_event decided p));
            save_transition fr decided event PENDING_APPROVAL)
       except (fun e => match e with
                        | ActionTransitionConflictError m => Throw (ActionStateError m)
                        | _ => Throw e
                        end));
  Ret decided.

Definition get (action_id : UUID) (p : Principal) : prog S GovernedAction :=
  action ← get_action action_id;
  _ ← require_tenant p (ga_tenant_id action);
  Ret action.

Definition executed_event (e : GovernedAction) (r : ExecutionReceipt) (p : Principal) :
    AuditEventCreate := {|
  ae_case_id := ga_case_id e;
  ae_event_type := u "action.executed";
  ae_actor_id := subject p;
  ae_payload := [(u "action_id", JStr (str_uuid (ga_id e)));
                 (u "external_reference", JStr (rc_external_reference r))] |}.

(** [action.status is EXECUTED and action.execution_receipt is not None] *)
Definition stored_receipt (a : GovernedAction) : option ExecutionReceipt :=
  match ga_status a with EXECUTED => ga_execution_receipt a | _ => None end.

Definition execute (action_id : UUID) (p : Principal) (fr : Fresh) : prog S ExecutionReceipt :=
  _ ← require_role p EXECUTOR;
  action ← get_action action_id;
  _ ← require_tenant p (ga_tenant_id action);
  match stored_receipt action with
  | Some receipt => Ret receipt
  | None =>
      _ ← raise_if (bool_decide (ga_status action <> APPROVED))
            (ActionStateError (u "Action " ++ str_uuid (ga_id action) ++ u " is not approved"));
      receipt ← set_onboarding_decision fr (ga_id action) (ga_idempotency_key action)
                  (ga_arguments action);
      let executed := with_execution action receipt in
      try (event ← of_result (construct valid_AuditEventCreate (executed_event executed receipt p));
           _ ← save_transition fr executed event APPROVED;
           Ret receipt)
      except (fun e => match e with
                       | ActionTransitionConflictError m =>
                           current ← get_action action_id;
                           match stored_receipt current with
                           | Some receipt' => Ret receipt'
                           | None => Throw (ActionStateError m)
                           end
                       | _ => Throw e
                       end)
  end.
End service.
