(* ===== verification/Lifecycle.v ===== *)
(** * The lifecycle of a governed action

    The specification of [ActionStatus]: a proposal is pending until a principal
    other than its proposer approves or rejects it, and only an approved action
    is executed.  [action_step] is the step relation on stored actions,
    [status_step] its projection on the status; the facts below hold along every
    path. *)
From S2P Require Import Prelude PyStr Uuid Effects Json Schemas Ledger Governance.

Inductive status_step : ActionStatus -> ActionStatus -> Prop :=
  | status_decide d : status_step PENDING_APPROVAL (decision_status d)
  | status_execute : status_step APPROVED EXECUTED.

(** A workflow reference is recorded, a decision is taken, an execution is stored. *)
Inductive action_step : GovernedAction -> GovernedAction -> Prop :=
  | step_arn a ref :
      opt_forallb (fun s => len_between 0 2048 (length s)) ref = true ->
      action_step a (with_arn a ref)
  | step_decide a d approver comment t :
      ga_status a = PENDING_APPROVAL -> approver <> ga_proposer_id a ->
      action_step a (with_decision a (decision_status d) approver comment t)
  | step_execute a r :
      ga_status a = APPROVED -> action_step a (with_execution a r).

Definition steps : GovernedAction -> GovernedAction -> Prop := rtc action_step.

(** A fresh proposal. *)
Definition initial (a : GovernedAction) : Prop :=
  progress_of a = (PENDING_APPROVAL, None, [], None, None, None).

Definition reachable (a : GovernedAction) : Prop := exists a0, initial a0 /\ steps a0 a.

(** A decision by someone else than the proposer is on record. *)
Definition independently_decided (a : GovernedAction) : Prop :=
  exists approver t, ga_approver_id a = Some approver /\ ga_decided_at a = Some t /\
    approver <> ga_proposer_id a.

(** What each status says about the other fields. *)
Definition consistent (a : GovernedAction) : Prop :=
  match ga_status a with
  | PENDING_APPROVAL => initial a
  | APPROVED | REJECTED =>
      independently_decided a /\ ga_execution_receipt a = None /\ ga_executed_at a = None
  | EXECUTED =>
      independently_decided a /\
      exists r, ga_execution_receipt a = Some r /\ ga_executed_at a = Some (rc_executed_at r)
  | FAILED => False
  end.

Definition status_rank (st : ActionStatus) : nat :=
  match st with PENDING_APPROVAL => 0 | APPROVED | REJECTED => 1 | EXECUTED | FAILED => 2 end.

Definition decision_of (a : GovernedAction) := (ga_approver_id a, ga_approval_comment a, ga_decided_at a).

(** ** Lemmas *)

Lemma step_proposal a b : action_step a b -> proposal_of a = proposal_of b.
Proof. by destruct 1. Qed.

Lemma steps_proposal a b : steps a b -> proposal_of a = proposal_of b.
Proof. induction 1 as [|a b c H _ IH]; [done|]. rewrite <- IH. by apply step_proposal. Qed.

Lemma step_status a b : action_step a b -> ga_status a = ga_status b \/ status_step (ga_status a) (ga_status b).
Proof. destruct 1 as [|a d ap cm t ->|a r ->]; [by left|right; apply status_decide|right; apply status_execute]. Qed.

Lemma steps_status a b : steps a b -> rtc status_step (ga_status a) (ga_status b).
Proof.
  induction 1 as [|a b c H _ IH]; [done|].
  apply step_status in H as [->|H]; [done|]. by eapply rtc_l.
Qed.

Lemma status_step_rank st st' : status_step st st' -> status_rank st < status_rank st'.
Proof. destruct 1 as [[]|]; simpl; lia. Qed.

Lemma with_arn_with_arn a r r' : with_arn (with_arn a r) r' = with_arn a r'.
Proof. done. Qed.

Lemma with_arn_id a : with_arn a (ga_workflow_execution_arn a) = a.
Proof. by destruct a. Qed.

(** Either the status moves forward or nothing but the workflow reference changes. *)
Lemma steps_rank a b : steps a b ->
  status_rank (ga_status a) < status_rank (ga_status b) \/ b = with_arn a (ga_workflow_execution_arn b).
Proof.
  induction 1 as [a|a b c H _ IH]; [right; by rewrite with_arn_id|].
  assert (status_rank (ga_status a) <= status_rank (ga_status b)) as Hab.
  { apply step_status in H as [->|H%status_step_rank]; lia. }
  assert (status_rank (ga_status b) <= status_rank (ga_status c)) as Hbc.
  { destruct IH as [| ->]; simpl; lia. }
  destruct H as [a ref|a d ap cm t Ha|a r Ha]; simpl in *.
  - destruct IH as [|IH]; [by left|]. right. rewrite IH. by rewrite with_arn_with_arn.
  - left. rewrite Ha in *. destruct d; simpl in *; lia.
  - left. rewrite Ha in *. simpl in *. lia.
Qed.

(** Two stored versions with the same status differ at most in the reference. *)
Lemma steps_same_status a b :
  steps a b -> ga_status a = ga_status b -> b = with_arn a (ga_workflow_execution_arn b).
Proof. intros [H|H]%steps_rank Hst; [rewrite Hst in H; lia|done]. Qed.

Lemma steps_not_pending a b :
  steps a b -> ga_status a <> PENDING_APPROVAL -> ga_status b <> PENDING_APPROVAL.
Proof.
  intros [H|H]%steps_rank Ha Hb; [rewrite Hb in H; simpl in H; lia|].
  rewrite H in Hb. by apply Ha.
Qed.

(** A decision is final. *)
Lemma steps_decision a b :
  steps a b -> ga_status a <> PENDING_APPROVAL -> decision_of a = decision_of b.
Proof.
  induction 1 as [|a b c H _ IH]; [done|]. intros Ha.
  assert (decision_of a = decision_of b) as -> by (destruct H; done).
  apply IH. apply (steps_not_pending a); [by apply rtc_once|done].
Qed.

Lemma steps_rejected a b : steps a b -> ga_status a = REJECTED -> ga_status b = REJECTED.
Proof.
  induction 1 as [|a b c H _ IH]; [done|]. intros Ha. apply IH.
  destruct H as [|a d ap cm t Ha'|a r Ha']; [done|congruence|congruence].
Qed.

Lemma steps_approved a b :
  steps a b -> ga_status a = APPROVED -> ga_status b = APPROVED \/ ga_status b = EXECUTED.
Proof.
  intros H%steps_status Ha. rewrite Ha in H. inversion H as [|? x ? H1 H2]; [by left|].
  right. inversion H1 as [[]|]; subst; inversion H2 as [|? y ? H3 H4]; [done|inversion H3 as [[]|]].
Qed.

(** An execution is final, with its receipt. *)
Lemma steps_executed a b :
  steps a b -> ga_status a = EXECUTED -> b = with_arn a (ga_workflow_execution_arn b).
Proof.
  intros H Ha. apply steps_same_status; [done|]. apply steps_status in H. rewrite Ha in *.
  inversion H as [|? x ? H1 H2]; [done|]. inversion H1 as [[]|].
Qed.

Lemma step_consistent a b : consistent a -> action_step a b -> consistent b.
Proof.
  unfold consistent. intros Ha H. destruct H as [a ref|a d ap cm t Hst Hap|a r Hst]; simpl.
  - exact Ha.
  - rewrite Hst in Ha. unfold initial, progress_of in Ha. simplify_eq/=.
    assert (independently_decided (with_decision a (decision_status d) ap cm t)) by (exists ap, t; done).
    by destruct d.
  - rewrite Hst in Ha. destruct Ha as [[ap [t (? & ? & ?)]] _]. split; [by exists ap, t|by exists r].
Qed.

Lemma steps_consistent a b : steps a b -> consistent a -> consistent b.
Proof. induction 1 as [|a b c H _ IH]; [done|]. intros Ha. by apply IH, (step_consistent a). Qed.

Lemma initial_consistent a : initial a -> consistent a.
Proof.
  intros H. unfold consistent.
  assert (ga_status a = PENDING_APPROVAL) as -> by (unfold initial, progress_of in H; congruence). done.
Qed.

Lemma reachable_consistent a : reachable a -> consistent a.
Proof. intros (a0 & H0 & H). by eapply steps_consistent, initial_consistent. Qed.

Lemma reachable_steps a b : reachable a -> steps a b -> reachable b.
Proof. intros (a0 & H0 & H) Hab. exists a0. split; [done|]. by etransitivity. Qed.

(** Storing an update of [a] over a later version [cur] with the same status is a
    step from [cur], whether the whole action or only its progress is written. *)
Lemma store_update (f : GovernedAction -> GovernedAction) a cur st :
  (forall x, ga_status x = ga_status a -> proposal_of x = proposal_of a -> action_step x (f x)) ->
  (forall x ref, f (with_arn x ref) = with_arn (f x) ref) ->
  (forall x, ga_workflow_execution_arn (f x) = ga_workflow_execution_arn x) ->
  valid_GovernedAction (f a) = true ->
  steps a cur -> ga_status cur = ga_status a ->
  st = f a \/ st = apply_transition cur (f a) -> steps cur st.
Proof.
  intros Hf Harn Hkeep Hv Hac Hst Hor.
  pose proof (steps_same_status a cur Hac (eq_sym Hst)) as Hcur.
  assert (steps cur (f cur)) as Hstep
    by (apply rtc_once, Hf; [done|symmetry; by apply steps_proposal]).
  assert (f a = with_arn (f cur) (ga_workflow_execution_arn a)) as Hfa.
  { rewrite Hcur, Harn, with_arn_with_arn, <- (Hkeep a). by rewrite with_arn_id. }
  destruct Hor as [-> | ->].
  - rewrite Hfa. eapply rtc_r; [done|]. apply step_arn.
    rewrite <- Hkeep. unfold valid_GovernedAction in Hv. rewrite !andb_true_iff in Hv. tauto.
  - assert (apply_transition cur (f a) = f cur) as ->; [|done].
    assert (proposal_of cur = proposal_of (f cur)) as Hp by by apply steps_proposal.
    rewrite Hfa. specialize (Hkeep cur). destruct cur, (f _) as []. 
    unfold proposal_of in Hp. simpl in *. unfold apply_transition. simpl. congruence.
Qed.

(** ** Updates keep an action valid *)

Lemma valid_with_arn a ref :
  valid_GovernedAction a = true -> len_between 0 2048 (length ref) = true ->
  valid_GovernedAction (with_arn a (Some ref)) = true.
Proof. unfold valid_GovernedAction. simpl. rewrite !andb_true_iff. tauto. Qed.

Lemma valid_with_decision a st p comment t :
  valid_GovernedAction a = true -> valid_Principal p = true ->
  len_between 0 2000 (length comment) = true ->
  valid_GovernedAction (with_decision a st (subject p) comment t) = true.
Proof.
  unfold valid_GovernedAction, valid_Principal. simpl. rewrite !andb_true_iff.
  assert (forall n, len_between 1 255 n = true -> len_between 0 255 n = true).
  { unfold len_between. intros n. rewrite !andb_true_iff, !Nat.leb_le. lia. }
  specialize (H (length (subject p))). tauto.
Qed.

Lemma valid_with_execution a r :
  valid_GovernedAction a = true -> valid_ExecutionReceipt r = true ->
  valid_GovernedAction (with_execution a r) = true.
Proof. unfold valid_GovernedAction. simpl. rewrite !andb_true_iff. tauto. Qed.
#[export] Hint Resolve reachable_steps steps_proposal valid_with_arn : py.
