(* ===== verification/GovernanceProofs.v ===== *)
(** * Governance under interleaving

    The service of [Governance] over any repository, workflow and supplier system
    that keep the promises of [Ledger]: the world invariant [world_ok], the
    evolution [world_le] of the stored state, and the proof outline of each
    method in the logic of [Effects].  The theorems hold for every interleaving
    of any number of requests. *)
From S2P Require Import Prelude PyStr Uuid Effects Json Schemas Ledger Governance Lifecycle.

Section governance.
Context {S : Type} `{!ActionRepository S, !ApprovalWorkflow S, !SupplierSystem S, !LedgerView S}.
Context (uuid5 : UUID -> pystr -> UUID).

(** The tenant and the idempotency key an identifier of an action stands for. *)
Context (key_of : UUID -> pystr * UUID).

(** ** Invariant and evolution *)

(** Every stored action is filed under its identifier, valid and reached from a
    proposal by the lifecycle; keys are unique.  Where a proposal may replace the action
    stored under its identifier, the identifier stands for the tenant and key of the action. *)
Record ledger_ok (L : Ledger) : Prop := {
  lo_id i a : l_actions L !! i = Some a -> ga_id a = i;
  lo_valid i a : l_actions L !! i = Some a -> valid_GovernedAction a = true;
  lo_reachable i a : l_actions L !! i = Some a -> reachable a;
  lo_key i j a b : l_actions L !! i = Some a -> l_actions L !! j = Some b ->
    action_key a = action_key b -> i = j;
  lo_stands i a : overwrites S = true -> l_actions L !! i = Some a -> key_of i = action_key a;
}.

(** A decision applied by the supplier system is the recorded decision of an
    action that is approved by somebody other than its proposer. *)
Definition authorised_write (L : Ledger) (key : UUID) (r : ExecutionReceipt) : Prop :=
  exists a, l_actions L !! rc_action_id r = Some a /\ ga_idempotency_key a = key /\
    (ga_status a = APPROVED \/ ga_status a = EXECUTED) /\ independently_decided a /\
    rc_applied_decision r = args_decision (ga_arguments a).

Record world_ok (s : S) : Prop := {
  wo_repo : repo_inv s;
  wo_ledger : ledger_ok (ledger s);
  wo_receipts key r : applied s !! key = Some r ->
    valid_ExecutionReceipt r = true /\ authorised_write (ledger s) key r;
  wo_executed i a : l_actions (ledger s) !! i = Some a -> ga_status a = EXECUTED ->
    ga_execution_receipt a = applied s !! ga_idempotency_key a;
}.

Record world_le (s s' : S) : Prop := {
  wl_actions i a : l_actions (ledger s) !! i = Some a ->
    exists b, l_actions (ledger s') !! i = Some b /\ steps a b;
  wl_audit : l_audit (ledger s) ⊆+ l_audit (ledger s');
  wl_applied : applied s ⊆ applied s';
}.

#[export] Instance world_le_preorder : PreOrder world_le.
Proof.
  split.
  - intros s. split; [intros i a; exists a; done|done|done].
  - intros s1 s2 s3 [A1 B1 C1] [A2 B2 C2]. split; [|by etrans|by etrans].
    intros i a (b & Hb & Hab)%A1. apply A2 in Hb as (c & Hc & Hbc). exists c.
    split; [done|by etrans].
Qed.

(** Requests of the service. *)
Inductive request :=
  | Propose (c : SupplierCase) (rv : ReviewResult) (req : ActionProposalRequest) (p : Principal)
      (t : datetime) (fr : Fresh)
  | Decide (i : UUID) (req : ApprovalRequest) (p : Principal) (t : datetime) (fr : Fresh)
  | GetAction (i : UUID) (p : Principal)
  | Execute (i : UUID) (p : Principal) (fr : Fresh).

Inductive reply := ActionReply (a : GovernedAction) | ReceiptReply (r : ExecutionReceipt).

Definition serve (r : request) : prog S reply :=
  match r with
  | Propose c rv req p t fr => ActionReply <$> propose uuid5 c rv req p t fr
  | Decide i req p t fr => ActionReply <$> decide i req p t fr
  | GetAction i p => ActionReply <$> get i p
  | Execute i p fr => ReceiptReply <$> execute i p fr
  end.

(** What a request must satisfy beyond the service's own guards: its models were validated. *)
Definition validated (r : request) : Prop :=
  match r with
  | Decide _ req p _ _ => valid_ApprovalRequest req = true /\ valid_Principal p = true
  | Execute _ p _ => valid_Principal p = true
  | Propose _ _ _ _ _ _ | GetAction _ _ => True
  end.

(** The identifier derived for a proposal stands for the tenant of the case and the key.  It
    is derived from the tenant of the proposer: this rules out that an administrator proposes
    for a case of another tenant with a key that its own tenant uses as well. *)
Definition own_identifier (r : request) : Prop :=
  match r with
  | Propose c _ req p _ _ =>
      key_of (uuid5 NAMESPACE_URL (action_name (principal_tenant_id p) (apr_idempotency_key req)))
        = (case_tenant_id c, apr_idempotency_key req)
  | _ => True
  end.

(** Identifiers matter where a proposal may replace what is stored under its own. *)
Definition admissible (r : request) : Prop := validated r /\ (overwrites S = true -> own_identifier r).

(** What a successful reply says about the stored state, from then on. *)
Definition served (r : request) (rep : reply) (s : S) : Prop :=
  match r, rep with
  | Propose c rv req p _ _, ActionReply a =>
      has_role p ANALYST = true /\ ga_case_id a = case_id c /\ ga_review_id a = rv_review_id rv /\
      action_key a = (case_tenant_id c, apr_idempotency_key req) /\
      exists b, l_actions (ledger s) !! ga_id a = Some b /\ steps a b
  | Decide i req p t _, ActionReply a =>
      has_role p APPROVER = true /\
      exists b, l_actions (ledger s) !! i = Some b /\ ga_proposer_id b <> subject p /\
        decision_of b = (Some (subject p), ar_comment req, Some t) /\
        match ar_decision req with
        | AD_APPROVE => ga_status b = APPROVED \/ ga_status b = EXECUTED
        | AD_REJECT => ga_status b = REJECTED
        end
  | GetAction i p, ActionReply a =>
      (ADMIN ∈ roles p \/ principal_tenant_id p = ga_tenant_id a) /\
      exists b, l_actions (ledger s) !! i = Some b /\ steps a b
  | Execute i p _, ReceiptReply rc =>
      has_role p EXECUTOR = true /\
      exists b, l_actions (ledger s) !! i = Some b /\ ga_status b = EXECUTED /\
        ga_execution_receipt b = Some rc
  | _, _ => False
  end.

Definition post (r : request) (res : result reply) (s : S) : Prop :=
  match res with Ok rep => served r rep s | Raise _ => True end.

(** ** State changes *)

Lemma served_stable r rep s s' : served r rep s -> world_le s s' -> served r rep s'.
Proof.
  intros Hs H. destruct r, rep; simpl in *; try done.
  - destruct Hs as (? & ? & ? & ? & b & Hb & Hab). apply (wl_actions _ _ H) in Hb as (b' & Hb' & Hbb).
    split_and!; try done. exists b'. split; [done|by etrans].
  - destruct Hs as (? & b & Hb & Hp & Hd & Hst). apply (wl_actions _ _ H) in Hb as (b' & Hb' & Hbb).
    assert (ga_status b <> PENDING_APPROVAL) as Hn
      by (destruct (ar_decision req); [destruct Hst|]; congruence).
    split; [done|]. exists b'. pose proof (steps_proposal _ _ Hbb) as Hpp. unfold proposal_of in Hpp.
    rewrite <- (steps_decision _ _ Hbb Hn). split_and!; [done|congruence|done|].
    destruct (ar_decision req); [|by apply (steps_rejected b)].
    destruct Hst as [Hst|Hst]; [by apply (steps_approved b)|].
    right. by rewrite (steps_executed _ _ Hbb Hst).
  - destruct Hs as (? & b & Hb & Hab). apply (wl_actions _ _ H) in Hb as (b' & Hb' & Hbb).
    split; [done|]. exists b'. split; [done|by etrans].
  - destruct Hs as (? & b & Hb & Hst & Hr). apply (wl_actions _ _ H) in Hb as (b' & Hb' & Hbb).
    pose proof (steps_executed _ _ Hbb Hst) as E.
    split; [done|]. exists b'. split_and!; [done|by rewrite E|by rewrite E].
Qed.

Lemma authorised_write_stable L L' key r :
  (forall i a, l_actions L !! i = Some a -> exists b, l_actions L' !! i = Some b /\ steps a b) ->
  ledger_ok L' -> authorised_write L key r -> authorised_write L' key r.
Proof.
  intros Hle HL (a & Ha & Hk & Hst & Hind & Hd). apply Hle in Ha as (b & Hb & Hab).
  exists b. pose proof (steps_proposal _ _ Hab) as Hp. unfold proposal_of in Hp.
  assert (ga_status b = APPROVED \/ ga_status b = EXECUTED) as Hstb.
  { destruct Hst as [Hst|Hst]; [by apply (steps_approved a)|].
    right. by rewrite (steps_executed _ _ Hab Hst). }
  split_and!; [done|congruence|done| |congruence].
  pose proof (reachable_consistent _ (lo_reachable _ HL _ _ Hb)) as Hc. unfold consistent in Hc.
  by destruct Hstb as [E|E]; rewrite E in Hc; apply Hc.
Qed.

(** Filing a new or later version of one action keeps a consistent ledger. *)
Lemma ledger_ok_insert L L' a :
  ledger_ok L -> l_actions L' = <[ga_id a := a]> (l_actions L) ->
  valid_GovernedAction a = true -> reachable a ->
  (forall b, l_actions L !! ga_id a = Some b -> action_key b = action_key a) ->
  (l_actions L !! ga_id a = None -> ~ has_key L (action_key a)) ->
  (overwrites S = true -> key_of (ga_id a) = action_key a) ->
  ledger_ok L'.
Proof.
  intros HL HL' Hv Hr Hold Hnew Hid.
  assert (Hother : forall i b, l_actions L !! i = Some b -> action_key b = action_key a -> i = ga_id a).
  { intros i b Hb Hk. destruct (l_actions L !! ga_id a) as [c|] eqn:Ec.
    - apply (lo_key _ HL _ _ _ _ Hb Ec). by rewrite Hk, (Hold c).
    - exfalso. apply Hnew; [done|]. by exists i, b. }
  split; rewrite HL'.
  - intros i b. rewrite lookup_insert. case_decide; [by intros [= <-]|by apply HL].
  - intros i b. rewrite lookup_insert. case_decide; [by intros [= <-]|by apply HL].
  - intros i b. rewrite lookup_insert. case_decide; [by intros [= <-]|by apply HL].
  - intros i j b c. rewrite !lookup_insert. do 2 case_decide; intros Hb Hc Hk.
    + congruence.
    + assert (a = b) as <- by congruence. subst i. symmetry. by apply (Hother j c).
    + assert (a = c) as <- by congruence. subst j. by apply (Hother i b).
    + by eapply (lo_key _ HL).
  - intros i b Ho. rewrite lookup_insert. case_decide; [intros [= <-]; subst; auto|by apply HL].
Qed.

(** A world whose ledger is replaced by a later one. *)
Lemma world_update s s' :
  world_ok s -> repo_inv s' -> ledger_ok (ledger s') -> applied s' = applied s ->
  (forall i a, l_actions (ledger s) !! i = Some a ->
     exists b, l_actions (ledger s') !! i = Some b /\ steps a b) ->
  l_audit (ledger s) ⊆+ l_audit (ledger s') ->
  (forall i a, l_actions (ledger s') !! i = Some a -> ga_status a = EXECUTED ->
     ga_execution_receipt a = applied s !! ga_idempotency_key a) ->
  world_ok s' /\ world_le s s'.
Proof.
  intros H Hr HL Happ Hle Hau Hex. split; split; try done.
  - intros key r. rewrite Happ. intros [? ?]%(wo_receipts _ H). split; [done|].
    by eapply authorised_write_stable.
  - intros i a. rewrite Happ. apply Hex.
  - by rewrite Happ.
Qed.

Lemma world_same s s' :
  world_ok s -> repo_inv s' -> ledger s' = ledger s -> applied s' = applied s ->
  world_ok s' /\ world_le s s'.
Proof.
  intros H Hr HL Happ. apply world_update; rewrite ?HL; auto; [by destruct H| |by destruct H].
  intros i a Ha. by exists a.
Qed.

Lemma cons_submseteq {A} (x : A) l k : k ≡ₚ x :: l -> l ⊆+ k.
Proof. intros ->. by apply submseteq_cons. Qed.

(** Storing a version [st] of an action over the current one. *)
Lemma world_store s s' cur st :
  world_ok s -> repo_inv s' -> applied s' = applied s ->
  l_actions (ledger s) !! ga_id st = Some cur -> steps cur st -> valid_GovernedAction st = true ->
  l_actions (ledger s') = <[ga_id st := st]> (l_actions (ledger s)) ->
  l_audit (ledger s) ⊆+ l_audit (ledger s') ->
  (ga_status st = EXECUTED -> ga_execution_receipt st = applied s !! ga_idempotency_key st) ->
  world_ok s' /\ world_le s s'.
Proof.
  intros H Hr Happ Hcur Hst Hv HL Hau Hex. pose proof (wo_ledger _ H) as HLok.
  pose proof (steps_proposal _ _ Hst) as Hp.
  apply world_update; try done.
  - apply (ledger_ok_insert (ledger s) _ st); try done.
    + by eapply reachable_steps; [eapply (lo_reachable _ HLok)|].
    + intros b Hb. assert (b = cur) as -> by congruence. by apply proposal_of_key.
    + congruence.
    + intros Ho. rewrite (lo_stands _ HLok _ _ Ho Hcur). by apply proposal_of_key.
  - intros i a Ha. rewrite HL, lookup_insert. case_decide; [|by exists a].
    exists st. split; [done|]. by assert (a = cur) as -> by congruence.
  - intros i a. rewrite HL, lookup_insert. case_decide; [by intros [= <-]|by apply H].
Qed.

Lemma post_stable r res s s' : post r res s -> world_le s s' -> post r res s'.
Proof. destruct res; simpl; [apply served_stable|done]. Qed.
(** A new proposal, a replayed one, or a storage error. *)
Lemma world_create s s' a e r :
  world_ok s -> repo_inv s' -> applied s' = applied s ->
  valid_GovernedAction a = true -> initial a ->
  (overwrites S = true -> key_of (ga_id a) = action_key a) ->
  create_spec a e (ledger s) r (ledger s') ->
  (world_ok s' /\ world_le s s') /\
  (forall b new, r = Ok (b, new) -> l_actions (ledger s') !! ga_id b = Some b /\ action_key b = action_key a).
Proof.
  intros H Hr Happ Hv Hi Hid Hspec. pose proof (wo_ledger _ H) as HL.
  inversion Hspec as [i b Hb Hk HE1 HE2|L' Hnk Hnone HL' Hau HE1 HE2|x Hx HE1 HE2].
  - split; [by apply world_same|]. intros b' new [= <- <-].
    split; [|done]. by rewrite (lo_id _ HL _ _ Hb).
  - subst L'. split; [|intros b new [= <- <-]; by rewrite HL', lookup_insert_eq].
    apply world_update; try done.
    + apply (ledger_ok_insert (ledger s) _ a); try done; [by exists a|congruence].
    + intros i b Hb. rewrite HL', lookup_insert_ne by congruence. by exists b.
    + by eapply cons_submseteq.
    + intros i b. rewrite HL', lookup_insert. case_decide; [|by apply H].
      intros [= <-] Hst. unfold initial, progress_of in Hi. congruence.
  - split; [by apply world_same|done].
Qed.

(** A decision of an approved action reaches the supplier system. *)
Lemma world_apply s s' t a r :
  world_ok s -> repo_inv s' -> ledger s' = ledger s ->
  l_actions (ledger s) !! ga_id a = Some a -> ga_status a = APPROVED \/ ga_status a = EXECUTED ->
  supplier_spec t (ga_id a) (ga_idempotency_key a) (ga_arguments a) (applied s) r (applied s') ->
  (world_ok s' /\ world_le s s') /\
  exists rc, r = Ok rc /\ applied s' !! ga_idempotency_key a = Some rc /\ valid_ExecutionReceipt rc = true.
Proof.
  intros H Hr HL Ha Hst Hspec. inversion Hspec as [rc Hrc HE1 HE2|rc Hnone Hi Hd Ht Hv HE1 HE2].
  - split; [by apply world_same|]. exists rc.
    split_and!; [done|done|]. by apply (wo_receipts _ H) in Hrc as [? _].
  - assert (Hauth : authorised_write (ledger s) (ga_idempotency_key a) rc).
    { exists a. rewrite Hi. split_and!; try done.
      pose proof (reachable_consistent _ (lo_reachable _ (wo_ledger _ H) _ _ Ha)) as Hc.
      unfold consistent in Hc. by destruct Hst as [E|E]; rewrite E in Hc; apply Hc. }
    split; [|exists rc; by rewrite lookup_insert_eq].
    split; split; rewrite ?HL, <- ?HE2; try done.
    + apply H.
    + intros key r'. rewrite lookup_insert. case_decide; [by intros [= <-]; subst|by apply H].
    + intros i b Hb Hex. pose proof (wo_executed _ H _ _ Hb Hex) as Hrb.
      rewrite lookup_insert. case_decide as Hk; [|done]. exfalso.
      pose proof (reachable_consistent _ (lo_reachable _ (wo_ledger _ H) _ _ Hb)) as Hc.
      unfold consistent in Hc. rewrite Hex in Hc. destruct Hc as (_ & r' & Hr' & _). congruence.
    + intros i b Hb. by exists b.
    + by apply insert_subseteq.
Qed.

Lemma proposed_action_spec c rv req p t a :
  proposed_action uuid5 c rv req p t = Ok a ->
  valid_GovernedAction a = true /\ initial a /\ ga_workflow_execution_arn a = None /\
  ga_case_id a = case_id c /\ ga_review_id a = rv_review_id rv /\
  ga_tenant_id a = case_tenant_id c /\ ga_idempotency_key a = apr_idempotency_key req /\
  ga_id a = uuid5 NAMESPACE_URL (action_name (principal_tenant_id p) (apr_idempotency_key req)).
Proof.
  unfold proposed_action. destruct (construct _ _) as [args|] eqn:E; [|done].
  cbn [mbind result_bind]. intros [Hv ->]%construct_Ok. done.
Qed.

End governance.

#[global] Arguments admissible S {_} uuid5 key_of r.

(** ** Proof outlines of the methods *)

Section methods.
Context {S : Type} `{!ActionRepository S, !ApprovalWorkflow S, !SupplierSystem S, !LedgerView S}.
Context `{!ActionRepositoryLaws S, !ApprovalWorkflowLaws S, !SupplierSystemLaws S}.
Context (uuid5 : UUID -> pystr -> UUID) (key_of : UUID -> pystr * UUID).

#[local] Abbreviation ok := (world_ok key_of).
#[local] Abbreviation rg := (wp (S := S) ok world_le world_le).

(** The outcome a method reports, as the reply of its request. *)
Definition reports {A} (r : request) (f : A -> reply) (res : result A) (s : S) : Prop :=
  match res with Ok a => served r (f a) s | Raise _ => True end.

Lemma rg_reply {A} r (f : A -> reply) (m : prog S A) s : rg m (reports r f) s -> rg (f <$> m) (post r) s.
Proof. intros H. apply wp_bind. eapply wp_mono; [|exact H]. by intros [a|e] s'. Qed.

(** Steps over a guard of the source. *)
Ltac wp_guard H := apply wp_bind, wp_raise_if; [done|intros H; cbv beta iota].

Lemma name_owned a b s :
  ok s -> l_actions (ledger s) !! ga_id a = Some b -> overwrites S = true ->
  key_of (ga_id a) = action_key a -> action_key b = action_key a.
Proof. intros H Hb Ho <-. symmetry. by apply (lo_stands _ _ (wo_ledger _ _ H)). Qed.

Lemma rg_submit a p fr s :
  valid_GovernedAction a = true -> initial a ->
  (overwrites S = true -> key_of (ga_id a) = action_key a) ->
  rg (submit a p fr) (fun res s' => match res with
    | Ok b => ga_case_id b = ga_case_id a /\ ga_review_id b = ga_review_id a /\
              action_key b = action_key a /\ l_actions (ledger s') !! ga_id b = Some b
    | Raise _ => True end) s.
Proof.
  intros Hv Hi Hid. unfold submit.
  apply wp_bind. destruct (construct _ _) as [e|]; [|done]. cbn [wp of_result].
  apply wp_bind. destruct (workflow_start_message a) as [m|]; [|done]. cbn [wp of_result].
  apply wp_bind, create_law; try apply _; try done.
  - intros s0 H0. split; [by destruct H0|]. intros Ho b Hb. apply (name_owned a b s0); auto.
  - unfold initial, progress_of in Hi. congruence.
  - intros s0 r s1 _ H0 Hr Hspec Happ.
    destruct (world_create key_of s0 s1 a e r) as [[Hok Hle] Hres]; try done.
    split; [done|]. split; [done|]. destruct r as [[b new]|x]; [|done].
    destruct (Hres b new eq_refl) as [Hb Hk]. wp_guard Hg.
    apply orb_false_iff in Hg as [Hg1 Hg2].
    apply bool_decide_eq_false, dec_stable in Hg1, Hg2. done.
Qed.

Lemma rg_propose c rv req p t fr s :
  admissible S uuid5 key_of (Propose c rv req p t fr) ->
  rg (propose uuid5 c rv req p t fr) (reports (Propose c rv req p t fr) ActionReply) s.
Proof.
  intros [_ Hname]. cbn in Hname. unfold propose. wp_guard Hrole. wp_guard Htenant. wp_guard Hcase.
  destruct (proposed_action uuid5 c rv req p t) as [a|x] eqn:Ea; [|done].
  apply proposed_action_spec in Ea as (Hv & Hi & Harn & Hc & Hr & Ht & Hk & Hid).
  rewrite <- Hid, <- Ht, <- Hk in Hname. change (overwrites S = true -> key_of (ga_id a) = action_key a) in Hname.
  assert (Hsubmit : forall b s', valid_GovernedAction b = true -> proposal_of a = proposal_of b ->
    initial b -> rg (submit b p fr) (reports (Propose c rv req p t fr) ActionReply) s').
  { intros b s' Hvb Hpb Hib. eapply wp_mono, rg_submit; [|done|done|rewrite <- (proposal_of_id a b), <- (proposal_of_key a b) by done; done].
    unfold proposal_of in Hpb. intros [d|x] s1; [|done]. simpl. intros (Hcd & Hrd & Hkd & Hd).
    unfold action_key in *. apply negb_false_iff in Hrole.
    split_and!; try congruence. exists d. split; [done|reflexivity]. }
  cbn [of_result]. apply wp_bind. cbn [wp]. apply wp_bind. destruct uses_transactional_outbox.
  - by apply Hsubmit.
  - apply wp_bind, start_law; try apply _. intros r s' _ Href. destruct r as [ref|x]; [|exact I]. cbn [wp].
    apply Hsubmit; [|done|done]. apply valid_with_arn; [done|]. by apply Href.
Qed.
(** Reading an action: the guards see the state at that moment. *)
Lemma rg_get_action {A} i (k : GovernedAction -> prog S A) Q s :
  (forall e s', Q (Raise e) s') ->
  (forall a s', world_le s s' -> ok s' -> l_actions (ledger s') !! i = Some a -> rg (k a) Q s') ->
  rg (a ← get_action i; k a) Q s.
Proof.
  intros HQ H. apply wp_bind, get_law; [by intros s' []|intros s'; reflexivity|].
  intros s' Hs' HI. destruct (l_actions (ledger s') !! i) as [a|] eqn:E; [|apply HQ].
  simpl. by apply H.
Qed.

(** A transition written over the version that was read. *)
Lemma rg_save_transition f fr a e st (Q : result GovernedAction -> S -> Prop) s :
  (exists b, l_actions (ledger s) !! ga_id a = Some b /\ steps a b) -> ga_status a = st ->
  (forall x, ga_status x = st -> proposal_of x = proposal_of a -> action_step x (f x)) ->
  (forall x ref, f (with_arn x ref) = with_arn (f x) ref) ->
  (forall x, ga_workflow_execution_arn (f x) = ga_workflow_execution_arn x) ->
  valid_GovernedAction (f a) = true ->
  (ga_status (f a) = EXECUTED -> ga_execution_receipt (f a) = applied s !! ga_idempotency_key a) ->
  (forall x s', (forall m, x = ActionTransitionConflictError m -> ok s') -> Q (Raise x) s') ->
  (forall s' b, l_actions (ledger s') !! ga_id a = Some b -> progress_of b = progress_of (f a) ->
     proposal_of b = proposal_of a -> Q (Ok (f a)) s') ->
  rg (save_transition fr (f a) e st) Q s.
Proof.
  intros (a0 & Ha & Haa) Hst Hstep Harn Hkeep Hv Hex HQe HQ.
  pose proof (step_proposal _ _ (Hstep a Hst eq_refl)) as Hp.
  assert (Hida : ga_id (f a) = ga_id a) by (unfold proposal_of in Hp; congruence).
  assert (Hlater : forall s' b, world_le s s' -> l_actions (ledger s') !! ga_id a = Some b -> steps a b).
  { intros s' b Hle Hb. destruct (wl_actions _ _ Hle _ _ Ha) as (b' & Hb' & Hab).
    assert (b = b') as -> by congruence. by etrans. }
  apply save_law; [by intros s' []|intros s'; reflexivity|done|..].
  - intros s' Hle HI b. rewrite Hida. intros Hb. rewrite <- Hp. symmetry. by eapply steps_proposal, Hlater.
  - intros s' r s'' Hle HI Hr Hspec Happ.
    inversion Hspec as [Hnone HE1 HE2|cur Hcur Hne HE1 HE2|cur new L' Hcur Heq Hor HL' Hau HE1 HE2|x Hx HE1 HE2];
      try (destruct (world_same key_of s' s'') as [? ?]; [done..|]; by auto).
    subst r L'. rewrite Hida in Hcur, HL'. pose proof (Hlater _ _ Hle Hcur) as Hac.
    assert (steps cur new) as Hcn.
    { apply (store_update f a); try done; [by rewrite Hst|congruence]. }
    assert (progress_of new = progress_of (f a)) as Hpn by (destruct Hor as [-> | ->]; done).
    assert (proposal_of new = proposal_of a) as Hnp.
    { rewrite <- (steps_proposal _ _ Hcn). symmetry. by apply steps_proposal. }
    assert (ga_id new = ga_id a) as Hidn by (unfold proposal_of in Hnp; congruence).
    destruct (world_store key_of s' s'' cur new) as [Hok'' Hle''];
      try done; try (by rewrite Hidn); try (by eapply cons_submseteq).
    + destruct Hor as [-> | ->]; [done|]. apply valid_apply_transition; [|done].
      by apply (lo_valid _ _ (wo_ledger _ _ HI) _ _ Hcur).
    + intros Hnx. unfold progress_of in Hpn. assert (ga_status (f a) = EXECUTED) as Hfx by congruence.
      specialize (Hex Hfx). assert (ga_idempotency_key new = ga_idempotency_key a) as ->
        by (unfold proposal_of in Hnp; congruence).
      pose proof (reachable_consistent new) as Hc. unfold consistent in Hc. rewrite Hnx in Hc.
      destruct Hc as [_ (rc & Hrc & _)].
      { eapply reachable_steps; [|exact Hcn]. by apply (lo_reachable _ _ (wo_ledger _ _ HI) _ _ Hcur). }
      rewrite Hrc. symmetry. eapply lookup_weaken; [|apply (wl_applied _ _ Hle)]. congruence.
    + split; [done|]. split; [done|]. apply (HQ s'' new); [by rewrite HL', lookup_insert_eq|done|done].
Qed.
Lemma rg_get i p s : rg (get i p) (reports (GetAction i p) ActionReply) s.
Proof.
  apply rg_get_action; [done|]. intros a s' _ _ Ha. wp_guard Ht. simpl.
  split; [|exists a; split; [done|reflexivity]]. apply andb_false_iff in Ht as [Ht|Ht].
  - left. by apply negb_false_iff, bool_decide_eq_true in Ht.
  - right. by apply negb_false_iff, bool_decide_eq_true in Ht.
Qed.

Lemma rg_decide i req p t fr s :
  admissible S uuid5 key_of (Decide i req p t fr) ->
  rg (decide i req p t fr) (reports (Decide i req p t fr) ActionReply) s.
Proof.
  intros [[Hreq Hprin] _]. unfold decide. wp_guard Hrole. apply rg_get_action; [done|].
  intros a s' _ HI Ha. wp_guard Ht. wp_guard Hown. wp_guard Hst.
  apply bool_decide_eq_false in Hown. apply bool_decide_eq_false, dec_stable in Hst.
  apply negb_false_iff in Hrole. pose proof (lo_id _ _ (wo_ledger _ _ HI) _ _ Ha) as Hid.
  set (f x := with_decision x (decision_status (ar_decision req)) (subject p) (ar_comment req) t).
  change (with_decision a _ _ _ _) with (f a).
  apply wp_bind, wp_catch, wp_bind.
  destruct (construct _ (decided_event _ _)) as [e|e]; [|by destruct e]. cbn [of_result wp].
  apply (rg_save_transition f fr a e PENDING_APPROVAL);
    [exists a; rewrite Hid; split; [done|reflexivity]|done| |done|done|..].
  - intros x Hx Hpx. apply step_decide; [done|]. unfold proposal_of in Hpx. congruence.
  - apply valid_with_decision; [by apply (lo_valid _ _ (wo_ledger _ _ HI) _ _ Ha)|done|done].
  - simpl. by destruct (ar_decision req).
  - intros x s1 _. by destruct x.
  - intros s1 b Hb Hpb Hprop. simpl. unfold progress_of, proposal_of in *. simpl in *.
    split; [done|]. exists b. unfold decision_of. rewrite <- Hid.
    split_and!; [done|congruence|congruence|].
    destruct (ar_decision req); simpl in *; [left|]; congruence.
Qed.
Lemma stored_receipt_Some a r :
  stored_receipt a = Some r -> ga_status a = EXECUTED /\ ga_execution_receipt a = Some r.
Proof. unfold stored_receipt. by destruct (ga_status a). Qed.

(** The call of the supplier system for an action read as approved. *)
Lemma rg_supplier fr a (Q : result ExecutionReceipt -> S -> Prop) s :
  l_actions (ledger s) !! ga_id a = Some a -> ga_status a = APPROVED ->
  (forall rc s', ok s' -> world_le s s' -> applied s' !! ga_idempotency_key a = Some rc ->
     valid_ExecutionReceipt rc = true -> Q (Ok rc) s') ->
  rg (set_onboarding_decision fr (ga_id a) (ga_idempotency_key a) (ga_arguments a)) Q s.
Proof.
  intros Ha Hst HQ. apply supplier_law; [by intros s' []|].
  intros s' r s'' Hle HI Hr HL Hspec.
  destruct (wl_actions _ _ Hle _ _ Ha) as (b & Hb & Hab).
  pose proof (steps_proposal _ _ Hab) as Hp. unfold proposal_of in Hp.
  pose proof (steps_approved _ _ Hab Hst) as Hstb.
  assert (ga_id a = ga_id b /\ ga_idempotency_key a = ga_idempotency_key b
          /\ ga_arguments a = ga_arguments b) as (Hi & Hk & Hg) by (split_and!; congruence).
  rewrite Hi, Hk, Hg in *.
  destruct (world_apply key_of s' s'' (now fr) b r) as [[Hok Hle'] (rc & -> & Hrc & Hv)]; try done.
  split; [done|]. split; [done|]. apply HQ; try done. by etrans.
Qed.

Lemma rg_execute i p fr s : rg (execute i p fr) (reports (Execute i p fr) ReceiptReply) s.
Proof.
  unfold execute. wp_guard Hrole. apply negb_false_iff in Hrole. apply rg_get_action; [done|].
  intros a s1 _ HI Ha. wp_guard Ht.
  destruct (stored_receipt a) as [rc|] eqn:Esr.
  { apply stored_receipt_Some in Esr as [? ?]. simpl. split; [done|]. by exists a. }
  wp_guard Hst. apply bool_decide_eq_false, dec_stable in Hst.
  pose proof (lo_id _ _ (wo_ledger _ _ HI) _ _ Ha) as Hid. rewrite <- Hid in Ha.
  apply wp_bind, rg_supplier; [done|done|]. intros rc s2 HI2 Hle2 Hrc Hvr.
  apply wp_catch, wp_bind. destruct (construct _ (executed_event _ _ _)) as [e|e] eqn:Ee;
    [|by apply construct_Raise in Ee as ->]. cbn [of_result wp]. apply wp_bind.
  apply (rg_save_transition (fun x => with_execution x rc) fr a e APPROVED);
    [by apply (wl_actions _ _ Hle2)|done|intros; by apply step_execute|done|done|..].
  - apply valid_with_execution; [by apply (lo_valid _ _ (wo_ledger _ _ HI) _ _ Ha)|done].
  - simpl. by rewrite Hrc.
  - intros x s3 _. destruct x; try done. apply rg_get_action; [done|].
    intros c s4 _ _ Hc. destruct (stored_receipt c) as [rc'|] eqn:Ec; [|done].
    apply stored_receipt_Some in Ec as [? ?]. simpl. split; [done|]. by exists c.
  - intros s3 b Hb Hpb Hprop. simpl. split; [done|]. exists b. rewrite <- Hid.
    unfold progress_of in Hpb. simpl in Hpb. split_and!; [done|congruence|congruence].
Qed.

(** Every admissible request keeps the world and reports the truth. *)
Lemma rg_serve r s : admissible S uuid5 key_of r -> rg (serve uuid5 r) (post r) s.
Proof.
  intros H. destruct r; apply rg_reply.
  - by apply rg_propose.
  - by apply rg_decide.
  - apply rg_get.
  - apply rg_execute.
Qed.
End methods.
