(* ===== verification/GovernanceTheorems.v ===== *)
(** * What the governance service guarantees

    Theorems about any number of concurrent requests to the service of
    [Governance], for every container that keeps the promises of [Ledger]:
    safety of all interleavings, authorised writes only, agreement of racing
    decisions, executions and proposals.  Witnesses run the in-memory and the
    PostgreSQL container on a concrete history. *)
From S2P Require Import Prelude PyStr Uuid Effects Json Schemas Cases Ledger Database InMemory SqlActions.
From S2P Require Import Governance Lifecycle GovernanceProofs.
Local Open Scope py_scope.

(** ** A concrete history *)

Module History.

Definition uuid (n : N) : UUID := default NAMESPACE_URL (UUID_of_N n).

Definition tenant : pystr := u "acme".
Definition review : ReviewResult := {|
  rv_review_id := uuid 20; rv_case_id := uuid 10; rv_findings := [];
  rv_recommendation := {| rec_decision := REMEDIATE; rec_rationale := u "Open findings";
    rec_required_actions := [u "Provide SOC 2"]; rec_confidence := SpecFloat.S754_zero false |};
  rv_model_backend := u "deterministic"; rv_started_at := 1%Z; rv_completed_at := 2%Z |}.

Definition supplier_case : SupplierCase := {|
  case_id := uuid 10; case_tenant_id := tenant; supplier_name := u "Widgets"; description := [];
  case_status := CASE_PENDING_APPROVAL; documents := []; case_created_at := 0%Z; case_updated_at := 2%Z |}.

Definition who (name : pystr) (r : Role) : Principal := {|
  subject := name; principal_tenant_id := tenant; roles := {[r]}; scopes := ∅ |}.
Definition ana := who (u "ana") ANALYST.
Definition bob := who (u "bob") APPROVER.
Definition cy := who (u "cy") APPROVER.
Definition exe := who (u "exe") EXECUTOR.

Definition fresh (n : N) : Fresh :=
  {| now := Z.of_N n; new_event_id := uuid (100 + n); new_message_id := uuid (200 + n) |}.

Definition key : UUID := uuid 30.
Definition name : pystr := action_name tenant key.
(** This history has one tenant and one key. *)
Definition key_of (_ : UUID) : pystr * UUID := (tenant, key).
Definition hash (_ : UUID) (n : pystr) : UUID := uuid (40 + N.of_nat (length n)).
Definition action : UUID := hash NAMESPACE_URL name.

Definition request_propose := Propose supplier_case review {| apr_idempotency_key := key |} ana 3%Z (fresh 3).
Definition request_propose_again := Propose supplier_case review {| apr_idempotency_key := key |} ana 4%Z (fresh 4).
Definition verdict (d : ApprovalDecision) : ApprovalRequest := {| ar_decision := d; ar_comment := u "ok" |}.
Definition request_approve := Decide action (verdict AD_APPROVE) bob 5%Z (fresh 5).
Definition request_reject := Decide action (verdict AD_REJECT) cy 6%Z (fresh 6).
Definition request_execute := Execute action exe (fresh 7).
Definition request_execute_again := Execute action exe (fresh 8).

Definition requests : list request :=
  [request_propose; request_propose_again; request_approve; request_reject; request_execute;
   request_execute_again].

(** A process that holds the case. *)
Definition mem_start : MemWorld :=
  put_cases (InMemoryCaseRepository.set_cases {[uuid 10 := supplier_case]} InMemoryCaseRepository.empty) mem_empty.

(** A database that holds the case and the review. *)
Definition sql_start : SqlWorld := {|
  sw_db := put_review {| rrr_id := uuid 20; rrr_case_id := uuid 10; rrr_model_backend := u "deterministic";
               rrr_decision := None; rrr_rationale := None; rrr_required_actions_json := [];
               rrr_confidence := None; rrr_started_at := 1%Z; rrr_completed_at := Some 2%Z |}
           (put_case {| scr_id := uuid 10; scr_tenant_id := tenant; scr_supplier_name := u "Widgets";
               scr_description := []; scr_status := value CASE_PENDING_APPROVAL; scr_created_at := 0%Z;
               scr_updated_at := 2%Z |} db_empty);
  sw_receipts := ∅ |}.

(** A timestamp text: sign and microseconds as code points. *)
#[export, refine] Instance timestamps : DatetimeText := {|
  dt_dump t := if (t <? 0)%Z then [1; Z.to_N (- t)]%N else [0; Z.to_N t]%N;
  dt_load s := match s with
               | [0%N; n] => Some (Z.of_N n)
               | [1%N; n] => Some (- Z.of_N n)%Z
               | _ => None
               end;
|}.
Proof. intros t. destruct (Z.ltb_spec t 0); f_equal; lia. Defined.

End History.

(** ** Any container *)

Section any_container.
Context {S : Type} `{!ActionRepository S, !ApprovalWorkflow S, !SupplierSystem S, !LedgerView S}.
Context `{!ActionRepositoryLaws S, !ApprovalWorkflowLaws S, !SupplierSystemLaws S}.
Context (uuid5 : UUID -> pystr -> UUID) (key_of : UUID -> pystr * UUID).

(** The requests [reqs], served concurrently from [s], may have reached threads [ts] and state [s']. *)
Definition interleaving (reqs : list request) (s : S) (ts : list (prog S reply)) (s' : S) : Prop :=
  rtc pool_step (serve uuid5 <$> reqs, s) (ts, s').

(** The [i]-th request is [r] and has been answered with [rep]. *)
Definition answered (reqs : list request) (ts : list (prog S reply)) (i : nat) (r : request) (rep : reply) : Prop :=
  reqs !! i = Some r /\ ts !! i = Some (Ret rep).

Lemma requests_safe reqs s ts s' :
  world_ok key_of s -> Forall (admissible S uuid5 key_of) reqs ->
  interleaving reqs s ts s' ->
  world_ok key_of s' /\ world_le s s' /\
  forall i r rep, answered reqs ts i r rep -> served r rep s'.
Proof.
  intros H Hreqs Hsteps.
  destruct (pool_safe (world_ok key_of) world_le world_le (post <$> reqs)
              (serve uuid5 <$> reqs, s) (ts, s')) as (Hok & Hle & HF); try done.
  - apply Forall_fmap, Forall_true. intros r res t t'. simpl. apply post_stable.
  - simpl. apply Forall2_fmap, Forall_Forall2_diag. eapply Forall_impl; [exact Hreqs|].
    intros r Hr. by apply rg_serve.
  - split; [done|]. split; [done|]. intros i r rep [Hr Hrep]. simpl in HF.
    eapply Forall2_lookup_lr in HF; [|by rewrite list_lookup_fmap, Hr|exact Hrep]. exact HF.
Qed.

(** A container without actions satisfies the invariant. *)
Lemma world_ok_fresh s :
  repo_inv s -> l_actions (ledger s) = ∅ -> applied s = ∅ -> world_ok key_of s.
Proof.
  intros Hr HL Ha. split; [done|split; rewrite HL; done|by rewrite Ha|by rewrite HL].
Qed.

(** Two stored actions with the same tenant and key are the same action. *)
Lemma same_key s i j a b :
  world_ok key_of s -> l_actions (ledger s) !! i = Some a -> l_actions (ledger s) !! j = Some b ->
  action_key a = action_key b -> i = j /\ a = b.
Proof.
  intros H Ha Hb Hk. assert (i = j) as <- by by eapply (lo_key _ _ (wo_ledger _ _ H)).
  split; [done|congruence].
Qed.

(** The theorems below hold for PostgreSQL whatever the requests.  The in-memory repository
    files a proposal over the action of another key that has its identifier, and there they
    take it, with [own_identifier], that the identifiers derived for the proposals stand for one
    tenant and key each.  What that leaves out is [admin_proposal_replaces_action] of
    [GovernanceOutcomes]: an administrator who proposes for a case of another tenant with a
    key that its own tenant uses as well. *)

(** C1. However any number of proposals, decisions, reads and executions interleave,
    the container stays consistent (every stored action is valid, reached by the
    lifecycle, unique for its tenant and key), stored actions only move along the
    lifecycle, the audit trail only grows, no applied decision is withdrawn, and
    every answer given is true of the stored state from then on.  The requests carry validated
    models; on the in-memory repository, which replaces an action of another key under the same
    identifier, the identifiers derived for the proposals stand for one tenant and key each.
    This is not so when an administrator proposes for another tenant's case with a key that is
    in use in its own; PostgreSQL refuses that proposal and needs no such hypothesis. *)
Theorem interleaved_requests_safe reqs s ts s' :
  world_ok key_of s -> Forall (admissible S uuid5 key_of) reqs ->
  interleaving reqs s ts s' ->
  world_ok key_of s' /\ world_le s s' /\
  forall i r rep, answered reqs ts i r rep -> served r rep s'.
Proof. apply requests_safe. Qed.

(** C2. Every decision the supplier system has applied, under every interleaving, is
    the decision of a stored action that a principal other than its proposer
    approved: the number of unauthorised writes is zero.  As for the first claim, on the
    in-memory repository no administrator proposes for another tenant's case with a key that
    stands for another action of its own tenant; on PostgreSQL anything may be proposed. *)
Theorem supplier_writes_authorised reqs s ts s' key rc :
  world_ok key_of s -> Forall (admissible S uuid5 key_of) reqs ->
  interleaving reqs s ts s' -> applied s' !! key = Some rc ->
  exists a approver, l_actions (ledger s') !! rc_action_id rc = Some a /\
    ga_idempotency_key a = key /\ args_decision (ga_arguments a) = rc_applied_decision rc /\
    (ga_status a = APPROVED \/ ga_status a = EXECUTED) /\
    ga_approver_id a = Some approver /\ approver <> ga_proposer_id a.
Proof.
  intros H Hreqs Hint Hrc. destruct (requests_safe reqs s ts s') as (Hok & _ & _); try done.
  apply (wo_receipts _ _ Hok) in Hrc as [_ (a & Ha & Hk & Hst & (ap & t & Hap & _ & Hne) & Hd)].
  by exists a, ap.
Qed.

(** C3. Approvers who race on one action never both succeed: two successful decisions
    carry the same subject, comment, time and verdict.  As for the first claim, on the
    in-memory repository no proposal, of an administrator for another tenant's case, derives
    the identifier of an action of another key; on PostgreSQL anything may be proposed. *)
Theorem racing_decisions_agree reqs s ts s' i j a req1 p1 t1 fr1 rep1 req2 p2 t2 fr2 rep2 :
  world_ok key_of s -> Forall (admissible S uuid5 key_of) reqs ->
  interleaving reqs s ts s' ->
  answered reqs ts i (Decide a req1 p1 t1 fr1) rep1 ->
  answered reqs ts j (Decide a req2 p2 t2 fr2) rep2 ->
  subject p1 = subject p2 /\ req1 = req2 /\ t1 = t2.
Proof.
  intros H Hreqs Hint H1 H2. destruct (requests_safe reqs s ts s') as (_ & _ & Hserved); try done.
  apply Hserved in H1, H2. destruct rep1 as [b1|]; [|done]. destruct rep2 as [b2|]; [|done].
  destruct H1 as (_ & b & Hb & _ & Hd1 & Hs1), H2 as (_ & b' & Hb' & _ & Hd2 & Hs2).
  assert (b = b') as <- by congruence. rewrite Hd1 in Hd2.
  destruct req1 as [[] c1], req2 as [[] c2]; simpl in *; split_and!; try congruence;
    try destruct Hs1 as [Hs1|Hs1]; try destruct Hs2 as [Hs2|Hs2]; congruence.
Qed.

(** C4. Executions of one action, repeated or racing, all return the same receipt, the
    one on record, under the hypothesis of the first claim on the in-memory repository. *)
Theorem executions_return_one_receipt reqs s ts s' i j a p1 fr1 p2 fr2 rep1 rep2 :
  world_ok key_of s -> Forall (admissible S uuid5 key_of) reqs ->
  interleaving reqs s ts s' ->
  answered reqs ts i (Execute a p1 fr1) rep1 -> answered reqs ts j (Execute a p2 fr2) rep2 ->
  rep1 = rep2 /\ exists b rc, rep1 = ReceiptReply rc /\ l_actions (ledger s') !! a = Some b /\
    ga_status b = EXECUTED /\ applied s' !! ga_idempotency_key b = Some rc.
Proof.
  intros H Hreqs Hint H1 H2. destruct (requests_safe reqs s ts s') as (Hok & _ & Hserved); try done.
  apply Hserved in H1, H2. destruct rep1 as [|rc1]; [done|]. destruct rep2 as [|rc2]; [done|].
  destruct H1 as (_ & b & Hb & Hst & Hr1), H2 as (_ & b' & Hb' & _ & Hr2).
  assert (b = b') as <- by congruence. split; [congruence|]. exists b, rc1.
  rewrite <- (wo_executed _ _ Hok a b); done.
Qed.

(** C5. Once a rejection has been answered, the action is never executed: the supplier
    system holds no decision for it, and no execution of it succeeds.  As for the first claim,
    on the in-memory repository no proposal, of an administrator for another tenant's case,
    derives the identifier of an action of another key; on PostgreSQL anything may be proposed. *)
Theorem rejected_never_executed reqs s ts s' i a req p t fr rep :
  world_ok key_of s -> Forall (admissible S uuid5 key_of) reqs ->
  interleaving reqs s ts s' ->
  ar_decision req = AD_REJECT -> answered reqs ts i (Decide a req p t fr) rep ->
  (forall key rc, applied s' !! key = Some rc -> rc_action_id rc <> a) /\
  (forall j q fr' rep', ~ answered reqs ts j (Execute a q fr') rep').
Proof.
  intros H Hreqs Hint Hrej Hi. destruct (requests_safe reqs s ts s') as (Hok & _ & Hserved); try done.
  apply Hserved in Hi. destruct rep as [c|]; [|done]. simpl in Hi. rewrite Hrej in Hi.
  destruct Hi as (_ & b & Hb & _ & _ & Hst). split.
  - intros key rc Hrc <-. apply (wo_receipts _ _ Hok) in Hrc as [_ (b' & Hb' & _ & Hst' & _)].
    assert (b = b') as <- by congruence. destruct Hst'; congruence.
  - intros j q fr' rep' Hj. apply Hserved in Hj. destruct rep' as [|rc]; [done|].
    destruct Hj as (_ & b' & Hb' & Hst' & _). congruence.
Qed.

(** C6. Proposals with one idempotency key in one tenant, retried or racing, yield one
    action, and only for one case and one review, under the hypothesis of the first claim on
    the in-memory repository. *)
Theorem proposals_idempotent reqs s ts s' i j c1 rv1 r1 p1 t1 fr1 a1 c2 rv2 r2 p2 t2 fr2 a2 :
  world_ok key_of s -> Forall (admissible S uuid5 key_of) reqs ->
  interleaving reqs s ts s' ->
  answered reqs ts i (Propose c1 rv1 r1 p1 t1 fr1) (ActionReply a1) ->
  answered reqs ts j (Propose c2 rv2 r2 p2 t2 fr2) (ActionReply a2) ->
  case_tenant_id c1 = case_tenant_id c2 -> apr_idempotency_key r1 = apr_idempotency_key r2 ->
  ga_id a1 = ga_id a2 /\ case_id c1 = case_id c2 /\ rv_review_id rv1 = rv_review_id rv2.
Proof.
  intros H Hreqs Hint H1 H2 Ht Hk.
  destruct (requests_safe reqs s ts s') as (Hok & _ & Hserved); try done.
  apply Hserved in H1, H2. simpl in H1, H2.
  destruct H1 as (_ & Hc1 & Hr1 & Hk1 & b1 & Hb1 & Hs1), H2 as (_ & Hc2 & Hr2 & Hk2 & b2 & Hb2 & Hs2).
  apply steps_proposal in Hs1, Hs2.
  destruct (same_key s' _ _ b1 b2 Hok Hb1 Hb2) as [Hid ->].
  - rewrite <- (proposal_of_key _ _ Hs1), <- (proposal_of_key _ _ Hs2). congruence.
  - unfold proposal_of in *. split_and!; congruence.
Qed.
End any_container.

(** ** The concrete history satisfies the hypotheses *)

Import History LocalApprovalWorkflow.

Lemma history_admissible S `{!LedgerView S} : Forall (admissible S hash key_of) requests.
Proof. repeat constructor. Qed.

Lemma mem_start_ok : world_ok key_of mem_start.
Proof. apply world_ok_fresh; [|done|done]. by split. Qed.

Lemma sql_start_ok standing : world_ok standing sql_start.
Proof. apply world_ok_fresh; [|done|done]. by split. Qed.

(** Threads 0 and 1 propose with one key, 2 and 3 decide, 4 and 5 execute. *)
Definition mem_end (sched : list nat) : list (prog MemWorld reply) * MemWorld :=
  run_schedule sched (serve hash <$> requests) mem_start.
Definition sql_end (sched : list nat) : list (prog SqlWorld reply) * SqlWorld :=
  run_schedule sched (serve hash <$> requests) sql_start.

Lemma mem_end_interleaving sched :
  interleaving hash requests mem_start (mem_end sched).1 (mem_end sched).2.
Proof. unfold interleaving, mem_end. rewrite <- surjective_pairing. apply run_schedule_steps. Qed.

Lemma sql_end_interleaving sched :
  interleaving hash requests sql_start (sql_end sched).1 (sql_end sched).2.
Proof. unfold interleaving, sql_end. rewrite <- surjective_pairing. apply run_schedule_steps. Qed.

(** The approver wins / the rejecter wins; proposals and executions overlap. *)
Definition approve_first : list nat := [0;1;0;1;1;2;3;2;3;4;5;4;5;4;5;5;5;4;4].
Definition reject_first : list nat := [0;1;0;1;1;2;3;3;2;4;5;4;5;4;5;5;5;4;4].

Definition receipt : ExecutionReceipt := {|
  rc_action_id := action; rc_external_reference := InMemorySupplierSystem.reference action;
  rc_applied_decision := REMEDIATE; rc_executed_at := 7%Z |}.

(** The replies of threads to the requests. *)
Definition reply_of {S} (f : list (prog S reply) * S) (i : nat) : option reply :=
  match f.1 !! i with Some (Ret r) => Some r | _ => None end.

Lemma reply_of_answered {S} (f : list (prog S reply) * S) i r rep :
  requests !! i = Some r -> reply_of f i = Some rep -> answered requests f.1 i r rep.
Proof.
  unfold reply_of, answered. intros Hr. destruct (f.1 !! i) as [[]|]; try done. by intros [= ->].
Qed.

(** Another tenant's case and review, and an administrator of [tenant] who proposes for it with
    the key that [tenant] uses. *)
Definition foreign_case : SupplierCase := {|
  case_id := uuid 11; case_tenant_id := u "zeta"; supplier_name := u "Gears"; description := [];
  case_status := CASE_PENDING_APPROVAL; documents := []; case_created_at := 0%Z; case_updated_at := 2%Z |}.
Definition foreign_review : ReviewResult := {|
  rv_review_id := uuid 21; rv_case_id := uuid 11; rv_findings := []; rv_recommendation := rv_recommendation review;
  rv_model_backend := u "deterministic"; rv_started_at := 1%Z; rv_completed_at := 2%Z |}.
Definition foreign_admin : Principal := {| subject := u "foreign_admin"; principal_tenant_id := tenant; roles := {[ADMIN]}; scopes := ∅ |}.

Definition with_foreign : list request :=
  requests ++ [Propose foreign_case foreign_review {| apr_idempotency_key := key |} foreign_admin 9%Z (fresh 9)].

Definition sql_two : SqlWorld := put_db
  (put_review {| rrr_id := uuid 21; rrr_case_id := uuid 11; rrr_model_backend := u "deterministic";
      rrr_decision := None; rrr_rationale := None; rrr_required_actions_json := [];
      rrr_confidence := None; rrr_started_at := 1%Z; rrr_completed_at := Some 2%Z |}
    (put_case {| scr_id := uuid 11; scr_tenant_id := u "zeta"; scr_supplier_name := u "Gears";
      scr_description := []; scr_status := value CASE_PENDING_APPROVAL; scr_created_at := 0%Z;
      scr_updated_at := 2%Z |} (sw_db sql_start))) sql_start.

Definition foreign_end : list (prog SqlWorld reply) * SqlWorld :=
  run_schedule (approve_first ++ [6; 6; 6; 6]) (serve hash <$> with_foreign) sql_two.

Lemma interleaved_requests_safe_witness :
  world_ok key_of foreign_end.2 /\ world_le sql_two foreign_end.2 /\
  served request_execute (ReceiptReply receipt) foreign_end.2 /\
  foreign_end.1 !! 6 = Some (Throw integrity_error).
Proof.
  assert (Forall (admissible SqlWorld hash key_of) with_foreign) as Hreqs by (repeat constructor; discriminate).
  assert (interleaving hash with_foreign sql_two foreign_end.1 foreign_end.2) as Hint.
  { unfold interleaving, foreign_end. rewrite <- surjective_pairing. apply run_schedule_steps. }
  destruct (interleaved_requests_safe hash key_of with_foreign sql_two _ _
    ltac:(apply world_ok_fresh; [by split|done..]) Hreqs Hint) as (Hok & Hle & Hserved).
  split; [exact Hok|]. split; [exact Hle|]. split; [|vm_compute; reflexivity]. apply (Hserved 4).
  split; [reflexivity|]. vm_compute. reflexivity.
Defined.

Lemma supplier_writes_authorised_witness :
  applied (mem_end approve_first).2 !! key = Some receipt /\
  exists a approver, l_actions (ledger (mem_end approve_first).2) !! action = Some a /\
    ga_idempotency_key a = key /\ args_decision (ga_arguments a) = REMEDIATE /\
    (ga_status a = APPROVED \/ ga_status a = EXECUTED) /\
    ga_approver_id a = Some approver /\ approver <> ga_proposer_id a.
Proof.
  assert (applied (mem_end approve_first).2 !! key = Some receipt) as H by (vm_compute; reflexivity).
  split; [exact H|].
  exact (supplier_writes_authorised hash key_of requests mem_start _ _ key receipt
    mem_start_ok (history_admissible _) (mem_end_interleaving approve_first) H).
Defined.

(** The winning decision meets itself; [reply_of] of the other approver is [None]. *)
Lemma racing_decisions_agree_witness :
  reply_of (mem_end approve_first) 3 = None /\
  exists rep, reply_of (mem_end approve_first) 2 = Some rep /\
    subject bob = subject bob /\ verdict AD_APPROVE = verdict AD_APPROVE /\ 5%Z = 5%Z.
Proof.
  split; [vm_compute; reflexivity|].
  destruct (reply_of (mem_end approve_first) 2) as [rep|] eqn:E; [|vm_compute in E; discriminate E].
  exists rep. split; [reflexivity|].
  pose proof (reply_of_answered _ 2 request_approve rep eq_refl E) as Ha.
  exact (racing_decisions_agree hash key_of requests mem_start _ _ 2 2 action _ bob 5%Z _ rep _ bob 5%Z _ rep
    mem_start_ok (history_admissible _) (mem_end_interleaving approve_first) Ha Ha).
Defined.

Lemma executions_return_one_receipt_witness :
  ReceiptReply receipt = ReceiptReply receipt /\
  exists b rc, ReceiptReply receipt = ReceiptReply rc /\
    l_actions (ledger (sql_end approve_first).2) !! action = Some b /\
    ga_status b = EXECUTED /\ applied (sql_end approve_first).2 !! ga_idempotency_key b = Some rc.
Proof.
  apply (executions_return_one_receipt hash key_of requests sql_start _ _ 4 5 action exe (fresh 7) exe (fresh 8)
    _ _ (sql_start_ok _) (history_admissible _) (sql_end_interleaving approve_first));
    (apply reply_of_answered; [reflexivity|]); vm_compute; reflexivity.
Defined.

Lemma rejected_never_executed_witness :
  exists rep, reply_of (mem_end reject_first) 3 = Some rep /\
  (forall k rc, applied (mem_end reject_first).2 !! k = Some rc -> rc_action_id rc <> action) /\
  (forall j q fr' rep', ~ answered requests (mem_end reject_first).1 j (Execute action q fr') rep').
Proof.
  destruct (reply_of (mem_end reject_first) 3) as [rep|] eqn:E; [|vm_compute in E; discriminate E].
  exists rep. split; [reflexivity|].
  pose proof (reply_of_answered _ 3 request_reject rep eq_refl E) as Ha.
  exact (rejected_never_executed hash key_of requests mem_start _ _ 3 action (verdict AD_REJECT) cy 6%Z _ rep
    mem_start_ok (history_admissible _) (mem_end_interleaving reject_first) eq_refl Ha).
Defined.

Lemma proposals_idempotent_witness :
  exists a1 a2, reply_of (sql_end approve_first) 0 = Some (ActionReply a1) /\
    reply_of (sql_end approve_first) 1 = Some (ActionReply a2) /\ ga_id a1 = ga_id a2 /\
    case_id supplier_case = case_id supplier_case /\ rv_review_id review = rv_review_id review.
Proof.
  destruct (reply_of (sql_end approve_first) 0) as [[a1|]|] eqn:E0; try (vm_compute in E0; discriminate E0).
  destruct (reply_of (sql_end approve_first) 1) as [[a2|]|] eqn:E1; try (vm_compute in E1; discriminate E1).
  exists a1, a2. split; [reflexivity|]. split; [reflexivity|].
  apply (proposals_idempotent hash key_of requests sql_start (sql_end approve_first).1 (sql_end approve_first).2
    0 1 supplier_case review _ ana 3%Z (fresh 3) a1 supplier_case review _ ana 4%Z (fresh 4) a2
    (sql_start_ok _) (history_admissible _) (sql_end_interleaving approve_first)
    (reply_of_answered _ 0 request_propose _ eq_refl E0)
    (reply_of_answered _ 1 request_propose_again _ eq_refl E1) eq_refl eq_refl).
Defined.
