(* ===== verification/GovernanceOutcomes.v ===== *)
(** * Outcomes of the governance methods

    One call on the in-memory container, [decide] with other requests between its two
    sections: a decision table per method of [packages/governance/service.py], one
    constructor per return or raise, with the exact exception and the exact next state,
    and the theorem that the method follows its table. *)
From S2P Require Import Prelude PyStr Uuid Effects Json Schemas Cases Ledger InMemory.
From S2P Require Import Governance Lifecycle GovernanceProofs GovernanceTheorems.
Local Open Scope py_scope.
Import LocalApprovalWorkflow.

(** ** State changes *)

Abbreviation stored w i := (InMemoryActionRepository.actions (mw_actions w) !! i).
Abbreviation case_of w i := (InMemoryCaseRepository.cases (mw_cases w) !! i).

(** The audit trail with one more event. *)
Definition log (fr : Fresh) (e : AuditEventCreate) (w : MemWorld) : MemWorld :=
  put_cases (InMemoryCaseRepository.set_events
    (InMemoryCaseRepository.push (ae_case_id e)
       {| event_create := e; event_id := new_event_id fr; event_created_at := now fr |}
       (InMemoryCaseRepository.events (mw_cases w))) (mw_cases w)) w.

Definition with_actions (s : InMemoryActionRepository.t) (w : MemWorld) : MemWorld :=
  {| mw_actions := s; mw_cases := mw_cases w; mw_receipts := mw_receipts w |}.

(** A stored transition and a stored proposal, each with its event. *)
Definition transitioned (fr : Fresh) (a : GovernedAction) (e : AuditEventCreate) (w : MemWorld) : MemWorld :=
  log fr e (with_actions (InMemoryActionRepository.set_action (ga_id a) a (mw_actions w)) w).
Definition proposed (fr : Fresh) (a : GovernedAction) (e : AuditEventCreate) (w : MemWorld) : MemWorld :=
  log fr e (with_actions (InMemoryActionRepository.store a (mw_actions w)) w).

Definition tenant_ok (p : Principal) (t : pystr) : Prop := ADMIN ∈ roles p \/ principal_tenant_id p = t.

Definition role_required (r : Role) : exn := AuthorizationDeniedError (u "The " ++ value r ++ u " role is required").
Definition other_tenant : exn := AuthorizationDeniedError (u "The resource belongs to another tenant").
Definition own_action : exn := AuthorizationDeniedError (u "A proposer cannot approve their own action").
Definition already (i : UUID) (st : ActionStatus) : exn :=
  ActionStateError (u "Action " ++ str_uuid i ++ u " is already " ++ value st).
Definition not_approved (a : GovernedAction) : exn :=
  ActionStateError (u "Action " ++ str_uuid (ga_id a) ++ u " is not approved").

(** ** Runs of the guards and of the repository *)

Section guards.
Context {S : Type} (p : Principal).

Lemma require_role_if r :
  @require_role S p r = if has_role p r then Ret tt else Throw (role_required r).
Proof. unfold require_role, raise_if. by destruct (has_role p r). Qed.

Lemma run_require_role r (s : S) :
  run (require_role p r) s = (if has_role p r then Ok tt else Raise (role_required r), s).
Proof. rewrite require_role_if. by destruct (has_role p r). Qed.

Lemma require_tenant_cases t (s : S) :
  tenant_ok p t /\ run (require_tenant p t) s = (Ok tt, s) \/
  ~ tenant_ok p t /\ run (require_tenant p t) s = (Raise other_tenant, s).
Proof.
  unfold require_tenant, tenant_ok. rewrite run_raise_if.
  destruct (bool_decide (ADMIN ∈ roles p)) eqn:E1; simpl;
    [left; apply bool_decide_eq_true in E1; auto|apply bool_decide_eq_false in E1].
  destruct (bool_decide (principal_tenant_id p = t)) eqn:E2; simpl;
    [left; apply bool_decide_eq_true in E2; auto|apply bool_decide_eq_false in E2].
  right. split; [by intros [?|?]|done].
Qed.
End guards.

Lemma write_audit_run fr e (c : InMemoryCaseRepository.t) :
  InMemoryActionRepository.write_audit container_audit_writer fr e c =
  match InMemoryCaseRepository.cases c !! ae_case_id e with
  | None => (Raise (case_not_found (ae_case_id e)), c)
  | Some _ => (Ok tt, InMemoryCaseRepository.set_events (InMemoryCaseRepository.push (ae_case_id e)
       {| event_create := e; event_id := new_event_id fr; event_created_at := now fr |}
       (InMemoryCaseRepository.events c)) c)
  end.
Proof.
  unfold InMemoryActionRepository.write_audit, container_audit_writer,
    InMemoryCaseRepository.append_audit_event, InMemoryCaseRepository.get.
  rewrite run_bind, run_reads. by destruct (InMemoryCaseRepository.cases c !! ae_case_id e).
Qed.

Lemma run_get_action i w : run (get_action i) w = (of_option (action_not_found i) (stored w i), w).
Proof.
  simpl. rewrite put_get_stores. unfold get_stores. by destruct (stored w i).
Qed.

Lemma run_save_transition fr a e st w :
  run (save_transition fr a e st) w =
  match stored w (ga_id a) with
  | None => (Raise (action_not_found (ga_id a)), w)
  | Some cur =>
      if bool_decide (ga_status cur = st) then
        match case_of w (ae_case_id e) with
        | None => (Raise (case_not_found (ae_case_id e)), w)
        | Some _ => (Ok a, transitioned fr a e w)
        end
      else (Raise (transition_conflict (ga_id a) (ga_status cur)), w)
  end.
Proof.
  destruct w as [s c m]. simpl.
  destruct (InMemoryActionRepository.actions s !! ga_id a) as [cur|] eqn:E; [|done].
  case_bool_decide as Hst; case_bool_decide; try done.
  - rewrite write_audit_run.
    destruct (InMemoryCaseRepository.cases c !! ae_case_id e); [done|].
    rewrite set_action_back by done. done.
Qed.

Lemma run_create_proposal fr a e m w :
  mem_inv (mw_actions w) -> (case_of w (ae_case_id e) = None -> id_owned a (ledger w)) ->
  run (create_proposal fr a e m) w =
  match InMemoryActionRepository.idempotency (mw_actions w) !! action_key a with
  | Some i => (of_option (OtherError (u "KeyError") (str_uuid i)) ((fun b => (b, false)) <$> stored w i), w)
  | None =>
      match case_of w (ae_case_id e) with
      | None => (Raise (case_not_found (ae_case_id e)), w)
      | Some _ => (Ok (a, true), proposed fr a e w)
      end
  end.
Proof.
  intros H Ho. destruct w as [s c m']. simpl in *. unfold id_owned in Ho. simpl in Ho.
  destruct (InMemoryActionRepository.idempotency s !! action_key a) as [i|] eqn:E.
  - by destruct (InMemoryActionRepository.actions s !! i).
  - rewrite write_audit_run.
    destruct (InMemoryCaseRepository.cases c !! ae_case_id e); [done|].
    rewrite unstore_store; [done|done|]. apply eq_None_not_Some. intros [b Hb].
    specialize (Ho eq_refl b Hb). apply (mi_actions _ H) in Hb. congruence.
Qed.

(** ** Others in between *)

(** A program whose first section runs in [w], while the world changes by [g] before the others do. *)
Definition overtaken {S A} (g : S -> S) (m : prog S A) (w : S) : result A * S :=
  match m with
  | Step f k => run (k (f w).1) (g (f w).2)
  | _ => run m w
  end.

Lemma overtaken_id {S A} (m : prog S A) w : overtaken id m w = run m w.
Proof. destruct m; [done|done|]. cbn. by destruct (f w). Qed.

Lemma overtaken_ret {S A B} (a : A) (k : A -> prog S B) g w : overtaken g (Ret a ≫= k) w = overtaken g (k a) w.
Proof. done. Qed.

Lemma overtaken_get {A} i (k : GovernedAction -> prog MemWorld A) g w :
  overtaken g (a ← get_action i; k a) w =
  match stored w i with Some a => run (k a) (g w) | None => (Raise (action_not_found i), g w) end.
Proof.
  destruct w as [s c m]. cbn. unfold get_stores. cbn.
  by destruct (InMemoryActionRepository.actions s !! i).
Qed.

(** ** Decision tables *)

Section tables.
Context (uuid5 : UUID -> pystr -> UUID).

(** [decide] on the world [w], while other requests make [w'] of it between its reading of the
    action and its writing of the transition. *)
Inductive decide_outcome (w w' : MemWorld) (i : UUID) (req : ApprovalRequest) (p : Principal)
    (t : datetime) (fr : Fresh) : result GovernedAction * MemWorld -> Prop :=
  | decide_no_role : has_role p APPROVER = false ->
      decide_outcome w w' i req p t fr (Raise (role_required APPROVER), w)
  | decide_unknown : has_role p APPROVER = true -> stored w i = None ->
      decide_outcome w w' i req p t fr (Raise (action_not_found i), w')
  | decide_other_tenant a : has_role p APPROVER = true -> stored w i = Some a ->
      ~ tenant_ok p (ga_tenant_id a) ->
      decide_outcome w w' i req p t fr (Raise other_tenant, w')
  | decide_own a : has_role p APPROVER = true -> stored w i = Some a ->
      tenant_ok p (ga_tenant_id a) -> ga_proposer_id a = subject p ->
      decide_outcome w w' i req p t fr (Raise own_action, w')
  | decide_closed a : has_role p APPROVER = true -> stored w i = Some a ->
      tenant_ok p (ga_tenant_id a) -> ga_proposer_id a <> subject p ->
      ga_status a <> PENDING_APPROVAL ->
      decide_outcome w w' i req p t fr (Raise (already i (ga_status a)), w')
  | decide_vanished a : has_role p APPROVER = true -> stored w i = Some a ->
      tenant_ok p (ga_tenant_id a) -> ga_proposer_id a <> subject p ->
      ga_status a = PENDING_APPROVAL -> stored w' i = None ->
      decide_outcome w w' i req p t fr (Raise (action_not_found i), w')
  | decide_conflict a b : has_role p APPROVER = true -> stored w i = Some a ->
      tenant_ok p (ga_tenant_id a) -> ga_proposer_id a <> subject p ->
      ga_status a = PENDING_APPROVAL -> stored w' i = Some b -> ga_status b <> PENDING_APPROVAL ->
      decide_outcome w w' i req p t fr (Raise (already i (ga_status b)), w')
  | decide_no_case a b : has_role p APPROVER = true -> stored w i = Some a ->
      tenant_ok p (ga_tenant_id a) -> ga_proposer_id a <> subject p ->
      ga_status a = PENDING_APPROVAL -> stored w' i = Some b -> ga_status b = PENDING_APPROVAL ->
      case_of w' (ga_case_id a) = None ->
      decide_outcome w w' i req p t fr (Raise (case_not_found (ga_case_id a)), w')
  | decide_stored a b d : has_role p APPROVER = true -> stored w i = Some a ->
      tenant_ok p (ga_tenant_id a) -> ga_proposer_id a <> subject p ->
      ga_status a = PENDING_APPROVAL -> stored w' i = Some b -> ga_status b = PENDING_APPROVAL ->
      is_Some (case_of w' (ga_case_id a)) ->
      d = with_decision a (decision_status (ar_decision req)) (subject p) (ar_comment req) t ->
      decide_outcome w w' i req p t fr (Ok d, transitioned fr d (decided_event d p) w').

(** [execute]: the receipt is the one the supplier system holds for the key, or a new one. *)
Definition supplied (fr : Fresh) (a : GovernedAction) (w : MemWorld) : ExecutionReceipt :=
  match mw_receipts w !! ga_idempotency_key a with
  | Some r => r
  | None => {| rc_action_id := ga_id a; rc_external_reference := InMemorySupplierSystem.reference (ga_id a);
               rc_applied_decision := args_decision (ga_arguments a); rc_executed_at := now fr |}
  end.

Definition delivered (fr : Fresh) (a : GovernedAction) (w : MemWorld) : MemWorld :=
  put_receipts (<[ga_idempotency_key a := supplied fr a w]> (mw_receipts w)) w.

Inductive execute_outcome (w : MemWorld) (i : UUID) (p : Principal) (fr : Fresh) :
    result ExecutionReceipt * MemWorld -> Prop :=
  | execute_no_role : has_role p EXECUTOR = false ->
      execute_outcome w i p fr (Raise (role_required EXECUTOR), w)
  | execute_unknown : has_role p EXECUTOR = true -> stored w i = None ->
      execute_outcome w i p fr (Raise (action_not_found i), w)
  | execute_other_tenant a : has_role p EXECUTOR = true -> stored w i = Some a ->
      ~ tenant_ok p (ga_tenant_id a) ->
      execute_outcome w i p fr (Raise other_tenant, w)
  | execute_replayed a rc : has_role p EXECUTOR = true -> stored w i = Some a ->
      tenant_ok p (ga_tenant_id a) -> ga_status a = EXECUTED -> ga_execution_receipt a = Some rc ->
      execute_outcome w i p fr (Ok rc, w)
  | execute_not_approved a : has_role p EXECUTOR = true -> stored w i = Some a ->
      tenant_ok p (ga_tenant_id a) -> ga_status a <> APPROVED ->
      (ga_status a = EXECUTED -> ga_execution_receipt a = None) ->
      execute_outcome w i p fr (Raise (not_approved a), w)
  | execute_no_case a : has_role p EXECUTOR = true -> stored w i = Some a ->
      tenant_ok p (ga_tenant_id a) -> ga_status a = APPROVED -> case_of w (ga_case_id a) = None ->
      execute_outcome w i p fr (Raise (case_not_found (ga_case_id a)), delivered fr a w)
  | execute_stored a rc e : has_role p EXECUTOR = true -> stored w i = Some a ->
      tenant_ok p (ga_tenant_id a) -> ga_status a = APPROVED -> is_Some (case_of w (ga_case_id a)) ->
      rc = supplied fr a w -> e = with_execution a rc ->
      execute_outcome w i p fr (Ok rc, transitioned fr e (executed_event e rc p) (delivered fr a w)).

(** The decision a proposal asks for. *)
Definition requested (c : SupplierCase) (rv : ReviewResult) : SupplierDecisionArguments := {|
  args_supplier_case_id := case_id c; args_review_id := rv_review_id rv;
  args_decision := rec_decision (rv_recommendation rv);
  args_rationale := rec_rationale (rv_recommendation rv);
  args_required_actions := rec_required_actions (rv_recommendation rv) |}.

(** The pending action stored for a new proposal. *)
Definition new_action (c : SupplierCase) (rv : ReviewResult) (req : ActionProposalRequest)
    (p : Principal) (t : datetime) : GovernedAction :=
  let id := uuid5 NAMESPACE_URL (action_name (principal_tenant_id p) (apr_idempotency_key req)) in {|
  ga_id := id; ga_case_id := case_id c; ga_review_id := rv_review_id rv;
  ga_tenant_id := case_tenant_id c; ga_tool_name := SUPPLIER_SET_ONBOARDING_DECISION;
  ga_arguments := requested c rv; ga_status := PENDING_APPROVAL; ga_proposer_id := subject p;
  ga_approver_id := None; ga_approval_comment := []; ga_idempotency_key := apr_idempotency_key req;
  ga_workflow_execution_arn := Some (u "local://approval/" ++ str_uuid id);
  ga_execution_receipt := None; ga_created_at := t; ga_decided_at := None; ga_executed_at := None |}.

Definition key_conflict : exn :=
  IdempotencyConflictError (u "The idempotency key is already associated with another proposal").

(** The action already proposed with this tenant and key. *)
Definition replayable (w : MemWorld) (c : SupplierCase) (req : ActionProposalRequest) (b : GovernedAction) : Prop :=
  exists i, stored w i = Some b /\ action_key b = (case_tenant_id c, apr_idempotency_key req).

Inductive propose_outcome (w : MemWorld) (c : SupplierCase) (rv : ReviewResult)
    (req : ActionProposalRequest) (p : Principal) (t : datetime) (fr : Fresh) :
    result GovernedAction * MemWorld -> Prop :=
  | propose_no_role : has_role p ANALYST = false ->
      propose_outcome w c rv req p t fr (Raise (role_required ANALYST), w)
  | propose_other_tenant : has_role p ANALYST = true -> ~ tenant_ok p (case_tenant_id c) ->
      propose_outcome w c rv req p t fr (Raise other_tenant, w)
  | propose_other_case : has_role p ANALYST = true -> tenant_ok p (case_tenant_id c) ->
      rv_case_id rv <> case_id c ->
      propose_outcome w c rv req p t fr
        (Raise (ValueError (u "The review does not belong to the supplier case")), w)
  | propose_invalid : has_role p ANALYST = true -> tenant_ok p (case_tenant_id c) ->
      rv_case_id rv = case_id c -> valid_SupplierDecisionArguments (requested c rv) = false ->
      propose_outcome w c rv req p t fr (Raise (ValidationError (u "validation_error")), w)
  | propose_conflict b : has_role p ANALYST = true -> tenant_ok p (case_tenant_id c) ->
      rv_case_id rv = case_id c -> valid_SupplierDecisionArguments (requested c rv) = true ->
      replayable w c req b -> ga_case_id b <> case_id c \/ ga_review_id b <> rv_review_id rv ->
      propose_outcome w c rv req p t fr (Raise key_conflict, w)
  | propose_replayed b : has_role p ANALYST = true -> tenant_ok p (case_tenant_id c) ->
      rv_case_id rv = case_id c -> valid_SupplierDecisionArguments (requested c rv) = true ->
      replayable w c req b -> ga_case_id b = case_id c -> ga_review_id b = rv_review_id rv ->
      propose_outcome w c rv req p t fr (Ok b, w)
  | propose_no_case : has_role p ANALYST = true -> tenant_ok p (case_tenant_id c) ->
      rv_case_id rv = case_id c -> valid_SupplierDecisionArguments (requested c rv) = true ->
      (forall b, ~ replayable w c req b) -> case_of w (case_id c) = None ->
      propose_outcome w c rv req p t fr (Raise (case_not_found (case_id c)), w)
  | propose_stored a : has_role p ANALYST = true -> tenant_ok p (case_tenant_id c) ->
      rv_case_id rv = case_id c -> valid_SupplierDecisionArguments (requested c rv) = true ->
      (forall b, ~ replayable w c req b) -> is_Some (case_of w (case_id c)) ->
      a = new_action c rv req p t ->
      propose_outcome w c rv req p t fr (Ok a, proposed fr a (proposed_event a p) w).

(** ** The methods follow their tables *)

Lemma valid_event_actor p et i payload :
  valid_Principal p = true -> len_between 1 128 (length et) = true ->
  construct valid_AuditEventCreate
    {| ae_case_id := i; ae_event_type := et; ae_actor_id := subject p; ae_payload := payload |} =
  Ok {| ae_case_id := i; ae_event_type := et; ae_actor_id := subject p; ae_payload := payload |}.
Proof.
  unfold valid_Principal. rewrite andb_true_iff. intros [Hs _] He.
  apply construct_valid. unfold valid_AuditEventCreate. cbn [ae_event_type ae_actor_id]. by rewrite He, Hs.
Qed.

Lemma decide_overtaken w g i req p t fr :
  valid_Principal p = true -> (forall a, stored w i = Some a -> ga_id a = i) ->
  decide_outcome w (g w) i req p t fr (overtaken g (decide i req p t fr) w).
Proof.
  intros Hp Hid. unfold decide. rewrite require_role_if.
  destruct (has_role p APPROVER) eqn:Hr; [|by apply decide_no_role].
  rewrite overtaken_ret, overtaken_get. destruct (stored w i) as [a|] eqn:Ha; [|by apply decide_unknown].
  specialize (Hid a eq_refl). subst i. rewrite run_bind.
  destruct (require_tenant_cases p (ga_tenant_id a) (g w)) as [[Ht ->]|[Ht ->]];
    [|by eapply decide_other_tenant].
  rewrite run_bind, run_raise_if. case_bool_decide as Hown; [by eapply decide_own|].
  rewrite run_bind, run_raise_if. case_bool_decide as Hst; [by apply decide_closed|].
  rewrite run_bind, run_catch, run_bind. unfold decided_event at 1.
  rewrite valid_event_actor by (done || by destruct (ar_decision req)). cbn [of_result run].
  rewrite run_save_transition. cbn [ga_id with_decision].
  destruct (stored (g w) (ga_id a)) as [b|] eqn:Hb; [|by eapply decide_vanished].
  case_bool_decide as Hbst; [|by eapply decide_conflict].
  match goal with |- context [case_of _ ?x] => change x with (ga_case_id a) end.
  destruct (case_of (g w) (ga_case_id a)) as [c|] eqn:Ec.
  - refine (decide_stored w (g w) (ga_id a) req p t fr a b _ Hr Ha Ht Hown Hst Hb Hbst _ eq_refl). by rewrite Ec.
  - by eapply decide_no_case.
Qed.

Lemma decide_run w i req p t fr :
  valid_Principal p = true -> (forall a, stored w i = Some a -> ga_id a = i) ->
  decide_outcome w w i req p t fr (run (decide i req p t fr) w).
Proof. intros Hp Hid. rewrite <- overtaken_id. by apply (decide_overtaken w id). Qed.

Lemma execute_run w i p fr :
  valid_Principal p = true -> (forall a, stored w i = Some a -> ga_id a = i) ->
  execute_outcome w i p fr (run (execute i p fr) w).
Proof.
  intros Hp Hid. unfold execute. rewrite run_bind, run_require_role.
  destruct (has_role p EXECUTOR) eqn:Hr; [|by apply execute_no_role].
  rewrite run_bind, run_get_action. destruct (stored w i) as [a|] eqn:Ha; [|by apply execute_unknown].
  specialize (Hid a eq_refl). subst i. cbn [of_option]. rewrite run_bind.
  destruct (require_tenant_cases p (ga_tenant_id a) w) as [[Ht ->]|[Ht ->]];
    [|by eapply execute_other_tenant].
  destruct (stored_receipt a) as [rc|] eqn:Erc.
  { apply stored_receipt_Some in Erc as [? ?]. by eapply execute_replayed. }
  rewrite run_bind, run_raise_if. case_bool_decide as Hst.
  { apply execute_not_approved; try done. intros Hx. unfold stored_receipt in Erc. by rewrite Hx in Erc. }
  rewrite run_bind.
  assert (run (set_onboarding_decision fr (ga_id a) (ga_idempotency_key a) (ga_arguments a)) w
          = (Ok (supplied fr a w), delivered fr a w)) as ->.
  { simpl. unfold delivered, supplied. destruct (mw_receipts w !! ga_idempotency_key a) as [rc|] eqn:E; [|done].
    by rewrite insert_id. }
  cbv zeta. rewrite run_catch, run_bind. unfold executed_event at 1.
  rewrite valid_event_actor by done. cbn [of_result run]. rewrite run_bind, run_save_transition.
  cbn [ga_id with_execution]. change (stored (delivered fr a w) (ga_id a)) with (stored w (ga_id a)).
  rewrite Ha, bool_decide_eq_true_2 by done.
  match goal with |- context [case_of _ ?x] => change x with (ga_case_id a) end.
  change (case_of (delivered fr a w) (ga_case_id a)) with (case_of w (ga_case_id a)).
  destruct (case_of w (ga_case_id a)) as [c|] eqn:Ec.
  - refine (execute_stored w (ga_id a) p fr a _ _ Hr Ha Ht Hst _ eq_refl eq_refl). by rewrite Ec.
  - by eapply execute_no_case.
Qed.

Lemma len_between_weaken n : len_between 1 255 n = true -> len_between 0 2048 (n + 40) = true.
Proof. unfold len_between. rewrite !andb_true_iff, !Nat.leb_le. lia. Qed.

(** Under valid inputs only the arguments can be refused. *)
Lemma proposed_action_run c rv req p t :
  valid_SupplierCase c = true -> valid_Principal p = true ->
  proposed_action uuid5 c rv req p t =
    if valid_SupplierDecisionArguments (requested c rv)
    then Ok (with_arn (new_action c rv req p t) None)
    else Raise (ValidationError (u "validation_error")).
Proof.
  unfold valid_SupplierCase, valid_Principal. rewrite !andb_true_iff. intros [Ht _] [Hs _].
  unfold proposed_action. change {| args_supplier_case_id := case_id c; args_review_id := _;
    args_decision := _; args_rationale := _; args_required_actions := _ |} with (requested c rv).
  unfold construct at 2. destruct (valid_SupplierDecisionArguments (requested c rv)) eqn:Hv; [|done].
  cbn [mbind result_bind]. apply construct_valid. unfold valid_GovernedAction.
  cbn [with_arn new_action ga_tenant_id ga_arguments ga_proposer_id ga_approver_id ga_approval_comment
       ga_workflow_execution_arn ga_execution_receipt opt_forallb]. by rewrite Ht, Hv, Hs.
Qed.

Lemma workflow_start_message_run a :
  len_between 1 255 (length (ga_tenant_id a)) = true ->
  exists m, workflow_start_message a = Ok m.
Proof. intros H. unfold workflow_start_message. rewrite construct_valid by done. by eexists. Qed.

Lemma raise_unless_case b a : (bool_decide (ga_case_id b <> ga_case_id a)
   || bool_decide (ga_review_id b <> ga_review_id a)) = true <->
   ga_case_id b <> ga_case_id a \/ ga_review_id b <> ga_review_id a.
Proof. by rewrite orb_true_iff, !bool_decide_eq_true. Qed.

Lemma propose_run w c rv req p t fr :
  valid_SupplierCase c = true -> valid_Principal p = true -> mem_inv (mw_actions w) ->
  (case_of w (case_id c) = None -> id_owned (new_action c rv req p t) (ledger w)) ->
  propose_outcome w c rv req p t fr (run (propose uuid5 c rv req p t fr) w).
Proof.
  intros Hc Hp Hinv Hown. unfold propose. rewrite run_bind, run_require_role.
  destruct (has_role p ANALYST) eqn:Hr; [|by apply propose_no_role]. rewrite run_bind.
  destruct (require_tenant_cases p (case_tenant_id c) w) as [[Ht ->]|[Ht ->]];
    [|by apply propose_other_tenant].
  rewrite run_bind, run_raise_if. case_bool_decide as Hcase; [by apply propose_other_case|].
  rewrite run_bind, run_of_result, proposed_action_run by done.
  destruct (valid_SupplierDecisionArguments (requested c rv)) eqn:Hv; [|by apply propose_invalid].
  cbn [uses_transactional_outbox mem_actions]. rewrite !run_bind. cbn [run start_workflow workflow start mbind
    prog_bind prog_bind_def].
  change (with_arn (with_arn (new_action c rv req p t) None) _) with (new_action c rv req p t).
  set (a := new_action c rv req p t) in *. unfold submit. rewrite run_bind, run_of_result.
  unfold proposed_event at 1. rewrite valid_event_actor by done. rewrite run_bind, run_of_result.
  destruct (workflow_start_message_run a) as [m ->];
    [unfold valid_SupplierCase in Hc; rewrite andb_true_iff in Hc; by destruct Hc|].
  rewrite run_bind, run_create_proposal by done.
  destruct (InMemoryActionRepository.idempotency (mw_actions w) !! action_key a) as [i|] eqn:Ei.
  - apply (mi_index _ Hinv) in Ei as (b & Hb & Hk). rewrite Hb. cbn [fmap option_fmap option_map of_option].
    rewrite run_bind, run_raise_if.
    assert (replayable w c req b) as Hrep by (by exists i).
    destruct (_ || _) eqn:Ediff; cbn [fst] in Ediff.
    + apply raise_unless_case in Ediff. by apply (propose_conflict _ _ _ _ _ _ _ b).
    + assert (~ (ga_case_id b <> ga_case_id a \/ ga_review_id b <> ga_review_id a)) as Hn
        by (rewrite <- raise_unless_case; congruence).
      apply (propose_replayed _ _ _ _ _ _ _ b); try done; apply dec_stable; intros ?; apply Hn; auto.
  - assert (forall b, ~ replayable w c req b) as Hnone.
    { intros b (i & Hi & Hk). apply (mi_actions _ Hinv) in Hi. rewrite Hk in Hi.
      unfold action_key in Ei. simpl in Ei. congruence. }
    match goal with |- context [case_of _ ?x] => change x with (case_id c) end.
    destruct (case_of w (case_id c)) as [cs|] eqn:Ec.
    + rewrite run_bind, run_raise_if. cbn [fst]. rewrite !bool_decide_eq_false_2 by auto. cbn [orb run].
      refine (propose_stored w c rv req p t fr a Hr Ht Hcase Hv Hnone _ eq_refl). by rewrite Ec.
    + by apply propose_no_case.
Qed.

(** C7. [decide] returns, raises and changes the state exactly as its table says, whatever
    other requests do ([g]) between its reading of the action and its writing of the
    transition: role, existence, tenant, self-approval and status are checked in that order
    against the action that was read; an action that is no longer pending when it is written is
    reported as already decided, like one that was read so; a refusal changes nothing, and a
    decision is stored together with its event. *)
Theorem decide_follows_table w g i req p t fr :
  valid_Principal p = true -> (forall a, stored w i = Some a -> ga_id a = i) ->
  decide_outcome w (g w) i req p t fr (overtaken g (decide i req p t fr) w).
Proof. apply decide_overtaken. Qed.

(** C8. [execute] follows its table: a recorded receipt is replayed without any effect,
    anything but an approved action is refused, and the supplier system is called
    before the transition is stored, so a failure in between leaves the decision
    delivered and a retry finds the same receipt. *)
Theorem execute_follows_table w i p fr :
  valid_Principal p = true -> (forall a, stored w i = Some a -> ga_id a = i) ->
  execute_outcome w i p fr (run (execute i p fr) w).
Proof. apply execute_run. Qed.

(** C9. [propose] follows its table: role, tenant, case and argument checks come first,
    a known key replays its action when case and review agree and conflicts when they
    do not, and a new action is stored with its audit event or not at all. *)
Theorem propose_follows_table w c rv req p t fr :
  valid_SupplierCase c = true -> valid_Principal p = true -> mem_inv (mw_actions w) ->
  (case_of w (case_id c) = None -> id_owned (new_action c rv req p t) (ledger w)) ->
  propose_outcome w c rv req p t fr (run (propose uuid5 c rv req p t fr) w).
Proof. apply propose_run. Qed.
End tables.

(** ** Whole workflows *)

Section workflows.
Context (uuid5 : UUID -> pystr -> UUID).

Lemma lookup_absurd {V} (m : gmap UUID V) k : is_Some (m !! k) -> m !! k <> None.
Proof. by intros [v ->]. Qed.

Lemma stored_log fr e w i : stored (log fr e w) i = stored w i.
Proof. done. Qed.

Lemma stored_transitioned fr a e w : stored (transitioned fr a e w) (ga_id a) = Some a.
Proof. apply lookup_insert_eq. Qed.

Lemma stored_proposed fr a e w : stored (proposed fr a e w) (ga_id a) = Some a.
Proof. apply lookup_insert_eq. Qed.

(** Successful calls. *)
Lemma propose_succeeds w c rv req p t fr :
  valid_SupplierCase c = true -> valid_Principal p = true -> mem_inv (mw_actions w) ->
  has_role p ANALYST = true -> tenant_ok p (case_tenant_id c) -> rv_case_id rv = case_id c ->
  valid_SupplierDecisionArguments (requested c rv) = true -> is_Some (case_of w (case_id c)) ->
  (forall b, ~ replayable w c req b) ->
  let a := new_action uuid5 c rv req p t in
  run (propose uuid5 c rv req p t fr) w = (Ok a, proposed fr a (proposed_event a p) w).
Proof.
  intros Hc Hp Hi Hr Ht Hcase Hv Hs Hnone a.
  pose proof (propose_run uuid5 w c rv req p t fr Hc Hp Hi (fun E => False_ind _ (lookup_absurd _ _ Hs E))) as H.
  destruct (run _ w) as [res w']. inversion H; subst; try congruence; try done.
  - exfalso. eapply Hnone. eassumption.
  - exfalso. eapply Hnone. eassumption.
  - exfalso; by apply (lookup_absurd _ _ Hs).
Qed.

Lemma decide_succeeds w a req p t fr :
  valid_Principal p = true -> stored w (ga_id a) = Some a ->
  has_role p APPROVER = true -> tenant_ok p (ga_tenant_id a) -> ga_proposer_id a <> subject p ->
  ga_status a = PENDING_APPROVAL -> is_Some (case_of w (ga_case_id a)) ->
  let d := with_decision a (decision_status (ar_decision req)) (subject p) (ar_comment req) t in
  run (decide (ga_id a) req p t fr) w = (Ok d, transitioned fr d (decided_event d p) w).
Proof.
  intros Hp Ha Hr Ht Hown Hst Hs d.
  pose proof (decide_run w (ga_id a) req p t fr Hp ltac:(intros; congruence)) as H.
  destruct (run _ w) as [res w']. inversion H; subst; try congruence;
    assert (a = a0) as <- by congruence; try congruence; try done.
  exfalso; by apply (lookup_absurd _ _ Hs).
Qed.

Lemma execute_succeeds w a p fr :
  valid_Principal p = true -> stored w (ga_id a) = Some a ->
  has_role p EXECUTOR = true -> tenant_ok p (ga_tenant_id a) ->
  ga_status a = APPROVED -> is_Some (case_of w (ga_case_id a)) ->
  let rc := supplied fr a w in
  let e := with_execution a rc in
  run (execute (ga_id a) p fr) w = (Ok rc, transitioned fr e (executed_event e rc p) (delivered fr a w)).
Proof.
  intros Hp Ha Hr Ht Hst Hs rc e.
  pose proof (execute_run w (ga_id a) p fr Hp ltac:(intros; congruence)) as H.
  destruct (run _ w) as [res w']. inversion H; subst; try congruence;
    assert (a = a0) as <- by congruence; try congruence; try done.
  exfalso; by apply (lookup_absurd _ _ Hs).
Qed.

Lemma execute_replays w a rc p fr :
  valid_Principal p = true -> stored w (ga_id a) = Some a ->
  has_role p EXECUTOR = true -> tenant_ok p (ga_tenant_id a) ->
  ga_status a = EXECUTED -> ga_execution_receipt a = Some rc ->
  run (execute (ga_id a) p fr) w = (Ok rc, w).
Proof.
  intros Hp Ha Hr Ht Hst Hrc.
  pose proof (execute_run w (ga_id a) p fr Hp ltac:(intros; congruence)) as H.
  destruct (run _ w) as [res w']. inversion H; subst; try congruence;
    assert (a = a0) as <- by congruence; try congruence; try done.
  match goal with E : ga_status a = EXECUTED -> _ |- _ => specialize (E Hst); congruence end.
Qed.

(** C10. The approval workflow completes, for a key that no action and no receipt carries yet:
    a proposal by an analyst, its approval by another principal and its execution all
    succeed one after the other; the receipt carries the reviewed decision and is on record
    at the supplier system, and a repeated execution returns it again and changes nothing. *)
Theorem workflow_completes w c rv req p q r t1 t2 fr1 fr2 fr3 fr4 :
  valid_SupplierCase c = true -> valid_Principal p = true -> valid_Principal q = true ->
  valid_Principal r = true -> mem_inv (mw_actions w) ->
  has_role p ANALYST = true -> has_role q APPROVER = true -> has_role r EXECUTOR = true ->
  tenant_ok p (case_tenant_id c) -> tenant_ok q (case_tenant_id c) -> tenant_ok r (case_tenant_id c) ->
  subject p <> subject q -> rv_case_id rv = case_id c ->
  valid_SupplierDecisionArguments (requested c rv) = true -> is_Some (case_of w (case_id c)) ->
  (forall b, ~ replayable w c req b) -> mw_receipts w !! apr_idempotency_key req = None ->
  exists a d rc w1 w2 w3,
    run (propose uuid5 c rv req p t1 fr1) w = (Ok a, w1) /\
    run (decide (ga_id a) {| ar_decision := AD_APPROVE; ar_comment := [] |} q t2 fr2) w1 = (Ok d, w2) /\
    run (execute (ga_id a) r fr3) w2 = (Ok rc, w3) /\
    rc_action_id rc = ga_id a /\ rc_applied_decision rc = rec_decision (rv_recommendation rv) /\
    mw_receipts w3 = <[apr_idempotency_key req := rc]> (mw_receipts w) /\
    run (execute (ga_id a) r fr4) w3 = (Ok rc, w3).
Proof.
  intros Hc Hp Hq Hr Hi Hrp Hrq Hrr Htp Htq Htr Hne Hcase Hv Hs Hnone Hkey.
  set (a := new_action uuid5 c rv req p t1).
  set (d := with_decision a APPROVED (subject q) [] t2).
  set (w1 := proposed fr1 a (proposed_event a p) w).
  set (w2 := transitioned fr2 d (decided_event d q) w1).
  set (rc := supplied fr3 d w2). set (e := with_execution d rc).
  set (w3 := transitioned fr3 e (executed_event e rc r) (delivered fr3 d w2)).
  assert (Hrc : rc = {| rc_action_id := ga_id a; rc_external_reference := InMemorySupplierSystem.reference (ga_id a);
    rc_applied_decision := rec_decision (rv_recommendation rv); rc_executed_at := now fr3 |})
    by (unfold rc, supplied; simpl; by rewrite Hkey).
  exists a, d, rc, w1, w2, w3. split_and!.
  - by apply propose_succeeds.
  - apply (decide_succeeds w1 a); try done. apply stored_proposed.
  - apply (execute_succeeds w2 d); try done. apply stored_transitioned.
  - by rewrite Hrc.
  - by rewrite Hrc.
  - done.
  - apply (execute_replays w3 e rc r fr4); try done. apply stored_transitioned.
Qed.

(** The supplier system keys its receipts by the idempotency key alone, without the
    tenant: an approved action whose key another action has used is recorded as
    executed with the other action's receipt, and its own decision is never applied. *)
Theorem foreign_key_skips_write w a b rc p fr :
  valid_Principal p = true -> stored w (ga_id a) = Some a -> ga_status a = APPROVED ->
  stored w (ga_id b) = Some b -> ga_tenant_id b <> ga_tenant_id a ->
  ga_idempotency_key b = ga_idempotency_key a ->
  mw_receipts w !! ga_idempotency_key b = Some rc -> rc_action_id rc = ga_id b ->
  has_role p EXECUTOR = true -> tenant_ok p (ga_tenant_id a) -> is_Some (case_of w (ga_case_id a)) ->
  exists w', run (execute (ga_id a) p fr) w = (Ok rc, w') /\
    stored w' (ga_id a) = Some (with_execution a rc) /\ rc_action_id rc <> ga_id a /\
    mw_receipts w' = mw_receipts w.
Proof.
  intros Hp Ha Hst Hb Hne Hk Hrc Hid Hr Ht Hs. rewrite Hk in Hrc.
  assert (supplied fr a w = rc) as Hsup by (unfold supplied; by rewrite Hrc).
  eexists. split; [rewrite (execute_succeeds w a p fr) by done; by rewrite Hsup|].
  split; [apply (stored_transitioned fr (with_execution a rc))|]. split; [congruence|].
  simpl. rewrite Hsup. by apply insert_id.
Qed.

(** An identifier is hashed from the proposer's tenant while the action belongs to the
    case's tenant: an administrator who reuses a key for another tenant's case
    replaces the action already stored under that identifier. *)
Theorem admin_proposal_replaces_action w c rv req p t fr b :
  valid_SupplierCase c = true -> valid_Principal p = true -> mem_inv (mw_actions w) ->
  (forall i x, stored w i = Some x -> ga_id x = i) ->
  ADMIN ∈ roles p -> rv_case_id rv = case_id c ->
  valid_SupplierDecisionArguments (requested c rv) = true -> is_Some (case_of w (case_id c)) ->
  (forall b, ~ replayable w c req b) ->
  stored w (uuid5 NAMESPACE_URL (action_name (principal_tenant_id p) (apr_idempotency_key req))) = Some b ->
  ga_tenant_id b <> case_tenant_id c ->
  exists a w', run (propose uuid5 c rv req p t fr) w = (Ok a, w') /\
    ga_tenant_id a = case_tenant_id c /\
    stored w' (uuid5 NAMESPACE_URL (action_name (principal_tenant_id p) (apr_idempotency_key req))) = Some a /\
    (forall i, stored w' i <> Some b).
Proof.
  intros Hc Hp Hi Hid Hadm Hcase Hv Hs Hnone Hb Hne.
  assert (has_role p ANALYST = true) as Hr by (apply has_role_spec; by right).
  assert (tenant_ok p (case_tenant_id c)) as Ht by by left.
  eexists _, _. split; [by apply propose_succeeds|]. split; [done|]. split; [apply stored_proposed|].
  intros i. simpl. rewrite lookup_insert. case_decide as E.
  - intros [= <-]. by apply Hne.
  - intros Hib. apply E. rewrite <- (Hid i b Hib). symmetry. by apply Hid.
Qed.
End workflows.

(** ** Concrete runs *)

Module TwoTenants.
Import History.

(** A second tenant with a case and a review of its own, and a hash that tells the
    two tenants apart. *)
Definition zeta : pystr := u "zeta".
Definition zeta_case : SupplierCase := {|
  case_id := uuid 11; case_tenant_id := zeta; supplier_name := u "Gadgets"; description := [];
  case_status := CASE_PENDING_APPROVAL; documents := []; case_created_at := 0%Z; case_updated_at := 2%Z |}.
Definition zeta_review : ReviewResult := {|
  rv_review_id := uuid 21; rv_case_id := uuid 11; rv_findings := [];
  rv_recommendation := {| rec_decision := REJECT; rec_rationale := u "Insolvent";
    rec_required_actions := []; rec_confidence := SpecFloat.S754_zero false |};
  rv_model_backend := u "deterministic"; rv_started_at := 1%Z; rv_completed_at := 2%Z |}.
Definition zoe (n : pystr) (r : Role) : Principal :=
  {| subject := n; principal_tenant_id := zeta; roles := {[r]}; scopes := ∅ |}.
Definition root : Principal := {| subject := u "root"; principal_tenant_id := tenant; roles := {[ADMIN]}; scopes := ∅ |}.
Definition first_letter (_ : UUID) (n : pystr) : UUID := uuid (50 + default 0%N (head n)).

Definition req : ActionProposalRequest := {| apr_idempotency_key := key |}.
Definition approve : ApprovalRequest := verdict AD_APPROVE.

Definition start : MemWorld := put_cases (InMemoryCaseRepository.set_cases
  {[uuid 10 := supplier_case; uuid 11 := zeta_case]} InMemoryCaseRepository.empty) mem_empty.

(** Requests served one after the other. *)
Definition after (rs : list request) : MemWorld :=
  fold_left (fun w r => (run (serve first_letter r) w).2) rs start.

Definition acme_action : UUID := first_letter NAMESPACE_URL tenant.
Definition zeta_action : UUID := first_letter NAMESPACE_URL zeta.

Definition acme_propose := Propose supplier_case review req ana 3%Z (fresh 3).
Definition acme_done : list request :=
  [acme_propose; Decide acme_action approve bob 4%Z (fresh 4); Execute acme_action exe (fresh 5)].
Definition zeta_approved : list request :=
  [Propose zeta_case zeta_review req (zoe (u "zoe") ANALYST) 6%Z (fresh 6);
   Decide zeta_action approve (zoe (u "zac") APPROVER) 7%Z (fresh 7)].

Definition the_action (w : MemWorld) (i : UUID) : GovernedAction :=
  default (new_action first_letter supplier_case review req ana 0%Z) (stored w i).

End TwoTenants.

Section witnesses.
Import History TwoTenants.

(** Decides facts about concrete worlds by evaluation. *)
Ltac by_evaluation := first [vm_compute; reflexivity | vm_compute; congruence].

Lemma id_of_stored w i : option_map ga_id (stored w i) = Some i -> forall a, stored w i = Some a -> ga_id a = i.
Proof. intros H a Ha. rewrite Ha in H. simpl in H. congruence. Qed.

Lemma filed_all w :
  forallb (fun p => bool_decide (ga_id p.2 = p.1)) (map_to_list (InMemoryActionRepository.actions (mw_actions w))) = true ->
  forall i x, stored w i = Some x -> ga_id x = i.
Proof.
  rewrite List.forallb_forall. intros H i x Hx. specialize (H (i, x)).
  rewrite <- list_elem_of_In, elem_of_map_to_list in H. by apply H, bool_decide_eq_true in Hx.
Qed.

(** The invariant of the store is decidable. *)
Definition mem_inv_check (s : InMemoryActionRepository.t) : bool :=
  forallb (fun p => bool_decide (action_key <$> InMemoryActionRepository.actions s !! p.2 = Some p.1))
    (map_to_list (InMemoryActionRepository.idempotency s))
  && forallb (fun p => bool_decide (InMemoryActionRepository.idempotency s !! action_key p.2 = Some p.1))
    (map_to_list (InMemoryActionRepository.actions s)).

Lemma mem_inv_check_sound s : mem_inv_check s = true -> mem_inv s.
Proof.
  unfold mem_inv_check. rewrite andb_true_iff, !List.forallb_forall. intros [H1 H2]. split.
  - intros k i Hk. specialize (H1 (k, i)). rewrite <- list_elem_of_In, elem_of_map_to_list in H1.
    apply H1, bool_decide_eq_true in Hk. simpl in Hk.
    destruct (InMemoryActionRepository.actions s !! i) as [a|] eqn:E; [|done].
    exists a. split; [done|]. simpl in Hk. congruence.
  - intros i a Ha. specialize (H2 (i, a)). rewrite <- list_elem_of_In, elem_of_map_to_list in H2.
    by apply H2, bool_decide_eq_true in Ha.
Qed.

(** No stored action carries the key. *)
Lemma not_replayable w c req :
  mem_inv (mw_actions w) ->
  InMemoryActionRepository.idempotency (mw_actions w) !! (case_tenant_id c, apr_idempotency_key req) = None ->
  forall b, ~ replayable w c req b.
Proof. intros H Hn b (i & Hi & Hk). apply (mi_actions _ H) in Hi. congruence. Qed.

(** Bob is overtaken by another approver, who rejects. *)
Lemma decide_follows_table_witness :
  let g w := (run (decide acme_action (verdict AD_REJECT) cy 4%Z (fresh 4)) w).2 in
  let run' := overtaken g (decide acme_action approve bob 5%Z (fresh 5)) (after [acme_propose]) in
  run'.1 = Raise (already acme_action REJECTED) /\
  decide_outcome (after [acme_propose]) (g (after [acme_propose])) acme_action approve bob 5%Z (fresh 5) run'.
Proof.
  split; [by_evaluation|].
  apply (decide_follows_table (after [acme_propose]) (fun w => (run (decide acme_action (verdict AD_REJECT) cy 4%Z (fresh 4)) w).2)
    acme_action approve bob 5%Z (fresh 5)).
  - reflexivity.
  - apply id_of_stored. by_evaluation.
Defined.

Lemma execute_follows_table_witness :
  stored (after acme_done) acme_action <> None /\
  execute_outcome (after acme_done) acme_action exe (fresh 9)
    (run (execute acme_action exe (fresh 9)) (after acme_done)).
Proof.
  split; [by_evaluation|].
  apply (execute_follows_table (after acme_done) acme_action exe (fresh 9)).
  - reflexivity.
  - apply id_of_stored. by_evaluation.
Defined.

Lemma propose_follows_table_witness :
  propose_outcome first_letter (after [acme_propose]) supplier_case review req ana 8%Z (fresh 8)
    (run (propose first_letter supplier_case review req ana 8%Z (fresh 8)) (after [acme_propose])).
Proof.
  apply (propose_follows_table first_letter (after [acme_propose]) supplier_case review req ana 8%Z (fresh 8)).
  - reflexivity.
  - reflexivity.
  - apply mem_inv_check_sound. by_evaluation.
  - intros H. vm_compute in H. discriminate H.
Defined.

Lemma workflow_completes_witness :
  exists a d rc w1 w2 w3,
    run (propose first_letter supplier_case review req ana 1%Z (fresh 1)) start = (Ok a, w1) /\
    run (decide (ga_id a) {| ar_decision := AD_APPROVE; ar_comment := [] |} bob 2%Z (fresh 2)) w1 = (Ok d, w2) /\
    run (execute (ga_id a) exe (fresh 3)) w2 = (Ok rc, w3) /\
    rc_action_id rc = ga_id a /\ rc_applied_decision rc = REMEDIATE /\
    mw_receipts w3 = <[key := rc]> ∅ /\
    run (execute (ga_id a) exe (fresh 4)) w3 = (Ok rc, w3).
Proof.
  apply (workflow_completes first_letter start supplier_case review req ana bob exe 1%Z 2%Z
           (fresh 1) (fresh 2) (fresh 3) (fresh 4)); try reflexivity.
  - apply mem_inv_check_sound. by_evaluation.
  - right. reflexivity.
  - right. reflexivity.
  - right. reflexivity.
  - by_evaluation.
  - exists supplier_case. by_evaluation.
  - apply not_replayable; [apply mem_inv_check_sound|]; by_evaluation.
Defined.

Lemma foreign_key_skips_write_witness :
  let w := after (acme_done ++ zeta_approved) in
  exists w', run (execute zeta_action (zoe (u "zed") EXECUTOR) (fresh 9)) w
             = (Ok {| rc_action_id := acme_action;
                      rc_external_reference := InMemorySupplierSystem.reference acme_action;
                      rc_applied_decision := REMEDIATE; rc_executed_at := 5%Z |}, w') /\
    mw_receipts w' = mw_receipts w /\
    args_decision (ga_arguments (the_action w zeta_action)) = REJECT.
Proof.
  intros w. subst w.
  destruct (foreign_key_skips_write (after (acme_done ++ zeta_approved))
    (the_action (after (acme_done ++ zeta_approved)) zeta_action)
    (the_action (after (acme_done ++ zeta_approved)) acme_action)
    {| rc_action_id := acme_action; rc_external_reference := InMemorySupplierSystem.reference acme_action;
       rc_applied_decision := REMEDIATE; rc_executed_at := 5%Z |} (zoe (u "zed") EXECUTOR) (fresh 9))
    as (w' & Hrun & _ & _ & Hm);
    [by_evaluation|by_evaluation|by_evaluation|by_evaluation|by_evaluation|by_evaluation|by_evaluation
    |by_evaluation|by_evaluation|right; by_evaluation|exists zeta_case; by_evaluation|].
  exists w'. split; [|split; [exact Hm|by_evaluation]].
  rewrite <- Hrun. f_equal.
Defined.

Lemma admin_proposal_replaces_action_witness :
  let w := after [acme_propose] in
  exists a w', run (propose first_letter zeta_case zeta_review req root 6%Z (fresh 6)) w = (Ok a, w') /\
    ga_tenant_id a = zeta /\ stored w' acme_action = Some a /\
    (forall i, stored w' i <> Some (the_action w acme_action)).
Proof.
  intros w. subst w.
  apply (admin_proposal_replaces_action first_letter (after [acme_propose]) zeta_case zeta_review req root 6%Z
    (fresh 6) (the_action (after [acme_propose]) acme_action)).
  - by_evaluation.
  - by_evaluation.
  - apply mem_inv_check_sound. by_evaluation.
  - apply filed_all. by_evaluation.
  - change (ADMIN ∈ ({[ADMIN]} : gset Role)). apply elem_of_singleton. reflexivity.
  - by_evaluation.
  - by_evaluation.
  - exists zeta_case. by_evaluation.
  - apply not_replayable; [apply mem_inv_check_sound|]; by_evaluation.
  - by_evaluation.
  - by_evaluation.
Defined.
End witnesses.
