(* ===== verification/Workflows.v ===== *)
(** * The Step Functions approval workflow

    [StepFunctionsApprovalWorkflow] of [packages/workflows/approvals.py] and
    [create_approval_workflow] of [packages/workflows/factory.py].  The AWS client is
    a parameter; the documented behaviour of [StartExecution] is stated as laws. *)
From S2P Require Import Prelude PyStr Uuid Effects Json Schemas Ledger InMemory.
Local Open Scope py_scope.

(** ** [json.dumps] of a flat object of strings and nulls *)

Definition quote : N := 34%N.
Definition backslash : N := 92%N.

Definition escape_unit (c : N) : pystr := [backslash] ++ u "u" ++ to_hex 4 c.

(** The escapes of [ensure_ascii]: everything but printable ASCII, a surrogate pair
    beyond the basic plane. *)
Definition escape (c : N) : pystr :=
  if (c =? quote)%N then [backslash; quote]
  else if (c =? backslash)%N then [backslash; backslash]
  else if (c =? 10)%N then [backslash] ++ u "n"
  else if (c =? 13)%N then [backslash] ++ u "r"
  else if (c =? 9)%N then [backslash] ++ u "t"
  else if (c =? 12)%N then [backslash] ++ u "f"
  else if (c =? 8)%N then [backslash] ++ u "b"
  else if ((32 <=? c) && (c <=? 126))%N then [c]
  else if (c <? 65536)%N then escape_unit c
  else let v := (c - 65536)%N in
       escape_unit (55296 + v / 1024)%N ++ escape_unit (56320 + v mod 1024)%N.

Definition dumps_str (s : pystr) : pystr := [quote] ++ (s ≫= escape) ++ [quote].

Definition dumps_value (v : option pystr) : pystr :=
  match v with Some s => dumps_str s | None => u "null" end.

Definition dumps (fields : list (pystr * option pystr)) : pystr :=
  u "{" ++ join (u ", ") ((fun '(k, v) => dumps_str k ++ u ": " ++ dumps_value v) <$> fields) ++ u "}".

(** ** The client *)

(** [_StepFunctionsClient]: a call may raise; a response is a JSON object. *)
Record StepFunctionsClient (S : Type) := {
  start_execution : pystr -> pystr -> pystr -> prog S (list (pystr * json));
  send_task_success : pystr -> pystr -> prog S (list (pystr * json));
}.
Arguments start_execution {S}.
Arguments send_task_success {S}.

(** ** The adapter *)

Module StepFunctionsApprovalWorkflow.

Section methods.
Context {S : Type} (client : StepFunctionsClient S) (state_machine_arn : pystr).

(** [__init__] *)
Definition init : result unit :=
  match state_machine_arn with
  | [] => Raise (ValueError (u "A Step Functions state machine ARN is required"))
  | _ => Ok tt
  end.

Definition marker : pystr := u ":stateMachine:".
Definition colon : pystr := u ":".

(** [_execution_arn] *)
Definition execution_arn (execution_name : pystr) : result pystr :=
  if negb (contains marker state_machine_arn)
  then Raise (ValueError (u "The Step Functions state machine ARN is invalid"))
  else match split_first marker state_machine_arn with
       | Some (prefix, state_machine_name) =>
           if contains colon state_machine_name
           then Raise (ValueError (u "Use an unqualified state machine ARN for idempotent delivery"))
           else Ok (prefix ++ u ":execution:" ++ state_machine_name ++ colon ++ execution_name)
       | None => Raise (ValueError (u "not enough values to unpack"))
       end.

Definition execution_name (a : GovernedAction) : pystr := u "supplier-action-" ++ uuid_hex (ga_id a).

Definition start_input (a : GovernedAction) : pystr :=
  dumps [(u "action_id", Some (str_uuid (ga_id a)));
         (u "case_id", Some (str_uuid (ga_case_id a)));
         (u "tenant_id", Some (ga_tenant_id a));
         (u "tool_name", Some (value (ga_tool_name a)));
         (u "status", Some (value (ga_status a)))].

Definition already_exists : pystr := u "ExecutionAlreadyExists".

Definition start (a : GovernedAction) : prog S pystr :=
  outcome ← (try (response ← start_execution client state_machine_arn (execution_name a) (start_input a);
                  Ret (inl response))
             except (fun exc => match exc with
               | ClientError code =>
                   if bool_decide (code <> Some already_exists) then Throw exc
                   else arn ← of_result (execution_arn (execution_name a)); Ret (inr arn)
               | _ => Throw exc
               end));
  match outcome with
  | inr arn => Ret arn
  | inl response =>
      match assoc (u "executionArn") response with
      | Some (JStr execution_arn) => Ret execution_arn
      | _ => Throw (RuntimeError (u "Step Functions did not return an execution ARN"))
      end
  end.

Definition complete_callback (task_token : pystr) (a : GovernedAction) : prog S unit :=
  _ ← send_task_success client task_token
        (dumps [(u "action_id", Some (str_uuid (ga_id a)));
                (u "status", Some (value (ga_status a)));
                (u "approver_id", ga_approver_id a)]);
  Ret tt.
End methods.

Definition workflow {S} (client : StepFunctionsClient S) (arn : pystr) : ApprovalWorkflow S :=
  {| start_workflow := start client arn |}.

End StepFunctionsApprovalWorkflow.

(** [create_approval_workflow]; [boto3] is what [boto3.client("stepfunctions", ...)] comes to. *)
Definition create_approval_workflow {S} (backend state_machine_arn : pystr) (boto3 : result (StepFunctionsClient S)) :
    result (ApprovalWorkflow S) :=
  if pystr_eqb backend (u "step_functions")
  then client ← boto3;
       _ ← StepFunctionsApprovalWorkflow.init state_machine_arn;
       Ok (StepFunctionsApprovalWorkflow.workflow client state_machine_arn)
  else Ok LocalApprovalWorkflow.workflow.

(** ** What the adapter guarantees *)

Section guarantees.
Context {S : Type} (client : StepFunctionsClient S).
Import StepFunctionsApprovalWorkflow.

Lemma execution_name_inj a b : execution_name a = execution_name b -> ga_id a = ga_id b.
Proof.
  unfold execution_name. intros H. apply app_inv_head in H. apply str_uuid_inj.
  unfold str_uuid. by rewrite H.
Qed.

Lemma execution_name_length a : length (execution_name a) = 48.
Proof. unfold execution_name. by rewrite length_app, uuid_hex_length. Qed.

Lemma execution_arn_split arn prefix name n :
  split_first marker arn = Some (prefix, name) -> contains colon name = false ->
  execution_arn arn n = Ok (prefix ++ u ":execution:" ++ name ++ colon ++ n).
Proof. intros Hs Hc. unfold execution_arn. by rewrite contains_split_first, Hs, Hc. Qed.

Lemma execution_arn_length arn n ref :
  execution_arn arn n = Ok ref -> length ref <= length arn + length n.
Proof.
  unfold execution_arn. destruct (contains marker arn); [|done]. cbn [negb].
  destruct (split_first marker arn) as [[p nm]|] eqn:E; [|done].
  destruct (contains colon nm); [done|]. intros H.
  assert (ref = p ++ u ":execution:" ++ nm ++ colon ++ n) as -> by congruence.
  apply split_first_app in E as ->. rewrite !length_app.
  change (length marker) with 14. change (length (u ":execution:")) with 11. change (length colon) with 1. lia.
Qed.

(** The documented behaviour of [StartExecution] on a state machine
    [prefix:stateMachine:name]: a new execution name is recorded and its ARN returned; a
    known one is answered with the same ARN or refused as [ExecutionAlreadyExists]. *)
Record start_execution_laws (arn prefix name : pystr) (executions : S -> gset pystr) : Prop := {
  sl_arn : split_first marker arn = Some (prefix, name) /\ contains colon name = false;
  sl_new n i s : n ∉ executions s -> exists s',
    run (start_execution client arn n i) s =
      (Ok [(u "executionArn", JStr (prefix ++ u ":execution:" ++ name ++ colon ++ n))], s') /\
    executions s' = {[n]} ∪ executions s;
  sl_known n i s : n ∈ executions s -> exists r,
    run (start_execution client arn n i) s = (r, s) /\
    (r = Ok [(u "executionArn", JStr (prefix ++ u ":execution:" ++ name ++ colon ++ n))] \/
     r = Raise (ClientError (Some already_exists)));
}.

Lemma start_known arn prefix name executions a s :
  start_execution_laws arn prefix name executions -> execution_name a ∈ executions s ->
  run (start client arn a) s = (Ok (prefix ++ u ":execution:" ++ name ++ colon ++ execution_name a), s).
Proof.
  intros H Hin. destruct (sl_arn _ _ _ _ H) as [Hs Hc].
  destruct (sl_known _ _ _ _ H _ (start_input a) _ Hin) as (r & Hrun & Hr).
  unfold start. rewrite run_bind, run_catch, run_bind, Hrun. destruct Hr as [-> | ->].
  - cbn [run]. cbn [assoc]. by rewrite pystr_eqb_refl.
  - rewrite bool_decide_eq_false_2 by auto. rewrite run_bind, run_of_result.
    by rewrite (execution_arn_split _ _ _ _ Hs Hc).
Qed.

(** Starting the workflow of an action is idempotent: whatever changed about the action
    in between, a second start returns the same reference and starts nothing, and
    different actions have different executions. *)
Theorem start_idempotent arn prefix name executions a a' s :
  start_execution_laws arn prefix name executions -> ga_id a' = ga_id a ->
  exists ref s1, run (start client arn a) s = (Ok ref, s1) /\ run (start client arn a') s1 = (Ok ref, s1) /\
    executions s1 = {[execution_name a]} ∪ executions s /\
    (forall b, ga_id b <> ga_id a -> execution_name b <> execution_name a).
Proof.
  intros H Hid. destruct (sl_arn _ _ _ _ H) as [Hs Hc].
  assert (execution_name a' = execution_name a) as Hn by (unfold execution_name; by rewrite Hid).
  assert (exists s1, run (start client arn a) s
            = (Ok (prefix ++ u ":execution:" ++ name ++ colon ++ execution_name a), s1) /\
          executions s1 = {[execution_name a]} ∪ executions s) as (s1 & Hrun & Hex).
  { destruct (base.decide (execution_name a ∈ executions s)) as [Hin|Hin].
    - exists s. split; [by apply (start_known _ _ _ executions)|set_solver].
    - destruct (sl_new _ _ _ _ H _ (start_input a) _ Hin) as (s1 & Hrun & Hex). exists s1. split; [|done].
      unfold start. rewrite run_bind, run_catch, run_bind, Hrun. cbn [run]. cbn [assoc]. by rewrite pystr_eqb_refl. }
  eexists _, s1. split; [exact Hrun|]. split; [|split; [done|by intros b Hb ?%execution_name_inj]].
  rewrite <- Hn. apply (start_known _ _ _ executions); [done|]. rewrite Hex, Hn. set_solver.
Qed.

(** The client leaves the program's state alone and returns ARNs that fit the column. *)
Definition client_promise (arn : pystr) : Prop :=
  forall Inv (R G : S -> S -> Prop) n i Q s, Reflexive G -> PreOrder R ->
    (forall r s', R s s' ->
       (forall response ref, r = Ok response -> assoc (u "executionArn") response = Some (JStr ref) ->
          length ref <= 2048) -> Q r s') ->
    wp Inv R G (start_execution client arn n i) Q s.

Lemma fits (s : pystr) : length s <= 2048 -> len_between 0 2048 (length s) = true.
Proof. unfold len_between. rewrite andb_true_iff, !Nat.leb_le. lia. Qed.

Lemma step_functions_laws arn :
  client_promise arn -> length arn <= 2000 ->
  @ApprovalWorkflowLaws S (workflow client arn).
Proof.
  intros Hclient Harn. constructor. intros Inv R G Q a s HG HR HQ. unfold start_workflow. cbn [workflow].
  apply wp_bind, wp_catch, wp_bind, Hclient; [done|done|]. intros [response|e] s1 Hs1 Hfit.
  - cbn [wp]. destruct (assoc (u "executionArn") response) as [[]|] eqn:E; apply HQ; try done.
    intros ref Href. apply fits, (Hfit response); [done|]. rewrite E. congruence.
  - destruct e; try (cbn [wp]; by apply HQ). destruct (bool_decide _); [by apply HQ|].
    apply wp_bind. destruct (execution_arn arn (execution_name a)) as [ref|e] eqn:E; cbn [wp of_result]; [|by apply HQ].
    apply HQ; [done|]. intros ref' Href. assert (ref' = ref) as -> by congruence.
    apply fits. pose proof (execution_arn_length _ _ _ E) as Hl. rewrite execution_name_length in Hl. lia.
Qed.

(** The adapter keeps the contract the service and the dispatcher rely on: under any
    interference a start leaves the program's state alone, and a reference it returns
    fits the column it is stored in. *)
Theorem step_functions_meets_contract arn :
  client_promise arn -> length arn <= 2000 ->
  @ApprovalWorkflowLaws S (workflow client arn).
Proof. apply step_functions_laws. Qed.

End guarantees.

(** The contract of whatever the factory returns. *)
Lemma created_workflow_laws {S} (boto3 : result (StepFunctionsClient S)) backend arn wf :
  (forall client, boto3 = Ok client -> client_promise client arn) -> length arn <= 2000 ->
  create_approval_workflow backend arn boto3 = Ok wf -> @ApprovalWorkflowLaws S wf.
Proof.
  intros Hc Harn. unfold create_approval_workflow. destruct (pystr_eqb _ _).
  - destruct boto3 as [client|]; [|done]. cbn [mbind result_bind].
    destruct (StepFunctionsApprovalWorkflow.init arn) as [[]|]; [|done]. intros [= <-]. by apply step_functions_laws; [apply Hc|].
  - intros [= <-]. apply LocalApprovalWorkflow.workflow_laws.
Qed.

(** ** A concrete state machine *)

Section example.
Import StepFunctionsApprovalWorkflow.

(** Executions by name; a known name is refused. *)
Definition fake_client : StepFunctionsClient (gset pystr) := {|
  start_execution arn n _ := atomic (fun s =>
    if bool_decide (n ∈ s) then (Raise (ClientError (Some already_exists)), s)
    else (Ok [(u "executionArn", JStr (u "arn:aws:states:eu-west-1:1:execution:approval:" ++ n))], {[n]} ∪ s));
  send_task_success _ _ := Ret [];
|}.

Definition machine_arn : pystr := u "arn:aws:states:eu-west-1:1:stateMachine:approval".

Lemma fake_client_laws :
  start_execution_laws fake_client machine_arn (u "arn:aws:states:eu-west-1:1") (u "approval") id.
Proof.
  split.
  - vm_compute. done.
  - intros n i s Hn. simpl. rewrite bool_decide_eq_false_2 by done. eexists. split; [|done]. reflexivity.
  - intros n i s Hn. simpl. rewrite bool_decide_eq_true_2 by done. eexists. split; [done|]. by right.
Qed.

Definition example_id : UUID := mkUUID 7 eq_refl.

Definition example_action (st : ActionStatus) : GovernedAction := {|
  ga_id := example_id; ga_case_id := example_id; ga_review_id := example_id; ga_tenant_id := u "acme";
  ga_tool_name := SUPPLIER_SET_ONBOARDING_DECISION;
  ga_arguments := {| args_supplier_case_id := example_id; args_review_id := example_id; args_decision := APPROVE;
    args_rationale := u "ok"; args_required_actions := [] |};
  ga_status := st; ga_proposer_id := u "ana"; ga_approver_id := None; ga_approval_comment := [];
  ga_idempotency_key := example_id; ga_workflow_execution_arn := None; ga_execution_receipt := None;
  ga_created_at := 0%Z; ga_decided_at := None; ga_executed_at := None |}.

Lemma start_idempotent_witness :
  exists ref s1, run (start fake_client machine_arn (example_action PENDING_APPROVAL)) ∅ = (Ok ref, s1) /\
    run (start fake_client machine_arn (example_action APPROVED)) s1 = (Ok ref, s1) /\
    s1 = {[execution_name (example_action PENDING_APPROVAL)]} ∪ ∅ /\
    (forall b, ga_id b <> example_id -> execution_name b <> execution_name (example_action PENDING_APPROVAL)).
Proof.
  apply (start_idempotent fake_client machine_arn (u "arn:aws:states:eu-west-1:1") (u "approval") id
    (example_action PENDING_APPROVAL) (example_action APPROVED) ∅ fake_client_laws eq_refl).
Defined.

(** A client that always refuses leaves every state alone. *)
Definition refusing_client {S} : StepFunctionsClient S := {|
  start_execution _ _ _ := Throw (ClientError (Some already_exists));
  send_task_success _ _ := Ret [];
|}.

Lemma refusing_client_promise {S} arn : client_promise (@refusing_client S) arn.
Proof. intros Inv R G n i Q s HG HR HQ. apply HQ; [reflexivity|]. intros response ref H. discriminate H. Qed.

Lemma step_functions_meets_contract_witness : @ApprovalWorkflowLaws MemWorld (workflow refusing_client machine_arn).
Proof.
  apply (step_functions_meets_contract refusing_client machine_arn).
  - apply refusing_client_promise.
  - vm_compute. lia.
Defined.
End example.
