(* ===== verification/Outbox.v ===== *)
(** * The transactional outbox

    [packages/outbox/repositories.py] over the tables of [Database], and
    [packages/outbox/dispatcher.py] over the protocols.  Every transaction is one
    atomic section.  What PostgreSQL decides and the code cannot see, the scan
    order of rows and the rows another transaction holds locked, is an argument of
    [claim_batch]. *)
From S2P Require Import Prelude PyStr Uuid Effects Json Schemas SchemaJson Ledger Database InMemory SqlActions.
Local Open Scope py_scope.

(** A [timedelta], in microseconds. *)
Definition timedelta : Type := Z.
Definition seconds (s : Z) : timedelta := (s * 1000000)%Z.

(** What the database contributes to one claim: the order rows are met in, and the
    rows [SKIP LOCKED] passes over. *)
Record Scan := {
  scan_order : list OutboxMessageRecord -> list OutboxMessageRecord;
  skip_locked : UUID -> bool;
}.

(** ** Protocol *)

Class OutboxRepository (S : Type) := {
  claim_batch : Scan -> pystr -> nat -> timedelta -> datetime -> prog S (list OutboxMessage);
  mark_published : UUID -> pystr -> list (pystr * pystr) -> datetime -> prog S unit;
  record_failure : UUID -> pystr -> pystr -> datetime -> Z -> datetime -> prog S bool;
  get_message : UUID -> prog S OutboxMessage;
}.

Definition message_not_found (i : UUID) : exn :=
  OutboxMessageNotFoundError (u "Outbox message " ++ str_uuid i ++ u " was not found").

Definition lease_lost (worker : pystr) (i : UUID) : exn :=
  OutboxLeaseLostError (u "Worker " ++ worker ++ u " no longer owns outbox message " ++ str_uuid i).

Definition arn_key : pystr := u "workflow_execution_arn".

(** ** Repository *)

Module SqlAlchemyOutboxRepository.

Section methods.
Context `{DT : DatetimeText}.

(** [_message_from_record]; [_as_utc] is the identity on UTC readings. *)
Definition status_of (r : OutboxMessageRecord) : OutboxStatus :=
  match omr_published_at r, omr_dead_lettered_at r with
  | Some _, _ => PUBLISHED
  | None, Some _ => DEAD_LETTERED
  | None, None => PENDING
  end.

Definition message_from_record (r : OutboxMessageRecord) : result OutboxMessage :=
  _ ← (if pystr_eqb (omr_aggregate_type r) aggregate_type_literal then Ok tt
       else Raise (ValidationError (u "literal_error")));
  event_type ← dec_enum (JStr (omr_event_type r));
  payload ← validate_ApprovalWorkflowStartPayload (omr_payload_json r);
  construct valid_OutboxMessage {|
    om_create := {| omc_aggregate_id := omr_aggregate_id r; omc_event_type := event_type;
                    omc_payload := payload |};
    om_id := omr_id r; om_status := status_of r; om_attempt_count := omr_attempt_count r;
    om_available_at := omr_available_at r; om_locked_at := omr_locked_at r;
    om_locked_by := omr_locked_by r; om_published_at := omr_published_at r;
    om_dead_lettered_at := omr_dead_lettered_at r; om_last_error := omr_last_error r;
    om_delivery_result := omr_delivery_result_json r; om_created_at := omr_created_at r |}.

(** The [WHERE] clause of the claim. *)
Definition due (now stale_before : datetime) (r : OutboxMessageRecord) : bool :=
  negb (is_some (omr_published_at r)) && negb (is_some (omr_dead_lettered_at r))
  && (omr_available_at r <=? now)%Z
  && match omr_locked_at r with None => true | Some t => (t <=? stale_before)%Z end.

(** [ORDER BY available_at, created_at] *)
Definition earlier (r r' : OutboxMessageRecord) : Prop :=
  (omr_available_at r < omr_available_at r')%Z \/
  omr_available_at r = omr_available_at r' /\ (omr_created_at r <= omr_created_at r')%Z.

#[export] Instance earlier_dec : RelDecision earlier.
Proof. intros r r'. unfold earlier. apply _. Defined.

Definition selected (sc : Scan) (batch_size : nat) (now stale_before : datetime) (d : Db) :
    list OutboxMessageRecord :=
  take batch_size (merge_sort earlier
    (filter (fun r => due now stale_before r && negb (skip_locked sc (omr_id r)))
            (scan_order sc (map_to_list (t_outbox d)).*2))).

Definition lease (now : datetime) (worker_id : pystr) (r : OutboxMessageRecord) : OutboxMessageRecord := {|
  omr_id := omr_id r; omr_aggregate_type := omr_aggregate_type r;
  omr_aggregate_id := omr_aggregate_id r; omr_event_type := omr_event_type r;
  omr_payload_json := omr_payload_json r; omr_attempt_count := omr_attempt_count r;
  omr_available_at := omr_available_at r; omr_locked_at := Some now;
  omr_locked_by := Some worker_id; omr_published_at := omr_published_at r;
  omr_dead_lettered_at := omr_dead_lettered_at r; omr_last_error := omr_last_error r;
  omr_delivery_result_json := omr_delivery_result_json r; omr_created_at := omr_created_at r |}.

Definition claim_batch (sc : Scan) (worker_id : pystr) (batch_size : nat) (lock_timeout : timedelta)
    (now : datetime) : prog Db (list OutboxMessage) :=
  atomic (fun d =>
    let stale_before := (now - lock_timeout)%Z in
    let records := lease now worker_id <$> selected sc batch_size now stale_before d in
    (mapR message_from_record records, fold_left (fun d r => put_outbox r d) records d)).

(** [_require_lease] *)
Definition holds_lease (r : OutboxMessageRecord) (worker_id : pystr) : bool :=
  bool_decide (omr_locked_by r = Some worker_id).

Definition publish (now : datetime) (delivery_result : list (pystr * pystr)) (r : OutboxMessageRecord) :
    OutboxMessageRecord := {|
  omr_id := omr_id r; omr_aggregate_type := omr_aggregate_type r;
  omr_aggregate_id := omr_aggregate_id r; omr_event_type := omr_event_type r;
  omr_payload_json := omr_payload_json r; omr_attempt_count := omr_attempt_count r;
  omr_available_at := omr_available_at r; omr_locked_at := None; omr_locked_by := None;
  omr_published_at := Some now; omr_dead_lettered_at := omr_dead_lettered_at r;
  omr_last_error := None; omr_delivery_result_json := Some delivery_result;
  omr_created_at := omr_created_at r |}.

(** [action.workflow_execution_arn = workflow_reference] *)
Definition set_arn (ref : pystr) (r : GovernedActionRecord) : GovernedActionRecord := {|
  gar_id := gar_id r; gar_case_id := gar_case_id r; gar_review_id := gar_review_id r;
  gar_tenant_id := gar_tenant_id r; gar_tool_name := gar_tool_name r;
  gar_arguments_json := gar_arguments_json r; gar_status := gar_status r;
  gar_proposer_id := gar_proposer_id r; gar_approver_id := gar_approver_id r;
  gar_approval_comment := gar_approval_comment r; gar_idempotency_key := gar_idempotency_key r;
  gar_workflow_execution_arn := Some ref; gar_execution_receipt_json := gar_execution_receipt_json r;
  gar_created_at := gar_created_at r; gar_decided_at := gar_decided_at r;
  gar_executed_at := gar_executed_at r |}.

Definition mark_published (message_id : UUID) (worker_id : pystr)
    (delivery_result : list (pystr * pystr)) (now : datetime) : prog Db unit :=
  atomic (fun d =>
    match t_outbox d !! message_id with
    | None => (Raise (message_not_found message_id), d)
    | Some record =>
        if is_some (omr_published_at record) then (Ok tt, d)
        else if negb (holds_lease record worker_id) then (Raise (lease_lost worker_id (omr_id record)), d)
        else if negb (pystr_eqb (omr_event_type record) (value APPROVAL_WORKFLOW_START))
        then (Raise (ValueError (u "Unsupported outbox event type " ++ omr_event_type record)), d)
        else match assoc arn_key delivery_result with
             | None | Some [] =>
                 (Raise (ValueError (u "Workflow delivery did not return an execution reference")), d)
             | Some workflow_reference =>
                 match validate_ApprovalWorkflowStartPayload (omr_payload_json record) with
                 | Raise e => (Raise e, d)
                 | Ok payload =>
                     match t_actions d !! wp_action_id payload with
                     | None => (Raise (ValueError (u "Governed action " ++ str_uuid (wp_action_id payload)
                                                     ++ u " was not found")), d)
                     | Some action =>
                         (Ok tt, put_outbox (publish now delivery_result record)
                                   (put_action (set_arn workflow_reference action) d))
                     end
                 end
             end
    end).

(** The record after a failed delivery, before it is retried or dead-lettered. *)
Definition release (error_type : pystr) (retry_at : datetime) (max_attempts : Z) (now : datetime)
    (r : OutboxMessageRecord) : OutboxMessageRecord :=
  let attempt_count := (omr_attempt_count r + 1)%Z in
  let exhausted := (max_attempts <=? attempt_count)%Z in {|
  omr_id := omr_id r; omr_aggregate_type := omr_aggregate_type r;
  omr_aggregate_id := omr_aggregate_id r; omr_event_type := omr_event_type r;
  omr_payload_json := omr_payload_json r; omr_attempt_count := attempt_count;
  omr_available_at := if exhausted then omr_available_at r else retry_at;
  omr_locked_at := None; omr_locked_by := None; omr_published_at := omr_published_at r;
  omr_dead_lettered_at := if exhausted then Some now else omr_dead_lettered_at r;
  omr_last_error := Some (take 255 error_type);
  omr_delivery_result_json := omr_delivery_result_json r; omr_created_at := omr_created_at r |}.

Definition record_failure (message_id : UUID) (worker_id error_type : pystr) (retry_at : datetime)
    (max_attempts : Z) (now : datetime) : prog Db bool :=
  atomic (fun d =>
    match t_outbox d !! message_id with
    | None => (Raise (message_not_found message_id), d)
    | Some record =>
        if negb (holds_lease record worker_id) then (Raise (lease_lost worker_id (omr_id record)), d)
        else (Ok (max_attempts <=? omr_attempt_count record + 1)%Z,
              put_outbox (release error_type retry_at max_attempts now record) d)
    end).

Definition get (message_id : UUID) : prog Db OutboxMessage :=
  reads (fun d =>
    match t_outbox d !! message_id with
    | None => Raise (message_not_found message_id)
    | Some record => message_from_record record
    end).
End methods.

End SqlAlchemyOutboxRepository.

#[export] Instance sql_outbox `{DT : DatetimeText} : OutboxRepository SqlWorld := {|
  claim_batch sc w n lt t := zoom sw_db put_db (SqlAlchemyOutboxRepository.claim_batch sc w n lt t);
  mark_published i w res t := zoom sw_db put_db (SqlAlchemyOutboxRepository.mark_published i w res t);
  record_failure i w err at_ n t :=
    zoom sw_db put_db (SqlAlchemyOutboxRepository.record_failure i w err at_ n t);
  get_message i := zoom sw_db put_db (SqlAlchemyOutboxRepository.get i);
|}.

(** ** Dispatcher *)

Section dispatcher.
Context {S : Type} `{!ActionRepository S, !ApprovalWorkflow S, !OutboxRepository S}.

(** [ApprovalWorkflowStartHandler.handle]; a message carries a validated payload, which
    [model_validate] returns unchanged. *)
Definition handle (message : OutboxMessage) : prog S (list (pystr * pystr)) :=
  _ ← raise_if (bool_decide (omc_event_type (om_create message) <> APPROVAL_WORKFLOW_START))
        (ValueError (u "Unsupported outbox event type " ++ value (omc_event_type (om_create message))));
  let payload := omc_payload (om_create message) in
  action ← get_action (wp_action_id payload);
  _ ← raise_if (bool_decide (ga_id action <> omc_aggregate_id (om_create message)))
        (ValueError (u "Outbox aggregate does not match its action payload"));
  reference ← start_workflow action;
  Ret [(arn_key, reference)].

(** The fields of [OutboxDispatcher]; the delays are the whole seconds of [Settings]. *)
Record OutboxDispatcher := {
  worker_id : pystr;
  batch_size : nat;
  lock_timeout : timedelta;
  max_attempts : Z;
  retry_base_seconds : Z;
  retry_max_seconds : Z;
}.

(** [_retry_delay]: [total_seconds] and the product are exact for whole seconds. *)
Definition retry_delay (dp : OutboxDispatcher) (attempt_count : Z) : timedelta :=
  let multiplier := (2 ^ Z.min attempt_count 20)%Z in
  seconds (Z.min (retry_base_seconds dp * multiplier) (retry_max_seconds dp)).

(** One iteration of the loop, over the counters [(published, retried, dead_lettered)]. *)
Definition deliver (dp : OutboxDispatcher) (current_time : datetime) (message : OutboxMessage)
    (c : Z * Z * Z) : prog S (Z * Z * Z) :=
  let '(p, r, dl) := c in
  delivery ← (try (result ← handle message; Ret (inl result)) except (fun exc => Ret (inr exc)));
  match delivery with
  | inr exc =>
      let retry_at := (current_time + retry_delay dp (om_attempt_count message))%Z in
      is_dead_lettered ← record_failure (om_id message) (worker_id dp) (exn_name exc) retry_at
                           (max_attempts dp) current_time;
      Ret (if is_dead_lettered : bool then (p, r, dl + 1)%Z else (p, r + 1, dl)%Z)
  | inl delivery_result =>
      _ ← mark_published (om_id message) (worker_id dp) delivery_result current_time;
      Ret (p + 1, r, dl)%Z
  end.

Fixpoint deliver_all (dp : OutboxDispatcher) (current_time : datetime) (messages : list OutboxMessage)
    (c : Z * Z * Z) : prog S (Z * Z * Z) :=
  match messages with
  | [] => Ret c
  | m :: ms => c' ← deliver dp current_time m c; deliver_all dp current_time ms c'
  end.

Definition dispatch_once (dp : OutboxDispatcher) (sc : Scan) (current_time : datetime) :
    prog S OutboxDispatchResult :=
  messages ← claim_batch sc (worker_id dp) (batch_size dp) (lock_timeout dp) current_time;
  counters ← deliver_all dp current_time messages (0, 0, 0)%Z;
  let '(p, r, dl) := counters in
  Ret {| claimed := Z.of_nat (length messages); published := p; retried := r; dead_lettered := dl |}.
End dispatcher.
