(* ===== verification/OutboxProofs.v ===== *)
(** * The outbox under interleaving

    The invariant of the outbox table and of the references it writes into actions,
    the order in which its rows evolve, and the proof outlines of claims,
    deliveries, failures and whole dispatcher polls under interference by other
    workers and by the governance service. *)
From S2P Require Import Prelude PyStr Uuid Effects Json Schemas SchemaJson Ledger Database InMemory SqlActions.
From S2P Require Import Governance Lifecycle GovernanceProofs Outbox.
Import SqlAlchemyOutboxRepository.

Section outbox.
Context `{DT : DatetimeText} (max : Z).

(** ** Invariant and evolution *)

Definition published_or_dead (r : OutboxMessageRecord) : bool :=
  is_some (omr_published_at r) || is_some (omr_dead_lettered_at r).

(** What the state of a message says about its counters, its lease and its action. *)
Record row_ok (actions : gmap UUID GovernedActionRecord) (r : OutboxMessageRecord) : Prop := {
  ro_message : exists m, message_from_record r = Ok m /\
    wp_action_id (omc_payload (om_create m)) = omr_aggregate_id r;
  ro_attempts : (0 <= omr_attempt_count r)%Z;
  ro_pending : omr_dead_lettered_at r = None -> (omr_attempt_count r < max)%Z;
  ro_dead : omr_dead_lettered_at r <> None ->
    omr_attempt_count r = max /\ omr_published_at r = None /\ omr_locked_by r = None;
  ro_published : omr_published_at r <> None -> omr_locked_by r = None;
  ro_action : exists a, actions !! omr_aggregate_id r = Some a /\
    match omr_published_at r with
    | Some _ => exists ref, omr_delivery_result_json r = Some [(arn_key, ref)] /\
        gar_workflow_execution_arn a = Some ref
    | None => gar_workflow_execution_arn a = None
    end;
}.

(** Rows are filed under their identifier, an aggregate has one row, and every action
    has its row. *)
Record outbox_ok (d : Db) : Prop := {
  oo_id j r : t_outbox d !! j = Some r -> omr_id r = j;
  oo_unique i j r r' : t_outbox d !! i = Some r -> t_outbox d !! j = Some r' ->
    omr_aggregate_id r = omr_aggregate_id r' -> i = j;
  oo_row j r : t_outbox d !! j = Some r -> row_ok (t_actions d) r;
  oo_action_id i a : t_actions d !! i = Some a -> gar_id a = i;
  oo_enqueued i a : t_actions d !! i = Some a ->
    exists j r, t_outbox d !! j = Some r /\ omr_aggregate_id r = i;
}.

Definition identity_of (r : OutboxMessageRecord) :=
  (omr_id r, omr_aggregate_type r, omr_aggregate_id r, omr_event_type r, omr_payload_json r,
   omr_created_at r).

(** Attempts only grow, and a published or dead-lettered message is final. *)
Record row_le (r r' : OutboxMessageRecord) : Prop := {
  rl_identity : identity_of r = identity_of r';
  rl_attempts : (omr_attempt_count r <= omr_attempt_count r')%Z;
  rl_final : published_or_dead r = true -> r' = r;
}.

Definition outbox_le (d d' : Db) : Prop :=
  forall j r, t_outbox d !! j = Some r -> exists r', t_outbox d' !! j = Some r' /\ row_le r r'.

#[export] Instance row_le_preorder : PreOrder row_le.
Proof.
  split; [intros r; by split|]. intros r1 r2 r3 [I1 A1 F1] [I2 A2 F2].
  split; [congruence|lia|]. intros H. rewrite (F1 H) in *. by apply F2.
Qed.

#[export] Instance outbox_le_preorder : PreOrder outbox_le.
Proof.
  split; [intros d j r Hr; exists r; by split|].
  intros d1 d2 d3 H1 H2 j r (r2 & Hr2 & L12)%H1. apply H2 in Hr2 as (r3 & Hr3 & L23).
  exists r3. split; [done|by etrans].
Qed.

(** ** Changes of the tables *)

Definition good (d d' : Db) : Prop := outbox_ok d' /\ outbox_le d d'.

Lemma good_same d d' :
  outbox_ok d -> t_outbox d' = t_outbox d -> t_actions d' = t_actions d -> good d d'.
Proof.
  intros H Ho Ha. split.
  - split; rewrite ?Ho, ?Ha; apply H.
  - intros j r Hr. exists r. rewrite Ho. by split.
Qed.

(** One message row is replaced, its action's row keeps its place. *)
Lemma good_replace d d' r r' :
  outbox_ok d -> t_outbox d !! omr_id r = Some r -> row_le r r' ->
  t_outbox d' = <[omr_id r' := r']> (t_outbox d) -> row_ok (t_actions d') r' ->
  (forall i a', t_actions d' !! i = Some a' -> gar_id a' = i /\ is_Some (t_actions d !! i)) ->
  (forall i, i <> omr_aggregate_id r -> t_actions d' !! i = t_actions d !! i) ->
  good d d'.
Proof.
  intros H Hr Hle Ho Hrow Hids Hothers. pose proof (rl_identity _ _ Hle) as Hi.
  assert (omr_id r' = omr_id r /\ omr_aggregate_id r' = omr_aggregate_id r) as [Hid Hag]
    by (unfold identity_of in Hi; split; congruence).
  assert (Hold : forall j x, t_outbox d' !! j = Some x -> exists y, t_outbox d !! j = Some y /\
    omr_aggregate_id x = omr_aggregate_id y /\ omr_id x = omr_id y).
  { intros j x. rewrite Ho, lookup_insert. case_decide as E; [intros [= <-]|by exists x].
    exists r. rewrite <- E, Hid. by rewrite Hag. }
  split; [split|].
  - intros j x (y & Hy & _ & ->)%Hold. by apply (oo_id _ H).
  - intros i j x y (x' & Hx & -> & _)%Hold (y' & Hy & -> & _)%Hold. by apply (oo_unique _ H).
  - intros j x Hx. pose proof Hx as Hx'. rewrite Ho, lookup_insert in Hx'.
    case_decide as E; [by assert (r' = x) as <- by congruence|].
    pose proof (oo_row _ H _ _ Hx') as [? ? ? ? ? Hact]. split; try done.
    rewrite Hothers; [done|]. intros Heq. apply E. rewrite Hid.
    by eapply (oo_unique _ H).
  - intros i a Ha. by apply Hids in Ha as [? _].
  - intros i a Ha. apply Hids in Ha as [_ [b Hb]].
    apply (oo_enqueued _ H) in Hb as (j & x & Hx & Hxi). rewrite Ho.
    destruct (base.decide (j = omr_id r)) as [->|Hne].
    + exists (omr_id r), r'. rewrite Hid, lookup_insert_eq. split; [done|]. congruence.
    + exists j, x. by rewrite lookup_insert_ne by congruence.
  - intros j x Hx. rewrite Ho, lookup_insert. case_decide as E; [|by exists x].
    exists r'. split; [done|]. by assert (x = r) as -> by congruence.
Qed.

(** The same when no action changes. *)
Lemma good_replace_row d r r' :
  outbox_ok d -> t_outbox d !! omr_id r = Some r -> row_le r r' -> row_ok (t_actions d) r' ->
  good d (put_outbox r' d).
Proof.
  intros H Hr Hle Hrow. apply (good_replace d _ r r'); try done.
  intros i a Ha. split; [by apply (oo_action_id _ H)|by exists a].
Qed.

(** ** Rows and messages *)

Definition short (o : option pystr) : bool := opt_forallb (fun s => len_between 0 255 (length s)) o.

Lemma message_Ok r m :
  message_from_record r = Ok m ->
  om_id m = omr_id r /\ omc_aggregate_id (om_create m) = omr_aggregate_id r /\
  om_status m = status_of r /\ om_attempt_count m = omr_attempt_count r /\
  omr_event_type r = value APPROVAL_WORKFLOW_START /\
  validate_ApprovalWorkflowStartPayload (omr_payload_json r) = Ok (omc_payload (om_create m)) /\
  short (omr_locked_by r) = true /\ short (omr_last_error r) = true.
Proof.
  unfold message_from_record. destruct (pystr_eqb _ _); [|done]. cbn [mbind result_bind].
  destruct (dec_enum (JStr (omr_event_type r))) as [ev|] eqn:Ev; [|done]. cbn [mbind result_bind].
  destruct (validate_ApprovalWorkflowStartPayload (omr_payload_json r)) as [pl|]; [|done].
  cbn [mbind result_bind]. intros [Hv ->]%construct_Ok. apply dec_enum_Ok in Ev. destruct ev.
  unfold valid_OutboxMessage in Hv. rewrite !andb_true_iff in Hv. destruct Hv as [[[_ _] ?] ?].
  split_and!; done.
Qed.

(** A row with the same identity and admissible bookkeeping still is a message. *)
Lemma message_update r r' m :
  message_from_record r = Ok m -> identity_of r = identity_of r' ->
  (0 <= omr_attempt_count r')%Z -> short (omr_locked_by r') = true -> short (omr_last_error r') = true ->
  exists m', message_from_record r' = Ok m' /\ om_create m' = om_create m.
Proof.
  unfold identity_of. intros Hm Hi Hn Hl He.
  assert (omr_aggregate_type r' = omr_aggregate_type r /\ omr_aggregate_id r' = omr_aggregate_id r /\
    omr_event_type r' = omr_event_type r /\ omr_payload_json r' = omr_payload_json r) as (E1 & E2 & E3 & E4)
    by (split_and!; congruence).
  revert Hm. unfold message_from_record. rewrite E1, E2, E3, E4.
  destruct (pystr_eqb _ _); [|done]. cbn [mbind result_bind].
  destruct (dec_enum (JStr (omr_event_type r))) as [ev|]; [|done]. cbn [mbind result_bind].
  destruct (validate_ApprovalWorkflowStartPayload (omr_payload_json r)) as [pl|]; [|done].
  cbn [mbind result_bind]. intros [Hv ->]%construct_Ok.
  assert (valid_ApprovalWorkflowStartPayload pl = true) as Hpl.
  { unfold valid_OutboxMessage in Hv. rewrite !andb_true_iff in Hv. by destruct Hv as [[[? _] _] _]. }
  rewrite construct_valid; [by eexists|]. unfold valid_OutboxMessage.
  cbn [om_create omc_payload om_attempt_count om_locked_by om_last_error]. unfold short in Hl, He. rewrite Hpl, Hl, He. by rewrite (proj2 (Z.leb_le _ _) Hn).
Qed.

Lemma row_ok_message A r r' :
  row_ok A r -> identity_of r = identity_of r' -> (0 <= omr_attempt_count r')%Z ->
  short (omr_locked_by r') = true -> short (omr_last_error r') = true ->
  exists m, message_from_record r' = Ok m /\ wp_action_id (omc_payload (om_create m)) = omr_aggregate_id r'.
Proof.
  intros H Hi Hn Hl He. destruct (ro_message _ _ H) as (m & Hm & Hag).
  destruct (message_update r r' m) as (m' & Hm' & Hc); try done. exists m'. split; [done|].
  rewrite Hc, Hag. unfold identity_of in Hi. congruence.
Qed.

Lemma row_ok_short A r : row_ok A r -> short (omr_locked_by r) = true /\ short (omr_last_error r) = true.
Proof. intros H. destruct (ro_message _ _ H) as (m & Hm & _). by apply message_Ok in Hm as (_ & _ & _ & _ & _ & _ & ? & ?). Qed.

(** ** Claims *)

Lemma due_spec now stale r :
  due now stale r = true -> omr_published_at r = None /\ omr_dead_lettered_at r = None /\
  (omr_available_at r <= now)%Z /\
  match omr_locked_at r with None => True | Some t => (t <= stale)%Z end.
Proof.
  unfold due, is_some. rewrite !andb_true_iff. intros [[[Hp Hd] Ha%Z.leb_le] Hl].
  destruct (omr_published_at r); [done|]. destruct (omr_dead_lettered_at r); [done|].
  split_and!; [done|done|done|]. destruct (omr_locked_at r); [by apply Z.leb_le|done].
Qed.

Lemma row_ok_lease A now w r :
  row_ok A r -> omr_published_at r = None -> omr_dead_lettered_at r = None ->
  len_between 0 255 (length w) = true -> row_ok A (lease now w r).
Proof.
  intros H Hp Hd Hw. destruct (row_ok_short _ _ H) as [_ He]. split; try apply H.
  - apply (row_ok_message A r); try done. apply H.
  - simpl. by rewrite Hd.
  - simpl. by rewrite Hp.
Qed.

Lemma row_le_lease now w r :
  omr_published_at r = None -> omr_dead_lettered_at r = None -> row_le r (lease now w r).
Proof. intros Hp Hd. split; [done|simpl; lia|]. unfold published_or_dead. by rewrite Hp, Hd. Qed.

(** Writing the leases of distinct pending rows one after the other. *)
Definition write_all (rs : list OutboxMessageRecord) (d : Db) : Db := fold_left (fun d r => put_outbox r d) rs d.

Lemma write_all_actions rs d : t_actions (write_all rs d) = t_actions d /\ t_audit (write_all rs d) = t_audit d.
Proof. revert d. induction rs as [|r rs IH]; intros d; [done|]. simpl. by destruct (IH (put_outbox r d)) as [-> ->]. Qed.

Lemma write_all_other rs d j : j ∉ (omr_id <$> rs) -> t_outbox (write_all rs d) !! j = t_outbox d !! j.
Proof.
  revert d. induction rs as [|r rs IH]; intros d Hj; [done|]. csimpl in Hj.
  apply not_elem_of_cons in Hj as [Hne Hj]. simpl. change (t_outbox (write_all rs (put_outbox r d)) !! j = t_outbox d !! j).
  rewrite IH by done. simpl. by rewrite lookup_insert_ne.
Qed.

Lemma write_all_lookup rs d r :
  NoDup (omr_id <$> rs) -> r ∈ rs -> t_outbox (write_all rs d) !! omr_id r = Some r.
Proof.
  revert d. induction rs as [|x rs IH]; intros d Hnd Hr; [by apply elem_of_nil in Hr|].
  csimpl in Hnd. apply NoDup_cons in Hnd as [Hx Hnd]. apply elem_of_cons in Hr as [->|Hr].
  - simpl. change (t_outbox (write_all rs (put_outbox x d)) !! omr_id x = Some x).
    rewrite write_all_other by done. simpl. apply lookup_insert_eq.
  - by apply (IH (put_outbox x d)).
Qed.

Lemma good_write_all now w rs d :
  outbox_ok d -> len_between 0 255 (length w) = true -> NoDup (omr_id <$> rs) ->
  (forall r, r ∈ rs -> t_outbox d !! omr_id r = Some r /\ omr_published_at r = None /\
     omr_dead_lettered_at r = None) ->
  good d (write_all (lease now w <$> rs) d).
Proof.
  intros H Hw. revert d H. induction rs as [|r rs IH]; intros d H Hnd Hrs; [by apply good_same|].
  csimpl in Hnd. apply NoDup_cons in Hnd as [Hr Hnd]. destruct (Hrs r ltac:(by left)) as (Hd & Hp & Hdl).
  destruct (good_replace_row d r (lease now w r)) as [H1 Hle1]; try done.
  { by apply row_le_lease. } { apply row_ok_lease; try done. by apply (oo_row _ H _ _ Hd). }
  destruct (IH (put_outbox (lease now w r) d)) as [H2 Hle2]; try done.
  - intros x Hx. destruct (Hrs x ltac:(by right)) as (Hdx & ? & ?). split_and!; try done.
    simpl. rewrite lookup_insert_ne; [done|]. intros Heq. apply Hr. rewrite Heq. by apply list_elem_of_fmap_2.
  - split; [done|by etrans].
Qed.

(** The database meets every row once, in some order. *)
Definition scans (sc : Scan) : Prop := forall l, scan_order sc l ≡ₚ l.

Lemma selected_elem sc n now stale d r :
  outbox_ok d -> scans sc -> r ∈ selected sc n now stale d ->
  t_outbox d !! omr_id r = Some r /\ due now stale r = true /\ skip_locked sc (omr_id r) = false.
Proof.
  intros H Hsc Hr. unfold selected in Hr. unfold scans in Hsc. eapply sublist_subseteq in Hr; [|apply sublist_take].
  rewrite merge_sort_Permutation in Hr. apply list_elem_of_filter in Hr as [Hd Hr].
  apply Is_true_eq_true, andb_true_iff in Hd as [Hd Hs]. apply negb_true_iff in Hs.
  rewrite Hsc in Hr. apply list_elem_of_fmap in Hr as ([j x] & -> & Hx%elem_of_map_to_list). simpl in *.
  rewrite (oo_id _ H _ _ Hx) in *. done.
Qed.

Lemma selected_nodup sc n now stale d :
  outbox_ok d -> scans sc -> NoDup (omr_id <$> selected sc n now stale d).
Proof.
  intros H Hsc. unfold selected, scans in *. eapply sublist_NoDup; [|apply fmap_sublist, sublist_take].
  rewrite merge_sort_Permutation. eapply sublist_NoDup; [|apply fmap_sublist, sublist_filter].
  rewrite Hsc, <- list_fmap_compose. apply NoDup_fmap_2_strong; [|apply NoDup_map_to_list].
  intros [i x] [j y] Hx%elem_of_map_to_list Hy%elem_of_map_to_list. simpl.
  rewrite (oo_id _ H _ _ Hx), (oo_id _ H _ _ Hy). intros <-. congruence.
Qed.

Lemma mapR_total {A B} (f : A -> result B) (l : list A) :
  (forall x, x ∈ l -> exists y, f x = Ok y) ->
  exists ys, mapR f l = Ok ys /\ Forall2 (fun x y => f x = Ok y) l ys.
Proof.
  induction l as [|x l IH]; intros H; [by exists []|].
  destruct (H x ltac:(by left)) as [y Hy]. destruct IH as (ys & Hys & HF); [intros z Hz; apply H; by right|].
  exists (y :: ys). simpl. rewrite Hy. simpl. rewrite Hys. simpl. split; [done|by constructor].
Qed.

(** A claim leases rows that were due and returns their messages. *)
Lemma claim_spec sc w n lt now d :
  outbox_ok d -> scans sc -> len_between 0 255 (length w) = true ->
  exists ms, run (claim_batch sc w n lt now) d =
    (Ok ms, write_all (lease now w <$> selected sc n now (now - lt) d) d) /\
    Forall2 (fun r m => message_from_record (lease now w r) = Ok m) (selected sc n now (now - lt) d) ms /\
    good d (write_all (lease now w <$> selected sc n now (now - lt) d) d).
Proof.
  intros H Hsc Hw. set (rs := selected sc n now (now - lt) d).
  assert (Hrs : forall r, r ∈ rs -> t_outbox d !! omr_id r = Some r /\ omr_published_at r = None /\
     omr_dead_lettered_at r = None).
  { intros r (Hd & Hdue & _)%selected_elem; [|done|done]. apply due_spec in Hdue as (? & ? & _). done. }
  destruct (mapR_total message_from_record (lease now w <$> rs)) as (ms & Hms & HF).
  { intros x (r & -> & Hr)%list_elem_of_fmap. destruct (Hrs r Hr) as (Hd & Hp & Hdl).
    pose proof (row_ok_lease (t_actions d) now w r (oo_row _ H _ _ Hd) Hp Hdl Hw) as Hrow.
    destruct (ro_message _ _ Hrow) as (m & Hm & _). by exists m. }
  exists ms. split; [|split].
  - unfold claim_batch. rewrite run_atomic. fold rs. by rewrite Hms.
  - by apply Forall2_fmap_l in HF.
  - apply good_write_all; try done. by apply selected_nodup.
Qed.

(** ** Failures and publications *)

Lemma take_short (s : pystr) : len_between 0 255 (length (take 255 s)) = true.
Proof. unfold len_between. rewrite length_take. apply andb_true_iff. rewrite !Nat.leb_le. lia. Qed.

Lemma failure_spec i w err at_ now d :
  outbox_ok d ->
  exists res d', run (record_failure i w err at_ max now) d = (res, d') /\ good d d' /\
    t_actions d' = t_actions d /\ t_audit d' = t_audit d.
Proof.
  intros H. unfold record_failure. rewrite run_atomic.
  destruct (t_outbox d !! i) as [r|] eqn:Er; [|eexists _, d; split; [reflexivity|]; by split; [apply good_same|]].
  destruct (holds_lease r w) eqn:El; [|eexists _, d; split; [reflexivity|]; by split; [apply good_same|]].
  apply bool_decide_eq_true in El. pose proof (oo_row _ H _ _ Er) as Hrow.
  pose proof (oo_id _ H _ _ Er) as Hid.
  assert (omr_published_at r = None /\ omr_dead_lettered_at r = None) as [Hp Hd].
  { split; apply dec_stable; intros Hn; [apply (ro_published _ _ Hrow) in Hn|apply (ro_dead _ _ Hrow) in Hn as (_ & _ & Hn)];
      congruence. }
  eexists _, _. split; [done|]. split; [|done]. apply (good_replace_row d r); try done.
  - by rewrite Hid.
  - split; [done|simpl; lia|]. unfold published_or_dead. by rewrite Hp, Hd.
  - pose proof (ro_pending _ _ Hrow Hd) as Hlt. pose proof (ro_attempts _ _ Hrow) as Hge.
    split; [apply (row_ok_message (t_actions d) r); try done; [simpl; lia|apply take_short]|..];
      simpl; rewrite ?Hp, ?Hd; try done.
    + lia.
    + destruct (Z.leb_spec max (omr_attempt_count r + 1)); [done|lia].
    + destruct (Z.leb_spec max (omr_attempt_count r + 1)); [|done]. intros _. split; [lia|done].
    + destruct (ro_action _ _ Hrow) as (a & Ha & Hm). exists a. by rewrite Hp in Hm.
Qed.

(** What [mark_published] did: nothing, or the reference and the mark together. *)
Definition published_now (i : UUID) (ref : pystr) (now : datetime) (d d' : Db) : Prop :=
  exists r a, t_outbox d !! i = Some r /\ t_actions d !! omr_aggregate_id r = Some a /\
    gar_id a = omr_aggregate_id r /\
    d' = put_outbox (publish now [(arn_key, ref)] r) (put_action (set_arn ref a) d).

Lemma publish_spec i w ref now d :
  outbox_ok d ->
  exists res d', run (mark_published i w [(arn_key, ref)] now) d = (res, d') /\ good d d' /\
    (d' = d \/ published_now i ref now d d').
Proof.
  intros H. unfold mark_published. rewrite run_atomic.
  destruct (t_outbox d !! i) as [r|] eqn:Er; [|eexists _, d; split; [reflexivity|]; split; [by apply good_same|by left]].
  destruct (omr_published_at r) eqn:Ep; cbn [is_some];
    [eexists _, d; split; [reflexivity|]; split; [by apply good_same|by left]|].
  destruct (holds_lease r w) eqn:El; cbn [negb];
    [|eexists _, d; split; [reflexivity|]; split; [by apply good_same|by left]].
  apply bool_decide_eq_true in El. pose proof (oo_row _ H _ _ Er) as Hrow.
  destruct (ro_message _ _ Hrow) as (m & Hm & Hag). pose proof (message_Ok _ _ Hm) as (_ & _ & _ & _ & Hev & Hpl & _).
  rewrite Hev, pystr_eqb_refl. cbn [negb]. cbn [assoc]. rewrite pystr_eqb_refl, Hpl, Hag.
  destruct ref as [|c ref]; [eexists _, d; split; [reflexivity|]; split; [by apply good_same|by left]|].
  destruct (ro_action _ _ Hrow) as (a & Ha & Harn). rewrite Ha.
  pose proof (oo_action_id _ H _ _ Ha) as Hida. pose proof (oo_id _ H _ _ Er) as Hid.
  assert (omr_dead_lettered_at r = None) as Hd.
  { apply dec_stable. intros Hn. apply (ro_dead _ _ Hrow) in Hn as (_ & _ & Hn). congruence. }
  eexists _, _. split; [reflexivity|]. split; [|right; by exists r, a].
  apply (good_replace d _ r (publish now [(arn_key, c :: ref)] r)); try done.
  - by rewrite Hid.
  - split; [done|simpl; lia|]. unfold published_or_dead. by rewrite Ep, Hd.
  - split; [apply (row_ok_message (t_actions d) r); try done; apply Hrow|..]; simpl; try done; try apply Hrow.
    exists (set_arn (c :: ref) a). simpl. rewrite <- Hida, lookup_insert_eq. split; [done|]. by eexists.
  - intros j a'. simpl. rewrite lookup_insert. case_decide as E; [intros [= <-]|].
    + split; [done|]. rewrite <- E. simpl. rewrite Hida. by exists a.
    + intros Ha'. split; [by apply (oo_action_id _ H)|by exists a'].
  - intros j Hj. simpl. rewrite lookup_insert_ne by congruence. done.
Qed.

(** ** Proposals and transitions *)

(** The three rows of a proposal keep every action paired with its message. *)
Lemma good_proposal fr a e m d d' :
  outbox_ok d -> (0 < max)%Z -> workflow_start_message a = Ok m -> ga_workflow_execution_arn a = None ->
  commit [RowAction (SqlAlchemyActionRepository.record_from_action a); RowAudit (SqlAlchemyActionRepository.audit_record fr e);
          RowOutbox (SqlAlchemyActionRepository.outbox_record fr m)] d = (Ok tt, d') -> good d d'.
Proof.
  intros H Hmax Hm Harn Hc. unfold workflow_start_message in Hm.
  destruct (construct _ _) as [pl|] eqn:Epl; [|done]. cbn [mbind result_bind] in Hm.
  apply construct_Ok in Epl as [Hpl ->].
  assert (m = {| omc_aggregate_id := ga_id a; omc_event_type := APPROVAL_WORKFLOW_START;
    omc_payload := {| wp_action_id := ga_id a; wp_case_id := ga_case_id a; wp_tenant_id := ga_tenant_id a |} |})
    as -> by congruence. clear Hm. set (m := Build_OutboxMessageCreate _ _ _) in *.
  apply commit_proposal in Hc as (Hn & _ & _ & Hout & ->). simpl in Hn, Hout.
  assert (Hfresh : forall j r, t_outbox d !! j = Some r -> omr_aggregate_id r <> ga_id a).
  { intros j r Hr Heq. destruct (ro_action _ _ (oo_row _ H _ _ Hr)) as (b & Hb & _). congruence. }
  assert (Hrow : row_ok (<[ga_id a := SqlAlchemyActionRepository.record_from_action a]> (t_actions d)) (SqlAlchemyActionRepository.outbox_record fr m)).
  { split; simpl; try done.
    - unfold message_from_record, SqlAlchemyActionRepository.outbox_record. cbn [omr_aggregate_type omr_event_type omr_payload_json omc_event_type omc_payload].
      rewrite pystr_eqb_refl, dec_enum_value. cbn [mbind result_bind].
      rewrite validate_dump_ApprovalWorkflowStartPayload by done. cbn [mbind result_bind].
      rewrite construct_valid; [by eexists|]. unfold valid_OutboxMessage. cbn [om_create omc_payload]. subst m. cbn [omc_payload].
      by rewrite Hpl.
    - exists (SqlAlchemyActionRepository.record_from_action a). by rewrite lookup_insert_eq. }
  split; [split|]; simpl.
  - intros j r. rewrite lookup_insert. case_decide; [by intros [= <-]|by apply H].
  - intros i j r r'. rewrite !lookup_insert. do 2 case_decide; intros Hr Hr' Heq.
    + congruence.
    + exfalso. apply (Hfresh j r' Hr'). rewrite <- Heq. by assert (r = SqlAlchemyActionRepository.outbox_record fr m) as -> by congruence.
    + exfalso. apply (Hfresh i r Hr). rewrite Heq. by assert (r' = SqlAlchemyActionRepository.outbox_record fr m) as -> by congruence.
    + by eapply (oo_unique _ H).
  - intros j r. rewrite lookup_insert. case_decide; [by intros [= <-]|]. intros Hr.
    pose proof (Hfresh _ _ Hr) as Hne. apply (oo_row _ H) in Hr as [? ? ? ? ? Hact].
    split; try done. by rewrite lookup_insert_ne.
  - intros i b. rewrite lookup_insert. case_decide; [by intros [= <-]|by apply H].
  - intros i b. rewrite lookup_insert. case_decide as E.
    + intros _. exists (new_message_id fr), (SqlAlchemyActionRepository.outbox_record fr m). by rewrite lookup_insert_eq.
    + intros (j & r & Hr & Hi)%(oo_enqueued _ H). exists j, r. rewrite lookup_insert_ne by congruence. done.
  - intros j r Hr. exists r. simpl. rewrite lookup_insert_ne by congruence. by split.
Qed.

(** A transition keeps the row's identifier and reference. *)
Lemma good_transition fr a e st d :
  outbox_ok d -> good d (run (SqlAlchemyActionRepository.save_transition fr a e st) d).2.
Proof.
  intros H. unfold SqlAlchemyActionRepository.save_transition. rewrite run_atomic.
  destruct (t_actions d !! ga_id a) as [r|] eqn:Er; [|by apply good_same].
  destruct (pystr_eqb _ _); [|by apply good_same].
  destruct (if SqlAlchemyActionRepository.changes_fit r a then _ else _) as [d'|] eqn:Ei; [|by apply good_same].
  destruct (SqlAlchemyActionRepository.changes_fit r a); [|done]. cbn [flush] in Ei.
  destruct (flush_row _ _) as [d1|] eqn:Ef; [|done]. apply flush_row_Ok in Ef as [_ Ef].
  simpl in Ef. destruct (_ && _); [|done]. cbn [mbind result_bind] in Ei.
  assert (d' = put_audit (SqlAlchemyActionRepository.audit_record fr e) (put_action (SqlAlchemyActionRepository.update_record r a) d)) as -> by congruence.
  pose proof (oo_action_id _ H _ _ Er) as Hid. split; [split|]; simpl; try apply H.
  - intros j x Hx. pose proof (oo_row _ H _ _ Hx) as [? ? ? ? ? (b & Hb & Hst)]. split; try done.
    rewrite lookup_insert. case_decide as E; [|by exists b]. exists (SqlAlchemyActionRepository.update_record r a).
    split; [done|]. assert (r = b) as <- by congruence. done.
  - intros i b. rewrite lookup_insert. case_decide; [by intros [= <-]|by apply H].
  - intros i b. rewrite lookup_insert. case_decide as E; [intros _|by apply H].
    apply (oo_enqueued _ H i r). congruence.
  - intros j x Hx. exists x. by split.
Qed.
End outbox.
