(* ===== verification/System.v ===== *)
(** * The deployed system

    API processes and outbox workers on one PostgreSQL database: any number of
    governance requests and dispatcher polls interleaved.  Every job keeps the
    invariant of the governance world and the invariant of the outbox. *)
From S2P Require Import Prelude PyStr Uuid Effects Json Schemas SchemaJson Ledger Database InMemory SqlActions.
From S2P Require Import Governance Lifecycle GovernanceProofs GovernanceTheorems Outbox OutboxProofs.
Local Open Scope py_scope.

(** A job of the system: a request served by an API process or one poll of a worker. *)
Inductive job :=
  | Serve (r : request)
  | Poll (dp : OutboxDispatcher) (sc : Scan) (current_time : datetime).

Inductive outcome :=
  | Replied (rep : reply)
  | Polled (res : OutboxDispatchResult).

(** What the identifiers of actions stand for does not matter to PostgreSQL. *)
Definition anything (i : UUID) : pystr * UUID := ([], i).

Definition database_ok `{DT : DatetimeText} (s : SqlWorld) : Prop := world_ok anything s.

Section system.
Context `{DT : DatetimeText} `{!ApprovalWorkflow SqlWorld, !ApprovalWorkflowLaws SqlWorld}.
Context (uuid5 : UUID -> pystr -> UUID) (max : Z).

Definition perform (j : job) : prog SqlWorld outcome :=
  match j with
  | Serve r => Replied <$> serve uuid5 r
  | Poll dp sc t => Polled <$> dispatch_once dp sc t
  end.

(** All workers use the same retry limit, as [Settings] gives it. *)
Definition valid_job (j : job) : Prop :=
  match j with
  | Serve r => validated r
  | Poll dp sc _ => max_attempts dp = max /\ scans sc /\ len_between 0 255 (length (worker_id dp)) = true
  end.

Definition outbox_inv (s : SqlWorld) : Prop := outbox_ok max (sw_db s).
Definition outbox_rel (s s' : SqlWorld) : Prop := outbox_le (sw_db s) (sw_db s').

#[export] Instance outbox_rel_preorder : PreOrder outbox_rel.
Proof. split; [intros s; red; reflexivity|]. intros s1 s2 s3 ? ?. red. by etrans. Qed.

#[local] Abbreviation wo := (wp outbox_inv outbox_rel outbox_rel).
#[local] Abbreviation ww := (wp database_ok world_le world_le).

(** ** The outbox side *)

(** One transaction that is good for the outbox. *)
Lemma wo_section {A} (f : Db -> result A * Db) (Q : result A -> SqlWorld -> Prop) s :
  (forall d, outbox_ok max d -> good max d (f d).2) ->
  (forall s', outbox_inv s' -> Q (f (sw_db s')).1 (put_db (f (sw_db s')).2 s')) ->
  wo (zoom sw_db put_db (atomic f)) Q s.
Proof.
  intros Hf HQ. apply wp_zoom_atomic. intros s' _ HI. destruct (Hf _ HI) as [? ?].
  split; [done|]. split; [done|]. by apply HQ.
Qed.

Lemma wo_reads {A} (f : Db -> result A) (Q : result A -> SqlWorld -> Prop) s :
  (forall r s', Q r s') -> wo (zoom sw_db put_db (reads f)) Q s.
Proof. intros H. apply wp_zoom_reads; [apply put_db_same|intros s'; red; reflexivity|done]. Qed.

(** Continuing whatever the outcome. *)
Lemma wo_then {A B} (m : prog SqlWorld A) (k : A -> prog SqlWorld B) s :
  wo m (fun _ _ => True) s -> (forall a s', wo (k a) (fun _ _ => True) s') ->
  wo (m ≫= k) (fun _ _ => True) s.
Proof. intros Hm Hk. apply wp_bind. eapply wp_mono; [|exact Hm]. intros [a|e] s' _; [apply Hk|done]. Qed.

Lemma wo_handler {A} (m : prog SqlWorld A) h s :
  wo m (fun _ _ => True) s -> (forall e s', wo (h e) (fun _ _ => True) s') ->
  wo (catch m h) (fun _ _ => True) s.
Proof. intros Hm Hh. apply wp_catch. eapply wp_mono; [|exact Hm]. intros [a|e] s' _; [done|apply Hh]. Qed.

Lemma wo_raise_if c e s : wo (raise_if c e) (fun _ _ => True) s.
Proof. by destruct c. Qed.

Lemma wo_of_result {A} (r : result A) s : wo (of_result r) (fun _ _ => True) s.
Proof. by destruct r. Qed.

Lemma wo_get_action i s : wo (get_action i) (fun _ _ => True) s.
Proof. by apply wo_reads. Qed.

Lemma wo_save_transition fr a e st s : wo (save_transition fr a e st) (fun _ _ => True) s.
Proof.
  apply (wo_section _ (fun _ _ => True)); [|done]. intros d Hd.
  pose proof (good_transition max fr a e st d Hd) as H.
  unfold SqlAlchemyActionRepository.save_transition in H. by rewrite run_atomic in H.
Qed.

Lemma wo_supplier fr i key args s : wo (set_onboarding_decision fr i key args) (fun _ _ => True) s.
Proof.
  apply wp_zoom_atomic. intros s' _ HI. split; [exact HI|]. split; [red; reflexivity|done].
Qed.

Lemma wo_create fr a e m s :
  (0 < max)%Z -> workflow_start_message a = Ok m -> ga_workflow_execution_arn a = None ->
  wo (create_proposal fr a e m) (fun _ _ => True) s.
Proof.
  intros Hmax Hm Harn. apply wp_zoom_bind, wo_reads. intros [[b|]|x] s1; [done| |done].
  apply wp_zoom_catch, wp_zoom_bind. apply wo_section.
  - intros d Hd. destruct (commit _ d) as [[[]|x] d'] eqn:Ec.
    + by apply (good_proposal max fr a e m).
    + apply commit_error in Ec as [_ ->]. by apply good_same.
  - intros s' _. destruct (commit _ (sw_db s')) as [[[]|x] d'] eqn:Ec; [done|].
    apply commit_error in Ec as [[-> | ->] _]; unfold integrity_error, data_error; cbn [fst]; [|done]. apply wp_zoom_bind, wo_reads. by intros [[b|]|y] s2.
Qed.

(** Continuing with the value of a pure computation. *)
Lemma wo_with {A B} (r : result A) (k : A -> prog SqlWorld B) s :
  (forall a, r = Ok a -> wo (k a) (fun _ _ => True) s) -> wo (of_result r ≫= k) (fun _ _ => True) s.
Proof. destruct r as [a|e]; intros H; [exact (H a eq_refl)|exact I]. Qed.

Lemma wo_submit a p fr s :
  (0 < max)%Z -> ga_workflow_execution_arn a = None -> wo (submit a p fr) (fun _ _ => True) s.
Proof.
  intros Hmax Harn. apply wo_with. intros e _. apply wo_with. intros m Hm.
  apply wo_then; [by apply wo_create|]. intros b s'. apply wo_then; [apply wo_raise_if|done].
Qed.

Lemma wo_propose c rv req p t fr s :
  (0 < max)%Z -> wo (propose uuid5 c rv req p t fr) (fun _ _ => True) s.
Proof.
  intros Hmax. do 3 (apply wo_then; [apply wo_raise_if|intros _ ?]).
  apply wo_with. intros a Ha. apply proposed_action_spec in Ha as (_ & _ & Harn & _).
  by apply wo_submit.
Qed.

Lemma wo_decide i req p t fr s : wo (decide i req p t fr) (fun _ _ => True) s.
Proof.
  apply wo_then; [apply wo_raise_if|intros _ s1]. apply wo_then; [apply wo_get_action|intros a s2].
  do 3 (apply wo_then; [apply wo_raise_if|intros _ ?]).
  apply wo_then; [|done]. apply wo_handler; [|by intros []].
  apply wo_with. intros e _. apply wo_save_transition.
Qed.

Lemma wo_get i p s : wo (Governance.get i p) (fun _ _ => True) s.
Proof.
  apply wo_then; [apply wo_get_action|intros a s2]. apply wo_then; [apply wo_raise_if|done].
Qed.

Lemma wo_execute i p fr s : wo (execute i p fr) (fun _ _ => True) s.
Proof.
  apply wo_then; [apply wo_raise_if|intros _ s1]. apply wo_then; [apply wo_get_action|intros a s2].
  apply wo_then; [apply wo_raise_if|intros _ s3]. destruct (stored_receipt a); [done|].
  apply wo_then; [apply wo_raise_if|intros _ s4]. apply wo_then; [apply wo_supplier|intros rc s5].
  apply wo_handler.
  - apply wo_with. intros e _. apply wo_then; [apply wo_save_transition|done].
  - intros e s6. destruct e; try done. apply wo_then; [apply wo_get_action|].
    intros c s7. by destruct (stored_receipt c).
Qed.

Lemma wo_serve r s : (0 < max)%Z -> wo (serve uuid5 r) (fun _ _ => True) s.
Proof.
  intros Hmax. destruct r; (apply wo_then; [|done]).
  - by apply wo_propose.
  - apply wo_decide.
  - apply wo_get.
  - apply wo_execute.
Qed.

(** ** Dispatchers *)

Definition arn_result (res : list (pystr * pystr)) : Prop :=
  exists ref, res = [(arn_key, ref)] /\ len_between 0 2048 (length ref) = true.

(** The handler changes nothing and returns one reference. *)
Lemma wp_handle Inv (R G : SqlWorld -> SqlWorld -> Prop) m (Q : result (list (pystr * pystr)) -> SqlWorld -> Prop) s :
  Reflexive G -> PreOrder R ->
  (forall r s', match r with Ok res => arn_result res | Raise _ => True end -> Q r s') ->
  wp Inv R G (handle m) Q s.
Proof.
  intros HG HR HQ. unfold handle. apply wp_bind, wp_raise_if; intros _; [by apply HQ|].
  apply wp_bind, wp_zoom_reads; [apply put_db_same|done|]. intros s1 _ _.
  match goal with |- match ?x with _ => _ end => destruct x as [a|e] end; [|by apply HQ].
  apply wp_bind, wp_raise_if; intros _; [by apply HQ|].
  apply wp_bind, start_law; [done|done|]. intros [ref|e] s2 _ Href; [|by apply HQ].
  apply HQ. exists ref. split; [done|]. by apply Href.
Qed.

(** One delivery, given its two possible transactions. *)
Lemma wp_deliver Inv (R G : SqlWorld -> SqlWorld -> Prop) dp t m c (Q : result (Z * Z * Z) -> SqlWorld -> Prop) s :
  Reflexive G -> PreOrder R ->
  (forall ref s', len_between 0 2048 (length ref) = true ->
     wp Inv R G (mark_published (om_id m) (worker_id dp) [(arn_key, ref)] t)
       (fun r s'' => match r with Ok _ => Q (Ok (c.1.1 + 1, c.1.2, c.2)%Z) s'' | Raise e => Q (Raise e) s'' end) s') ->
  (forall err at_ s', wp Inv R G (record_failure (om_id m) (worker_id dp) err at_ (max_attempts dp) t)
       (fun r s'' => match r with
          | Ok true => Q (Ok (c.1.1, c.1.2, c.2 + 1)%Z) s''
          | Ok false => Q (Ok (c.1.1, c.1.2 + 1, c.2)%Z) s''
          | Raise e => Q (Raise e) s'' end) s') ->
  wp Inv R G (deliver dp t m c) Q s.
Proof.
  intros HG HR Hpub Hfail. destruct c as [[p r] dl]. unfold deliver.
  apply wp_bind, wp_catch, wp_bind, wp_handle; [done|done|]. intros [res|e] s1 Hres.
  - destruct Hres as (ref & -> & Hlen). cbn [wp]. apply wp_bind.
    eapply wp_mono; [|by apply Hpub]. by intros [[]|x] s2.
  - cbn [wp]. apply wp_bind. eapply wp_mono; [|apply Hfail]. by intros [[]|x] s2.
Qed.

(** A run of deliveries that advances a relation on the counters. *)
Lemma wp_deliver_all Inv (R G : SqlWorld -> SqlWorld -> Prop) (P : nat -> Z * Z * Z -> Prop) dp t ms c s :
  (forall m n c s', P n c -> wp Inv R G (deliver dp t m c)
     (fun r _ => match r with Ok c' => P (n + 1) c' | Raise _ => True end) s') ->
  forall n, P n c -> wp Inv R G (deliver_all dp t ms c)
    (fun r _ => match r with Ok c' => P (n + length ms) c' | Raise _ => True end) s.
Proof.
  intros Hstep. revert c s. induction ms as [|m ms IH]; intros c s n HP.
  - simpl. by rewrite Nat.add_0_r.
  - simpl. apply wp_bind. eapply wp_mono; [|by apply Hstep]. intros [c'|e] s'; [|done].
    intros HP'. simpl in HP'. eapply wp_mono; [|by apply IH]. intros [c''|e] s''; [|done].
    by replace (n + S (length ms)) with (n + 1 + length ms) by lia.
Qed.

(** The counters of a poll add up to the number of messages handled. *)
Definition tally (n : nat) (c : Z * Z * Z) : Prop :=
  let '(p, r, dl) := c in (p + r + dl = Z.of_nat n /\ 0 <= p /\ 0 <= r /\ 0 <= dl)%Z.

Definition counted (dp : OutboxDispatcher) (res : OutboxDispatchResult) : Prop :=
  claimed res = (published res + retried res + dead_lettered res)%Z /\
  (0 <= published res /\ 0 <= retried res /\ 0 <= dead_lettered res /\
   claimed res <= Z.of_nat (batch_size dp))%Z.

Lemma wo_poll dp sc t s :
  valid_job (Poll dp sc t) ->
  wo (dispatch_once dp sc t) (fun r _ => match r with Ok res => counted dp res | Raise _ => True end) s.
Proof.
  intros (Hmax & Hsc & Hw). unfold dispatch_once. apply wp_bind, wp_zoom_run.
  intros s1 r s2 _ HI Hrun.
  change (run (zoom sw_db put_db (SqlAlchemyOutboxRepository.claim_batch sc (worker_id dp) (batch_size dp)
    (lock_timeout dp) t)) s1 = (r, s2)) in Hrun. rewrite run_zoom in Hrun by (intros []; done).
  destruct (claim_spec max sc (worker_id dp) (batch_size dp) (lock_timeout dp) t (sw_db s1) HI Hsc Hw)
    as (ms & Hc & HF & Hok & Hle).
  rewrite Hc in Hrun. injection Hrun as <- <-.
  split; [exact Hok|]. split; [exact Hle|]. apply wp_bind.
  assert (Hn : length ms <= batch_size dp).
  { rewrite <- (Forall2_length _ _ _ HF). unfold SqlAlchemyOutboxRepository.selected. rewrite length_take. lia. }
  eapply wp_mono; [|apply (wp_deliver_all _ _ _ tally) with (n := 0); [|done]].
  - intros [[[p q] dl]|e] s3; [|done]. simpl. intros (? & ? & ? & ?). unfold counted. simpl. lia.
  - intros m n c s' Hn'. apply wp_deliver; [intros ?; red; reflexivity|apply _|..].
    + intros ref s3 _. apply wo_section.
      * intros d Hd. destruct (publish_spec max (om_id m) (worker_id dp) ref t d Hd) as (res & d' & Hr & Hg & _).
        unfold SqlAlchemyOutboxRepository.mark_published in Hr. rewrite run_atomic in Hr. by rewrite Hr.
      * intros s4 _. match goal with |- match ?x with _ => _ end => destruct x as [a|e] end; [|done].
        destruct c as [[p q] dl]. simpl in *. lia.
    + intros err at_ s3. rewrite Hmax. apply wo_section.
      * intros d Hd. destruct (failure_spec max (om_id m) (worker_id dp) err at_ t d Hd) as (res & d' & Hr & Hg & _).
        unfold SqlAlchemyOutboxRepository.record_failure in Hr. rewrite run_atomic in Hr. by rewrite Hr.
      * intros s4 _. match goal with |- match ?x with _ => _ end => destruct x as [[]|e] end; [..|done];
          destruct c as [[p q] dl]; simpl in *; lia.
Qed.

(** ** The governance side of a dispatcher *)

(** A transaction that leaves actions and audit events alone. *)
Lemma world_same_tables s d :
  database_ok s -> t_actions d = t_actions (sw_db s) -> t_audit d = t_audit (sw_db s) ->
  database_ok (put_db d s) /\ world_le s (put_db d s).
Proof.
  intros H Ha Hau.
  assert (ledger (put_db d s) = ledger s) as HL
    by (simpl; unfold sql_ledger, stored_actions; by rewrite Ha, Hau).
  apply world_same; [done| |done|done]. change (sql_inv d).
  pose proof (wo_repo _ _ H) as Hr. change (sql_inv (sw_db s)) in Hr.
  split; rewrite Ha; apply Hr.
Qed.

(** The action behind a row that gets its reference. *)
Lemma decode_set_arn r a ref :
  SqlAlchemyActionRepository.action_from_record r = Ok a -> len_between 0 2048 (length ref) = true ->
  SqlAlchemyActionRepository.action_from_record (SqlAlchemyOutboxRepository.set_arn ref r)
    = Ok (with_arn a (Some ref)).
Proof.
  intros Ha Hlen. pose proof (action_from_record_Ok _ _ Ha) as (_ & _ & _ & Hv).
  pose proof (valid_with_arn a ref Hv Hlen) as Hva. revert Ha.
  unfold SqlAlchemyActionRepository.action_from_record, SqlAlchemyOutboxRepository.set_arn.
  cbn [gar_tool_name gar_arguments_json gar_status gar_execution_receipt_json].
  destruct (dec_enum (JStr (gar_tool_name r))) as [tool|]; [|done].
  destruct (validate_SupplierDecisionArguments _) as [args|]; [|done].
  destruct (dec_enum (JStr (gar_status r))) as [st|]; [|done]. cbn [mbind result_bind].
  destruct (SqlAlchemyActionRepository.receipt_from_json _) as [rc|]; [|done]. cbn [mbind result_bind].
  intros [_ ->]%construct_Ok. by apply construct_valid.
Qed.

Lemma sql_inv_set_arn d d' ref k r :
  sql_inv d -> t_actions d !! k = Some r -> len_between 0 2048 (length ref) = true ->
  t_actions d' = <[gar_id r := SqlAlchemyOutboxRepository.set_arn ref r]> (t_actions d) -> sql_inv d'.
Proof.
  intros H Hr Hlen Hd. destruct (si_decode _ H _ _ Hr) as [a Ha].
  apply (sql_inv_insert d d' (SqlAlchemyOutboxRepository.set_arn ref r) _ H Hd (decode_set_arn r a ref Ha Hlen)).
  intros i r' Hi Heq. rewrite (si_key _ H _ _ _ r Hi Hr Heq). exact (eq_sym (si_id _ H _ _ Hr)).
Qed.

(** Recording the workflow reference of an action is a step of its lifecycle. *)
Lemma world_set_arn s d ref k r :
  database_ok s -> len_between 0 2048 (length ref) = true ->
  t_actions (sw_db s) !! k = Some r ->
  t_actions d = <[gar_id r := SqlAlchemyOutboxRepository.set_arn ref r]> (t_actions (sw_db s)) ->
  t_audit d = t_audit (sw_db s) ->
  database_ok (put_db d s) /\ world_le s (put_db d s).
Proof.
  intros H Hlen Hr Hd Hau. pose proof (wo_repo _ _ H) as Hinv. change (sql_inv (sw_db s)) in Hinv.
  destruct (si_decode _ Hinv _ _ Hr) as [a Ha]. pose proof (action_from_record_Ok _ _ Ha) as (Hid & Hk & _ & Hv).
  pose proof (si_id _ Hinv _ _ Hr) as Hik.
  assert (Hl : l_actions (ledger s) !! ga_id a = Some a).
  { apply stored_actions_Some. exists r. by rewrite Hid, Hik. }
  pose proof (decode_set_arn r a ref Ha Hlen) as Ha'.
  apply (world_store anything s (put_db d s) a (with_arn a (Some ref))); try done.
  - by apply (sql_inv_set_arn (sw_db s) d ref k r).
  - apply rtc_once, step_arn. done.
  - by apply valid_with_arn.
  - exact (stored_actions_insert (sw_db s) d _ (with_arn a (Some ref)) Hd Ha').
  - simpl. by rewrite Hau.
  - simpl. intros Hex. by apply (wo_executed _ _ H (ga_id a)).
Qed.

Lemma ww_section {A} (f : Db -> result A * Db) (Q : result A -> SqlWorld -> Prop) s :
  (forall d, t_actions (f d).2 = t_actions d /\ t_audit (f d).2 = t_audit d) ->
  (forall r s', Q r s') -> ww (zoom sw_db put_db (atomic f)) Q s.
Proof.
  intros Hf HQ. apply wp_zoom_atomic. intros s' _ HI. destruct (Hf (sw_db s')) as [Ha Hau].
  destruct (world_same_tables s' _ HI Ha Hau) as [? ?]. split; [done|]. by split.
Qed.

(** The reference is written to one action or nothing changes. *)
Lemma mark_published_effect i w ref now d :
  let '(_, d') := run (SqlAlchemyOutboxRepository.mark_published i w [(arn_key, ref)] now) d in
  t_audit d' = t_audit d /\
  (t_actions d' = t_actions d \/ exists k r, t_actions d !! k = Some r /\
     t_actions d' = <[gar_id r := SqlAlchemyOutboxRepository.set_arn ref r]> (t_actions d)).
Proof.
  unfold SqlAlchemyOutboxRepository.mark_published. rewrite run_atomic.
  destruct (t_outbox d !! i) as [r|]; [|by auto]. destruct (is_some _); [by auto|].
  destruct (negb _); [by auto|]. destruct (negb _); [by auto|].
  cbn [assoc]. rewrite pystr_eqb_refl. destruct ref as [|c ref]; [by auto|].
  destruct (validate_ApprovalWorkflowStartPayload _) as [pl|]; [|by auto].
  destruct (t_actions d !! wp_action_id pl) as [a|] eqn:Ea; [|by auto].
  split; [done|]. right. by exists (wp_action_id pl), a.
Qed.

Lemma ww_poll dp sc t s : ww (dispatch_once dp sc t) (fun _ _ => True) s.
Proof.
  unfold dispatch_once. apply wp_bind, ww_section.
  { intros d. apply (write_all_actions (SqlAlchemyOutboxRepository.lease t (worker_id dp) <$>
      SqlAlchemyOutboxRepository.selected sc (batch_size dp) t (t - lock_timeout dp) d) d). }
  intros [ms|e] s1; [|done]. apply wp_bind.
  eapply wp_mono; [|apply (wp_deliver_all _ _ _ (fun _ _ => True)) with (n := 0); [|done]].
  { by intros [[[p q] dl]|e] s2. }
  intros m n c s2 _. apply wp_deliver; [intros ?; reflexivity|apply _|..].
  - intros ref s3 Hlen. apply wp_zoom_run. intros s4 r s5 _ HI Hrun.
    change (run (zoom sw_db put_db (SqlAlchemyOutboxRepository.mark_published (om_id m) (worker_id dp)
      [(arn_key, ref)] t)) s4 = (r, s5)) in Hrun.
    rewrite run_zoom in Hrun by (intros []; done).
    pose proof (mark_published_effect (om_id m) (worker_id dp) ref t (sw_db s4)) as Heff.
    destruct (run _ (sw_db s4)) as [res d']. injection Hrun as <- <-. destruct Heff as [Hau Hact].
    assert (database_ok (put_db d' s4) /\ world_le s4 (put_db d' s4)) as [? ?].
    { destruct Hact as [Ha|(k & r & Hr & Ha)]; [by apply world_same_tables|by eapply world_set_arn]. }
    split; [done|]. split; [done|]. by destruct res.
  - intros err at_ s3. apply ww_section; [|by intros [[]|]].
    intros d. destruct (t_outbox d !! om_id m) as [r|]; [|done]. by destruct (negb _).
Qed.

(** ** Both sides together *)

Hypothesis positive_limit : (0 < max)%Z.

Definition system_ok (s : SqlWorld) : Prop := database_ok s /\ outbox_ok max (sw_db s).
Definition system_le (s s' : SqlWorld) : Prop := world_le s s' /\ outbox_le (sw_db s) (sw_db s').

(** What an answered job says. *)
Definition fulfilled (j : job) (o : outcome) (s : SqlWorld) : Prop :=
  match j, o with
  | Serve r, Replied rep => served r rep s
  | Poll dp _ _, Polled res => counted dp res
  | _, _ => False
  end.

Definition job_post (j : job) (r : result outcome) (s : SqlWorld) : Prop :=
  match r with Ok o => fulfilled j o s | Raise _ => True end.

Lemma job_safe j s :
  valid_job j ->
  wp system_ok system_le system_le (perform j) (job_post j) s.
Proof.
  intros Hj.
  assert (exists Q1 Q2, ww (perform j) Q1 s /\ wo (perform j) Q2 s /\
    forall r s', Q1 r s' -> Q2 r s' -> job_post j r s') as (Q1 & Q2 & H1 & H2 & HQ).
  { destruct j as [r|dp sc t]; cbn [perform].
    - exists (fun res s' => job_post (Serve r) res s'), (fun _ _ => True). split; [|split; [|done]].
      + apply wp_bind. eapply wp_mono; [|by apply (rg_serve uuid5 anything)]. by intros [a|e] s'.
      + apply wo_then; [by apply wo_serve|done].
    - exists (fun _ _ => True), (fun res s' => job_post (Poll dp sc t) res s'). split; [|split; [|done]].
      + apply wp_bind. eapply wp_mono; [|apply ww_poll]. by intros [a|e] s'.
      + apply wp_bind. eapply wp_mono; [|by apply wo_poll]. by intros [a|e] s'. }
  eapply wp_mono; [|exact (wp_both _ _ _ _ _ _ _ _ _ _ H1 H2)]. intros r s' [? ?]. by apply HQ.
Qed.

Lemma jobs_safe jobs s ts s' :
  Forall valid_job jobs -> system_ok s -> rtc pool_step (perform <$> jobs, s) (ts, s') ->
  system_ok s' /\ system_le s s' /\
  forall i j o, jobs !! i = Some j -> ts !! i = Some (Ret o) -> fulfilled j o s'.
Proof.
  intros Hjobs H Hsteps.
  assert (PreOrder system_le) by exact (both_preorder _ _).
  destruct (pool_safe system_ok system_le system_le (job_post <$> jobs) (perform <$> jobs, s) (ts, s'))
    as (Hok & Hle & HF); try done.
  - apply Forall_fmap, Forall_true. intros j [[rep|res]|e] t t'; simpl; destruct j; try done.
    intros Hs [Hle _]. by eapply served_stable.
  - simpl. apply Forall2_fmap, Forall_Forall2_diag. eapply Forall_impl; [exact Hjobs|].
    intros j Hj. by apply job_safe.
  - split; [done|]. split; [done|]. intros i j o Hj Ho. simpl in HF.
    eapply Forall2_lookup_lr in HF; [|by rewrite list_lookup_fmap, Hj|exact Ho]. exact HF.
Qed.
End system.
