(* ===== verification/SystemTheorems.v ===== *)
(** * What the outbox and the deployed system guarantee

    Theorems about the transactional outbox: the proposal transaction, claims,
    deliveries, failures, and the whole system of API processes and workers. *)
From S2P Require Import Prelude PyStr Uuid Effects Json Schemas SchemaJson Ledger Database InMemory SqlActions.
From S2P Require Import Governance Lifecycle GovernanceProofs GovernanceTheorems Outbox OutboxProofs System.
Local Open Scope py_scope.

Section theorems.
Context `{DT : DatetimeText}.

Section concurrent.
Context `{!ApprovalWorkflow SqlWorld, !ApprovalWorkflowLaws SqlWorld}.
Context (uuid5 : UUID -> pystr -> UUID) (max : Z).
Hypothesis positive_limit : (0 < max)%Z.

(** Any number of API requests and worker polls, interleaved on one database, keep
    both invariants: the governance world stays authorised, the outbox stays
    consistent, published and dead-lettered messages never change again, and every
    answer and every poll summary is true. *)
Theorem system_safe jobs s ts s' :
  Forall (valid_job max) jobs -> system_ok max s ->
  rtc pool_step (perform uuid5 <$> jobs, s) (ts, s') ->
  system_ok max s' /\ system_le s s' /\
  forall i j o, jobs !! i = Some j -> ts !! i = Some (Ret o) -> fulfilled j o s'.
Proof. by apply jobs_safe. Qed.

(** C12. Under every interleaving each stored action has exactly one outbox message, and it
    has a workflow reference exactly when that message has been published, namely the
    reference the message was delivered with. *)
Theorem action_has_one_message jobs s ts s' i a :
  Forall (valid_job max) jobs -> system_ok max s ->
  rtc pool_step (perform uuid5 <$> jobs, s) (ts, s') -> t_actions (sw_db s') !! i = Some a ->
  exists j r, t_outbox (sw_db s') !! j = Some r /\ omr_aggregate_id r = i /\
    (forall j' r', t_outbox (sw_db s') !! j' = Some r' -> omr_aggregate_id r' = i -> j' = j) /\
    match omr_published_at r with
    | Some _ => exists ref, omr_delivery_result_json r = Some [(arn_key, ref)] /\
        gar_workflow_execution_arn a = Some ref
    | None => gar_workflow_execution_arn a = None
    end.
Proof.
  intros Hjobs H Hsteps Ha. destruct (jobs_safe uuid5 max positive_limit jobs s ts s')
    as ([_ Hok] & _ & _); try done.
  destruct (oo_enqueued _ _ Hok _ _ Ha) as (j & r & Hr & Hi). exists j, r. split; [done|]. split; [done|].
  split; [intros j' r' Hr' Hi'; apply (oo_unique _ _ Hok _ _ _ _ Hr' Hr); congruence|].
  destruct (ro_action _ _ _ (oo_row _ _ Hok _ _ Hr)) as (b & Hb & Hst).
  by assert (a = b) as -> by congruence.
Qed.

(** C14. Deliveries are bounded: no message is attempted more than the limit allows, it is
    dead-lettered exactly when the limit is reached, and a dead-lettered message is
    neither leased nor published. *)
Theorem attempts_bounded jobs s ts s' j r :
  Forall (valid_job max) jobs -> system_ok max s ->
  rtc pool_step (perform uuid5 <$> jobs, s) (ts, s') -> t_outbox (sw_db s') !! j = Some r ->
  (0 <= omr_attempt_count r <= max)%Z /\
  (omr_attempt_count r = max <-> omr_dead_lettered_at r <> None) /\
  (omr_dead_lettered_at r <> None -> omr_published_at r = None /\ omr_locked_by r = None).
Proof.
  intros Hjobs H Hsteps Hr. destruct (jobs_safe uuid5 max positive_limit jobs s ts s')
    as ([_ Hok] & _ & _); try done.
  pose proof (oo_row _ _ Hok _ _ Hr) as Hrow. pose proof (ro_attempts _ _ _ Hrow).
  destruct (omr_dead_lettered_at r) as [t|] eqn:Ed.
  - destruct (ro_dead _ _ _ Hrow) as (? & ? & ?); [by rewrite Ed|]. split; [lia|]. done.
  - pose proof (ro_pending _ _ _ Hrow Ed). split; [lia|]. split; [|done]. split; [lia|done].
Qed.
End concurrent.

(** ** The proposal transaction *)

(** [create_proposal] is all or nothing: it commits the action, its audit event and its
    outbox message together and reports a new action, or it leaves every table as it
    was and reports an existing action or an error. *)
Theorem proposal_atomic fr a e m d :
  let '(res, d') := run (SqlAlchemyActionRepository.create_proposal fr a e m) d in
  res = Ok (a, true) /\
  d' = put_outbox (SqlAlchemyActionRepository.outbox_record fr m)
         (put_audit (SqlAlchemyActionRepository.audit_record fr e)
           (put_action (SqlAlchemyActionRepository.record_from_action a) d)) /\
  t_actions d !! ga_id a = None /\ t_audit d !! new_event_id fr = None
  \/ d' = d /\ forall b, res <> Ok (b, true).
Proof.
  unfold SqlAlchemyActionRepository.create_proposal, SqlAlchemyActionRepository.get_by_idempotency.
  rewrite run_bind, run_reads. match goal with |- context [match ?x with [] => _ | _ => _ end] => set (o := x) end.
  destruct (match o with [] => _ | _ => _ end) as [[b|]|x]; [by right| |by right].
  rewrite run_catch, run_bind, run_atomic.
  destruct (commit _ d) as [[[]|x] d'] eqn:Ec.
  - cbn. left. apply commit_proposal in Ec as (Hn & _ & Hau & _ & ->). done.
  - apply commit_error in Ec as [[-> | ->] ->]; [|by right]. unfold integrity_error. cbv iota beta.
    rewrite run_bind, run_reads. fold o. destruct (match o with [] => _ | _ => _ end) as [[b|]|x]; by right.
Qed.

(** ** Claims *)

Import SqlAlchemyOutboxRepository.

(** The rows a claim may take. *)
Definition claimable sc now stale d j r : Prop :=
  t_outbox d !! j = Some r /\ due now stale r = true /\ skip_locked sc j = false.

(** The sorted candidates of a claim. *)
Lemma candidates max sc n now stale d :
  outbox_ok max d -> scans sc ->
  exists l, selected sc n now stale d = take n l /\ StronglySorted earlier l /\
    forall r, r ∈ l <-> claimable sc now stale d (omr_id r) r.
Proof.
  intros H Hsc. eexists. split; [reflexivity|]. split.
  - apply StronglySorted_merge_sort; [|intros r1 r2; unfold earlier; lia].
    intros r1 r2 r3. unfold earlier. lia.
  - intros r. rewrite merge_sort_Permutation, list_elem_of_filter. unfold scans in Hsc. rewrite Hsc.
    unfold claimable. split.
    + intros [Hd Hr]. apply Is_true_eq_true, andb_true_iff in Hd as [Hd Hs%negb_true_iff].
      apply list_elem_of_fmap in Hr as ([j x] & -> & Hx%elem_of_map_to_list). simpl in *.
      rewrite (oo_id _ _ H _ _ Hx) in *. done.
    + intros (Hr & Hd & Hs). split; [apply Is_true_eq_left; by rewrite Hd, Hs|].
      apply list_elem_of_fmap. exists (omr_id r, r). split; [done|]. by apply elem_of_map_to_list.
Qed.

(** C34. [claim_batch] leases due messages only: every message it returns was pending, due
    and unleased or abandoned for the timeout, and now carries the caller's lease;
    every other row is untouched.  It takes at most [batch_size] messages, all that are
    due when there are fewer, and otherwise none before an earlier one. *)
Theorem claim_leases_due_messages max sc w n lt now d :
  outbox_ok max d -> scans sc -> len_between 0 255 (length w) = true ->
  exists ms d', run (claim_batch sc w n lt now) d = (Ok ms, d') /\ length ms <= n /\ NoDup (om_id <$> ms) /\
    (forall m, m ∈ ms -> exists r, t_outbox d !! om_id m = Some r /\ due now (now - lt) r = true /\
       t_outbox d' !! om_id m = Some (lease now w r) /\ message_from_record (lease now w r) = Ok m) /\
    (forall j, (forall m, m ∈ ms -> om_id m <> j) -> t_outbox d' !! j = t_outbox d !! j) /\
    (forall j r, claimable sc now (now - lt) d j r -> (forall m, m ∈ ms -> om_id m <> j) ->
       length ms = n /\ forall m r', m ∈ ms -> t_outbox d !! om_id m = Some r' -> earlier r' r).
Proof.
  intros H Hsc Hw. destruct (claim_spec max sc w n lt now d H Hsc Hw) as (ms & Hrun & HF & _).
  set (rs := selected sc n now (now - lt) d) in *.
  assert (Hids : omr_id <$> rs = om_id <$> ms).
  { apply list_eq_Forall2, Forall2_fmap. eapply Forall2_impl; [exact HF|]. intros r m Hm.
    by apply message_Ok in Hm as (-> & _). }
  assert (Hlids : omr_id <$> (lease now w <$> rs) = omr_id <$> rs) by (by rewrite <- list_fmap_compose).
  pose proof (selected_nodup max sc n now (now - lt) d H Hsc) as Hnd. fold rs in Hnd.
  eexists ms, _. split; [exact Hrun|]. split; [|split; [by rewrite <- Hids|split; [|split]]].
  - rewrite <- (Forall2_length _ _ _ HF). unfold rs, selected. rewrite length_take. lia.
  - intros m Hm. apply list_elem_of_lookup in Hm as [k Hm].
    destruct (Forall2_lookup_r _ _ _ _ _ HF Hm) as (r & Hr & Hmr). apply list_elem_of_lookup_2 in Hr.
    pose proof Hr as (Hd & Hdue & _)%(selected_elem max); [|done|done].
    assert (om_id m = omr_id r) as -> by (by apply message_Ok in Hmr as (-> & _)).
    exists r. split_and!; try done.
    change (omr_id r) with (omr_id (lease now w r)). apply write_all_lookup; [by rewrite Hlids|].
    by apply list_elem_of_fmap_2.
  - intros j Hj. apply write_all_other. rewrite Hlids, Hids.
    intros (m & -> & Hm)%list_elem_of_fmap. by apply (Hj m).
  - intros j r Hj Hnot. destruct (candidates max sc n now (now - lt) d H Hsc) as (l & Hl & Hsort & Hel).
    fold rs in Hl. pose proof Hj as (Hr & _ & _). pose proof (oo_id _ _ H _ _ Hr) as Hid. subst j.
    apply Hel in Hj. rewrite <- (take_drop n l) in Hj, Hsort. rewrite <- Hl in Hj, Hsort.
    assert (r ∉ rs) as Hnrs.
    { intros Hin. apply (list_elem_of_fmap_2 omr_id) in Hin. rewrite Hids in Hin.
      apply list_elem_of_fmap in Hin as (m & Hm & Hin). by apply (Hnot m). }
    apply elem_of_app in Hj as [?|Hj]; [done|]. split.
    + rewrite <- (Forall2_length _ _ _ HF), Hl, length_take.
      assert (length (drop n l) <> 0) as Hne by (intros E%length_zero_iff_nil; rewrite E in Hj; by apply elem_of_nil in Hj).
      rewrite length_drop in Hne. lia.
    + intros m r' Hm Hr'. apply (StronglySorted_app_1_elem_of earlier rs (drop n l)); try done.
      apply (list_elem_of_fmap_2 om_id) in Hm. rewrite <- Hids in Hm.
      apply list_elem_of_fmap in Hm as (r1 & Hr1 & Hin). rewrite Hr1 in Hr'.
      pose proof Hin as (Hd1 & _)%(selected_elem max); [|done|done]. by assert (r' = r1) as -> by congruence.
Qed.

(** A lease excludes other workers: messages claimed at [now] are not returned by a later
    claim, of any worker, whose timeout has not run out since. *)
Theorem leases_exclusive max sc w n lt now sc2 w2 n2 lt2 now2 d :
  outbox_ok max d -> scans sc -> scans sc2 -> len_between 0 255 (length w) = true ->
  len_between 0 255 (length w2) = true -> (now2 - lt2 < now)%Z ->
  exists ms d' ms2 d'', run (claim_batch sc w n lt now) d = (Ok ms, d') /\
    run (claim_batch sc2 w2 n2 lt2 now2) d' = (Ok ms2, d'') /\
    forall m m2, m ∈ ms -> m2 ∈ ms2 -> om_id m <> om_id m2.
Proof.
  intros H Hsc Hsc2 Hw Hw2 Hlt. destruct (claim_spec max sc w n lt now d H Hsc Hw) as (ms & Hrun & HF & Hok & _).
  set (rs := selected sc n now (now - lt) d) in *. set (d' := write_all (lease now w <$> rs) d) in *.
  destruct (claim_spec max sc2 w2 n2 lt2 now2 d' Hok Hsc2 Hw2) as (ms2 & Hrun2 & HF2 & _).
  eexists ms, d', ms2, _. split; [exact Hrun|]. split; [exact Hrun2|]. intros m m2 Hm Hm2 Heq.
  apply list_elem_of_lookup in Hm as [k Hm]. apply list_elem_of_lookup in Hm2 as [k2 Hm2].
  destruct (Forall2_lookup_r _ _ _ _ _ HF Hm) as (r & Hr & Hmr). apply list_elem_of_lookup_2 in Hr.
  destruct (Forall2_lookup_r _ _ _ _ _ HF2 Hm2) as (r2 & Hr2 & Hmr2). apply list_elem_of_lookup_2 in Hr2.
  apply (selected_elem max) in Hr2 as (Hd2 & Hdue2 & _); [|done|done].
  apply message_Ok in Hmr as (Hid & _). apply message_Ok in Hmr2 as (Hid2 & _). simpl in Hid, Hid2.
  assert (t_outbox d' !! omr_id (lease now w r) = Some (lease now w r)) as Hl.
  { apply write_all_lookup; [rewrite <- list_fmap_compose; by apply (selected_nodup max)|].
    by apply list_elem_of_fmap_2. }
  simpl in Hl. rewrite <- Hid, Heq, Hid2, Hd2 in Hl. assert (r2 = lease now w r) as -> by congruence.
  apply due_spec in Hdue2 as (_ & _ & _ & Hlock). simpl in Hlock. lia.
Qed.

(** ** Deliveries *)

Section deliveries.
Context `{!ApprovalWorkflow SqlWorld} (reference_of : GovernedAction -> pystr).
(** A workflow backend that always answers, as [LocalApprovalWorkflow] does. *)
Hypothesis start_answers : forall a, start_workflow a = Ret (reference_of a).
Hypothesis reference_fits : forall a, reference_of a <> [] /\ len_between 0 2048 (length (reference_of a)) = true.

(** A message that its worker still leases. *)
Definition leased (w : pystr) (d : Db) (m : OutboxMessage) : Prop :=
  exists r, t_outbox d !! om_id m = Some r /\ message_from_record r = Ok m /\
    omr_locked_by r = Some w /\ omr_published_at r = None.

(** The delivery of a leased message publishes it. *)
Lemma deliver_publishes max dp t m p q dl w :
  outbox_ok max (sw_db w) -> sql_inv (sw_db w) -> leased (worker_id dp) (sw_db w) m ->
  exists d', run (deliver dp t m (p, q, dl)) w = (Ok (p + 1, q, dl)%Z, put_db d' w) /\
    outbox_ok max d' /\ sql_inv d' /\ outbox_le (sw_db w) d' /\
    (exists r, t_outbox d' !! om_id m = Some r /\ omr_published_at r = Some t) /\
    (forall j, j <> om_id m -> t_outbox d' !! j = t_outbox (sw_db w) !! j).
Proof.
  intros Ho Hs (r & Hr & Hm & Hl & Hp). pose proof (oo_row _ _ Ho _ _ Hr) as Hrow.
  destruct (ro_message _ _ _ Hrow) as (m' & Hm' & Hag). assert (m' = m) as -> by congruence.
  pose proof (message_Ok _ _ Hm) as (Hid & Hagg & _ & _ & Hev & Hpl & _).
  destruct (ro_action _ _ _ Hrow) as (ar & Har & Harn). destruct (si_decode _ Hs _ _ Har) as [a Ha].
  pose proof (action_from_record_Ok _ _ Ha) as (Haid & _). pose proof (si_id _ Hs _ _ Har) as Harid.
  destruct (reference_fits a) as [Hne Hlen].
  pose proof (publish_spec max (om_id m) (worker_id dp) (reference_of a) t (sw_db w) Ho) as (res & d' & Hpub & [Hok Hle] & _).
  assert (Hd' : res = Ok tt /\ d' = put_outbox (publish t [(arn_key, reference_of a)] r)
            (put_action (set_arn (reference_of a) ar) (sw_db w))).
  { revert Hpub. unfold mark_published. rewrite run_atomic, Hr, Hp. cbn [is_some].
    unfold holds_lease. rewrite Hl, bool_decide_eq_true_2 by done. cbn [negb].
    rewrite Hev, pystr_eqb_refl. cbn [negb assoc]. rewrite pystr_eqb_refl, Hpl, Hag, Har.
    destruct (reference_of a); [done|]. intros E. split; congruence. }
  destruct Hd' as [-> Hd']. exists d'. split_and!; try done.
  - unfold deliver, handle. rewrite run_bind, run_catch, !run_bind, run_raise_if.
    destruct (omc_event_type (om_create m)). cbn [negb]. rewrite bool_decide_eq_false_2 by auto.
    rewrite run_bind. cbn [get_action sql_actions].
    rewrite run_zoom by (intros []; done). unfold SqlAlchemyActionRepository.get. rewrite run_reads, Hag, Har, Ha.
    rewrite put_db_same, run_bind, run_raise_if, Haid, Harid, Hagg, bool_decide_eq_false_2 by auto.
    rewrite start_answers. cbn [mbind prog_bind prog_bind_def run]. rewrite run_bind.
    cbn [Outbox.mark_published sql_outbox]. rewrite run_zoom by (intros []; done). by rewrite Hpub.
  - apply (sql_inv_set_arn (sw_db w) d' (reference_of a) (omr_aggregate_id r) ar); try done. by rewrite Hd'.
  - exists (publish t [(arn_key, reference_of a)] r). rewrite Hd', Hid. simpl. by rewrite lookup_insert_eq.
  - intros j Hj. rewrite Hd'. simpl. rewrite lookup_insert_ne; [done|]. congruence.
Qed.

Lemma deliver_all_publishes max dp t ms p q dl w :
  outbox_ok max (sw_db w) -> sql_inv (sw_db w) -> NoDup (om_id <$> ms) ->
  Forall (leased (worker_id dp) (sw_db w)) ms ->
  exists d', run (deliver_all dp t ms (p, q, dl)) w = (Ok (p + Z.of_nat (length ms), q, dl)%Z, put_db d' w) /\
    outbox_ok max d' /\ sql_inv d' /\ outbox_le (sw_db w) d' /\
    Forall (fun m => exists r, t_outbox d' !! om_id m = Some r /\ omr_published_at r = Some t) ms /\
    (forall j, j ∉ om_id <$> ms -> t_outbox d' !! j = t_outbox (sw_db w) !! j).
Proof.
  revert p w. induction ms as [|m ms IH]; intros p w Ho Hs Hnd HF.
  { exists (sw_db w). by rewrite put_db_same, Z.add_0_r. }
  csimpl in Hnd. apply NoDup_cons in Hnd as [Hm Hnd]. apply Forall_cons in HF as [Hlm HF].
  destruct (deliver_publishes max dp t m p q dl w Ho Hs Hlm) as (d1 & Hrun & Ho1 & Hs1 & Hle1 & (r & Hr & Hp) & Hother).
  destruct (IH (p + 1)%Z (put_db d1 w) Ho1 Hs1 Hnd) as (d2 & Hrun2 & Ho2 & Hs2 & Hle2 & HF2 & Hother2).
  { rewrite Forall_forall in HF |- *. intros x Hx. destruct (HF x Hx) as (rx & Hrx & ?).
    exists rx. simpl. rewrite Hother; [done|]. intros Heq. apply Hm. rewrite <- Heq. by apply list_elem_of_fmap_2. }
  exists d2. cbn [deliver_all]. rewrite run_bind, Hrun, Hrun2. split_and!; try done.
  - f_equal. f_equal. f_equal. f_equal. simpl length. lia.
  - by etrans.
  - constructor; [|done]. destruct (Hle2 _ _ Hr) as (r2 & Hr2 & Hrl). exists r2. split; [done|].
    rewrite (rl_final _ _ Hrl); [done|]. unfold published_or_dead. by rewrite Hp.
  - intros j Hj. csimpl in Hj. apply not_elem_of_cons in Hj as [? Hj]. rewrite (Hother2 _ Hj). by apply Hother.
Qed.

(** A poll nothing interferes with publishes what it claims and touches nothing else. *)
Lemma quiet_poll max dp sc t w :
  outbox_ok max (sw_db w) -> sql_inv (sw_db w) -> scans sc ->
  len_between 0 255 (length (worker_id dp)) = true ->
  exists ms d1 d2,
    run (claim_batch sc (worker_id dp) (batch_size dp) (lock_timeout dp) t) (sw_db w) = (Ok ms, d1) /\
    run (dispatch_once dp sc t) w =
      (Ok {| claimed := Z.of_nat (length ms); published := Z.of_nat (length ms); retried := 0;
             dead_lettered := 0 |}, put_db d2 w) /\
    outbox_ok max d2 /\ sql_inv d2 /\ outbox_le (sw_db w) d2 /\
    om_id <$> ms = omr_id <$> selected sc (batch_size dp) t (t - lock_timeout dp) (sw_db w) /\
    (forall m, m ∈ ms -> exists r, t_outbox d2 !! om_id m = Some r /\ omr_published_at r = Some t) /\
    (forall j, j ∉ om_id <$> ms -> t_outbox d2 !! j = t_outbox (sw_db w) !! j).
Proof.
  intros Ho Hs Hsc Hw.
  destruct (claim_spec max sc (worker_id dp) (batch_size dp) (lock_timeout dp) t (sw_db w) Ho Hsc Hw)
    as (ms & Hrun & HF & Ho1 & Hle1).
  set (rs := selected sc (batch_size dp) t (t - lock_timeout dp) (sw_db w)) in *.
  set (d1 := write_all _ _) in *.
  assert (Hids : omr_id <$> rs = om_id <$> ms).
  { apply list_eq_Forall2, Forall2_fmap. eapply Forall2_impl; [exact HF|]. intros r m Hm.
    by apply message_Ok in Hm as (-> & _). }
  pose proof (selected_nodup max sc (batch_size dp) t (t - lock_timeout dp) (sw_db w) Ho Hsc) as Hnd. fold rs in Hnd.
  assert (Hlids : omr_id <$> (lease t (worker_id dp) <$> rs) = omr_id <$> rs) by (by rewrite <- list_fmap_compose).
  assert (Hs1 : sql_inv d1).
  { destruct (write_all_actions (lease t (worker_id dp) <$> rs) (sw_db w)) as [Ha _].
    split; unfold d1; rewrite Ha; apply Hs. }
  destruct (deliver_all_publishes max dp t ms 0 0 0 (put_db d1 w)) as (d2 & Hrun2 & Ho2 & Hs2 & Hle2 & HP & Hother);
    try done.
  { by rewrite <- Hids. }
  { rewrite Forall_forall. intros m Hm. apply list_elem_of_lookup in Hm as [k Hm].
    destruct (Forall2_lookup_r _ _ _ _ _ HF Hm) as (r & Hr & Hmr). apply list_elem_of_lookup_2 in Hr.
    pose proof Hr as (_ & Hdue & _)%(selected_elem max); [|done|done]. apply due_spec in Hdue as (Hp & _).
    pose proof Hmr as (Hid & _)%message_Ok. exists (lease t (worker_id dp) r). split_and!; try done.
    rewrite Hid. apply write_all_lookup; [by rewrite Hlids|by apply list_elem_of_fmap_2]. }
  exists ms, d1, d2. split; [exact Hrun|]. split.
  { unfold dispatch_once. rewrite run_bind. cbn [Outbox.claim_batch sql_outbox].
    rewrite run_zoom by (intros []; done). rewrite Hrun, run_bind, Hrun2. done. }
  split_and!; [done|done|by etrans|done|by rewrite Forall_forall in HP|].
  intros j Hj. rewrite (Hother j Hj). simpl. unfold d1. apply write_all_other. by rewrite Hlids, Hids.
Qed.

(** With a workflow backend that answers and no interference, one poll publishes every
    message it claims, and every such message ends with its publication time recorded. *)
Theorem quiet_poll_publishes_all max dp sc t w :
  outbox_ok max (sw_db w) -> sql_inv (sw_db w) -> scans sc ->
  len_between 0 255 (length (worker_id dp)) = true ->
  exists ms d1 d2,
    run (claim_batch sc (worker_id dp) (batch_size dp) (lock_timeout dp) t) (sw_db w) = (Ok ms, d1) /\
    run (dispatch_once dp sc t) w =
      (Ok {| claimed := Z.of_nat (length ms); published := Z.of_nat (length ms); retried := 0;
             dead_lettered := 0 |}, put_db d2 w) /\
    forall m, m ∈ ms -> exists r, t_outbox d2 !! om_id m = Some r /\ omr_published_at r = Some t.
Proof.
  intros Ho Hs Hsc Hw. destruct (quiet_poll max dp sc t w Ho Hs Hsc Hw) as (ms & d1 & d2 & H1 & H2 & _ & _ & _ & _ & H3 & _).
  by exists ms, d1, d2.
Qed.
End deliveries.

(** ** Failures *)

(** C33. A failed delivery costs one attempt and gives the lease up: while attempts remain
    the message is due again after the retry delay, at the limit it is dead-lettered,
    and the poll counts exactly one of the two. *)
Theorem failed_delivery_retries `{!ApprovalWorkflow SqlWorld} dp t m p q dl w e r :
  t_outbox (sw_db w) !! om_id m = Some r -> omr_locked_by r = Some (worker_id dp) ->
  om_attempt_count m = omr_attempt_count r -> omr_id r = om_id m ->
  run (handle m) w = (Raise e, w) ->
  exists c r' d', run (deliver dp t m (p, q, dl)) w = (Ok c, put_db d' w) /\
    t_outbox d' = <[om_id m := r']> (t_outbox (sw_db w)) /\ t_actions d' = t_actions (sw_db w) /\
    omr_attempt_count r' = (omr_attempt_count r + 1)%Z /\ omr_locked_by r' = None /\
    omr_last_error r' = Some (take 255 (exn_name e)) /\
    if base.decide (max_attempts dp <= omr_attempt_count r + 1)%Z
    then c = (p, q, dl + 1)%Z /\ omr_dead_lettered_at r' = Some t
    else c = (p, q + 1, dl)%Z /\ omr_dead_lettered_at r' = omr_dead_lettered_at r /\
         omr_available_at r' = (t + retry_delay dp (omr_attempt_count r))%Z.
Proof.
  intros Hr Hl Hc Hid Hrun. unfold deliver. rewrite run_bind, run_catch, run_bind, Hrun. cbn [run].
  rewrite run_bind. cbn [Outbox.record_failure sql_outbox]. rewrite run_zoom by (intros []; done).
  unfold record_failure. rewrite run_atomic, Hr. unfold holds_lease.
  rewrite Hl, bool_decide_eq_true_2 by done. cbn [negb]. rewrite Hc.
  eexists _, _, _. split; [reflexivity|]. simpl. rewrite Hid. do 5 (split; [reflexivity|]).
  unfold release. cbn [omr_dead_lettered_at omr_available_at].
  destruct (Z.leb_spec (max_attempts dp) (omr_attempt_count r + 1)); case_decide; (done || lia).
Qed.

(** The retry delay starts at the base, doubles with every attempt until it reaches the
    ceiling, never decreases and never exceeds the ceiling. *)
Theorem retry_delay_bounded dp n k :
  (1 <= retry_base_seconds dp)%Z -> (1 <= retry_max_seconds dp)%Z -> (0 <= n <= k)%Z ->
  (seconds 1 <= retry_delay dp n <= retry_delay dp k)%Z /\
  (retry_delay dp k <= seconds (retry_max_seconds dp))%Z /\
  retry_delay dp 0 = seconds (Z.min (retry_base_seconds dp) (retry_max_seconds dp)) /\
  ((n < 20)%Z -> (retry_delay dp (n + 1) < seconds (retry_max_seconds dp))%Z ->
     retry_delay dp (n + 1) = 2 * retry_delay dp n)%Z.
Proof.
  intros Hb Hm Hn. unfold retry_delay, seconds.
  assert (0 < 2 ^ Z.min n 20 <= 2 ^ Z.min k 20)%Z as Hp.
  { split; [apply Z.pow_pos_nonneg; lia|apply Z.pow_le_mono_r; lia]. }
  split_and!; [nia|nia|lia|change (2 ^ Z.min 0 20)%Z with 1%Z; lia|].
  intros Hlt. replace (Z.min (n + 1) 20) with (Z.succ n) by lia. replace (Z.min n 20) with n by lia.
  rewrite Z.pow_succ_r by lia. replace (Z.min n 20) with n in Hp by lia. nia.
Qed.
End theorems.

(** ** Concrete runs *)

Section witnesses.
Import History LocalApprovalWorkflow SqlAlchemyOutboxRepository.

Definition in_key_order : Scan := {| scan_order := fun l => l; skip_locked := fun _ => false |}.

Definition worker (name : pystr) : OutboxDispatcher := {|
  worker_id := name; batch_size := 20; lock_timeout := seconds 120; max_attempts := 8;
  retry_base_seconds := 2; retry_max_seconds := 300 |}.

(** Two API processes propose, approve and execute while two workers poll. *)
Definition jobs : list job :=
  [Serve request_propose; Serve request_propose_again; Serve request_approve;
   Poll (worker (u "w1")) in_key_order 50%Z; Poll (worker (u "w2")) in_key_order 60%Z;
   Serve request_execute].

Definition run_jobs (sched : list nat) : list (prog SqlWorld outcome) * SqlWorld :=
  run_schedule sched (perform hash <$> jobs) sql_start.

Definition busy : list nat := [0;1;0;1;1;3;4;2;3;2;3;4;4;5;5;5;5].

Lemma run_jobs_steps sched : rtc pool_step (perform hash <$> jobs, sql_start) ((run_jobs sched).1, (run_jobs sched).2).
Proof. unfold run_jobs. rewrite <- surjective_pairing. apply run_schedule_steps. Qed.

Lemma key_order_scans : scans in_key_order.
Proof. intros l. reflexivity. Qed.

Lemma jobs_valid : Forall (valid_job 8) jobs.
Proof.
  repeat apply Forall_cons_2; try apply Forall_nil_2; try done;
    (split_and!; [done|apply key_order_scans|done]).
Qed.

Lemma sql_start_system_ok : system_ok 8 sql_start.
Proof. split; [apply sql_start_ok|]. by split. Qed.

Lemma limit_positive : (0 < 8)%Z.
Proof. lia. Qed.

(** The outcome of a job. *)
Definition outcome_of (f : list (prog SqlWorld outcome) * SqlWorld) (i : nat) : option outcome :=
  match f.1 !! i with Some (Ret o) => Some o | _ => None end.

Lemma outcome_of_Some f i o : outcome_of f i = Some o -> f.1 !! i = Some (Ret o).
Proof. unfold outcome_of. destruct (f.1 !! i) as [[]|]; try done. by intros [= ->]. Qed.

Lemma system_safe_witness :
  let f := run_jobs busy in
  system_ok 8 f.2 /\ system_le sql_start f.2 /\
  fulfilled (Poll (worker (u "w1")) in_key_order 50%Z)
    (Polled {| claimed := 1; published := 1; retried := 0; dead_lettered := 0 |}) f.2.
Proof.
  destruct (system_safe hash 8 limit_positive jobs sql_start _ _
    jobs_valid sql_start_system_ok (run_jobs_steps busy)) as (Hok & Hle & Hful).
  split; [exact Hok|]. split; [exact Hle|]. apply (Hful 3); [reflexivity|].
  apply outcome_of_Some. vm_compute. reflexivity.
Defined.

Lemma action_has_one_message_witness :
  let d := sw_db (run_jobs busy).2 in
  exists a, t_actions d !! action = Some a /\
  exists j r, t_outbox d !! j = Some r /\ omr_aggregate_id r = action /\
    (forall j' r', t_outbox d !! j' = Some r' -> omr_aggregate_id r' = action -> j' = j) /\
    match omr_published_at r with
    | Some _ => exists ref, omr_delivery_result_json r = Some [(arn_key, ref)] /\
        gar_workflow_execution_arn a = Some ref
    | None => gar_workflow_execution_arn a = None
    end.
Proof.
  intros d. subst d. destruct (t_actions (sw_db (run_jobs busy).2) !! action) as [a|] eqn:E; [|vm_compute in E; discriminate E].
  exists a. split; [reflexivity|].
  exact (action_has_one_message hash 8 limit_positive jobs sql_start _ _ action a
    jobs_valid sql_start_system_ok (run_jobs_steps busy) E).
Defined.

Lemma attempts_bounded_witness :
  exists r, t_outbox (sw_db (run_jobs busy).2) !! uuid 203 = Some r /\
  (0 <= omr_attempt_count r <= 8)%Z /\
  ((omr_attempt_count r = 8)%Z <-> omr_dead_lettered_at r <> None) /\
  (omr_dead_lettered_at r <> None -> omr_published_at r = None /\ omr_locked_by r = None).
Proof.
  destruct (t_outbox (sw_db (run_jobs busy).2) !! uuid 203) as [r|] eqn:E; [|vm_compute in E; discriminate E].
  exists r. split; [reflexivity|].
  exact (attempts_bounded hash 8 limit_positive jobs sql_start _ _ (uuid 203) r
    jobs_valid sql_start_system_ok (run_jobs_steps busy) E).
Defined.

(** The database once the action is proposed and before any poll. *)
Definition enqueued : SqlWorld := (run_jobs [0;0]).2.

Lemma enqueued_ok : system_ok 8 enqueued.
Proof.
  exact (proj1 (jobs_safe hash 8 limit_positive jobs sql_start _ _ jobs_valid
    sql_start_system_ok (run_jobs_steps [0;0]))).
Qed.

Lemma claim_leases_due_messages_witness :
  exists ms d', run (claim_batch in_key_order (u "w1") 20 (seconds 120) 50%Z) (sw_db enqueued) = (Ok ms, d') /\
    length ms = 1 /\
    (forall m, m ∈ ms -> exists r, t_outbox (sw_db enqueued) !! om_id m = Some r /\
       due 50%Z (50 - seconds 120) r = true /\
       t_outbox d' !! om_id m = Some (lease 50%Z (u "w1") r)).
Proof.
  destruct (claim_leases_due_messages 8 in_key_order (u "w1") 20 (seconds 120) 50%Z (sw_db enqueued)
    (proj2 enqueued_ok) key_order_scans eq_refl) as (ms & d' & Hrun & _ & _ & Hms & _).
  exists ms, d'. split; [exact Hrun|]. split.
  - assert (length <$> to_option (run (claim_batch in_key_order (u "w1") 20 (seconds 120) 50%Z) (sw_db enqueued)).1
            = Some 1) as H by (vm_compute; reflexivity).
    rewrite Hrun in H. cbn in H. congruence.
  - intros m Hm. destruct (Hms m Hm) as (r & ? & ? & ? & _). exists r. done.
Defined.

Lemma leases_exclusive_witness :
  exists ms d' ms2 d'',
    run (claim_batch in_key_order (u "w1") 20 (seconds 120) 50%Z) (sw_db enqueued) = (Ok ms, d') /\
    run (claim_batch in_key_order (u "w2") 20 (seconds 120) 60%Z) d' = (Ok ms2, d'') /\
    forall m m2, m ∈ ms -> m2 ∈ ms2 -> om_id m <> om_id m2.
Proof.
  apply (leases_exclusive 8 in_key_order (u "w1") 20 (seconds 120) 50%Z in_key_order (u "w2") 20 (seconds 120) 60%Z
    (sw_db enqueued) (proj2 enqueued_ok) key_order_scans key_order_scans eq_refl eq_refl).
  reflexivity.
Defined.

Definition local_reference (a : GovernedAction) : pystr := u "local://approval/" ++ str_uuid (ga_id a).

Lemma local_reference_fits a : local_reference a <> [] /\ len_between 0 2048 (length (local_reference a)) = true.
Proof.
  unfold local_reference. split; [by intros [? _]%app_nil|]. by rewrite length_app, str_uuid_length.
Qed.

Lemma local_answers a : @start_workflow SqlWorld workflow a = Ret (local_reference a).
Proof. reflexivity. Qed.

Lemma quiet_poll_publishes_all_witness :
  exists ms d1 d2,
    run (claim_batch in_key_order (u "w1") 20 (seconds 120) 50%Z) (sw_db enqueued) = (Ok ms, d1) /\
    run (dispatch_once (worker (u "w1")) in_key_order 50%Z) enqueued =
      (Ok {| claimed := Z.of_nat (length ms); published := Z.of_nat (length ms); retried := 0;
             dead_lettered := 0 |}, put_db d2 enqueued) /\
    forall m, m ∈ ms -> exists r, t_outbox d2 !! om_id m = Some r /\ omr_published_at r = Some 50%Z.
Proof.
  apply (quiet_poll_publishes_all local_reference local_answers local_reference_fits 8 (worker (u "w1"))
    in_key_order 50%Z enqueued (proj2 enqueued_ok) (wo_repo _ _ (proj1 enqueued_ok)) key_order_scans eq_refl).
Defined.

Lemma retry_delay_bounded_witness :
  let dp := worker (u "w1") in
  (seconds 1 <= retry_delay dp 3 <= retry_delay dp 9)%Z /\
  (retry_delay dp 9 <= seconds 300)%Z /\ retry_delay dp 0 = seconds (Z.min 2 300) /\
  ((3 < 20)%Z -> (retry_delay dp (3 + 1) < seconds 300)%Z -> retry_delay dp (3 + 1) = 2 * retry_delay dp 3)%Z.
Proof. apply (retry_delay_bounded (worker (u "w1")) 3 9); simpl; lia. Defined.
End witnesses.

(** A backend that refuses: the first failed delivery of the concrete history. *)
Section failing_witness.
Import History.

#[local] Instance refusing_workflow : ApprovalWorkflow SqlWorld :=
  {| start_workflow := fun _ => Throw (RuntimeError (u "unavailable")) |}.

Definition claimed_world : SqlWorld :=
  put_db (run (SqlAlchemyOutboxRepository.claim_batch in_key_order (u "w1") 20 (seconds 120) 50%Z) (sw_db enqueued)).2 enqueued.

(** The row the first poll leased, and its message. *)
Definition leased_row : OutboxMessageRecord :=
  SqlAlchemyOutboxRepository.lease 50%Z (u "w1")
    (SqlAlchemyActionRepository.outbox_record (fresh 3)
       {| omc_aggregate_id := action; omc_event_type := APPROVAL_WORKFLOW_START;
          omc_payload := {| wp_action_id := action; wp_case_id := uuid 10; wp_tenant_id := tenant |} |}).

Definition leased_message : OutboxMessage := {|
  om_create := {| omc_aggregate_id := action; omc_event_type := APPROVAL_WORKFLOW_START;
    omc_payload := {| wp_action_id := action; wp_case_id := uuid 10; wp_tenant_id := tenant |} |};
  om_id := uuid 203; om_status := PENDING; om_attempt_count := 0; om_available_at := 3%Z;
  om_locked_at := Some 50%Z; om_locked_by := Some (u "w1"); om_published_at := None;
  om_dead_lettered_at := None; om_last_error := None; om_delivery_result := None; om_created_at := 3%Z |}.

(** The handler reads only. *)
Lemma handle_keeps_state m w : (run (handle m) w).2 = w.
Proof.
  unfold handle. rewrite run_bind, run_raise_if. destruct (bool_decide _); [done|].
  rewrite run_bind. cbn [get_action sql_actions]. rewrite run_zoom by (intros []; done).
  unfold SqlAlchemyActionRepository.get. rewrite run_reads, put_db_same.
  match goal with |- context [match ?x with Ok _ => _ | Raise _ => _ end] => destruct x as [a|e] end; [|done].
  rewrite run_bind, run_raise_if. by destruct (bool_decide _).
Qed.

Lemma failed_delivery_retries_witness :
  exists c r' d',
    run (deliver (worker (u "w1")) 50%Z leased_message (0, 0, 0)%Z) claimed_world
      = (Ok c, put_db d' claimed_world) /\
    t_outbox d' = <[uuid 203 := r']> (t_outbox (sw_db claimed_world)) /\
    omr_attempt_count r' = 1%Z /\ omr_last_error r' = Some (u "RuntimeError").
Proof.
  destruct (failed_delivery_retries (worker (u "w1")) 50%Z leased_message 0 0 0 claimed_world
    (RuntimeError (u "unavailable")) leased_row) as (c & r' & d' & Hrun & Hout & _ & Hn & _ & Herr & _).
  - vm_compute. reflexivity.
  - reflexivity.
  - reflexivity.
  - reflexivity.
  - rewrite <- (handle_keeps_state leased_message claimed_world) at 2.
    rewrite (surjective_pairing (run (handle leased_message) claimed_world)). f_equal.
  - exists c, r', d'. split; [exact Hrun|]. split; [exact Hout|]. split; [exact Hn|].
    rewrite Herr. reflexivity.
Defined.
End failing_witness.
