(* ===== verification/Identity.v ===== *)
(** * Authentication

    [packages/identity/auth.py]: the development authenticator, which trusts request
    headers, and the OpenID Connect authenticator, which trusts the claims of a
    verified token.  The JSON web key set and the token library are parameters. *)
From S2P Require Import Prelude PyStr Uuid Effects Json Schemas.
Local Open Scope py_scope.

(** [Mapping[str, str]]: the first value of a name counts. *)
Abbreviation headers := (list (pystr * pystr)).

(** [headers.get(name, "")] *)
Definition header (name : string) (h : headers) : pystr := default [] (assoc (u name) h).

Definition comma : N := 44%N.
Definition space : N := 32%N.

(** ** Protocol *)

Class Authenticator := { authenticate : headers -> result Principal }.

(** ** Headers for local development *)

Module DevelopmentAuthenticator.

(** [Role(value.strip())] *)
Definition role_of (value : pystr) : result Role :=
  of_option (ValueError (u "'" ++ strip value ++ u "' is not a valid Role")) (of_value (strip value)).

(** [except ValueError] *)
Definition known_roles (r : result (list Role)) : result (list Role) :=
  match r with
  | Raise (ValueError _) => Raise (AuthenticationError (u "X-Roles contains an unknown role"))
  | _ => r
  end.

Definition authenticate (h : headers) : result Principal :=
  let subject := strip (header "x-actor-id" h) in
  let tenant_id := strip (header "x-tenant-id" h) in
  let raw_roles := header "x-roles" h in
  if negb (has_text subject) || negb (has_text tenant_id)
  then Raise (AuthenticationError (u "X-Actor-ID and X-Tenant-ID headers are required"))
  else
    roles ← known_roles (mapR role_of (List.filter has_text (split_on comma [] raw_roles)));
    let scopes := strip <$> List.filter has_text (split (header "x-scopes" h)) in
    construct valid_Principal {|
      subject := subject; principal_tenant_id := tenant_id; roles := list_to_set roles;
      scopes := list_to_set scopes |}.

Definition authenticator : Authenticator := {| Identity.authenticate := authenticate |}.

End DevelopmentAuthenticator.

(** ** OpenID Connect *)

Abbreviation claims_object := (list (pystr * json)).

(** [_SigningKeyProvider] and [jwt.decode] with the options the code passes: the
    algorithm, the audience and the issuer. *)
Record TokenLibrary := {
  signing_key : Type;
  get_signing_key_from_jwt : pystr -> result signing_key;
  jwt_decode : pystr -> signing_key -> pystr -> pystr -> pystr -> list pystr -> result claims_object;
  (** The names of the exception classes that derive from [PyJWTError]. *)
  is_jwt_error : pystr -> bool;
}.

Module OIDCAuthenticator.

Record t := { issuer : pystr; audience : pystr; jwks_url : pystr; algorithm : pystr }.

(** [__init__]; the key provider is the library's, built from the URL or given. *)
Definition init (c : t) : result t :=
  match issuer c, audience c, jwks_url c with
  | [], _, _ | _, [], _ | _, _, [] => Raise (ValueError (u "OIDC issuer, audience, and JWKS URL are required"))
  | _, _, _ => Ok c
  end.

(** [[value for value in values if isinstance(value, str)]], when [values] is a list. *)
Definition strings_of (j : option json) : list pystr :=
  match j with
  | Some (JArr l) => omap (fun x => match x with JStr s => Some s | _ => None end) l
  | _ => []
  end.

(** The role names of the three places a provider may put them. *)
Definition role_values (claims : claims_object) : list pystr :=
  strings_of (assoc (u "roles") claims) ++ strings_of (assoc (u "cognito:groups") claims) ++
  match assoc (u "realm_access") claims with
  | Some (JObj access) => strings_of (assoc (u "roles") access)
  | _ => []
  end.

(** [_principal_from_claims] *)
Definition principal_from_claims (claims : claims_object) : result Principal :=
  match assoc (u "sub") claims, assoc (u "tenant_id") claims with
  | Some (JStr subject), Some (JStr tenant_id) =>
      let roles := omap of_value (role_values claims) in
      let scopes :=
        match assoc (u "scope") claims with
        | Some (JStr raw_scope) => split raw_scope
        | _ => []
        end in
      construct valid_Principal {|
        subject := subject; principal_tenant_id := tenant_id; roles := list_to_set roles;
        scopes := list_to_set scopes |}
  | _, _ => Raise (AuthenticationError (u "OIDC claims must include string sub and tenant_id values"))
  end.

Definition required_claims : list pystr := [u "exp"; u "iat"; u "iss"; u "aud"; u "sub"].

Definition token_required : exn := AuthenticationError (u "A bearer access token is required").
Definition token_invalid : exn := AuthenticationError (u "The bearer access token is invalid").

Section methods.
Context `{UnicodeLower} (lib : TokenLibrary) (c : t).

(** [except (PyJWTError, AttributeError, TypeError, ValueError)] *)
Definition caught (e : exn) : bool :=
  match e with
  | ValueError _ | ValidationError _ | AuthenticationError _ => true
  | OtherError n _ => is_jwt_error lib n || pystr_eqb n (u "AttributeError") || pystr_eqb n (u "TypeError")
  | _ => false
  end.

(** The scheme and the token of the [Authorization] header. *)
Definition bearer_token (h : headers) : result pystr :=
  let '(scheme, _, token) := partition space (header "authorization" h) in
  if negb (pystr_eqb (lower scheme) (u "bearer")) || bool_decide (token = []) then Raise token_required else Ok token.

(** The body of the [try]. *)
Definition verified_claims (token : pystr) : result claims_object :=
  key ← get_signing_key_from_jwt lib token;
  jwt_decode lib token key (algorithm c) (audience c) (issuer c) required_claims.

Definition authenticate (h : headers) : result Principal :=
  token ← bearer_token h;
  claims ← match verified_claims token with
           | Raise e => Raise (if caught e then token_invalid else e)
           | Ok claims => Ok claims
           end;
  principal_from_claims claims.

Definition authenticator : Authenticator := {| Identity.authenticate := authenticate |}.
End methods.

End OIDCAuthenticator.

(** ** Roles and sets *)

Lemma roles_of_names (l : list pystr) (r : Role) : r ∈ (list_to_set (omap of_value l) : gset Role) <-> value r ∈ l.
Proof.
  rewrite elem_of_list_to_set, list_elem_of_omap. split.
  - intros (x & Hx & Hr%of_value_Some). by rewrite Hr.
  - intros Hin. exists (value r). by rewrite of_value_value.
Qed.

Lemma role_of_Ok v r : DevelopmentAuthenticator.role_of v = Ok r <-> strip v = value r.
Proof.
  unfold DevelopmentAuthenticator.role_of. destruct (of_value (strip v)) as [r'|] eqn:E; cbn [of_option]; split.
  - intros [= ->]. by apply of_value_Some in E.
  - intros Hv. rewrite Hv, of_value_value in E. congruence.
  - intros Hx. discriminate Hx.
  - intros Hv. rewrite Hv, of_value_value in E. congruence.
Qed.

Lemma mapR_roles_spec (vs : list pystr) :
  match mapR DevelopmentAuthenticator.role_of vs with
  | Ok rs => value <$> rs = strip <$> vs
  | Raise e => (exists m, e = ValueError m) /\ exists v, v ∈ strip <$> vs /\ forall r : Role, v <> value r
  end.
Proof.
  induction vs as [|v vs IH]; cbn [mapR]; [done|].
  destruct (DevelopmentAuthenticator.role_of v) as [r0|e] eqn:E; cbn [mbind result_bind].
  - apply role_of_Ok in E. destruct (mapR DevelopmentAuthenticator.role_of vs) as [rs|e]; cbn [mbind result_bind].
    + by rewrite !fmap_cons, IH, E.
    + destruct IH as [Hm (w & Hw & Hn)]. split; [done|]. exists w. split; [by right|done].
  - split.
    + unfold DevelopmentAuthenticator.role_of in E. destruct (of_value (strip v)); cbn [of_option] in E; [done|].
      injection E as <-. by eexists.
    + exists (strip v). split; [by left|]. intros r Hr%role_of_Ok. congruence.
Qed.

Lemma value_elem (rs : list Role) (vs : list pystr) r : value <$> rs = vs -> r ∈ rs <-> value r ∈ vs.
Proof.
  intros <-. rewrite list_elem_of_fmap. split; [by exists r|]. by intros (r' & ->%value_inj & ?).
Qed.

(** ** What a principal rests on *)

Section guarantees.
Context `{UnicodeLower} (lib : TokenLibrary) (c : OIDCAuthenticator.t).

(** The stripped, comma-separated names of the [X-Roles] header. *)
Definition named_roles (h : headers) : list pystr :=
  strip <$> List.filter has_text (split_on comma [] (header "x-roles" h)).

(** The scopes of the [X-Scopes] header. *)
Definition named_scopes (h : headers) : gset pystr :=
  list_to_set (strip <$> List.filter has_text (split (header "x-scopes" h))).

Lemma principal_eq (p q : Principal) :
  subject p = subject q -> principal_tenant_id p = principal_tenant_id q -> roles p = roles q ->
  scopes p = scopes q -> p = q.
Proof. destruct p, q. simpl. congruence. Qed.

Lemma claims_spec claims p :
  OIDCAuthenticator.principal_from_claims claims = Ok p <->
  assoc (u "sub") claims = Some (JStr (subject p)) /\
  assoc (u "tenant_id") claims = Some (JStr (principal_tenant_id p)) /\
  (forall r, r ∈ roles p <-> value r ∈ OIDCAuthenticator.role_values claims) /\
  scopes p = match assoc (u "scope") claims with Some (JStr s) => list_to_set (split s) | _ => ∅ end /\
  valid_Principal p = true.
Proof.
  unfold OIDCAuthenticator.principal_from_claims.
  assert (list_to_set (match assoc (u "scope") claims with Some (JStr raw) => split raw | _ => [] end)
    = match assoc (u "scope") claims with Some (JStr s) => list_to_set (split s) | _ => ∅ end :> gset pystr) as Hs
    by (destruct (assoc (u "scope") claims) as [[]|]; done).
  split.
  - destruct (assoc (u "sub") claims) as [[]|]; try done. destruct (assoc (u "tenant_id") claims) as [[]|]; try done.
    intros [Hv ->]%construct_Ok. cbn [subject principal_tenant_id roles scopes].
    split_and!; try done. intros r. apply roles_of_names.
  - intros (Hsub & Ht & Hr & Hsc & Hv). rewrite Hsub, Ht.
    apply construct_Ok. enough (p = {| subject := subject p; principal_tenant_id := principal_tenant_id p;
      roles := list_to_set (omap of_value (OIDCAuthenticator.role_values claims));
      scopes := list_to_set (match assoc (u "scope") claims with Some (JStr raw) => split raw | _ => [] end) |}) as <-
      by done.
    apply principal_eq; try done; cbn [roles scopes]; [|by rewrite Hs].
    apply set_eq. intros r. by rewrite Hr, roles_of_names.
Qed.

Lemma verified_spec token claims :
  OIDCAuthenticator.verified_claims lib c token = Ok claims <->
  exists key, get_signing_key_from_jwt lib token = Ok key /\
    jwt_decode lib token key (OIDCAuthenticator.algorithm c) (OIDCAuthenticator.audience c)
      (OIDCAuthenticator.issuer c) OIDCAuthenticator.required_claims = Ok claims.
Proof.
  unfold OIDCAuthenticator.verified_claims. destruct (get_signing_key_from_jwt lib token) as [key|e]; simpl.
  - split; [by exists key|]. by intros (k & [= <-] & ?).
  - split; [done|]. by intros (k & ? & _).
Qed.

Lemma valid_strip x : len_between 1 255 (length (strip x)) = true -> has_text (strip x) = true.
Proof.
  intros Hx. rewrite strip_has_text. destruct (has_text x) eqn:E; [done|]. apply strip_nil in E. by rewrite E in Hx.
Qed.

Lemma development_spec h p :
  DevelopmentAuthenticator.authenticate h = Ok p <->
  subject p = strip (header "x-actor-id" h) /\ principal_tenant_id p = strip (header "x-tenant-id" h) /\
  (forall v, v ∈ named_roles h -> exists r : Role, v = value r) /\
  (forall r, r ∈ roles p <-> value r ∈ named_roles h) /\ scopes p = named_scopes h /\ valid_Principal p = true.
Proof.
  unfold DevelopmentAuthenticator.authenticate. fold (named_scopes h).
  pose proof (mapR_roles_spec (List.filter has_text (split_on comma [] (header "x-roles" h)))) as Hroles.
  fold (named_roles h) in Hroles. destruct (mapR DevelopmentAuthenticator.role_of _) as [rs|e].
  - pose proof (fun r => value_elem rs _ r Hroles) as Hin. cbn [DevelopmentAuthenticator.known_roles mbind result_bind]. split.
    + destruct (_ || _); [done|]. intros [Hv ->]%construct_Ok. cbn [subject principal_tenant_id roles scopes].
      split_and!; try done; [|intros r; by rewrite elem_of_list_to_set].
      intros v Hv'. rewrite <- Hroles in Hv'. apply list_elem_of_fmap in Hv' as (r & -> & _). by exists r.
    + intros (Hs & Ht & _ & Hr & Hsc & Hv). pose proof Hv as Hlen. unfold valid_Principal in Hlen.
      rewrite Hs, Ht, andb_true_iff in Hlen. destruct Hlen as [Hls Hlt]. rewrite !valid_strip by done. cbn [negb orb].
      apply construct_Ok. enough (p = {| subject := strip (header "x-actor-id" h);
        principal_tenant_id := strip (header "x-tenant-id" h); roles := list_to_set rs; scopes := named_scopes h |}) as <-
        by done.
      apply principal_eq; try done. cbn [roles]. apply set_eq. intros r. by rewrite Hr, elem_of_list_to_set.
  - destruct Hroles as [[m ->] (v & Hv & Hn)]. cbn [DevelopmentAuthenticator.known_roles mbind result_bind].
    split; [by destruct (_ || _)|]. intros (_ & _ & Hk & _). destruct (Hk v Hv) as [r ->]. by destruct (Hn r).
Qed.

(** C36. A principal rests on the credentials alone. The OpenID Connect authenticator answers a
    principal exactly for the subject, tenant, known roles and scopes among the claims of a
    bearer token that the library verifies for the configured algorithm, audience and issuer, and
    it reads no other header. The development authenticator answers exactly the stripped actor
    and tenant headers, and no principal at all if one of the named roles is unknown. *)
Theorem principal_rests_on_credentials h p :
  (OIDCAuthenticator.authenticate lib c h = Ok p <->
   exists token claims key, OIDCAuthenticator.bearer_token h = Ok token /\
     get_signing_key_from_jwt lib token = Ok key /\
     jwt_decode lib token key (OIDCAuthenticator.algorithm c) (OIDCAuthenticator.audience c)
       (OIDCAuthenticator.issuer c) OIDCAuthenticator.required_claims = Ok claims /\
     assoc (u "sub") claims = Some (JStr (subject p)) /\
     assoc (u "tenant_id") claims = Some (JStr (principal_tenant_id p)) /\
     (forall r, r ∈ roles p <-> value r ∈ OIDCAuthenticator.role_values claims) /\
     scopes p = match assoc (u "scope") claims with Some (JStr s) => list_to_set (split s) | _ => ∅ end /\
     valid_Principal p = true) /\
  (forall h', header "authorization" h' = header "authorization" h ->
     OIDCAuthenticator.authenticate lib c h' = OIDCAuthenticator.authenticate lib c h) /\
  (DevelopmentAuthenticator.authenticate h = Ok p <->
   subject p = strip (header "x-actor-id" h) /\ principal_tenant_id p = strip (header "x-tenant-id" h) /\
   (forall v, v ∈ named_roles h -> exists r : Role, v = value r) /\
   (forall r, r ∈ roles p <-> value r ∈ named_roles h) /\ scopes p = named_scopes h /\ valid_Principal p = true).
Proof.
  split; [|split; [|apply development_spec]].
  - unfold OIDCAuthenticator.authenticate. split.
    + destruct (OIDCAuthenticator.bearer_token h) as [token|e]; [|done]. cbn [mbind result_bind].
      destruct (OIDCAuthenticator.verified_claims lib c token) as [claims|e] eqn:Ev; [|done]. cbn [mbind result_bind].
      apply verified_spec in Ev as (key & Hkey & Hdecode). intros Hp%claims_spec. by exists token, claims, key.
    + intros (token & claims & key & -> & Hkey & Hdecode & Hp). cbn [mbind result_bind].
      rewrite (proj2 (verified_spec token claims)) by (by exists key). by apply claims_spec.
  - intros h' Hh. unfold OIDCAuthenticator.authenticate, OIDCAuthenticator.bearer_token. by rewrite Hh.
Qed.
End guarantees.


(** ** Concrete credentials *)

Section example.

(** A library that accepts one token for one issuer and audience. *)
Definition test_claims : claims_object :=
  [(u "iss", JStr (u "https://identity.example.com/")); (u "sub", JStr (u "ana@example.com"));
   (u "tenant_id", JStr (u "acme")); (u "roles", JArr [JStr (u "analyst"); JStr (u "superuser"); JNull]);
   (u "realm_access", JObj [(u "roles", JArr [JStr (u "approver")])]); (u "scope", JStr (u "cases:read cases:write"))].

Definition test_library : TokenLibrary := {|
  signing_key := unit;
  get_signing_key_from_jwt token := if pystr_eqb token (u "abc") then Ok tt else Raise (OtherError (u "PyJWKClientError") []);
  jwt_decode token _ alg aud iss req :=
    if pystr_eqb alg (u "RS256") && pystr_eqb aud (u "api") then Ok test_claims
    else Raise (OtherError (u "InvalidAudienceError") []);
  is_jwt_error n := existsb (pystr_eqb n) [u "PyJWKClientError"; u "InvalidAudienceError"];
|}.

Definition test_config : OIDCAuthenticator.t := {|
  OIDCAuthenticator.issuer := u "https://identity.example.com/"; OIDCAuthenticator.audience := u "api";
  OIDCAuthenticator.jwks_url := u "https://identity.example.com/jwks"; OIDCAuthenticator.algorithm := u "RS256" |}.

#[local] Instance ascii_only : UnicodeLower := {| lower_other c := [c] |}.

Definition test_headers : headers :=
  [(u "authorization", u "Bearer abc"); (u "x-actor-id", u " ana "); (u "x-tenant-id", u "acme");
   (u "x-roles", u "approver, analyst,"); (u "x-scopes", u "cases:read")].

Definition test_principal : Principal := {|
  subject := u "ana@example.com"; principal_tenant_id := u "acme"; roles := {[ANALYST; APPROVER]};
  scopes := {[u "cases:read"; u "cases:write"]} |}.

(** Every header but [Authorization] may claim anything. *)
Lemma principal_rests_on_credentials_witness :
  OIDCAuthenticator.authenticate test_library test_config [(u "authorization", u "Bearer abc"); (u "x-roles", u "admin")]
    = Ok test_principal /\
  DevelopmentAuthenticator.authenticate test_headers
    = Ok {| subject := u "ana"; principal_tenant_id := u "acme"; roles := {[APPROVER; ANALYST]};
            scopes := {[u "cases:read"]} |}.
Proof.
  split.
  - destruct (principal_rests_on_credentials test_library test_config test_headers test_principal) as (_ & Hsame & _).
    rewrite Hsame by reflexivity. vm_compute. reflexivity.
  - vm_compute. reflexivity.
Defined.

Example refusals :
  OIDCAuthenticator.authenticate test_library test_config [(u "authorization", u "Bearer xyz")]
    = Raise OIDCAuthenticator.token_invalid /\
  OIDCAuthenticator.authenticate test_library test_config [(u "authorization", u "Basic abc")]
    = Raise OIDCAuthenticator.token_required /\
  DevelopmentAuthenticator.authenticate ((u "x-roles", u "superuser") :: test_headers)
    = Raise (AuthenticationError (u "X-Roles contains an unknown role")).
Proof. vm_compute. done. Qed.

(** A verified token with an empty subject passes the string check and is refused by the
    model, whose error the callers do not handle. *)
Example empty_subject_unhandled :
  OIDCAuthenticator.principal_from_claims [(u "sub", JStr []); (u "tenant_id", JStr (u "acme"))]
    = Raise (ValidationError (u "validation_error")).
Proof. reflexivity. Qed.
End example.
