(* ===== verification/ModelGateway.v ===== *)
(** * Model backends

    [packages/model_gateway]: the request and backend contracts, the deterministic
    backend with its marker rules, the three remote adapters over their clients, and
    the factory.  A backend answers with the text of a JSON document; reading and
    writing such texts is Pydantic's and a parameter with the round trip the
    program relies on. *)
From S2P Require Import Prelude PyStr Uuid Effects Json Schemas SchemaJson Governance.
Local Open Scope py_scope.

(** ** JSON texts *)

Definition finite_float (f : float64) : bool :=
  match f with SpecFloat.S754_zero _ | SpecFloat.S754_finite _ _ _ => true | _ => false end.

(** A value that a JSON text can carry: finite numbers and distinct keys. *)
Fixpoint plain (j : json) : bool :=
  match j with
  | JFloat f => finite_float f
  | JArr l => forallb plain l
  | JObj fields => bool_decide (NoDup fields.*1) && forallb (fun kv => plain kv.2) fields
  | _ => true
  end.

(** [model_dump_json], [model_validate_json] on texts, [str] of a value that is not a
    string, and [json.dumps(separators=(",", ":"))]. *)
Class JsonText := {
  json_text : json -> pystr;
  json_value : pystr -> option json;
  json_value_text : forall j, plain j = true -> json_value (json_text j) = Some j;
  repr : json -> pystr;
  compact_dumps : json -> pystr;
}.

(** [Model.model_validate_json(raw)] *)
Definition validate_json `{JsonText} {A} (validate : json -> result A) (raw : pystr) : result A :=
  j ← of_option (ValidationError (u "json_invalid")) (json_value raw); validate j.

(** ** Contracts *)

Record ModelRequest := {
  task : ModelTask;
  system_prompt : pystr;
  user_prompt : pystr;
  context : list (pystr * json);
  schema_name : pystr;
  response_schema : json;
}.

(** [ModelBackend]: [generate] gives the answers of the provider during one invocation. *)
Record ModelBackend := {
  backend_name : pystr;
  generate : ModelRequest -> result pystr;
}.

(** ** The deterministic backend *)

Module DeterministicBackend.

(** One entry of [_rules]. *)
Record Rule := {
  terms : list pystr;
  absence : bool;
  rule_severity : Severity;
  title : pystr;
  rule_summary : pystr;
  rule_remediation : pystr;
}.

Definition rules (c : RiskCategory) : list Rule :=
  match c with
  | SECURITY => [
      {| terms := [u "shared credentials"; u "shared password"]; absence := false; rule_severity := CRITICAL;
         title := u "Shared credentials are permitted";
         rule_summary := u "The supplied security material permits shared credentials.";
         rule_remediation := u "Require named accounts and enforced multi-factor authentication." |};
      {| terms := [u "soc 2"; u "iso 27001"]; absence := true; rule_severity := MEDIUM;
         title := u "Independent security assurance is missing";
         rule_summary := u "No SOC 2 or ISO 27001 assurance was found.";
         rule_remediation := u "Obtain a current SOC 2 Type II report or ISO 27001 certificate." |}]
  | LEGAL => [
      {| terms := [u "unlimited liability"]; absence := false; rule_severity := HIGH;
         title := u "Unlimited liability clause";
         rule_summary := u "The contract includes an unlimited liability obligation.";
         rule_remediation := u "Negotiate a proportionate aggregate liability cap." |};
      {| terms := [u "automatic renewal"; u "auto-renewal"]; absence := false; rule_severity := MEDIUM;
         title := u "Automatic renewal requires control";
         rule_summary := u "The agreement renews automatically without an explicit review gate.";
         rule_remediation := u "Add a renewal notice and owner review requirement." |}]
  | FINANCIAL => [
      {| terms := [u "going concern"; u "negative cash flow"]; absence := false; rule_severity := HIGH;
         title := u "Financial continuity concern";
         rule_summary := u "The financial evidence contains a business continuity warning.";
         rule_remediation := u "Obtain current financial statements and a continuity mitigation plan." |}]
  end.

(** The literals 0.96, 0.82 and 0.9. *)
Definition f_0_96 : float64 := SpecFloat.S754_finite false 8646911284551352 (-53).
Definition f_0_82 : float64 := SpecFloat.S754_finite false 7385903388887613 (-53).
Definition f_0_9 : float64 := SpecFloat.S754_finite false 8106479329266893 (-53).

Definition attribute_error : exn := OtherError (u "AttributeError") (u "get").
Definition type_error : exn := OtherError (u "TypeError") (u "not iterable").

(** [for item in value] *)
Definition iterate (j : json) : result (list json) :=
  match j with
  | JArr l => Ok l
  | JStr s => Ok ((fun c => JStr [c]) <$> s)
  | JObj fields => Ok ((fun kv => JStr kv.1) <$> fields)
  | _ => Raise type_error
  end.

(** [item.get(k)] *)
Definition get (k : string) (j : json) : result (option json) :=
  match j with JObj fields => Ok (assoc (u k) fields) | _ => Raise attribute_error end.

Section backend.
Context `{JsonText} `{UnicodeLower} (uuid5 : UUID -> pystr -> UUID).

(** [str(value)] *)
Definition str (j : json) : pystr := match j with JStr s => s | JNull => u "None" | _ => repr j end.

(** [str(item.get("content", ""))] *)
Definition content_of (item : json) : result pystr :=
  v ← get "content" item; Ok (match v with Some j => str j | None => [] end).

(** [_find_evidence] for a term; the source is a [str] or [None], or Pydantic refuses it. *)
Fixpoint find_evidence (items : list json) (term : pystr) : result (list Evidence) :=
  match items with
  | [] => Ok []
  | item :: items' =>
      content ← content_of item;
      if contains term (lower content)
      then
        t ← get "title" item;
        source ← get "source_uri" item;
        source_uri ← dec_opt dec_str (default JNull source);
        e ← construct valid_Evidence {|
          ev_document_title := match t with Some j => str j | None => u "Document" end;
          ev_quote := take 1000 content; ev_source_uri := source_uri |};
        Ok [e]
      else find_evidence items' term
  end.

Definition matched (r : Rule) (combined : pystr) : option pystr :=
  List.find (fun term => contains term combined) (terms r).

(** The identifier's name; [context.get('case_id')] is formatted as is. *)
Definition finding_name (ctx : list (pystr * json)) (c : RiskCategory) (r : Rule) : pystr :=
  str (default JNull (assoc (u "case_id") ctx)) ++ u ":" ++ value c ++ u ":" ++ title r.

(** One iteration of the loop of [_review]. *)
Definition apply_rule (c : RiskCategory) (ctx : list (pystr * json)) (items : list json) (combined : pystr)
    (r : Rule) : result (list Finding) :=
  match matched r combined, absence r with
  | None, false => Ok []
  | Some _, true => Ok []
  | m, _ =>
      ev ← match m with Some term => find_evidence items term | None => Ok [] end;
      f ← construct valid_Finding {|
        finding_id := uuid5 NAMESPACE_URL (finding_name ctx c r);
        category := c; severity := rule_severity r; finding_title := title r; summary := rule_summary r;
        evidence := ev; remediation := rule_remediation r;
        finding_confidence := match ev with [] => f_0_82 | _ => f_0_96 end |};
      Ok [f]
  end.

(** [_review] *)
Definition review (c : RiskCategory) (ctx : list (pystr * json)) : result (list Finding) :=
  items ← iterate (default (JArr []) (assoc (u "documents") ctx));
  contents ← mapR content_of items;
  let combined := lower (join [newline] contents) in
  found ← mapR (apply_rule c ctx items combined) (rules c);
  Ok (concat found).

(** [min(..., default=0.9)]: the first smallest. *)
Definition least_confidence (fs : list Finding) : float64 :=
  match fs with
  | [] => f_0_9
  | f :: fs => fold_left (fun m f => if flt (finding_confidence f) m then finding_confidence f else m) fs (finding_confidence f)
  end.

Definition decision_of (fs : list Finding) : Decision :=
  let severities := severity <$> fs in
  if bool_decide (CRITICAL ∈ severities) then ESCALATE
  else if bool_decide (HIGH ∈ severities) || bool_decide (MEDIUM ∈ severities) then REMEDIATE
  else APPROVE.

Definition rationale_of (fs : list Finding) : pystr :=
  match fs with
  | [] => u "No material risks were identified in the supplied evidence."
  | _ => u "The review identified " ++ str_int (Z.of_nat (length fs)) ++ u " finding(s) across "
         ++ str_int (Z.of_nat (length (remove_dups (category <$> fs)))) ++ u " risk domain(s)."
  end.

(** [_synthesize] *)
Definition synthesize (ctx : list (pystr * json)) : result Recommendation :=
  items ← iterate (default (JArr []) (assoc (u "findings") ctx));
  fs ← mapR validate_Finding items;
  construct valid_Recommendation {|
    rec_decision := decision_of fs; rec_rationale := rationale_of fs;
    rec_required_actions := remediation <$> fs; rec_confidence := least_confidence fs |}.

(** The dictionary of [generate]. *)
Definition category_of (t : ModelTask) : option RiskCategory :=
  match t with
  | SECURITY_REVIEW => Some SECURITY
  | LEGAL_REVIEW => Some LEGAL
  | FINANCIAL_REVIEW => Some FINANCIAL
  | SYNTHESIZE => None
  end.

Definition generate (r : ModelRequest) : result pystr :=
  match category_of (task r) with
  | None => rec ← synthesize (context r); Ok (json_text (dump_Recommendation rec))
  | Some c => fs ← review c (context r); Ok (json_text (dump_FindingBatch fs))
  end.

Definition backend : ModelBackend := {| backend_name := u "deterministic"; ModelGateway.generate := generate |}.
End backend.

End DeterministicBackend.

(** ** Searching *)

Lemma startswith_spec p s : startswith p s = true <-> exists b, s = p ++ b.
Proof.
  revert s. induction p as [|c p IH]; intros s; simpl; [split; [by exists s|done]|].
  destruct s as [|d s]; [split; [done|by intros (b & ?)]|]. rewrite andb_true_iff, N.eqb_eq, IH. split.
  - intros [-> (b & ->)]. by exists b.
  - intros (b & [= -> ->]). split; [done|by exists b].
Qed.

Lemma contains_spec p s : contains p s = true <-> exists a b, s = a ++ p ++ b.
Proof.
  induction s as [|c s IH]; simpl.
  - rewrite orb_false_r, startswith_spec. split; [intros (b & Hb); by exists [], b|].
    intros (a & b & Hb). destruct a; [by exists b|done].
  - rewrite orb_true_iff, startswith_spec, IH. split.
    + intros [(b & Hb)|(a & b & Hb)]; [by exists [], b|]. exists (c :: a), b. by rewrite Hb.
    + intros ([|d a] & b & Hb); [left; by exists b|]. right. injection Hb as -> Hb. by exists a, b.
Qed.

(** A term without line breaks lies on one side of a line break. *)
Lemma contains_app_newline p a b :
  newline ∉ p -> contains p (a ++ newline :: b) = contains p a || contains p b.
Proof.
  intros Hp. apply eq_true_iff_eq. rewrite orb_true_iff, !contains_spec. split.
  - intros (l1 & l2 & Heq). symmetry in Heq.
    apply app_eq_inv in Heq as [(k & Hl & Hk)|(k & Hl & Hk)].
    + destruct k as [|x k]; [simpl in Hk|].
      * right. destruct p as [|x p]; [by exists [], b|]. injection Hk as <- _. set_solver.
      * injection Hk as <- Hk. right. exists k, l2. done.
    + apply app_eq_inv in Hk as [(k' & Hp' & Hk')|(k' & Hp' & Hk')].
      * destruct k' as [|x k']; [|injection Hk' as <- _; rewrite Hp' in Hp; set_solver].
        rewrite app_nil_r in Hp'. subst k. left. exists l1, []. by rewrite app_nil_r.
      * left. exists l1, k'. by rewrite Hl, Hp'.
  - intros [(l1 & l2 & ->)|(l1 & l2 & ->)].
    + exists l1, (l2 ++ newline :: b). by rewrite <- !app_assoc.
    + exists (a ++ newline :: l1), l2. by rewrite <- app_assoc.
Qed.

Lemma contains_join p cs :
  newline ∉ p -> p <> [] -> contains p (join [newline] cs) = existsb (contains p) cs.
Proof.
  intros Hp Hne. induction cs as [|c cs IH]; [by destruct p|]. destruct cs as [|c' cs].
  - simpl. by rewrite orb_false_r.
  - change (join [newline] (c :: c' :: cs)) with (c ++ newline :: join [newline] (c' :: cs)).
    rewrite contains_app_newline by done. by rewrite IH.
Qed.

Lemma lower_join `{UnicodeLower} cs : lower (join [newline] cs) = join [newline] (lower <$> cs).
Proof.
  induction cs as [|c cs IH]; [done|]. destruct cs as [|c' cs]; [done|].
  change (join [newline] (c :: c' :: cs)) with (c ++ newline :: join [newline] (c' :: cs)).
  change (join [newline] (lower <$> c :: c' :: cs)) with (lower c ++ newline :: join [newline] (lower <$> c' :: cs)).
  rewrite <- IH. unfold lower. by rewrite bind_app.
Qed.

(** ** Dumps are plain *)

Lemma unit_interval_finite f : unit_interval f = true -> finite_float f = true.
Proof. destruct f as [s|s| |s m e]; try done; by destruct s. Qed.

Lemma plain_list {A} (dump : A -> json) l : (forall x, x ∈ l -> plain (dump x) = true) -> plain (enc_list dump l) = true.
Proof. intros Hl. simpl. apply forallb_forall. intros j Hj%list_elem_of_In%list_elem_of_fmap. destruct Hj as (x & -> & ?). by apply Hl. Qed.

Lemma plain_opt {A} (dump : A -> json) o : (forall x, plain (dump x) = true) -> plain (enc_opt dump o) = true.
Proof. intros Hl. destruct o; simpl; auto. Qed.

Lemma plain_obj fields :
  bool_decide (NoDup fields.*1) = true -> forallb (fun kv => plain kv.2) fields = true -> plain (JObj fields) = true.
Proof. simpl. by intros -> ->. Qed.

Lemma plain_dump_Evidence e : plain (dump_Evidence e) = true.
Proof. apply plain_obj; [vm_compute; reflexivity|]. simpl. by rewrite plain_opt. Qed.

Lemma plain_dump_Finding f : valid_Finding f = true -> plain (dump_Finding f) = true.
Proof.
  intros [_ Hc%unit_interval_finite]%andb_prop. apply plain_obj; [vm_compute; reflexivity|]. cbn [forallb snd].
  rewrite plain_list by (intros; apply plain_dump_Evidence). simpl. by rewrite Hc.
Qed.

Lemma plain_dump_FindingBatch fs : forallb valid_Finding fs = true -> plain (dump_FindingBatch fs) = true.
Proof.
  intros Hv. apply plain_obj; [vm_compute; reflexivity|]. cbn [forallb snd]. rewrite plain_list; [done|].
  intros f Hf. apply plain_dump_Finding. by eapply forallb_elem.
Qed.

Lemma plain_dump_Recommendation r : valid_Recommendation r = true -> plain (dump_Recommendation r) = true.
Proof.
  intros Hc%unit_interval_finite. apply plain_obj; [vm_compute; reflexivity|]. cbn [forallb snd].
  rewrite plain_list by done. simpl. by rewrite Hc.
Qed.

Section texts.
Context `{JsonText}.

Lemma validate_FindingBatch_text fs :
  forallb valid_Finding fs = true -> validate_json validate_FindingBatch (json_text (dump_FindingBatch fs)) = Ok fs.
Proof.
  intros Hv. unfold validate_json. rewrite json_value_text by (by apply plain_dump_FindingBatch). cbn [of_option mbind result_bind].
  unfold validate_FindingBatch, dump_FindingBatch. rewrite model_fields_ok by reflexivity. cbn [mbind result_bind].
  rewrite field_here. apply dec_enc_list. intros f Hf. apply validate_dump_Finding. by eapply forallb_elem.
Qed.

Lemma validate_Recommendation_text r :
  valid_Recommendation r = true -> validate_json validate_Recommendation (json_text (dump_Recommendation r)) = Ok r.
Proof.
  intros Hv. unfold validate_json. rewrite json_value_text by (by apply plain_dump_Recommendation).
  by apply validate_dump_Recommendation.
Qed.
End texts.
