(* ===== verification/JsonTextCode.v ===== *)
(** * A concrete text of JSON values

    A prefix code that satisfies the law of [JsonText], so that theorems about any
    reading and writing of JSON texts can be run.  Every value is a tag, its lengths
    and its parts; the decoder takes fuel, and the length of the text is enough. *)
From S2P Require Import Prelude PyStr Uuid Effects Json ModelGateway.
From Stdlib Require Import SpecFloat.

Section json_induction.
Context (P : json -> Prop).
Context (P_leaf : forall j, match j with JArr _ | JObj _ => False | _ => True end -> P j).
Context (P_arr : forall l, Forall P l -> P (JArr l)).
Context (P_obj : forall fields, Forall (fun kv => P kv.2) fields -> P (JObj fields)).

(** Induction with a hypothesis for every part of an array or an object. *)
Fixpoint json_parts_ind (j : json) : P j :=
  match j with
  | JArr l => P_arr l ((fix go l := match l return Forall P l with
                                    | [] => Forall_nil_2 P
                                    | x :: l => Forall_cons_2 P x l (json_parts_ind x) (go l)
                                    end) l)
  | JObj fields => P_obj fields ((fix go l := match l return Forall (fun kv => P kv.2) l with
                                    | [] => Forall_nil_2 _
                                    | kv :: l => Forall_cons_2 _ kv l (json_parts_ind kv.2) (go l)
                                    end) fields)
  | j => P_leaf j I
  end.
End json_induction.

(** ** Numbers *)

Definition code_Z (z : Z) : pystr := [if (z <? 0)%Z then 1%N else 0%N; Z.abs_N z].
Definition decode_Z (s : pystr) : option (Z * pystr) :=
  match s with
  | n :: a :: s => Some (if (n =? 1)%N then (- Z.of_N a)%Z else Z.of_N a, s)
  | _ => None
  end.

Definition code_bool (b : bool) : N := if b then 1%N else 0%N.

Definition code_float (f : float64) : pystr :=
  match f with
  | S754_zero s => [0%N; code_bool s; 0%N; 0%N; 0%N]
  | S754_infinity s => [1%N; code_bool s; 0%N; 0%N; 0%N]
  | S754_nan => [2%N; 0%N; 0%N; 0%N; 0%N]
  | S754_finite s m e => [3%N; code_bool s; N.pos m] ++ code_Z e
  end.

Definition decode_float (s : pystr) : option (float64 * pystr) :=
  match s with
  | k :: b :: m :: s =>
      match decode_Z s with
      | Some (e, s) =>
          Some (match k with
                | 0 => S754_zero (b =? 1)
                | 1 => S754_infinity (b =? 1)
                | 3 => match m with N.pos m => S754_finite (b =? 1) m e | N0 => S754_nan end
                | _ => S754_nan
                end%N, s)
      | None => None
      end
  | _ => None
  end.

(** ** Values *)

Definition code_str (s : pystr) : pystr := N.of_nat (length s) :: s.

Definition decode_str (s : pystr) : option (pystr * pystr) :=
  match s with n :: s => Some (take (N.to_nat n) s, drop (N.to_nat n) s) | [] => None end.

Fixpoint code (j : json) : pystr :=
  match j with
  | JNull => [0%N]
  | JBool b => [1%N; code_bool b]
  | JInt z => 2%N :: code_Z z
  | JFloat f => 3%N :: code_float f
  | JStr s => 4%N :: code_str s
  | JArr l => 5%N :: N.of_nat (length l) :: (l ≫= code)
  | JObj fields => 6%N :: N.of_nat (length fields) :: (fields ≫= fun kv => code_str kv.1 ++ code kv.2)
  end.

(** [n] parts read by [dec]. *)
Fixpoint decode_parts {A} (dec : pystr -> option (A * pystr)) (n : nat) (s : pystr) : option (list A * pystr) :=
  match n with
  | O => Some ([], s)
  | S n => match dec s with
           | Some (x, s) => match decode_parts dec n s with
                            | Some (xs, s) => Some (x :: xs, s)
                            | None => None
                            end
           | None => None
           end
  end.

Fixpoint decode (fuel : nat) (s : pystr) : option (json * pystr) :=
  match fuel with
  | O => None
  | S fuel =>
      match s with
      | 0%N :: s => Some (JNull, s)
      | 1%N :: b :: s => Some (JBool (b =? 1)%N, s)
      | 2%N :: s => match decode_Z s with Some (z, s) => Some (JInt z, s) | None => None end
      | 3%N :: s => match decode_float s with Some (f, s) => Some (JFloat f, s) | None => None end
      | 4%N :: s => match decode_str s with Some (t, s) => Some (JStr t, s) | None => None end
      | 5%N :: n :: s =>
          match decode_parts (decode fuel) (N.to_nat n) s with Some (l, s) => Some (JArr l, s) | None => None end
      | 6%N :: n :: s =>
          match decode_parts (fun s => match decode_str s with
                                       | Some (k, s) => match decode fuel s with
                                                        | Some (v, s) => Some ((k, v), s)
                                                        | None => None
                                                        end
                                       | None => None
                                       end) (N.to_nat n) s
          with Some (l, s) => Some (JObj l, s) | None => None end
      | _ => None
      end
  end.

Lemma decode_code_Z z s : decode_Z (code_Z z ++ s) = Some (z, s).
Proof. unfold code_Z. simpl. f_equal. f_equal. destruct (Z.ltb_spec z 0); simpl; lia. Qed.

Lemma code_bool_eqb b : (code_bool b =? 1)%N = b.
Proof. by destruct b. Qed.

Lemma decode_code_float f s : decode_float (code_float f ++ s) = Some (f, s).
Proof.
  destruct f as [b|b| |b m e]; [by destruct b|by destruct b|done|].
  change (code_float (S754_finite b m e) ++ s) with (3%N :: code_bool b :: N.pos m :: (code_Z e ++ s)).
  unfold decode_float. by rewrite decode_code_Z, code_bool_eqb.
Qed.

Lemma decode_code_str t s : decode_str (code_str t ++ s) = Some (t, s).
Proof. unfold code_str. cbn [app decode_str]. by rewrite Nat2N.id, take_app_length, drop_app_length. Qed.

Lemma decode_parts_ok {A} (dec : pystr -> option (A * pystr)) (cd : A -> pystr) l s :
  (forall x s, x ∈ l -> dec (cd x ++ s) = Some (x, s)) ->
  decode_parts dec (length l) ((l ≫= cd) ++ s) = Some (l, s).
Proof.
  induction l as [|x l IH]; intros Hdec; [done|]. rewrite bind_cons, <- app_assoc. cbn [length decode_parts].
  rewrite Hdec by (by left). rewrite IH; [done|]. intros y t Hy. apply Hdec. by right.
Qed.

(** The length of a code is enough fuel. *)
Lemma decode_code j : forall fuel s, length (code j) <= fuel -> decode fuel (code j ++ s) = Some (j, s).
Proof.
  assert (Hlen : forall {A} (cd : A -> pystr) l x, x ∈ l -> length (cd x) <= length (l ≫= cd)).
  { intros A cd l x Hx. induction l as [|y l IH]; [by apply elem_of_nil in Hx|]. rewrite bind_cons, length_app.
    apply elem_of_cons in Hx as [->|Hx]; [lia|]. specialize (IH Hx). lia. }
  induction j as [j Hj|l IH|fields IH] using json_parts_ind; intros [|fuel] s Hf;
    try (exfalso; destruct j; simpl in Hf; lia || done); try (simpl in Hf; lia).
  - destruct j as [|b|z|f|t| |]; try done.
    + cbn [code app decode]. by rewrite code_bool_eqb.
    + cbn [code app decode]. by rewrite decode_code_Z.
    + cbn [code app decode]. by rewrite decode_code_float.
    + cbn [code app decode]. by rewrite decode_code_str.
  - cbn [code app decode length] in *. rewrite Nat2N.id, decode_parts_ok; [done|].
    intros x t Hx. rewrite Forall_forall in IH. apply IH; [done|]. apply (Nat.le_trans _ _ _ (Hlen _ code l x Hx)), Nat.lt_le_incl, le_S_n, Hf.
  - cbn [code app decode length] in *. rewrite Nat2N.id.
    rewrite (decode_parts_ok _ (fun kv => code_str kv.1 ++ code kv.2)); [done|].
    intros [k v] t Hx. cbn [fst snd]. rewrite <- app_assoc, decode_code_str. rewrite Forall_forall in IH.
    rewrite (IH (k, v) Hx); [done|]. pose proof (Hlen _ (fun kv => code_str kv.1 ++ code kv.2) fields _ Hx) as Hl.
    cbn [fst snd] in Hl. rewrite length_app in Hl.
    apply (Nat.le_trans _ _ _ (Nat.le_add_l (length (code v)) (length (code_str k)))) in Hl.
    apply (Nat.le_trans _ _ _ Hl), Nat.lt_le_incl, le_S_n, Hf.
Qed.

#[export, refine] Instance prefix_code : JsonText := {|
  json_text := code;
  json_value s := match decode (length s) s with Some (j, []) => Some j | _ => None end;
  repr := code;
  compact_dumps := code;
|}.
Proof.
  intros j _. pose proof (decode_code j (length (code j)) [] (le_n _)) as Hd. rewrite app_nil_r in Hd. by rewrite Hd.
Defined.

#[export] Instance ascii_only : UnicodeLower := {| lower_other c := [c] |}.
