(* ===== verification/RemoteModels.v ===== *)
(** * The remote model adapters

    [openai_responses.py], [litellm.py], [bedrock_converse.py] and [factory.py] of
    [packages/model_gateway].  The provider clients are parameters: functions from
    the request the adapter sends to the answer. *)
From S2P Require Import Prelude PyStr Uuid Effects Json Schemas ModelGateway.
Local Open Scope py_scope.

(** What [client.responses.create] is called with; [store] is absent when it is not passed. *)
Record ResponsesRequest := {
  rq_model : pystr;
  rq_instructions : pystr;
  rq_input : pystr;
  rq_store : option bool;
  rq_format_name : pystr;
  rq_strict : bool;
  rq_schema : json;
}.

(** The client answers [str(response.output_text)] or raises.  An adapter is given what
    building its client comes to: [AsyncOpenAI(...)] and [boto3.client(...)] may raise too. *)
Abbreviation ResponsesClient := (ResponsesRequest -> result pystr).

Module OpenAIResponsesBackend.
(** [__init__] and [generate] *)
Definition backend (openai : result ResponsesClient) (api_key model : pystr) : result ModelBackend :=
  match api_key with
  | [] => Raise (ValueError (u "OPENAI_API_KEY is required when MODEL_BACKEND=openai"))
  | _ => client ← openai; Ok {|
      backend_name := u "openai-responses";
      generate request := client {|
        rq_model := model; rq_instructions := system_prompt request; rq_input := user_prompt request;
        rq_store := Some false; rq_format_name := schema_name request; rq_strict := true;
        rq_schema := response_schema request |} |}
  end.
End OpenAIResponsesBackend.

Module LiteLLMBackend.
Definition backend (proxy : result ResponsesClient) (model_alias : pystr) : result ModelBackend :=
  client ← proxy; Ok {|
  backend_name := u "litellm";
  generate request := client {|
    rq_model := model_alias; rq_instructions := system_prompt request; rq_input := user_prompt request;
    rq_store := None; rq_format_name := schema_name request; rq_strict := true;
    rq_schema := response_schema request |} |}.
End LiteLLMBackend.

(** What [client.converse] is called with; the inference configuration is constant. *)
Record ConverseRequest := { cq_model_id : pystr; cq_system : pystr; cq_user : pystr }.

Abbreviation ConverseClient := (ConverseRequest -> result json).

Module BedrockConverseBackend.
Section backend.
Context `{JsonText}.

Definition key_error (k : string) : exn := OtherError (u "KeyError") (u k).

(** [value[k]] *)
Definition item (k : string) (j : json) : result json :=
  match j with
  | JObj fields => of_option (key_error k) (assoc (u k) fields)
  | _ => Raise DeterministicBackend.type_error
  end.

(** [str(block.get("text", ""))] *)
Definition text_of (block : json) : result pystr :=
  v ← DeterministicBackend.get "text" block; Ok (match v with Some j => DeterministicBackend.str j | None => [] end).

Definition prompt (request : ModelRequest) : pystr :=
  user_prompt request ++ [newline; newline] ++ u "Return only JSON matching this schema:" ++ [newline]
  ++ compact_dumps (response_schema request).

Definition backend (bedrock : result ConverseClient) (model_id : pystr) : result ModelBackend :=
  match model_id with
  | [] => Raise (ValueError (u "BEDROCK_MODEL_ID is required when MODEL_BACKEND=bedrock"))
  | _ => client ← bedrock; Ok {|
      backend_name := u "bedrock-converse";
      generate request :=
        response ← client {| cq_model_id := model_id; cq_system := system_prompt request; cq_user := prompt request |};
        output ← item "output" response;
        message ← item "message" output;
        content ← item "content" message;
        blocks ← DeterministicBackend.iterate content;
        texts ← mapR text_of blocks;
        Ok (concat texts) |}
  end.
End backend.
End BedrockConverseBackend.

(** [create_model_backend]; the settings it reads, with the clients they configure. *)
Record ModelSettings := {
  model_backend : pystr;
  openai_api_key : pystr;
  openai_model : pystr;
  bedrock_model_id : pystr;
  model_alias : pystr;
}.

Definition create_model_backend `{JsonText} `{UnicodeLower} (uuid5 : UUID -> pystr -> UUID)
    (openai litellm : result ResponsesClient) (bedrock : result ConverseClient) (s : ModelSettings) : result ModelBackend :=
  if pystr_eqb (model_backend s) (u "openai")
  then OpenAIResponsesBackend.backend openai (openai_api_key s) (openai_model s)
  else if pystr_eqb (model_backend s) (u "bedrock")
  then BedrockConverseBackend.backend bedrock (bedrock_model_id s)
  else if pystr_eqb (model_backend s) (u "litellm")
  then LiteLLMBackend.backend litellm (model_alias s)
  else Ok (DeterministicBackend.backend uuid5).
