(* ===== verification/ModelTheorems.v ===== *)
(** * What the model backends answer

    The deterministic backend answers valid documents and findings with valid models,
    decided by its rules; the remote adapters send the prompts of a request and
    never its context. *)
From S2P Require Import Prelude PyStr Uuid Effects Json Schemas SchemaJson Governance ModelGateway JsonTextCode RemoteModels.
Import DeterministicBackend.
Local Open Scope py_scope.

Section deterministic.
Context `{JsonText} `{UnicodeLower} (uuid5 : UUID -> pystr -> UUID).

(** ** The specification of the rules *)

Definition mentions (term : pystr) (d : DocumentInput) : bool := contains term (lower (doc_content d)).

(** A marker rule fires when some document mentions one of its terms, an absence
    rule when none does. *)
Definition mentioned (docs : list DocumentInput) (r : Rule) : bool :=
  existsb (fun term => existsb (mentions term) docs) (terms r).
Definition fires (docs : list DocumentInput) (r : Rule) : bool := xorb (absence r) (mentioned docs r).

(** The beginning of a document, quoted. *)
Definition quote_of (d : DocumentInput) : Evidence := {|
  ev_document_title := doc_title d; ev_quote := take 1000 (doc_content d); ev_source_uri := doc_source_uri d |}.

(** The finding of a rule: fixed by the rule and the case but for its evidence, which
    quotes the beginning of a document that mentions a term of a marker rule. *)
Record rule_finding (c : RiskCategory) (ctx : list (pystr * json)) (docs : list DocumentInput) (r : Rule)
    (f : Finding) : Prop := {
  rf_id : finding_id f = uuid5 NAMESPACE_URL (finding_name ctx c r);
  rf_category : category f = c;
  rf_severity : severity f = rule_severity r;
  rf_title : finding_title f = title r;
  rf_remediation : remediation f = rule_remediation r;
  rf_evidence :
    if absence r then evidence f = [] /\ finding_confidence f = f_0_82
    else finding_confidence f = f_0_96 /\
      exists d term, d ∈ docs /\ term ∈ terms r /\ mentions term d = true /\
        evidence f = [quote_of d];
}.

(** ** The loop *)

Lemma contents_of_docs docs : mapR content_of (dump_DocumentInput <$> docs) = Ok (doc_content <$> docs).
Proof. apply mapR_fmap_ok. intros d _. reflexivity. Qed.

Lemma quote_valid d : valid_DocumentInput d = true -> valid_Evidence (quote_of d) = true.
Proof.
  intros [_ Hlen]%andb_prop. unfold len_at_least in Hlen. unfold valid_Evidence, len_between. cbn [quote_of ev_quote].
  rewrite length_take. apply Nat.leb_le in Hlen. apply andb_true_iff. rewrite !Nat.leb_le. lia.
Qed.

Lemma find_evidence_spec docs term :
  forallb valid_DocumentInput docs = true -> existsb (mentions term) docs = true ->
  exists d, d ∈ docs /\ mentions term d = true /\
    find_evidence (dump_DocumentInput <$> docs) term = Ok [quote_of d].
Proof.
  induction docs as [|d docs IH]; [done|]. cbn [forallb existsb]. intros [Hv Hvs]%andb_prop Hm.
  cbn [fmap list_fmap find_evidence]. change (content_of (dump_DocumentInput d)) with (Ok (doc_content d)).
  cbn [mbind result_bind]. fold (mentions term d). destruct (mentions term d) eqn:E.
  - exists d. split; [by left|]. split; [done|]. change (get "title" (dump_DocumentInput d)) with (Ok (Some (JStr (doc_title d)))).
    change (get "source_uri" (dump_DocumentInput d)) with (Ok (Some (enc_opt JStr (doc_source_uri d)))).
    cbn [mbind result_bind default from_option id]. rewrite dec_opt_str. cbn [mbind result_bind str].
    by rewrite construct_valid by (by apply quote_valid).
  - destruct IH as (d' & Hin & Hm' & Hrest); [done..|]. exists d'. split; [by right|]. done.
Qed.

Lemma rule_terms c r term : r ∈ rules c -> term ∈ terms r -> (newline ∉ term) /\ term <> [].
Proof.
  intros Hr Ht.
  assert (forallb (fun r => forallb (fun t => negb (existsb (N.eqb newline) t) && negb (bool_decide (t = []))) (terms r))
            (rules c) = true) as Hall by (destruct c; vm_compute; reflexivity).
  pose proof (forallb_elem _ _ _ (forallb_elem _ _ _ Hall Hr) Ht) as [Hn He]%andb_prop.
  split; [|intros ->; done]. intros Hin. apply negb_true_iff in Hn.
  assert (existsb (N.eqb newline) term = true) as Hx; [|congruence].
  apply existsb_exists. exists newline. split; [by apply list_elem_of_In|apply N.eqb_refl].
Qed.

Lemma contains_combined c r docs term :
  r ∈ rules c -> term ∈ terms r ->
  contains term (lower (join [newline] (doc_content <$> docs))) = existsb (mentions term) docs.
Proof.
  intros Hr Ht. destruct (rule_terms c r term Hr Ht). rewrite lower_join, contains_join by done.
  induction docs as [|d docs IH]; [done|]. cbn [fmap list_fmap existsb]. f_equal. exact IH.
Qed.

Lemma matched_spec c r docs :
  r ∈ rules c ->
  match matched r (lower (join [newline] (doc_content <$> docs))) with
  | Some term => term ∈ terms r /\ existsb (mentions term) docs = true /\ mentioned docs r = true
  | None => mentioned docs r = false
  end.
Proof.
  intros Hr. unfold matched, mentioned. destruct (List.find _ (terms r)) as [term|] eqn:E.
  - apply List.find_some in E as [Hin E]. apply list_elem_of_In in Hin.
    rewrite (contains_combined c r) in E by done. split; [done|]. split; [done|]. apply existsb_exists.
    exists term. split; [by apply list_elem_of_In|done].
  - apply not_true_iff_false. intros (term & Hin & Hm)%existsb_exists.
    pose proof (List.find_none _ _ E term Hin) as Hn. cbv beta in Hn. rewrite (contains_combined c r) in Hn; [|done|by apply list_elem_of_In].
    congruence.
Qed.

Lemma apply_rule_spec c ctx docs r :
  forallb valid_DocumentInput docs = true -> r ∈ rules c ->
  exists fs, apply_rule uuid5 c ctx (dump_DocumentInput <$> docs) (lower (join [newline] (doc_content <$> docs))) r = Ok fs /\
    forallb valid_Finding fs = true /\
    (if fires docs r then exists f, fs = [f] /\ rule_finding c ctx docs r f else fs = []).
Proof.
  intros Hv Hr. pose proof (matched_spec c r docs Hr) as Hm. unfold apply_rule, fires.
  destruct (matched r _) as [term|], (absence r) eqn:Ea.
  - destruct Hm as (_ & _ & ->). by exists [].
  - destruct Hm as (Hin & Hex & ->). destruct (find_evidence_spec docs term Hv Hex) as (d & Hd & Hmd & Hfind).
    rewrite Hfind. cbn [mbind result_bind xorb].
    assert (forall f, evidence f = [quote_of d] -> finding_confidence f = f_0_96 -> valid_Finding f = true) as Hvf.
    { intros f He Hc. unfold valid_Finding. rewrite He, Hc. cbn [forallb].
      rewrite quote_valid by (by apply (forallb_elem _ docs)). reflexivity. }
    rewrite construct_valid by (by apply Hvf). cbn [mbind result_bind]. eexists. split; [reflexivity|]. split.
    + cbn [forallb]. by rewrite Hvf.
    + eexists. split; [done|]. split; try done. rewrite Ea. split; [done|]. by exists d, term.
  - rewrite Hm. cbn [mbind result_bind xorb]. rewrite construct_valid by reflexivity. cbn [mbind result_bind].
    eexists. split; [reflexivity|]. split; [reflexivity|]. eexists. split; [done|]. split; try done. by rewrite Ea.
  - rewrite Hm. by exists [].
Qed.

Lemma apply_rules_spec c ctx docs rs :
  forallb valid_DocumentInput docs = true -> (forall r, r ∈ rs -> r ∈ rules c) ->
  exists fss, mapR (apply_rule uuid5 c ctx (dump_DocumentInput <$> docs) (lower (join [newline] (doc_content <$> docs)))) rs = Ok fss /\
    forallb valid_Finding (concat fss) = true /\
    Forall2 (rule_finding c ctx docs) (List.filter (fires docs) rs) (concat fss).
Proof.
  intros Hv. induction rs as [|r rs IH]; intros Hrs; [by exists []|].
  destruct IH as (fss & Hmap & Hvalid & Hall); [intros r' Hr'; apply Hrs; by right|].
  destruct (apply_rule_spec c ctx docs r Hv) as (fs & Happly & Hvf & Hf); [apply Hrs; by left|].
  exists (fs :: fss). cbn [mapR]. rewrite Happly. cbn [mbind result_bind]. rewrite Hmap. split; [done|].
  cbn [concat List.filter]. split; [rewrite forallb_app; by apply andb_true_iff|].
  destruct (fires docs r); [destruct Hf as (f & -> & Hf); by constructor|by subst fs].
Qed.

Lemma review_spec c ctx docs :
  forallb valid_DocumentInput docs = true ->
  assoc (u "documents") ctx = Some (enc_list dump_DocumentInput docs) ->
  exists fs, review uuid5 c ctx = Ok fs /\ forallb valid_Finding fs = true /\
    Forall2 (rule_finding c ctx docs) (List.filter (fires docs) (rules c)) fs.
Proof.
  intros Hv Hctx. unfold review. rewrite Hctx. cbn [default from_option id enc_list iterate mbind result_bind].
  rewrite contents_of_docs. cbn [mbind result_bind].
  destruct (apply_rules_spec c ctx docs (rules c) Hv) as (fss & -> & Hvalid & Hall); [done|].
  cbn [mbind result_bind]. by exists (concat fss).
Qed.

(** ** Synthesis *)

Lemma least_confidence_valid fs : forallb valid_Finding fs = true -> unit_interval (least_confidence fs) = true.
Proof.
  destruct fs as [|f fs]; [done|]. cbn [forallb least_confidence]. intros [Hf Hfs]%andb_prop.
  apply andb_prop in Hf as [_ Hf]. revert Hf. generalize (finding_confidence f) as m. clear f.
  induction fs as [|f fs IH]; intros m Hm; [done|]. apply andb_prop in Hfs as [Hf Hfs]. cbn [fold_left].
  apply andb_prop in Hf as [_ Hf]. apply IH; [done|]. by destruct (flt _ _).
Qed.

Lemma synthesize_spec ctx fs :
  forallb valid_Finding fs = true -> assoc (u "findings") ctx = Some (enc_list dump_Finding fs) ->
  synthesize ctx = Ok {| rec_decision := decision_of fs; rec_rationale := rationale_of fs;
    rec_required_actions := remediation <$> fs; rec_confidence := least_confidence fs |}.
Proof.
  intros Hv Hctx. unfold synthesize. rewrite Hctx. cbn [default from_option id enc_list iterate mbind result_bind].
  rewrite (mapR_fmap_ok _ _ id) by (intros f Hf; apply validate_dump_Finding; by eapply forallb_elem).
  rewrite list_fmap_id. cbn [mbind result_bind]. apply construct_valid. by apply least_confidence_valid.
Qed.

Lemma decision_spec (fs : list Finding) :
  (decision_of fs = ESCALATE <-> exists f, f ∈ fs /\ severity f = CRITICAL) /\
  (decision_of fs = APPROVE <-> forall f, f ∈ fs -> severity f = LOW) /\ decision_of fs <> REJECT.
Proof.
  unfold decision_of.
  assert (forall s, s ∈ severity <$> fs <-> exists f, f ∈ fs /\ severity f = s) as Hs.
  { intros s. rewrite list_elem_of_fmap. split; intros (f & Hf & Hg); exists f; by split. }
  destruct (bool_decide (CRITICAL ∈ severity <$> fs)) eqn:Ec.
  - apply bool_decide_eq_true, Hs in Ec as (f & Hf & Hc). split_and!; [by split; [exists f|]| |done].
    split; [done|]. intros Hall. rewrite (Hall f Hf) in Hc. done.
  - apply bool_decide_eq_false in Ec. rewrite Hs in Ec. destruct (_ || _) eqn:Eh.
    + apply orb_true_iff in Eh as [Eh|Eh]; apply bool_decide_eq_true, Hs in Eh as (f & Hf & Hc);
        (split_and!; [by split| |done]); (split; [done|]); intros Hall; rewrite (Hall f Hf) in Hc; done.
    + apply orb_false_iff in Eh as [Eh%bool_decide_eq_false Em%bool_decide_eq_false]. rewrite Hs in Eh, Em.
      split_and!; [by split| |done]. split; [|done]. intros _ f Hf. destruct (severity f) eqn:E; [done|exfalso..];
        [apply Em|apply Eh|apply Ec]; by exists f.
Qed.

(** C37. The deterministic backend answers every specialist request about valid documents with a
    text that reads back as valid findings, one for each rule of the category that fires, in the
    order of the rules: a marker finding quotes a document that mentions one of its terms, an
    absence finding has no evidence. It answers every synthesis of valid findings with a
    recommendation that escalates exactly when a finding is critical, approves exactly when all
    are low, never rejects, and requires every remediation. *)
Theorem deterministic_answers request docs fs :
  forallb valid_DocumentInput docs = true -> forallb valid_Finding fs = true ->
  match category_of (task request) with
  | Some c =>
      assoc (u "documents") (context request) = Some (enc_list dump_DocumentInput docs) ->
      exists raw found, generate uuid5 request = Ok raw /\ validate_json validate_FindingBatch raw = Ok found /\
        Forall2 (rule_finding c (context request) docs) (List.filter (fires docs) (rules c)) found
  | None =>
      assoc (u "findings") (context request) = Some (enc_list dump_Finding fs) ->
      exists raw rec, generate uuid5 request = Ok raw /\ validate_json validate_Recommendation raw = Ok rec /\
        (rec_decision rec = ESCALATE <-> exists f, f ∈ fs /\ severity f = CRITICAL) /\
        (rec_decision rec = APPROVE <-> forall f, f ∈ fs -> severity f = LOW) /\
        rec_decision rec <> REJECT /\ rec_required_actions rec = remediation <$> fs
  end.
Proof.
  intros Hdocs Hfs. unfold generate. destruct (category_of (task request)) as [c|]; intros Hctx.
  - destruct (review_spec c (context request) docs Hdocs Hctx) as (found & -> & Hvalid & Hall). cbn [mbind result_bind].
    eexists _, found. split; [reflexivity|]. split; [by apply validate_FindingBatch_text|done].
  - rewrite (synthesize_spec _ fs Hfs Hctx). cbn [mbind result_bind]. eexists _, _. split; [reflexivity|].
    split; [apply validate_Recommendation_text; by apply least_confidence_valid|]. cbn [rec_decision rec_required_actions].
    pose proof (decision_spec fs) as (? & ? & ?). done.
Qed.
End deterministic.

Section remote.
Context `{JsonText} `{UnicodeLower} (uuid5 : UUID -> pystr -> UUID) (openai litellm : result ResponsesClient)
  (bedrock : result ConverseClient).

(** The backends that call a provider. *)
Definition remote_name (s : pystr) : Prop := s ∈ [u "openai"; u "bedrock"; u "litellm"].

(** The remote adapters never send the context of a request: two requests that differ in
    their documents or findings alone get the same answer, so a provider reviews a supplier
    without seeing its documents and synthesizes without seeing the findings. *)
Theorem remote_backends_ignore_context settings b request documents :
  create_model_backend uuid5 openai litellm bedrock settings = Ok b -> remote_name (model_backend settings) ->
  ModelGateway.generate b {|
    task := task request; system_prompt := system_prompt request; user_prompt := user_prompt request;
    context := documents; schema_name := schema_name request; response_schema := response_schema request |}
  = ModelGateway.generate b request.
Proof.
  unfold create_model_backend, remote_name. intros Hb Hname.
  destruct (pystr_eqb (model_backend settings) (u "openai")) eqn:Eo.
  { unfold OpenAIResponsesBackend.backend in Hb. destruct (openai_api_key settings), openai; try done. by injection Hb as <-. }
  destruct (pystr_eqb (model_backend settings) (u "bedrock")) eqn:Eb.
  { unfold BedrockConverseBackend.backend in Hb. destruct (bedrock_model_id settings), bedrock; try done. by injection Hb as <-. }
  destruct (pystr_eqb (model_backend settings) (u "litellm")) eqn:El.
  { unfold LiteLLMBackend.backend in Hb. destruct litellm; [|done]. by injection Hb as <-. }
  exfalso. rewrite !elem_of_cons in Hname.
  destruct Hname as [Hn|[Hn|[Hn|Hn%elem_of_nil]]]; [..|done]; rewrite Hn, pystr_eqb_refl in *; done.
Qed.
End remote.

(** ** Concrete requests *)

Section example.

Definition id_of (_ : UUID) (n : pystr) : UUID := default NAMESPACE_URL (UUID_of_N (N.of_nat (length n))).

Definition sample_docs : list DocumentInput :=
  [{| doc_title := u "Questionnaire"; doc_content := u "Shared Credentials are permitted."; doc_source_uri := None |}].

Definition security_request : ModelRequest := {|
  task := SECURITY_REVIEW; system_prompt := []; user_prompt := [];
  context := [(u "case_id", JStr (u "case-1")); (u "documents", enc_list dump_DocumentInput sample_docs)];
  schema_name := u "FindingBatch"; response_schema := JNull |}.

(** The answer to [security_request]: the marker finding and the absence finding. *)
Definition answered : list Finding := match review id_of SECURITY (context security_request) with Ok fs => fs | Raise _ => [] end.

Definition synthesis_request : ModelRequest := {|
  task := SYNTHESIZE; system_prompt := []; user_prompt := [];
  context := [(u "findings", enc_list dump_Finding answered)]; schema_name := u "Recommendation"; response_schema := JNull |}.

Lemma deterministic_answers_witness :
  severity <$> answered = [CRITICAL; MEDIUM] /\
  (exists raw found, generate id_of security_request = Ok raw /\ validate_json validate_FindingBatch raw = Ok found /\
     Forall2 (rule_finding id_of SECURITY (context security_request) sample_docs) (rules SECURITY) found) /\
  (exists raw rec, generate id_of synthesis_request = Ok raw /\ validate_json validate_Recommendation raw = Ok rec /\
     rec_decision rec = ESCALATE).
Proof.
  split; [vm_compute; reflexivity|]. split.
  - pose proof (deterministic_answers id_of security_request sample_docs [] eq_refl eq_refl eq_refl) as (raw & found & Hr & Hv & Hf).
    exists raw, found. split; [exact Hr|]. split; [exact Hv|exact Hf].
  - pose proof (deterministic_answers id_of synthesis_request [] answered eq_refl eq_refl eq_refl)
      as (raw & rec & Hr & Hv & Hesc & _). exists raw, rec. split; [exact Hr|]. split; [exact Hv|]. apply Hesc.
    destruct answered as [|f fs] eqn:E; [vm_compute in E; discriminate E|]. exists f. split; [left|].
    pose proof (f_equal (fmap severity) E) as Es. vm_compute in Es. injection Es as Es _. symmetry. exact Es.
Defined.

(** A provider that repeats what it is sent. *)
Definition echo : ResponsesClient := fun rq => Ok (rq_instructions rq ++ rq_input rq).

Definition openai_settings : ModelSettings := {|
  model_backend := u "openai"; openai_api_key := u "key"; openai_model := u "model"; bedrock_model_id := [];
  model_alias := [] |}.

Lemma remote_backends_ignore_context_witness :
  exists b, create_model_backend id_of (Ok echo) (Ok echo) (Ok (fun _ => Ok JNull)) openai_settings = Ok b /\
    ModelGateway.generate b {| task := SECURITY_REVIEW; system_prompt := []; user_prompt := []; context := [];
      schema_name := u "FindingBatch"; response_schema := JNull |} = ModelGateway.generate b security_request.
Proof.
  eexists. split; [reflexivity|].
  apply (remote_backends_ignore_context id_of (Ok echo) (Ok echo) (Ok (fun _ => Ok JNull)) openai_settings _ security_request []
    eq_refl). left.
Defined.
End example.
