(* ===== verification/ReviewMachine.v ===== *)
(** * The life of one review execution

    The abstract state machine a checkpointed execution goes through, and the proof
    that [SupplierReviewWorkflow] implements it over any runtime that keeps the
    documented laws and any model backend, failing ones included. *)
From S2P Require Import Prelude PyStr Uuid Effects Json Schemas SchemaJson Governance ModelGateway ReviewGraph.
Import SupplierReviewWorkflow.
Local Open Scope py_scope.

(** ** Results *)

Lemma bind_Ok {A B} (r : result A) (f : A -> result B) b : (r ≫= f) = Ok b <-> exists a, r = Ok a /\ f a = Ok b.
Proof. destruct r; simpl; split; [by eexists|by intros (? & [= <-] & ?)|done|by intros (? & ? & _)]. Qed.

Lemma mapR_Forall {A B} (f : A -> result B) (P : B -> Prop) l bs :
  (forall a b, f a = Ok b -> P b) -> mapR f l = Ok bs -> Forall P bs.
Proof.
  intros Hf. revert bs. induction l as [|a l IH]; intros bs; cbn [mapR]; [by intros [= <-]|].
  intros (b & Hb & (bs' & Hbs & [= <-])%bind_Ok)%bind_Ok. constructor; [by eapply Hf|by apply IH].
Qed.

Lemma forallb_Forall_true {A} (p : A -> bool) l : Forall (fun x => p x = true) l -> forallb p l = true.
Proof. induction 1 as [|x l Hx _ IH]; [done|]. simpl. by rewrite Hx. Qed.

(** Validated models are valid. *)
Lemma dec_str_where_Ok p j s : dec_str_where p j = Ok s -> p (length s) = true.
Proof. destruct j; try done. simpl. destruct (p (length s0)) eqn:E; [by intros [= <-]|done]. Qed.

Lemma dec_unit_float_Ok j f : dec_unit_float j = Ok f -> unit_interval f = true.
Proof.
  destruct j; try done; simpl; [destruct (unit_interval (float_of_int z)) eqn:E|destruct (unit_interval f0) eqn:E];
    try done; by intros [= <-].
Qed.

Lemma field_Ok {A} k (dec : json -> result A) d a : field k dec d = Ok a -> exists j, dec j = Ok a.
Proof. unfold field. destruct (assoc (u k) d) as [j|]; [by exists j|done]. Qed.

Ltac invert_binds :=
  repeat match goal with
  | H : (_ ≫= _) = Ok _ |- _ => apply bind_Ok in H as (? & ? & H)
  | H : Ok _ = Ok _ |- _ => injection H as <-
  end.

Lemma validate_Evidence_valid j e : validate_Evidence j = Ok e -> valid_Evidence e = true.
Proof.
  unfold validate_Evidence. intros He. invert_binds.
  repeat match goal with H : field _ _ _ = Ok _ |- _ => apply field_Ok in H as (? & H) end.
  unfold valid_Evidence. cbn [ev_quote]. by eapply dec_str_where_Ok.
Qed.

Lemma validate_Finding_valid j f : validate_Finding j = Ok f -> valid_Finding f = true.
Proof.
  unfold validate_Finding. intros Hf. invert_binds.
  match goal with H : field "confidence" _ _ = Ok _ |- _ => apply field_Ok in H as (? & Hc%dec_unit_float_Ok) end.
  match goal with H : field_default "evidence" _ _ _ = Ok ?x |- _ => assert (forallb valid_Evidence x = true) as He end.
  { match goal with H : field_default "evidence" _ _ ?d = Ok _ |- _ => unfold field_default in H;
      destruct (assoc (u "evidence") d) as [[]|]; try discriminate H; try (by injection H as <-);
      apply (mapR_Forall _ (fun e => valid_Evidence e = true)) in H; [|exact validate_Evidence_valid];
      by apply forallb_Forall_true end. }
  unfold valid_Finding. cbn [evidence finding_confidence]. by rewrite He, Hc.
Qed.

Lemma validate_FindingBatch_valid j fs : validate_FindingBatch j = Ok fs -> forallb valid_Finding fs = true.
Proof.
  unfold validate_FindingBatch. intros Hf. invert_binds. apply field_Ok in Hf as ([] & Hf); try discriminate Hf.
  apply (mapR_Forall _ (fun f => valid_Finding f = true)) in Hf; [|exact validate_Finding_valid].
  by apply forallb_Forall_true.
Qed.

Lemma validate_Recommendation_valid j r : validate_Recommendation j = Ok r -> valid_Recommendation r = true.
Proof.
  unfold validate_Recommendation. intros Hf. invert_binds.
  match goal with H : field "confidence" _ _ = Ok _ |- _ => apply field_Ok in H as (? & Hc%dec_unit_float_Ok) end.
  done.
Qed.

(** ** The machine *)

Section machine.
Context `{JT : JsonText} `{DT : DatetimeText} `{IT : IsoText} (uuid5 : UUID -> pystr -> UUID).
Context (finding_batch_schema recommendation_schema : json).
(** The execution, and the case it was started for. *)
Context (eid : UUID) (c0 : SupplierCase).

Abbreviation graph_of := (build_graph uuid5 finding_batch_schema recommendation_schema).

(** The requests the nodes send. *)
Definition request_for (t : ModelTask) (name : pystr) (schema : json) (instruction : pystr)
    (ctx : option (list (pystr * json))) : ModelRequest := {|
  task := t; system_prompt := instruction;
  user_prompt := u "Review supplier " ++ supplier_name c0 ++ u ". Case description: " ++ description c0;
  context := default
    [(u "case_id", JStr (str_uuid (case_id c0))); (u "supplier_name", JStr (supplier_name c0));
     (u "documents", enc_list dump_DocumentInput (documents c0))] ctx;
  schema_name := name; response_schema := schema |}.

(** The findings a specialist is answered. *)
Definition specialist (env : Environment) (t : ModelTask) : result (list Finding) :=
  raw ← generate (answers env) (request_for t (u "FindingBatch") finding_batch_schema specialist_instruction None);
  validate_json validate_FindingBatch raw.

(** The recommendation the synthesis of [fs] is answered. *)
Definition synthesis (env : Environment) (fs : list Finding) (conf : option EvidenceConfirmation) : result Recommendation :=
  raw ← generate (answers env) (request_for SYNTHESIZE (u "Recommendation") recommendation_schema synthesis_instruction
    (Some [(u "findings", JArr (dump_Finding <$> fs));
           (u "evidence_confirmation", match conf with Some x => dump_EvidenceConfirmation x | None => JNull end)]));
  validate_json validate_Recommendation raw.

(** All specialists answered; their findings, renamed for this execution, in some order of
    the three. *)
Definition gathered (env : Environment) (fs : list Finding) : Prop :=
  exists fs1 fs2 fs3, specialist env SECURITY_REVIEW = Ok fs1 /\ specialist env LEGAL_REVIEW = Ok fs2 /\
    specialist env FINANCIAL_REVIEW = Ok fs3 /\ fs ≡ₚ rename_finding uuid5 eid <$> (fs1 ++ fs2 ++ fs3).

Definition some_specialist_fails (env : Environment) (e : exn) : Prop :=
  exists t, t ∈ [SECURITY_REVIEW; LEGAL_REVIEW; FINANCIAL_REVIEW] /\ specialist env t = Raise e.

(** What an execution has come to. *)
Inductive phase :=
  | Stuck
  | Waiting (fs : list Finding) (backend : pystr) (started_at : datetime)
  | Finished (r : ReviewResult)
  | Abandoned.

Definition finished (fs : list Finding) (rec : Recommendation) (backend : pystr) (started_at completed_at : datetime) :
    ReviewResult := {|
  rv_review_id := eid; rv_case_id := case_id c0; rv_findings := fs; rv_recommendation := rec;
  rv_model_backend := backend; rv_started_at := started_at; rv_completed_at := completed_at |}.

(** What a caller sees of it. *)
Definition shown (p : phase) : ReviewExecution := {|
  ex_execution_id := eid; ex_case_id := case_id c0;
  ex_status := match p with Stuck => RUNNING | Waiting _ _ _ => AWAITING_INPUT | Finished _ => COMPLETED | Abandoned => CANCELLED end;
  ex_interrupt := match p with Waiting fs _ _ => Some (interrupt_of fs) | _ => None end;
  ex_result := match p with Finished r => Some r | _ => None end |}.

(** A call about the execution. *)
Inductive event :=
  | EvStart (require : bool) (env : Environment) (t : datetime)
  | EvGet
  | EvResume (confirmation : EvidenceConfirmation) (env : Environment).

(** [None] is an execution that does not exist. *)
Inductive exec_step : option phase -> event -> result ReviewExecution -> option phase -> Prop :=
  | start_fails require env t e :
      some_specialist_fails env e -> exec_step None (EvStart require env t) (Raise e) (Some Stuck)
  | start_waits env t fs :
      gathered env fs ->
      let p := Waiting fs (backend_name (answers env)) t in
      exec_step None (EvStart true env t) (Ok (shown p)) (Some p)
  | start_finishes env t fs rec :
      gathered env fs -> synthesis env fs None = Ok rec ->
      let p := Finished (finished fs rec (backend_name (answers env)) t (clock env)) in
      exec_step None (EvStart false env t) (Ok (shown p)) (Some p)
  | start_not_synthesized env t fs e :
      gathered env fs -> synthesis env fs None = Raise e ->
      exec_step None (EvStart false env t) (Raise e) (Some Stuck)
  | start_again p require env t : exec_step (Some p) (EvStart require env t) (Ok (shown p)) (Some p)
  | get_absent : exec_step None EvGet (Raise (execution_not_found eid)) None
  | get_shown p : exec_step (Some p) EvGet (Ok (shown p)) (Some p)
  | resume_absent conf env : exec_step None (EvResume conf env) (Raise (execution_not_found eid)) None
  | resume_stuck conf env : exec_step (Some Stuck) (EvResume conf env) (Raise (not_awaiting eid)) (Some Stuck)
  | resume_finished r conf env : exec_step (Some (Finished r)) (EvResume conf env) (Ok (shown (Finished r))) (Some (Finished r))
  | resume_abandoned conf env : exec_step (Some Abandoned) (EvResume conf env) (Ok (shown Abandoned)) (Some Abandoned)
  | resume_rejects fs b t conf env :
      ec_decision conf = EC_REJECT ->
      exec_step (Some (Waiting fs b t)) (EvResume conf env) (Ok (shown Abandoned)) (Some Abandoned)
  | resume_confirms fs b t conf env rec :
      ec_decision conf = EC_CONFIRM -> synthesis env fs (Some conf) = Ok rec ->
      let p := Finished (finished fs rec b t (clock env)) in
      exec_step (Some (Waiting fs b t)) (EvResume conf env) (Ok (shown p)) (Some p)
  | resume_not_synthesized fs b t conf env e :
      ec_decision conf = EC_CONFIRM -> synthesis env fs (Some conf) = Raise e ->
      exec_step (Some (Waiting fs b t)) (EvResume conf env) (Raise e) (Some Stuck).

(** ** Checkpoints *)

(** The state while and after the specialists are heard, and once it is confirmed. *)
Definition state_with (require : bool) (backend : pystr) (t : datetime) (fs : list Finding)
    (conf : option EvidenceConfirmation) : ReviewGraphState := {|
  gs_tenant_id := case_tenant_id c0; gs_case_id := str_uuid (case_id c0); gs_execution_id := str_uuid eid;
  gs_supplier_case := dump_SupplierCase c0; gs_findings := dump_Finding <$> fs; gs_recommendation := None;
  gs_model_backend := backend; gs_started_at := isoformat t; gs_completed_at := None;
  gs_require_evidence_confirmation := require; gs_evidence_confirmation := dump_EvidenceConfirmation <$> conf;
  gs_cancelled := false |}.

(** The fields every checkpoint of the execution keeps. *)
Definition in_scope (st : ReviewGraphState) : Prop :=
  gs_tenant_id st = case_tenant_id c0 /\ gs_case_id st = str_uuid (case_id c0) /\ gs_execution_id st = str_uuid eid.

(** A checkpoint of a phase: what the caller is shown, and what resuming needs. *)
Definition checkpoint_of (p : phase) (cp : Checkpoint) : Prop :=
  in_scope (cp_values cp) /\ execution_from_snapshot cp = Ok (shown p) /\
  match p with
  | Waiting fs b t =>
      cp = {| cp_values := state_with true b t fs None; cp_interrupts := [dump_ReviewInterrupt (interrupt_of fs)];
              cp_next := [evidence_confirmation] |} /\ forallb valid_Finding fs = true
  | _ => True
  end.

Context (Hvalid : valid_SupplierCase c0 = true).

Lemma request_of_spec st t name schema instruction ctx :
  gs_supplier_case st = dump_SupplierCase c0 ->
  request_of st t name schema instruction ctx = Ok (request_for t name schema instruction ctx).
Proof. intros Hst. unfold request_of. rewrite Hst, validate_dump_SupplierCase by done. reflexivity. Qed.

Lemma uuid_of_str i : uuid_of (str_uuid i) = Ok i.
Proof. unfold uuid_of. by rewrite UUID_of_str_str. Qed.

Lemma run_specialist_spec env require b t task :
  run_specialist uuid5 finding_batch_schema env (state_with require b t [] None) task
  = (fs ← specialist env task; Ok (dump_Finding <$> (rename_finding uuid5 eid <$> (fs : list Finding)))).
Proof.
  unfold run_specialist, specialist. rewrite request_of_spec by reflexivity. cbn [mbind result_bind].
  destruct (generate _ _) as [raw|e]; [|done]. cbn [mbind result_bind].
  destruct (validate_json _ raw) as [fs|e]; [|done]. cbn [mbind result_bind gs_execution_id state_with].
  by rewrite uuid_of_str.
Qed.

Lemma read_findings fs : forallb valid_Finding fs = true -> mapR validate_Finding (dump_Finding <$> fs) = Ok fs.
Proof.
  intros Hv. rewrite (mapR_fmap_ok _ _ id); [by rewrite list_fmap_id|].
  intros f Hf. apply validate_dump_Finding. by eapply forallb_elem.
Qed.

Lemma validate_json_Ok {A} (validate : json -> result A) raw a :
  validate_json validate raw = Ok a -> exists j, validate j = Ok a.
Proof. unfold validate_json. intros (j & _ & Hj)%bind_Ok. by exists j. Qed.

Lemma specialist_valid env t fs : specialist env t = Ok fs -> forallb valid_Finding fs = true.
Proof. intros (raw & _ & (j & Hj)%validate_json_Ok)%bind_Ok. by eapply validate_FindingBatch_valid. Qed.

Lemma rename_valid fs : forallb valid_Finding fs = true -> forallb valid_Finding (rename_finding uuid5 eid <$> fs) = true.
Proof.
  induction fs as [|f fs IH]; [done|]. cbn [forallb fmap list_fmap]. intros [Hf Hfs]%andb_prop.
  rewrite IH by done. by rewrite andb_true_r.
Qed.

Lemma forallb_perm {A} (p : A -> bool) l l' : l ≡ₚ l' -> forallb p l = forallb p l'.
Proof. induction 1; simpl; try congruence. destruct (p x), (p y); done. Qed.

Lemma gathered_valid env fs : gathered env fs -> forallb valid_Finding fs = true.
Proof.
  intros (fs1 & fs2 & fs3 & H1%specialist_valid & H2%specialist_valid & H3%specialist_valid & Hp).
  rewrite (forallb_perm _ _ _ Hp). apply rename_valid. by rewrite !forallb_app, H1, H2, H3.
Qed.

Lemma synthesis_valid env fs conf rec : synthesis env fs conf = Ok rec -> valid_Recommendation rec = true.
Proof. intros (raw & _ & (j & Hj)%validate_json_Ok)%bind_Ok. by eapply validate_Recommendation_valid. Qed.

(** ** Invocations *)

Definition finished_state (require : bool) (b : pystr) (t : datetime) (fs : list Finding)
    (conf : option EvidenceConfirmation) (rec : Recommendation) (completed : datetime) : ReviewGraphState :=
  apply_update (state_with require b t fs conf) {|
    up_findings := []; up_recommendation := Some (Some (dump_Recommendation rec));
    up_completed_at := Some (Some (isoformat completed)); up_evidence_confirmation := None; up_cancelled := None |}.

Lemma synthesize_node_spec env require b t fs conf :
  node graph_of env synthesize (state_with require b t fs conf) None
  = node_result (rec ← synthesis env fs conf;
      Ok {| up_findings := []; up_recommendation := Some (Some (dump_Recommendation rec));
            up_completed_at := Some (Some (isoformat (clock env))); up_evidence_confirmation := None;
            up_cancelled := None |}).
Proof.
  cbn [node build_graph nodes]. unfold synthesize_node, synthesis. rewrite request_of_spec by reflexivity.
  cbn [mbind result_bind gs_findings gs_evidence_confirmation state_with].
  destruct conf as [conf|]; cbn [fmap option_fmap option_map default from_option id];
    (destruct (generate _ _) as [raw|e]; [|done]); cbn [mbind result_bind]; by destruct (validate_json _ raw).
Qed.

Lemma invoked_end_inv (g : StateGraph) env v st r cp :
  invoked g env [] v st r cp -> r = Ok tt /\ cp = {| cp_values := st; cp_interrupts := []; cp_next := [] |}.
Proof. inversion 1; subst; try done. by apply elem_of_nil in H0. Qed.

(** A super-step of one node. *)
Lemma invoked_one_inv (g : StateGraph) env n v st r cp :
  invoked g env [n] v st r cp ->
  match node g env n st v with
  | Failed e => r = Raise e /\ exists left_over rest, (v = None -> left_over = []) /\
      cp = {| cp_values := st; cp_interrupts := left_over; cp_next := rest |}
  | Interrupted value => r = Ok tt /\ cp = {| cp_values := st; cp_interrupts := [value]; cp_next := [n] |}
  | Done up => invoked g env (successors g [n] (apply_update st up)) None (apply_update st up) r cp
  end.
Proof.
  inversion 1 as [|ns v' st' n' e ret ups lo rest Hin Hn Hlo Hret Hall|n' v' st' value Hn|ns v' st' ups ups' r' cp' Hne Hall Hperm Hnext]; subst.
  - apply list_elem_of_singleton in Hin as ->. rewrite Hn. split; [done|]. exists lo, rest. split; [done|].
    destruct Hall as [|n1 up ret ups Hup _]; [done|].
    apply (elem_of_submseteq _ _ n1) in Hret; [|left]. apply list_elem_of_singleton in Hret as ->. congruence.
  - by rewrite Hn.
  - inversion Hall as [|n' up ns' ups'' Hn Hnil]; subst. inversion Hnil; subst.
    apply Permutation_singleton_r in Hperm as ->. by rewrite Hn.
Qed.

Lemma invoked_synthesize env require b t fs conf r cp :
  invoked graph_of env [synthesize] None (state_with require b t fs conf) r cp ->
  match synthesis env fs conf with
  | Ok rec => r = Ok tt /\
      cp = {| cp_values := finished_state require b t fs conf rec (clock env); cp_interrupts := []; cp_next := [] |}
  | Raise e => r = Raise e /\
      exists rest, cp = {| cp_values := state_with require b t fs conf; cp_interrupts := []; cp_next := rest |}
  end.
Proof.
  intros Hinv%invoked_one_inv. rewrite synthesize_node_spec in Hinv.
  destruct (synthesis env fs conf) as [rec|e]; cbn [mbind result_bind node_result] in Hinv.
  - by apply invoked_end_inv in Hinv.
  - destruct Hinv as (-> & lo & rest & Hlo & ->). rewrite Hlo by done. split; [done|]. by exists rest.
Qed.

Lemma apply_no_update st : apply_update st no_update = st.
Proof. destruct st. unfold apply_update. simpl. by rewrite app_nil_r. Qed.

Lemma interrupt_valid fs : construct valid_ReviewInterrupt (interrupt_of fs) = Ok (interrupt_of fs).
Proof. apply construct_valid. unfold valid_ReviewInterrupt, interrupt_of. cbn [ri_finding_count]. apply Z.leb_le. lia. Qed.

Lemma invoked_confirmation env require b t fs r cp :
  forallb valid_Finding fs = true ->
  invoked graph_of env [evidence_confirmation] None (state_with require b t fs None) r cp ->
  if require then r = Ok tt /\
    cp = {| cp_values := state_with true b t fs None; cp_interrupts := [dump_ReviewInterrupt (interrupt_of fs)];
            cp_next := [evidence_confirmation] |}
  else invoked graph_of env [synthesize] None (state_with false b t fs None) r cp.
Proof.
  intros Hfs Hinv%invoked_one_inv. cbn [node build_graph nodes] in Hinv. unfold evidence_confirmation_node in Hinv.
  cbn [gs_require_evidence_confirmation gs_findings state_with] in Hinv. destruct require; cbn [negb] in Hinv.
  - by rewrite (read_findings fs Hfs), interrupt_valid in Hinv.
  - by rewrite apply_no_update in Hinv.
Qed.

Definition rejected_state (b : pystr) (t : datetime) (fs : list Finding) (conf : EvidenceConfirmation) (at_ : datetime) :
    ReviewGraphState :=
  apply_update (state_with true b t fs None) {|
    up_findings := []; up_recommendation := None; up_completed_at := Some (Some (isoformat at_));
    up_evidence_confirmation := Some (Some (dump_EvidenceConfirmation conf)); up_cancelled := Some true |}.

Lemma invoked_answer env b t fs conf r cp :
  forallb valid_Finding fs = true -> valid_EvidenceConfirmation conf = true ->
  invoked graph_of env [evidence_confirmation] (Some (dump_EvidenceConfirmation conf)) (state_with true b t fs None) r cp ->
  match ec_decision conf with
  | EC_REJECT => r = Ok tt /\
      cp = {| cp_values := rejected_state b t fs conf (clock env); cp_interrupts := []; cp_next := [] |}
  | EC_CONFIRM => invoked graph_of env [synthesize] None (state_with true b t fs (Some conf)) r cp
  end.
Proof.
  intros Hfs Hconf Hinv%invoked_one_inv. cbn [node build_graph nodes] in Hinv. unfold evidence_confirmation_node in Hinv.
  cbn [gs_require_evidence_confirmation gs_findings state_with negb] in Hinv.
  rewrite (read_findings fs Hfs), interrupt_valid, validate_dump_EvidenceConfirmation in Hinv by done.
  cbn [mbind result_bind node_result] in Hinv. destruct (ec_decision conf) eqn:Ed.
  - rewrite bool_decide_eq_false_2 in Hinv by done.
    assert (apply_update (state_with true b t fs None) {| up_findings := []; up_recommendation := None;
      up_completed_at := Some None; up_evidence_confirmation := Some (Some (dump_EvidenceConfirmation conf));
      up_cancelled := Some false |} = state_with true b t fs (Some conf)) as Heq.
    { unfold apply_update, state_with. simpl. by rewrite app_nil_r. }
    by rewrite Heq in Hinv.
  - rewrite bool_decide_eq_true_2 in Hinv by done. by apply invoked_end_inv in Hinv.
Qed.

Lemma apply_all_findings fss st :
  fold_left apply_update (add_findings <$> fss) st
  = {| gs_tenant_id := gs_tenant_id st; gs_case_id := gs_case_id st; gs_execution_id := gs_execution_id st;
       gs_supplier_case := gs_supplier_case st; gs_findings := gs_findings st ++ concat fss;
       gs_recommendation := gs_recommendation st; gs_model_backend := gs_model_backend st;
       gs_started_at := gs_started_at st; gs_completed_at := gs_completed_at st;
       gs_require_evidence_confirmation := gs_require_evidence_confirmation st;
       gs_evidence_confirmation := gs_evidence_confirmation st; gs_cancelled := gs_cancelled st |}.
Proof.
  revert st. induction fss as [|fs fss IH]; intros st; [destruct st; simpl; by rewrite app_nil_r|].
  cbn [fmap list_fmap fold_left]. rewrite IH. simpl. by rewrite <- app_assoc.
Qed.

Lemma concat_permutation {A} (l l' : list (list A)) : l ≡ₚ l' -> concat l ≡ₚ concat l'.
Proof.
  induction 1 as [|x l l' _ IH|x y l|l1 l2 l3 _ IH1 _ IH2]; simpl; [done|by rewrite IH|by rewrite !app_assoc, (Permutation_app_comm y x)|by rewrite IH1].
Qed.

(** The node of a specialist. *)
Inductive specialist_node : node_name -> ModelTask -> Prop :=
  | sn_security : specialist_node security_review SECURITY_REVIEW
  | sn_legal : specialist_node legal_review LEGAL_REVIEW
  | sn_financial : specialist_node financial_review FINANCIAL_REVIEW.

Lemma specialist_node_spec env require b t n task :
  specialist_node n task ->
  node graph_of env n (state_with require b t [] None) None
  = match specialist env task with
    | Ok fs => Done (add_findings (dump_Finding <$> (rename_finding uuid5 eid <$> fs)))
    | Raise e => Failed e
    end.
Proof.
  intros []; cbn [node build_graph nodes]; rewrite run_specialist_spec; by destruct (specialist env _).
Qed.

(** The specialists that had answered when one failed. *)
Lemma returned_findings env require b t ns ups :
  ns ⊆+ [security_review; legal_review; financial_review] ->
  Forall2 (fun n up => node graph_of env n (state_with require b t [] None) None = Done up) ns ups ->
  exists fss, ups = add_findings <$> fss.
Proof.
  intros Hns Hall. assert (Forall (fun n => exists task, specialist_node n task) ns) as Hs.
  { apply Forall_forall. intros n Hn. eapply elem_of_submseteq in Hns; [|exact Hn].
    rewrite !elem_of_cons in Hns. destruct Hns as [->|[->|[->|Hns%elem_of_nil]]]; [..|done]; eexists; constructor. }
  clear Hns. induction Hall as [|n up ns ups Hup _ IH]; [by exists []|].
  inversion Hs as [|? ? [task Hsn] Hs']; subst. destruct (IH Hs') as [fss ->].
  rewrite (specialist_node_spec _ _ _ _ _ _ Hsn) in Hup. destruct (specialist env task) as [fs|]; [|done].
  injection Hup as <-. by exists ((dump_Finding <$> (rename_finding uuid5 eid <$> fs)) :: fss).
Qed.

(** What is shown of a step that failed does not depend on the findings it kept. *)
Definition failed_state (require : bool) (b : pystr) (t : datetime) (fss : list (list json)) : ReviewGraphState :=
  fold_left apply_update (add_findings <$> fss) (state_with require b t [] None).

Lemma invoked_start env require b t r cp :
  invoked graph_of env [security_review; legal_review; financial_review] None (state_with require b t [] None) r cp ->
  (exists e fss rest, some_specialist_fails env e /\ r = Raise e /\
     cp = {| cp_values := failed_state require b t fss; cp_interrupts := []; cp_next := rest |}) \/
  (exists fs, gathered env fs /\ invoked graph_of env [evidence_confirmation] None (state_with require b t fs None) r cp).
Proof.
  inversion 1 as [|ns v' st' n e ret ups lo rest Hin Hn Hlo Hret Hall|n' v' st' value Hn|ns v' st' ups ups' r' cp' Hne Hall Hperm Hnext]; subst.
  - left. destruct (returned_findings _ _ _ _ _ _ Hret Hall) as [fss ->]. exists e, fss, rest. rewrite Hlo by done. split; [|done].
    assert (exists task, specialist_node n task /\ task ∈ [SECURITY_REVIEW; LEGAL_REVIEW; FINANCIAL_REVIEW]) as (task & Hsn & Ht).
    { rewrite !elem_of_cons in Hin. destruct Hin as [->|[->|[->|Hin%elem_of_nil]]]; [..|done]; eexists; (split; [constructor|]).
      - left.
      - right; left.
      - right; right; left. }
    exists task. split; [done|]. rewrite (specialist_node_spec _ _ _ _ _ _ Hsn) in Hn. destruct (specialist env task); congruence.
  - right. inversion Hall as [|? u1 ? us1 H1 Hall1]; subst. inversion Hall1 as [|? u2 ? us2 H2 Hall2]; subst.
    inversion Hall2 as [|? u3 ? us3 H3 Hall3]; subst. inversion Hall3; subst.
    rewrite (specialist_node_spec _ _ _ _ _ _ sn_security) in H1. rewrite (specialist_node_spec _ _ _ _ _ _ sn_legal) in H2.
    rewrite (specialist_node_spec _ _ _ _ _ _ sn_financial) in H3.
    destruct (specialist env SECURITY_REVIEW) as [fs1|] eqn:E1; [|done].
    destruct (specialist env LEGAL_REVIEW) as [fs2|] eqn:E2; [|done].
    destruct (specialist env FINANCIAL_REVIEW) as [fs3|] eqn:E3; [|done].
    injection H1 as <-. injection H2 as <-. injection H3 as <-.
    set (dumps := fun fs : list Finding => dump_Finding <$> (rename_finding uuid5 eid <$> fs)).
    change (ups' ≡ₚ map add_findings [dumps fs1; dumps fs2; dumps fs3]) in Hperm.
    apply Permutation_map_inv in Hperm as (l & -> & Hl). change (map add_findings l) with (add_findings <$> l) in Hnext.
    assert (concat l ≡ₚ dump_Finding <$> (rename_finding uuid5 eid <$> (fs1 ++ fs2 ++ fs3))) as Hc.
    { rewrite <- (concat_permutation _ _ Hl). simpl. rewrite app_nil_r. unfold dumps. by rewrite !fmap_app. }
    apply Permutation_map_inv in Hc as (fs & Hfs & Hpfs).
    exists fs. split; [exists fs1, fs2, fs3; by rewrite Hpfs|].
    rewrite apply_all_findings in Hnext. rewrite Hfs in Hnext. exact Hnext.
Qed.

(** ** Snapshots *)

Lemma timestamp_iso t : timestamp (isoformat t) = Ok t.
Proof. unfold timestamp. by rewrite fromisoformat_isoformat. Qed.

Lemma failed_checkpoint require b t fss rest :
  checkpoint_of Stuck {| cp_values := failed_state require b t fss; cp_interrupts := []; cp_next := rest |}.
Proof.
  unfold checkpoint_of, failed_state. cbn [cp_values]. rewrite apply_all_findings. split; [done|]. split; [|done].
  unfold execution_from_snapshot. cbn. by rewrite !uuid_of_str.
Qed.

Lemma stuck_checkpoint require b t fs conf rest :
  checkpoint_of Stuck {| cp_values := state_with require b t fs conf; cp_interrupts := []; cp_next := rest |}.
Proof.
  split; [done|]. split; [|done]. unfold execution_from_snapshot. cbn. by rewrite !uuid_of_str.
Qed.

Lemma waiting_checkpoint b t fs :
  forallb valid_Finding fs = true ->
  checkpoint_of (Waiting fs b t) {| cp_values := state_with true b t fs None;
    cp_interrupts := [dump_ReviewInterrupt (interrupt_of fs)]; cp_next := [evidence_confirmation] |}.
Proof.
  intros Hfs. split; [done|]. split; [|done]. unfold execution_from_snapshot. cbn [cp_interrupts cp_values].
  rewrite validate_dump_ReviewInterrupt by (unfold valid_ReviewInterrupt, interrupt_of; cbn [ri_finding_count]; apply Z.leb_le; lia).
  cbn. by rewrite !uuid_of_str.
Qed.

Lemma abandoned_checkpoint b t fs conf at_ :
  checkpoint_of Abandoned {| cp_values := rejected_state b t fs conf at_; cp_interrupts := []; cp_next := [] |}.
Proof. split; [done|]. split; [|done]. unfold execution_from_snapshot. cbn. by rewrite !uuid_of_str. Qed.

Lemma finished_checkpoint require b t fs conf rec completed :
  forallb valid_Finding fs = true -> valid_Recommendation rec = true ->
  checkpoint_of (Finished (finished fs rec b t completed))
    {| cp_values := finished_state require b t fs conf rec completed; cp_interrupts := []; cp_next := [] |}.
Proof.
  intros Hfs Hrec. split; [done|]. split; [|done]. unfold execution_from_snapshot, finished_state. cbn [cp_values cp_interrupts].
  assert (result_from_state (apply_update (state_with require b t fs conf) {|
    up_findings := []; up_recommendation := Some (Some (dump_Recommendation rec));
    up_completed_at := Some (Some (isoformat completed)); up_evidence_confirmation := None; up_cancelled := None |})
    = Ok (finished fs rec b t completed)) as Hres.
  { unfold result_from_state. cbn -[dump_Recommendation dump_Finding]. rewrite !uuid_of_str, app_nil_r. cbn [mbind result_bind].
    rewrite read_findings by done. cbn [mbind result_bind]. rewrite validate_dump_Recommendation by done.
    cbn [mbind result_bind]. by rewrite !timestamp_iso. }
  rewrite Hres. cbn -[dump_Recommendation]. by rewrite !uuid_of_str.
Qed.

(** ** Refinement *)

Section refinement.
Context {S : Type} (run_graph : CompiledGraph S) (checkpoints : S -> gmap pystr Checkpoint).
Context (Hlaws : runtime_laws graph_of run_graph checkpoints).

Abbreviation thread := (thread_of eid).

(** What the checkpointer holds for the execution. *)
Definition tracks (s : S) (p : option phase) : Prop :=
  match p, checkpoints s !! thread with
  | None, None => True
  | Some p, Some cp => checkpoint_of p cp
  | _, _ => False
  end.

(** A call made for the case [c]. *)
Definition call (c : SupplierCase) (ev : event) : prog S ReviewExecution :=
  match ev with
  | EvStart require env t => start run_graph c eid require env t
  | EvGet => get_execution run_graph c eid
  | EvResume confirmation env => resume run_graph c eid confirmation env
  end.

(** The case a call is made for may have moved on since the execution was started; an
    execution is started with the case it is about, and confirmations are schema-valid. *)
Definition call_in_scope (c : SupplierCase) (ev : event) (p : option phase) : Prop :=
  case_tenant_id c = case_tenant_id c0 /\ case_id c = case_id c0 /\
  match ev with
  | EvStart _ _ _ => p = None -> c = c0
  | EvGet => True
  | EvResume confirmation _ => valid_EvidenceConfirmation confirmation = true
  end.

(** What a call did: its answer, the phase it left and the threads it left alone. *)
Definition answered (s : S) (ev : event) (p : option phase) (out : result ReviewExecution * S) : Prop :=
  exists p', exec_step p ev out.1 p' /\ tracks out.2 p' /\
    forall thread', thread' <> thread -> checkpoints out.2 !! thread' = checkpoints s !! thread'.

Lemma scope_ok cp c p : checkpoint_of p cp -> case_tenant_id c = case_tenant_id c0 -> case_id c = case_id c0 ->
  validate_scope (cp_values cp) c eid = Ok tt.
Proof.
  intros ((Ht & Hc & He) & _) Htc Hcc. unfold validate_scope. rewrite Ht, Hc, He, Htc, Hcc.
  assert (forall x, pystr_eqb x x = true) as Hrefl by (intros x; by apply pystr_eqb_eq). by rewrite !Hrefl.
Qed.

Lemma out_of_scope cp c p : checkpoint_of p cp -> case_tenant_id c <> case_tenant_id c0 \/ case_id c <> case_id c0 ->
  validate_scope (cp_values cp) c eid = Raise (execution_not_found eid).
Proof.
  intros ((Ht & Hc & He) & _) Hout. unfold validate_scope. rewrite Ht, Hc, He.
  destruct (pystr_eqb (case_tenant_id c0) (case_tenant_id c)) eqn:E1; [|done].
  destruct (pystr_eqb (str_uuid (case_id c0)) (str_uuid (case_id c))) eqn:E2; [|done].
  apply pystr_eqb_eq in E1, E2. apply str_uuid_inj in E2. by destruct Hout; congruence.
Qed.

Lemma tracks_inv s p : tracks s p ->
  match p with
  | None => checkpoints s !! thread = None
  | Some p => exists cp, checkpoints s !! thread = Some cp /\ checkpoint_of p cp
  end.
Proof.
  unfold tracks. destruct p as [p|], (checkpoints s !! thread) as [cp|] eqn:E; intros Ht; try done. by exists cp.
Qed.

Lemma run_snapshot s cp : checkpoints s !! thread = Some cp ->
  run (snapshot_of run_graph eid) s = (execution_from_snapshot cp, s).
Proof.
  intros Hcp. unfold snapshot_of. rewrite run_bind, (rl_get _ _ _ Hlaws), Hcp. apply run_of_result.
Qed.

(** The end of an invocation that left a checkpoint of [p]. *)
Lemma invocation_shown s s' cp p r :
  checkpoints s' = <[thread := cp]> (checkpoints s) -> checkpoint_of p cp ->
  (r = Ok tt \/ exists e, r = Raise e) ->
  let out := match r with Ok _ => run (snapshot_of run_graph eid) s' | Raise e => (Raise e, s') end in
  out = (match r with Ok _ => Ok (shown p) | Raise e => Raise e end, s') /\ tracks s' (Some p) /\
  forall thread', thread' <> thread -> checkpoints s' !! thread' = checkpoints s !! thread'.
Proof.
  intros Hs' Hcp Hr. assert (checkpoints s' !! thread = Some cp) as Hl by (by rewrite Hs', lookup_insert_eq). split.
  - destruct Hcp as (_ & Hshown & _). destruct Hr as [->|[e ->]]; [|done]. by rewrite (run_snapshot _ _ Hl), Hshown.
  - split; [unfold tracks; by rewrite Hl|]. intros thread' Hne. by rewrite Hs', lookup_insert_ne.
Qed.

(** Invoking a fresh execution. *)
Lemma invoked_fresh env require t r cp :
  invoked graph_of env (from_start graph_of) None (state_with require (backend_name (answers env)) t [] None) r cp ->
  exists p, checkpoint_of p cp /\
    exec_step None (EvStart require env t) (match r with Ok _ => Ok (shown p) | Raise e => Raise e end) (Some p).
Proof.
  intros [(e & fss & rest & Hf & -> & ->)|(fs & Hg & Hinv)]%invoked_start.
  - exists Stuck. split; [apply failed_checkpoint|by apply start_fails].
  - pose proof (gathered_valid _ _ Hg) as Hfs. apply (invoked_confirmation _ _ _ _ _ _ _ Hfs) in Hinv.
    destruct require.
    + destruct Hinv as [-> ->]. eexists. split; [by apply waiting_checkpoint|by apply start_waits].
    + apply invoked_synthesize in Hinv. destruct (synthesis env fs None) as [rec|e] eqn:Es.
      * destruct Hinv as [-> ->]. eexists. split; [|by eapply start_finishes].
        apply finished_checkpoint; [done|]. by eapply synthesis_valid.
      * destruct Hinv as (-> & rest & ->). exists Stuck. split; [apply stuck_checkpoint|by eapply start_not_synthesized].
Qed.

(** Answering a waiting execution. *)
Lemma invoked_resumed fs b t conf env r cp :
  forallb valid_Finding fs = true -> valid_EvidenceConfirmation conf = true ->
  invoked graph_of env [evidence_confirmation] (Some (dump_EvidenceConfirmation conf)) (state_with true b t fs None) r cp ->
  exists p, checkpoint_of p cp /\
    exec_step (Some (Waiting fs b t)) (EvResume conf env)
      (match r with Ok _ => Ok (shown p) | Raise e => Raise e end) (Some p).
Proof.
  intros Hfs Hconf Hinv. apply (invoked_answer _ _ _ _ _ _ _ Hfs Hconf) in Hinv. destruct (ec_decision conf) eqn:Ed.
  - apply invoked_synthesize in Hinv. destruct (synthesis env fs (Some conf)) as [rec|e] eqn:Es.
    + destruct Hinv as [-> ->]. eexists. split; [|by eapply resume_confirms].
      apply finished_checkpoint; [done|]. by eapply synthesis_valid.
    + destruct Hinv as (-> & rest & ->). exists Stuck. split; [apply stuck_checkpoint|by apply resume_not_synthesized].
  - destruct Hinv as [-> ->]. exists Abandoned. split; [apply abandoned_checkpoint|by apply resume_rejects].
Qed.

Lemma result_unit (r : result unit) : r = Ok tt \/ exists e, r = Raise e.
Proof. destruct r as [[]|e]; [by left|right; by exists e]. Qed.

Lemma start_answered s p c require env t :
  tracks s p -> call_in_scope c (EvStart require env t) p ->
  answered s (EvStart require env t) p (run (start run_graph c eid require env t) s).
Proof.
  intros Ht (Htc & Hcc & Hnew). pose proof (tracks_inv _ _ Ht) as Hp. unfold start. rewrite run_bind, (rl_get _ _ _ Hlaws). cbn iota.
  destruct p as [p|].
  - destruct Hp as (cp & Hl & Hcp). rewrite Hl, run_bind, run_of_result, (scope_ok _ _ _ Hcp) by done. rewrite run_of_result.
    destruct Hcp as (Hin & Hshown & Hw). rewrite Hshown. exists (Some p). split; [constructor|done].
  - rewrite Hp, run_bind. rewrite Hnew by done.
    destruct (rl_input _ _ _ Hlaws env (initial_state c0 eid require (backend_name (answers env)) t) thread s Hp)
      as (r & cp & s' & Hrun & Hs' & Hinv).
    rewrite Hrun. apply invoked_fresh in Hinv as (p & Hcp & Hstep).
    destruct (invocation_shown _ _ _ _ _ Hs' Hcp (result_unit r)) as (Hout & Ht' & Hother).
    destruct r as [[]|e]; [rewrite Hout|]; by exists (Some p).
Qed.

Lemma get_answered s p c :
  tracks s p -> call_in_scope c EvGet p -> answered s EvGet p (run (get_execution run_graph c eid) s).
Proof.
  intros Ht (Htc & Hcc & _). pose proof (tracks_inv _ _ Ht) as Hp. unfold get_execution.
  rewrite run_bind, (rl_get _ _ _ Hlaws). cbn iota. destruct p as [p|].
  - destruct Hp as (cp & Hl & Hcp). rewrite Hl, run_bind, run_of_result, (scope_ok _ _ _ Hcp) by done. rewrite run_of_result.
    destruct Hcp as (_ & -> & _). exists (Some p). split; [constructor|done].
  - rewrite Hp. exists None. split; [constructor|done].
Qed.

Lemma resume_answered s p c conf env :
  tracks s p -> call_in_scope c (EvResume conf env) p ->
  answered s (EvResume conf env) p (run (resume run_graph c eid conf env) s).
Proof.
  intros Ht (Htc & Hcc & Hconf). pose proof (tracks_inv _ _ Ht) as Hp. unfold resume, get_execution.
  rewrite run_bind, run_bind, (rl_get _ _ _ Hlaws). cbn iota. destruct p as [p|].
  2:{ rewrite Hp. exists None. split; [constructor|done]. }
  destruct Hp as (cp & Hl & Hcp). rewrite Hl, run_bind, run_of_result, (scope_ok _ _ _ Hcp) by done. rewrite run_of_result.
  pose proof Hcp as (_ & -> & Hw). destruct p as [|fs b t|rv|]; cbn [ex_status shown].
  - exists (Some Stuck). split; [constructor|done].
  - destruct Hw as [-> Hfs]. rewrite run_bind.
    destruct (rl_resume _ _ _ Hlaws env (dump_EvidenceConfirmation conf) thread _ _ _ _ Hl) as (r & cp & s' & Hrun & Hs' & Hinv).
    rewrite Hrun. apply (invoked_resumed _ _ _ _ _ _ _ Hfs Hconf) in Hinv as (p & Hcp' & Hstep).
    destruct (invocation_shown _ _ _ _ _ Hs' Hcp' (result_unit r)) as (Hout & Ht' & Hother).
    destruct r as [[]|e]; [rewrite Hout|]; by exists (Some p).
  - exists (Some (Finished rv)). split; [constructor|done].
  - exists (Some Abandoned). split; [constructor|done].
Qed.

(** A call for another tenant's or another case changes nothing and finds nothing. *)
Lemma scoped_out s p c ev :
  tracks s (Some p) -> case_tenant_id c <> case_tenant_id c0 \/ case_id c <> case_id c0 ->
  run (call c ev) s = (Raise (execution_not_found eid), s).
Proof.
  intros (cp & Hl & Hcp)%tracks_inv Hout. pose proof (out_of_scope _ _ _ Hcp Hout) as Hscope.
  destruct ev; unfold call, start, resume, get_execution; rewrite !run_bind, (rl_get _ _ _ Hlaws), Hl; cbn iota;
    by rewrite run_bind, run_of_result, Hscope.
Qed.

Lemma call_answered s p c ev : tracks s p -> call_in_scope c ev p -> answered s ev p (run (call c ev) s).
Proof. destruct ev; [apply start_answered|apply get_answered|apply resume_answered]. Qed.
End refinement.
End machine.
