(* ===== verification/ReviewRuntime.v ===== *)
(** * A runtime for the review graph

    A sequential in-memory runtime that keeps the laws [runtime_laws] states, and texts for
    instants: what the examples of the review theorems run on. *)
From S2P Require Import Prelude PyStr Uuid Effects Json Schemas SchemaJson Governance ModelGateway ReviewGraph.
Import SupplierReviewWorkflow.
Local Open Scope py_scope.

(** The updates of a super-step, or what stops it. *)
Fixpoint collect (outcomes : list node_outcome) : list Update + node_outcome :=
  match outcomes with
  | [] => inl []
  | Done up :: outcomes => match collect outcomes with inl ups => inl (up :: ups) | inr o => inr o end
  | o :: _ => inr o
  end.

Fixpoint drive (g : StateGraph) (env : Environment) (fuel : nat) (ns : list node_name) (v : option json)
    (s : ReviewGraphState) : result unit * Checkpoint :=
  match ns, fuel with
  | [], _ => (Ok tt, {| cp_values := s; cp_interrupts := []; cp_next := [] |})
  | _, O => (Raise (OtherError (u "GraphRecursionError") []), {| cp_values := s; cp_interrupts := []; cp_next := ns |})
  | _, S fuel =>
      match collect ((fun n => node g env n s v) <$> ns) with
      | inl ups => let s' := fold_left apply_update ups s in drive g env fuel (successors g ns s') None s'
      | inr (Failed e) => (Raise e, {| cp_values := s; cp_interrupts := []; cp_next := ns |})
      | inr (Interrupted value) => (Ok tt, {| cp_values := s; cp_interrupts := [value]; cp_next := ns |})
      | inr (Done _) => (Ok tt, {| cp_values := s; cp_interrupts := []; cp_next := ns |})
      end
  end.

(** The longest path of the graph has three super-steps. *)
Definition enough : nat := 3.

Definition invoke (g : StateGraph) (env : Environment) (input : graph_input) (thread : pystr)
    (m : gmap pystr Checkpoint) : result unit * gmap pystr Checkpoint :=
  let keep '(r, c) := (r, <[thread := c]> m) in
  match input, m !! thread with
  | Input s, _ => keep (drive g env enough (from_start g) None s)
  | Resume v, Some c => keep (drive g env enough (cp_next c) (Some v) (cp_values c))
  | Resume v, None => (Raise (OtherError (u "EmptyInputError") []), m)
  end.

Definition in_memory_runtime (g : StateGraph) : CompiledGraph (gmap pystr Checkpoint) := {|
  aget_state thread := reads (fun m => Ok (m !! thread));
  ainvoke env input thread := atomic (invoke g env input thread);
|}.

(** ** Soundness *)

Lemma collect_done (f : node_name -> node_outcome) ns ups :
  collect (f <$> ns) = inl ups -> Forall2 (fun n up => f n = Done up) ns ups.
Proof.
  revert ups. induction ns as [|n ns IH]; intros ups; cbn [fmap list_fmap collect]; [by intros [= <-]|].
  destruct (f n) eqn:E; try done. destruct (collect (f <$> ns)) as [ups'|]; [|done]. intros [= <-]. constructor; [done|]. by apply IH.
Qed.

Lemma collect_stopped (f : node_name -> node_outcome) ns o :
  collect (f <$> ns) = inr o -> exists n, n ∈ ns /\ f n = o /\ forall up, o <> Done up.
Proof.
  induction ns as [|n ns IH]; cbn [fmap list_fmap collect]; [done|].
  destruct (f n) eqn:E; [|by intros [= <-]; exists n; split; [left|]..].
  destruct (collect (f <$> ns)) as [ups|o']; [done|]. intros [= <-]. destruct IH as (n' & Hn & Hf); [done|].
  exists n'. split; [by right|done].
Qed.

(** A node that runs with others does not interrupt. *)
Definition may_run (g : StateGraph) (ns : list node_name) : Prop :=
  length ns = 1 \/ forall env n s v value, n ∈ ns -> node g env n s v <> Interrupted value.

(** At most [fuel] super-steps follow. *)
Fixpoint ends_within (g : StateGraph) (fuel : nat) (ns : list node_name) : Prop :=
  ns = [] \/
  match fuel with
  | O => False
  | S fuel => may_run g ns /\ forall s, ends_within g fuel (successors g ns s)
  end.

Lemma drive_invoked g env fuel ns v s : ends_within g fuel ns ->
  let '(r, c) := drive g env fuel ns v s in invoked g env ns v s r c.
Proof.
  revert ns v s. induction fuel as [|fuel IH]; intros ns v s Hends.
  - destruct ns; [constructor|]. by destruct Hends.
  - destruct ns as [|n ns]; [constructor|]. destruct Hends as [|[Hrun Hends]]; [done|]. cbn [drive].
    destruct (collect _) as [ups|o] eqn:E.
    + specialize (IH (successors g (n :: ns) (fold_left apply_update ups s)) None (fold_left apply_update ups s) (Hends _)).
      destruct (drive g env fuel _ _ _) as [r c]. eapply invoked_step; [done| |done|exact IH]. by apply collect_done.
    + apply collect_stopped in E as (n' & Hn' & Ho & Hnot). destruct o as [up|value|e]; [by destruct (Hnot up)| |].
      * destruct Hrun as [Hone|Hno]; [|by destruct (Hno env n' s v value)]. destruct ns; [|done].
        apply list_elem_of_singleton in Hn' as ->. by apply invoked_interrupted.
      * apply (invoked_failed g env (n :: ns) v s n' e [] [] []); [done|done|done|apply submseteq_nil_l|constructor].
Qed.

Section review_graph.
Context `{JsonText} `{DatetimeText} `{IsoText} (uuid5 : UUID -> pystr -> UUID) (finding_batch_schema recommendation_schema : json).

Abbreviation graph := (build_graph uuid5 finding_batch_schema recommendation_schema).

Lemma synthesize_ends fuel : ends_within graph (S fuel) [synthesize].
Proof. right. split; [by left|]. intros s. destruct fuel; by left. Qed.

Lemma confirmation_ends fuel : ends_within graph (S (S fuel)) [evidence_confirmation].
Proof.
  right. split; [by left|]. intros s.
  change (ends_within graph (S fuel) (match after_evidence_confirmation s with Some n => [n] | None => [] end)).
  destruct (after_evidence_confirmation s) as [n|] eqn:E; [|destruct fuel; by left].
  unfold after_evidence_confirmation in E. destruct (gs_cancelled s); [done|]. injection E as <-. apply synthesize_ends.
Qed.

Lemma single_ends n : ends_within graph enough [n].
Proof.
  destruct n; [..|apply confirmation_ends|apply synthesize_ends]; (right; split; [by left|]; intros s; by left).
Qed.

Lemma review_ends : ends_within graph enough (from_start graph).
Proof.
  right. split.
  - right. intros env n s v value Hn. cbn [from_start build_graph] in Hn. rewrite !elem_of_cons in Hn.
    destruct Hn as [->|[->|[->|Hn%elem_of_nil]]]; [..|done]; cbn; by destruct (run_specialist _ _ _ _ _).
  - intros s. change (ends_within graph 2 [evidence_confirmation]). apply confirmation_ends.
Qed.

(** The runtime keeps the laws. *)
Lemma in_memory_laws : runtime_laws graph (in_memory_runtime graph) id.
Proof.
  split.
  - intros thread m. cbn [aget_state in_memory_runtime]. by rewrite run_reads.
  - intros env st thread m Hm. cbn [ainvoke in_memory_runtime]. rewrite run_atomic. unfold invoke, id.
    pose proof (drive_invoked graph env enough (from_start graph) None st review_ends) as Hd.
    destruct (drive _ _ _ _ _ _) as [r c]. by exists r, c, (<[thread := c]> m).
  - intros env v thread st value n m Hm. cbn [ainvoke in_memory_runtime]. rewrite run_atomic. unfold invoke, id in *. rewrite Hm.
    cbn [cp_next cp_values]. pose proof (drive_invoked graph env enough [n] (Some v) st (single_ends n)) as Hd.
    destruct (drive _ _ _ _ _ _) as [r c]. by exists r, c, (<[thread := c]> m).
Qed.
End review_graph.

(** Texts of instants. *)
#[export, refine] Instance iso_timestamps `{DatetimeText} : IsoText := {| isoformat := dt_dump; fromisoformat := dt_load |}.
Proof. exact dt_load_dump. Defined.
