(* ===== verification/ReviewTheorems.v ===== *)
(** * What a review execution does

    The workflow implements the machine of [ReviewMachine]; a settled execution stays as
    it is; with the deterministic backend a review always completes, with the findings
    of the rules that fire and the decision their severities call for. *)
From S2P Require Import Prelude PyStr Uuid Effects Json Schemas SchemaJson Governance GovernanceTheorems.
From S2P Require Import ModelGateway JsonTextCode RemoteModels ModelTheorems ReviewGraph ReviewMachine.
From S2P Require Import ReviewRuntime.
Import SupplierReviewWorkflow.
Local Open Scope py_scope.

Section execution.
Context `{JT : JsonText} `{DT : DatetimeText} `{IT : IsoText} (uuid5 : UUID -> pystr -> UUID).
Context (finding_batch_schema recommendation_schema : json) (eid : UUID) (c0 : SupplierCase).
Context {S : Type} (run_graph : CompiledGraph S) (checkpoints : S -> gmap pystr Checkpoint).

Abbreviation graph := (build_graph uuid5 finding_batch_schema recommendation_schema).
Abbreviation tracked := (tracks eid c0 checkpoints).
Abbreviation calling := (call eid run_graph).
Abbreviation in_scope_call := (call_in_scope c0).
Abbreviation step := (exec_step uuid5 finding_batch_schema recommendation_schema eid c0).

(** C19. Over any runtime that keeps the documented laws and any backend, every call of the
    workflow about an execution is a step of the execution machine: it is given the answer
    of the step and leaves a checkpoint of its phase, and no other execution changes. A
    call for another tenant or another case is told the execution does not exist, and
    changes nothing. *)
Theorem workflow_refines (Hlaws : runtime_laws graph run_graph checkpoints)
    (Hvalid : valid_SupplierCase c0 = true) s p c ev :
  tracked s p ->
  (in_scope_call c ev p -> let '(r, s') := run (calling c ev) s in
     exists p', step p ev r p' /\ tracked s' p' /\
       forall thread, thread <> thread_of eid -> checkpoints s' !! thread = checkpoints s !! thread) /\
  (is_some p = true -> case_tenant_id c <> case_tenant_id c0 \/ case_id c <> case_id c0 ->
     run (calling c ev) s = (Raise (execution_not_found eid), s)).
Proof.
  intros Ht. split.
  - intros Hscope. pose proof (call_answered uuid5 _ _ eid c0 Hvalid run_graph checkpoints Hlaws s p c ev Ht Hscope) as Ha.
    destruct (run (calling c ev) s) as [r s']. exact Ha.
  - intros Hp Hout. destruct p as [p|]; [|done]. by eapply scoped_out.
Qed.

(** ** Settled executions *)

(** A list of calls, one after the other. *)
Fixpoint calls (l : list (SupplierCase * event)) (s : S) : list (result ReviewExecution) * S :=
  match l with
  | [] => ([], s)
  | (c, ev) :: l => let '(r, s) := run (calling c ev) s in let '(rs, s) := calls l s in (r :: rs, s)
  end.

Definition settled (p : phase) : Prop := match p with Waiting _ _ _ => False | _ => True end.

(** The answer a settled execution gives. *)
Definition settled_answer (p : phase) (ev : event) : result ReviewExecution :=
  match p, ev with
  | Stuck, EvResume _ _ => Raise (not_awaiting eid)
  | _, _ => Ok (shown eid c0 p)
  end.

Lemma settled_step p ev r p' : settled p -> step (Some p) ev r p' -> p' = Some p /\ r = settled_answer p ev.
Proof. intros Hp Hs. inversion Hs; subst; try done; by destruct p. Qed.

(** C21. An execution that has completed, was rejected, or failed is settled: whatever calls
    follow, it stays as it is and every start and load answers the same. A failed one is
    shown as running for ever and no resume is accepted. *)
Theorem settled_stays (Hlaws : runtime_laws graph run_graph checkpoints) (Hvalid : valid_SupplierCase c0 = true) s p l :
  tracked s (Some p) -> settled p -> Forall (fun '(c, ev) => in_scope_call c ev (Some p)) l ->
  let '(rs, s') := calls l s in
  tracked s' (Some p) /\ Forall2 (fun '(c, ev) r => r = settled_answer p ev) l rs.
Proof.
  intros Ht Hp Hl. revert s Ht. induction Hl as [|[c ev] l Hc _ IH]; intros s Ht; [by split|]. cbn [calls].
  destruct (call_answered uuid5 _ _ eid c0 Hvalid run_graph checkpoints Hlaws s _ c ev Ht Hc) as (p' & Hstep & Ht' & _).
  destruct (run (calling c ev) s) as [r s1]. cbn [fst snd] in *. apply (settled_step _ _ _ _ Hp) in Hstep as [-> ->].
  specialize (IH s1 Ht'). destruct (calls l s1) as [rs s2]. destruct IH as [? ?]. split; [done|by constructor].
Qed.
End execution.

(** ** Reviews by the deterministic backend *)

Section deterministic_review.
Context `{JT : JsonText} `{UL : UnicodeLower} `{DT : DatetimeText} `{IT : IsoText} (uuid5 : UUID -> pystr -> UUID).
Context (finding_batch_schema recommendation_schema : json) (eid : UUID) (c0 : SupplierCase).
Context (Hvalid : valid_SupplierCase c0 = true).

Abbreviation backend := (DeterministicBackend.backend uuid5).
Abbreviation rules := DeterministicBackend.rules.

(** The rules that fire on the documents of the case. *)
Definition firing (c : RiskCategory) : list DeterministicBackend.Rule := List.filter (fires (documents c0)) (rules c).

Definition review_context : list (pystr * json) :=
  [(u "case_id", JStr (str_uuid (case_id c0))); (u "supplier_name", JStr (supplier_name c0));
   (u "documents", enc_list dump_DocumentInput (documents c0))].

(** The findings of a domain, named for the case. *)
Definition found (c : RiskCategory) (fs : list Finding) : Prop :=
  Forall2 (rule_finding uuid5 c review_context (documents c0)) (firing c) fs.

(** What all three domains find, renamed for the execution. *)
Definition reviewed (fs : list Finding) : Prop :=
  exists fs1 fs2 fs3, found SECURITY fs1 /\ found LEGAL fs2 /\ found FINANCIAL fs3 /\
    fs ≡ₚ rename_finding uuid5 eid <$> (fs1 ++ fs2 ++ fs3).

(** The decision the rules call for. *)
Definition decided (d : Decision) : Prop :=
  (d = ESCALATE <-> exists c r, r ∈ firing c /\ DeterministicBackend.rule_severity r = CRITICAL) /\
  (d = APPROVE <-> forall c r, r ∈ firing c -> DeterministicBackend.rule_severity r = LOW) /\ d <> REJECT.

Lemma valid_documents : forallb valid_DocumentInput (documents c0) = true.
Proof. by apply andb_prop in Hvalid as [_ ?]. Qed.

Lemma backend_specialist env task c :
  answers env = backend -> DeterministicBackend.category_of task = Some c ->
  exists fs, specialist finding_batch_schema c0 env task = Ok fs /\ found c fs.
Proof.
  intros Henv Hcat. unfold specialist. rewrite Henv. cbn [generate DeterministicBackend.backend].
  unfold DeterministicBackend.generate. cbn [ModelGateway.task request_for]. rewrite Hcat.
  destruct (review_spec uuid5 c review_context (documents c0) valid_documents eq_refl) as (fs & Hrev & Hv & Hall).
  cbn [context request_for default from_option]. change (_ :: _) with review_context. cbn [id]. rewrite Hrev. cbn [mbind result_bind].
  exists fs. split; [by apply validate_FindingBatch_text|done].
Qed.

Lemma backend_gathers env : answers env = backend ->
  (forall e, ~ some_specialist_fails finding_batch_schema c0 env e) /\
  forall fs, gathered uuid5 finding_batch_schema eid c0 env fs -> reviewed fs.
Proof.
  intros Henv.
  destruct (backend_specialist env SECURITY_REVIEW SECURITY Henv eq_refl) as (fs1 & H1 & Hf1).
  destruct (backend_specialist env LEGAL_REVIEW LEGAL Henv eq_refl) as (fs2 & H2 & Hf2).
  destruct (backend_specialist env FINANCIAL_REVIEW FINANCIAL Henv eq_refl) as (fs3 & H3 & Hf3). split.
  - intros e (task & Ht & He). rewrite !elem_of_cons in Ht.
    destruct Ht as [->|[->|[->|Ht%elem_of_nil]]]; [congruence..|done].
  - intros fs (gs1 & gs2 & gs3 & G1 & G2 & G3 & Hp). exists gs1, gs2, gs3.
    rewrite H1 in G1. rewrite H2 in G2. rewrite H3 in G3.
    injection G1 as <-. injection G2 as <-. injection G3 as <-. by split_and!.
Qed.

Lemma backend_synthesizes env fs conf : answers env = backend -> forallb valid_Finding fs = true ->
  exists rec, synthesis recommendation_schema c0 env fs conf = Ok rec /\
    rec_decision rec = DeterministicBackend.decision_of fs /\ rec_required_actions rec = remediation <$> fs.
Proof.
  intros Henv Hv. unfold synthesis. rewrite Henv. cbn [generate DeterministicBackend.backend].
  unfold DeterministicBackend.generate. cbn [ModelGateway.task request_for DeterministicBackend.category_of context default from_option id].
  rewrite (synthesize_spec _ fs Hv) by reflexivity. cbn [mbind result_bind].
  eexists. split; [apply validate_Recommendation_text; by apply least_confidence_valid|by split].
Qed.

Lemma found_severities c fs : found c fs -> severity <$> fs = DeterministicBackend.rule_severity <$> firing c.
Proof. unfold found. induction 1 as [|r f rs fs Hrf _ IH]; [done|]. cbn [fmap list_fmap]. rewrite (rf_severity _ _ _ _ _ _ Hrf). by f_equal. Qed.

(** A severity is found exactly when a firing rule has it. *)
Lemma reviewed_severity fs sev :
  reviewed fs -> (exists f, f ∈ fs /\ severity f = sev) <-> exists c r, r ∈ firing c /\ DeterministicBackend.rule_severity r = sev.
Proof.
  intros (fs1 & fs2 & fs3 & H1%found_severities & H2%found_severities & H3%found_severities & Hp).
  assert (severity <$> fs ≡ₚ (severity <$> fs1) ++ (severity <$> fs2) ++ (severity <$> fs3)) as Hs.
  { rewrite Hp, <- !fmap_app, <- list_fmap_compose. by apply Permutation_map. }
  rewrite H1, H2, H3 in Hs.
  assert ((exists f, f ∈ fs /\ severity f = sev) <-> sev ∈ severity <$> fs) as ->.
  { rewrite list_elem_of_fmap. split; intros (f & ? & ?); exists f; by split. }
  rewrite Hs, !elem_of_app, !list_elem_of_fmap. split.
  - intros [(r & -> & Hr)|[(r & -> & Hr)|(r & -> & Hr)]]; eauto.
  - intros (c & r & Hr & <-). destruct c; eauto 6.
Qed.

Lemma reviewed_decision fs : reviewed fs -> decided (DeterministicBackend.decision_of fs).
Proof.
  intros Hr. destruct (decision_spec fs) as (Hesc & Happ & Hrej). split; [|split; [|done]].
  - rewrite Hesc. by apply reviewed_severity.
  - rewrite Happ. split.
    + intros Hall c r Hin. destruct (proj2 (reviewed_severity fs (DeterministicBackend.rule_severity r) Hr)) as (f & Hf & <-); [by exists c, r|].
      by apply Hall.
    + intros Hall f Hf. destruct (proj1 (reviewed_severity fs (severity f) Hr)) as (c & r & Hin & <-); [by exists f|]. by eapply Hall.
Qed.

(** Starting with the deterministic backend never fails. *)
Lemma backend_start env require t r p' :
  answers env = backend ->
  exec_step uuid5 finding_batch_schema recommendation_schema eid c0 None (EvStart require env t) r p' ->
  exists fs, reviewed fs /\ forallb valid_Finding fs = true /\
    if require then let p := Waiting fs (u "deterministic") t in r = Ok (shown eid c0 p) /\ p' = Some p
    else exists rec, decided (rec_decision rec) /\ rec_required_actions rec = remediation <$> fs /\
      let p := Finished (finished eid c0 fs rec (u "deterministic") t (clock env)) in r = Ok (shown eid c0 p) /\ p' = Some p.
Proof.
  intros Henv Hstep. destruct (backend_gathers env Henv) as [Hno Hall].
  assert (backend_name (answers env) = u "deterministic") as Hname by (by rewrite Henv).
  inversion Hstep as [? ? ? e Hf|? ? fs Hg|? ? fs rec Hg Hs|? ? fs e Hg Hs| | | | | | | | | |]; subst; [by destruct (Hno e)|..];
    (exists fs; split; [by apply Hall|]; pose proof (gathered_valid _ _ _ _ _ _ Hg) as Hv; split; [done|]).
  - by rewrite <- Hname.
  - destruct (backend_synthesizes env fs None Henv Hv) as (rec' & Hs' & Hd & Ha). rewrite Hs in Hs'. injection Hs' as <-.
    exists rec. rewrite Hd, <- Hname. split; [by apply reviewed_decision, Hall|done].
  - destruct (backend_synthesizes env fs None Henv Hv) as (rec' & Hs' & _). congruence.
Qed.

(** Confirming with the deterministic backend never fails. *)
Lemma backend_confirm env fs t conf r p' :
  answers env = backend -> ec_decision conf = EC_CONFIRM -> reviewed fs -> forallb valid_Finding fs = true ->
  exec_step uuid5 finding_batch_schema recommendation_schema eid c0 (Some (Waiting fs (u "deterministic") t)) (EvResume conf env) r p' ->
  exists rec, decided (rec_decision rec) /\ rec_required_actions rec = remediation <$> fs /\
    r = Ok (shown eid c0 (Finished (finished eid c0 fs rec (u "deterministic") t (clock env)))).
Proof.
  intros Henv Hc Hr Hv Hstep. destruct (backend_synthesizes env fs (Some conf) Henv Hv) as (rec & Hs & Hd & Ha).
  exists rec. rewrite Hd. split; [by apply reviewed_decision|]. split; [done|].
  inversion Hstep as [| | | | | | | | | | |? ? ? ? ? Hrej|? ? ? ? ? rec' ? Hs'|? ? ? ? ? e ? Hs']; subst; [congruence| |congruence].
  rewrite Hs in Hs'. by injection Hs' as <-.
Qed.

Context {S : Type} (run_graph : CompiledGraph S) (checkpoints : S -> gmap pystr Checkpoint).

(** C20. With the deterministic backend a review of a valid case always completes: directly, or
    by waiting for a confirmation with the findings in hand and completing once it is given.
    Either way it reports the findings of exactly the rules that fire on the documents, requires
    their remediations, escalates exactly when a critical rule fires, approves exactly when only
    low ones do, and never rejects. *)
Theorem deterministic_review_completes
    (Hlaws : runtime_laws (build_graph uuid5 finding_batch_schema recommendation_schema) run_graph checkpoints)
    env env' t conf s :
  checkpoints s !! thread_of eid = None -> answers env = backend -> answers env' = backend ->
  valid_EvidenceConfirmation conf = true -> ec_decision conf = EC_CONFIRM ->
  (exists fs rec s', reviewed fs /\ decided (rec_decision rec) /\ rec_required_actions rec = remediation <$> fs /\
     run (run_review run_graph c0 eid env t) s
     = (Ok (finished eid c0 fs rec (u "deterministic") t (clock env)), s')) /\
  (exists fs rec s' s'', reviewed fs /\ decided (rec_decision rec) /\ rec_required_actions rec = remediation <$> fs /\
     run (start run_graph c0 eid true env t) s = (Ok (shown eid c0 (Waiting fs (u "deterministic") t)), s') /\
     run (resume run_graph c0 eid conf env') s'
     = (Ok (shown eid c0 (Finished (finished eid c0 fs rec (u "deterministic") t (clock env')))), s'')).
Proof.
  intros Hnew Henv Henv' Hconf Hdec.
  assert (tracks eid c0 checkpoints s None) as Ht by (unfold tracks; by rewrite Hnew).
  pose proof (start_answered uuid5 _ _ eid c0 Hvalid run_graph checkpoints Hlaws s None c0) as Hstart. split.
  - destruct (Hstart false env t Ht) as (p' & Hstep & _); [by split_and!|].
    apply (backend_start _ _ _ _ _ Henv) in Hstep as (fs & Hr & _ & rec & Hd & Ha & Hans & _).
    destruct (run (start _ _ _ _ _ _) s) as [r s'] eqn:E. exists fs, rec, s'. split_and!; [done..|].
    unfold run_review. rewrite run_bind, E. cbn [fst] in Hans. by rewrite Hans.
  - destruct (Hstart true env t Ht) as (p' & Hstep & Ht' & _); [by split_and!|].
    apply (backend_start _ _ _ _ _ Henv) in Hstep as (fs & Hr & Hv & Hans & ->).
    destruct (run (start _ _ _ _ _ _) s) as [r s'] eqn:E. cbn [fst snd] in *.
    destruct (resume_answered uuid5 _ _ eid c0 Hvalid run_graph checkpoints Hlaws s' _ c0 conf env' Ht') as (p2 & Hstep & _); [by split_and!|].
    apply (backend_confirm _ _ _ _ _ _ Henv' Hdec Hr Hv) in Hstep as (rec & Hd & Ha & Hans').
    destruct (run (resume _ _ _ _ _) s') as [r' s''] eqn:E'. exists fs, rec, s', s''. cbn [fst] in Hans'. by subst.
Qed.
End deterministic_review.

(** ** A concrete review *)

Module Review.
Import History.

(** A case whose one document lets credentials be shared. *)
Definition reviewed_case : SupplierCase := {|
  case_id := uuid 10; case_tenant_id := tenant; supplier_name := u "Widgets"; description := [];
  case_status := IN_REVIEW; documents := sample_docs; case_created_at := 0%Z; case_updated_at := 2%Z |}.

Definition other_tenant's : SupplierCase := {|
  case_id := uuid 10; case_tenant_id := u "another"; supplier_name := u "Widgets"; description := [];
  case_status := IN_REVIEW; documents := []; case_created_at := 0%Z; case_updated_at := 2%Z |}.

Definition execution : UUID := uuid 30.
Definition review_graph : StateGraph := build_graph id_of JNull JNull.
Definition runtime : CompiledGraph (gmap pystr Checkpoint) := in_memory_runtime review_graph.
Definition runtime_keeps_laws : runtime_laws review_graph runtime id := in_memory_laws id_of JNull JNull.

Definition at_time (t : Z) : Environment := {| answers := DeterministicBackend.backend id_of; clock := t |}.
Definition confirm : EvidenceConfirmation := {| ec_decision := EC_CONFIRM; ec_comment := u "sufficient" |}.

Definition first_call : event := EvStart true (at_time 4) 3%Z.
Definition started := run (call execution runtime reviewed_case first_call) ∅.

Lemma workflow_refines_witness :
  ex_status <$> started.1 = Ok AWAITING_INPUT /\
  exists p, exec_step id_of JNull JNull execution reviewed_case None first_call started.1 (Some p) /\
    tracks execution reviewed_case id started.2 (Some p) /\
    run (call execution runtime other_tenant's EvGet) started.2 = (Raise (execution_not_found execution), started.2).
Proof.
  split; [vm_compute; reflexivity|].
  pose proof (workflow_refines id_of JNull JNull execution reviewed_case runtime id runtime_keeps_laws eq_refl
    ∅ None reviewed_case first_call I) as [Hcall _].
  specialize (Hcall (conj eq_refl (conj eq_refl (fun _ => eq_refl)))). fold started in Hcall.
  destruct started as [r s']. destruct Hcall as (p' & Hstep & Ht & _).
  assert (exists p, p' = Some p) as [p ->] by (inversion Hstep; by eexists).
  exists p. split; [exact Hstep|]. split; [exact Ht|].
  apply (workflow_refines id_of JNull JNull execution reviewed_case runtime id runtime_keeps_laws eq_refl
    s' (Some p) other_tenant's EvGet Ht); [reflexivity|]. left. discriminate.
Defined.

(** A provider that is down: the execution it starts is stuck. *)
Definition outage : exn := RuntimeError (u "unavailable").
Definition down : Environment :=
  {| answers := {| backend_name := u "openai"; generate := fun _ => Raise outage |}; clock := 4%Z |}.
Definition failed := run (call execution runtime reviewed_case (EvStart true down 3%Z)) ∅.

Definition later_calls : list (SupplierCase * event) :=
  [(reviewed_case, EvStart true (at_time 5) 5%Z); (reviewed_case, EvGet); (reviewed_case, EvResume confirm (at_time 6))].

Lemma settled_stays_witness :
  failed.1 = Raise outage /\
  (calls execution runtime later_calls failed.2).1
  = [Ok (shown execution reviewed_case Stuck); Ok (shown execution reviewed_case Stuck); Raise (not_awaiting execution)].
Proof.
  split; [vm_compute; reflexivity|].
  assert (tracks execution reviewed_case id failed.2 (Some Stuck)) as Ht.
  { vm_compute. split; [by split|by split]. }
  pose proof (settled_stays id_of JNull JNull execution reviewed_case runtime id runtime_keeps_laws eq_refl
    failed.2 Stuck later_calls Ht I) as Hs.
  assert (Forall (fun '(c, ev) => call_in_scope reviewed_case c ev (Some Stuck)) later_calls) as Hl
    by (repeat constructor; done).
  specialize (Hs Hl). destruct (calls execution runtime later_calls failed.2) as [rs s']. destruct Hs as [_ Hrs].
  cbn [fst]. unfold later_calls in Hrs.
  repeat match goal with H : Forall2 _ _ _ |- _ => apply Forall2_cons_inv_l in H as (? & ? & ? & H & ?); subst end.
  apply Forall2_nil_inv_l in Hrs. subst. reflexivity.
Defined.

Lemma deterministic_review_completes_witness :
  decided reviewed_case ESCALATE /\
  exists fs rec s',
    run (run_review runtime reviewed_case execution (at_time 4) 3%Z) ∅
    = (Ok (finished execution reviewed_case fs rec (u "deterministic") 3%Z 4%Z), s') /\
    reviewed id_of execution reviewed_case fs /\ decided reviewed_case (rec_decision rec) /\ rec_decision rec = ESCALATE.
Proof.
  pose proof (deterministic_review_completes id_of JNull JNull execution reviewed_case eq_refl runtime id runtime_keeps_laws
    (at_time 4) (at_time 6) 3%Z confirm ∅ eq_refl eq_refl eq_refl eq_refl eq_refl) as [(fs & rec & s' & Hr & Hd & _ & Hrun) _].
  assert (rec_decision rec = ESCALATE) as He.
  { apply (proj1 Hd). exists SECURITY. eexists. split; [vm_compute; left|reflexivity]. }
  split; [by rewrite <- He|]. exists fs, rec, s'. split; [exact Hrun|]. split; [exact Hr|]. by split.
Defined.
End Review.
