(* ===== verification/Chunking.v ===== *)
(** * Structural chunking

    [StructuralChunker] of [packages/retrieval/chunking.py].  The heading pattern and
    the paragraph separator are executable matchers, with the declarative meaning of
    the heading pattern proved equal.  The filling loop of [_bounded_parts] is not
    structural in the source and diverges for some accepted settings: it takes fuel
    and answers [None] when it has not finished. *)
From S2P Require Import Prelude PyStr Uuid Effects Json Schemas Governance.
Local Open Scope py_scope.

(** [packages/schemas/documents.py] *)
Record DocumentChunk := {
  dc_id : UUID;
  dc_document_id : UUID;
  dc_case_id : UUID;
  dc_position : Z;
  dc_heading : option pystr;
  dc_content : pystr;
  dc_token_count : Z;
  dc_metadata : list (pystr * json);
}.

Definition valid_DocumentChunk (c : DocumentChunk) : bool :=
  (0 <=? dc_position c)%Z && len_at_least 1 (length (dc_content c)) && (1 <=? dc_token_count c)%Z.

Record Section_ := { heading : option pystr; text : pystr }.

Record StructuralChunker := { max_chars : nat; overlap_chars : nat }.

(** [__init__] *)
Definition init (max overlap : Z) : result StructuralChunker :=
  if (max <? 200)%Z then Raise (ValueError (u "max_chars must be at least 200"))
  else if (overlap <? 0)%Z || (max <=? overlap)%Z
  then Raise (ValueError (u "overlap_chars must be between zero and max_chars"))
  else Ok {| max_chars := Z.to_nat max; overlap_chars := Z.to_nat overlap |}.

(** ** Patterns *)

Definition hash_sign : N := 35%N.

(** [_HEADING.match(line)] and [match.group(2).strip()], for a line without line breaks:
    one to six hashes, white space, and a title that may itself be white space. *)
Definition match_heading (line : pystr) : option pystr :=
  let '(hashes, rest) := span (fun c => (c =? hash_sign)%N) line in
  match rest with
  | c :: rest' =>
      if (1 <=? length hashes) && (length hashes <=? 6) && isspace c
         && negb (bool_decide (rest' = []))
      then Some (strip rest') else None
  | [] => None
  end.

(** The part of a white-space run after its last newline, if it has one. *)
Fixpoint after_last_newline (run : pystr) : option pystr :=
  match run with
  | [] => None
  | c :: run' =>
      match after_last_newline run' with
      | Some s => Some s
      | None => if (c =? newline)%N then Some run' else None
      end
  end.

(** [re.split(r"\n\s*\n", text)]: at a newline followed by white space with another
    newline in it, the separator reaches to the last newline of that white space. *)
Fixpoint split_paragraphs (fuel : nat) (cur : pystr) (s : pystr) : list pystr :=
  match fuel with
  | O => [reverse cur ++ s]
  | S fuel =>
      match s with
      | [] => [reverse cur]
      | c :: s' =>
          if (c =? newline)%N
          then let '(run, rest) := span isspace s' in
               match after_last_newline run with
               | Some tail => reverse cur :: split_paragraphs fuel [] (tail ++ rest)
               | None => split_paragraphs fuel (c :: cur) s'
               end
          else split_paragraphs fuel (c :: cur) s'
      end
  end.

Definition paragraphs (s : pystr) : list pystr :=
  strip <$> List.filter has_text (split_paragraphs (S (length s)) [] s).

(** ** Sections *)

(** [any(item.strip() for item in lines)] and the append it guards. *)
Definition close_section (h : option pystr) (lines : list pystr) : list Section_ :=
  if existsb has_text lines then [{| heading := h; text := join [newline] lines |}] else [].

Fixpoint sections_from (h : option pystr) (lines : list pystr) (todo : list pystr) : list Section_ :=
  match todo with
  | [] => close_section h lines
  | line :: todo' =>
      match match_heading line with
      | Some title => close_section h lines ++ sections_from (Some title) [] todo'
      | None => sections_from h (lines ++ [line]) todo'
      end
  end.

Definition sections (markdown : pystr) : list Section_ :=
  match sections_from None [] (splitlines markdown) with
  | [] => [{| heading := None; text := markdown |}]
  | l => l
  end.

(** ** Bounded parts *)

Section chunker.
Context (ch : StructuralChunker).

Definition gap : pystr := [newline; newline].

(** [current[-self._overlap_chars:] if self._overlap_chars else ""] *)
Definition overlap (current : pystr) : pystr :=
  if (overlap_chars ch =? 0) then [] else drop (length current - overlap_chars ch) current.

(** The [while remaining] loop; on naturals [available <= 0] is [available = 0]. *)
Fixpoint fill (fuel : nat) (remaining current : pystr) (parts : list pystr) : option (pystr * list pystr) :=
  match remaining with
  | [] => Some (current, parts)
  | _ =>
      match fuel with
      | O => None
      | S fuel =>
          let available := max_chars ch - length current - (match current with [] => 0 | _ => 2 end) in
          if (available =? 0) then fill fuel remaining (overlap current) (parts ++ [current])
          else
            let piece := take available remaining in
            let current := match current with [] => piece | _ => current ++ gap ++ piece end in
            let remaining := drop (length piece) remaining in
            if (max_chars ch <=? length current)
            then fill fuel remaining (overlap current) (parts ++ [current])
            else fill fuel remaining current parts
      end
  end.

Fixpoint fill_all (fuel : nat) (ps : list pystr) (current : pystr) (parts : list pystr) : option (list pystr) :=
  match ps with
  | [] => Some (match current with [] => parts | _ => parts ++ [current] end)
  | p :: ps' =>
      match fill fuel p current parts with
      | Some (current, parts) => fill_all fuel ps' current parts
      | None => None
      end
  end.

(** [_bounded_parts]; twice the length of the text is enough fuel for one paragraph. *)
Definition bounded_parts (fuel : nat) (s : pystr) : option (list pystr) := fill_all fuel (paragraphs s) [] [].

Definition fuel_for (s : pystr) : nat := 2 * length s + 1.

(** ** Chunks *)

Context (uuid5 : UUID -> pystr -> UUID).

(** One part of a section, as [chunk] appends it; blank parts are skipped. *)
Definition emit (case_id document_id : UUID) (metadata : list (pystr * json)) (h : option pystr)
    (outputs : list DocumentChunk) (part : pystr) : list DocumentChunk :=
  let content := strip part in
  match content with
  | [] => outputs
  | _ =>
      let position := Z.of_nat (length outputs) in
      outputs ++ [{|
        dc_id := uuid5 NAMESPACE_URL (str_uuid document_id ++ u ":" ++ str_int position ++ u ":" ++ content);
        dc_document_id := document_id; dc_case_id := case_id; dc_position := position;
        dc_heading := h; dc_content := content;
        dc_token_count := Z.max 1 (Z.of_nat (length (split content)));
        dc_metadata := metadata |}]
  end.

Fixpoint chunk_sections (case_id document_id : UUID) (metadata : list (pystr * json))
    (outputs : list DocumentChunk) (ss : list Section_) : option (list DocumentChunk) :=
  match ss with
  | [] => Some outputs
  | s :: ss' =>
      match bounded_parts (fuel_for (text s)) (text s) with
      | Some parts =>
          chunk_sections case_id document_id metadata
            (fold_left (emit case_id document_id metadata (heading s)) parts outputs) ss'
      | None => None
      end
  end.

Definition chunk (case_id document_id : UUID) (markdown : pystr) (metadata : list (pystr * json)) :
    option (list DocumentChunk) :=
  chunk_sections case_id document_id metadata [] (sections markdown).
End chunker.

(** ** The heading pattern *)

Lemma span_all p a s :
  Forall (fun c => p c = true) a -> match s with c :: _ => p c = false | [] => True end -> span p (a ++ s) = (a, s).
Proof.
  induction 1 as [|c a Hc _ IH]; intros Hs; simpl.
  - destruct s as [|c s]; [done|]. simpl. by rewrite Hs.
  - by rewrite Hc, IH.
Qed.

Lemma span_fst p s : Forall (fun c => p c = true) (span p s).1.
Proof.
  induction s as [|c s IH]; simpl; [constructor|]. destruct (p c) eqn:E; [|constructor].
  destruct (span p s). simpl in *. by constructor.
Qed.

Lemma lstrip_blank_app a s : has_text a = false -> lstrip (a ++ s) = lstrip s.
Proof.
  induction a as [|c a IH]; [done|]. rewrite has_text_cons. simpl.
  destruct (isspace c); simpl; [done|done].
Qed.

Lemma lstrip_text_app s b : has_text s = true -> lstrip (s ++ b) = lstrip s ++ b.
Proof. induction s as [|c s IH]; simpl; [done|]. by destruct (isspace c). Qed.

Lemma rstrip_app_blank s b : has_text b = false -> rstrip (s ++ b) = rstrip s.
Proof. intros H. unfold rstrip. rewrite reverse_app, lstrip_blank_app; [done|by rewrite has_text_reverse]. Qed.

Lemma strip_pad a s b : has_text a = false -> has_text b = false -> strip (a ++ s ++ b) = strip s.
Proof.
  intros Ha Hb. unfold strip. rewrite lstrip_blank_app by done. destruct (has_text s) eqn:E.
  - rewrite lstrip_text_app by done. by apply rstrip_app_blank.
  - rewrite lstrip_blank_app by done. apply lstrip_nil in E as ->. apply lstrip_nil in Hb. by rewrite Hb.
Qed.

Lemma blank_head c s : has_text (c :: s) = false -> isspace c = true /\ has_text s = false.
Proof. rewrite has_text_cons, orb_false_iff, negb_false_iff. done. Qed.

(** A line is a heading exactly when it is one to six hashes, white space, a title and
    trailing white space, as the pattern says, and the heading kept is the stripped
    title, whichever way the pattern is matched. *)
Theorem heading_pattern line h :
  match_heading line = Some h <->
  exists k ws title tail, line = replicate k hash_sign ++ ws ++ title ++ tail /\ 1 <= k <= 6 /\
    ws <> [] /\ has_text ws = false /\ title <> [] /\ has_text tail = false /\ h = strip title.
Proof.
  unfold match_heading. split.
  - destruct (span _ line) as [hashes rest] eqn:E.
    pose proof (span_app (fun c => (c =? hash_sign)%N) line) as Happ.
    pose proof (span_fst (fun c => (c =? hash_sign)%N) line) as Hall. rewrite E in Happ, Hall. simpl in Hall.
    destruct rest as [|c rest]; [done|]. destruct (_ && _) eqn:Hc; [|done]. intros [= <-].
    rewrite !andb_true_iff, !Nat.leb_le, negb_true_iff, bool_decide_eq_false in Hc.
    destruct Hc as [[[H1 H2] Hsp] Hne]. exists (length hashes), [c], rest, [].
    split_and!; try done; [|by rewrite has_text_cons, Hsp].
    rewrite app_nil_r, Happ. simpl. f_equal. clear -Hall. induction Hall as [|x l Hx _ IH]; [done|].
    simpl. apply N.eqb_eq in Hx. by rewrite Hx, <- IH.
  - intros (k & ws & title & tail & -> & Hk & Hws & Hb & Ht & Htl & ->).
    destruct ws as [|c ws]; [done|]. apply blank_head in Hb as [Hc Hb].
    rewrite span_all; [| |].
    + cbn [app]. rewrite length_replicate, Hc. rewrite bool_decide_eq_false_2.
      2:{ intros [_ [? _]%app_nil]%app_nil. done. }
      rewrite (proj2 (Nat.leb_le 1 k)), (proj2 (Nat.leb_le k 6)) by lia. simpl. f_equal. by apply strip_pad.
    + apply Forall_replicate. apply N.eqb_refl.
    + simpl. destruct (c =? hash_sign)%N eqn:E; [|done]. apply N.eqb_eq in E. subst c. vm_compute in Hc. discriminate Hc.
Qed.

(** ** Nothing visible is lost *)

(** The characters that are not white space. *)
Definition visible (s : pystr) : pystr := List.filter (fun c => negb (isspace c)) s.

Lemma visible_app s t : visible (s ++ t) = visible s ++ visible t.
Proof. apply List.filter_app. Qed.

Lemma visible_blank s : has_text s = false -> visible s = [].
Proof. induction s as [|c s IH]; [done|]. intros [Hc Hs]%blank_head. simpl. rewrite Hc. auto. Qed.

Lemma visible_strip s : visible (strip s) = visible s.
Proof.
  destruct (strip_infix s) as (a & b & Hs & Ha & Hb). rewrite Hs at 2.
  by rewrite !visible_app, (visible_blank a), (visible_blank b), app_nil_r by done.
Qed.

Lemma after_last_newline_suffix run tail : after_last_newline run = Some tail -> exists a, run = a ++ tail.
Proof.
  revert tail. induction run as [|c run IH]; intros tail; simpl; [done|].
  destruct (after_last_newline run) as [s|].
  - intros [= ->]. destruct (IH tail eq_refl) as [a ->]. by exists (c :: a).
  - destruct (c =? newline)%N; [|done]. intros [= ->]. by exists [c].
Qed.

Lemma visible_newline c : (c =? newline)%N = true -> isspace c = true.
Proof. intros ->%N.eqb_eq. reflexivity. Qed.

Lemma all_space_blank run : Forall (fun c => isspace c = true) run -> has_text run = false.
Proof. induction 1 as [|c l Hc _ IH]; [done|]. rewrite has_text_cons, Hc. done. Qed.

Lemma visible_split fuel cur s :
  visible (concat (split_paragraphs fuel cur s)) = visible (reverse cur ++ s).
Proof.
  revert cur s. induction fuel as [|fuel IH]; intros cur s; simpl; [by rewrite app_nil_r|].
  destruct s as [|c s]; simpl; [done|].
  assert (Hgo : visible (concat (split_paragraphs fuel (c :: cur) s)) = visible (reverse cur ++ c :: s)).
  { rewrite IH, reverse_cons, <- app_assoc. done. }
  destruct (c =? newline)%N eqn:En; [|done]. apply visible_newline in En.
  pose proof (span_app isspace s) as Happ. pose proof (span_fst isspace s) as Hall.
  destruct (span isspace s) as [run rest]. simpl in Hall.
  destruct (after_last_newline run) as [tail|] eqn:El; [|done].
  apply after_last_newline_suffix in El as [a ->]. apply Forall_app in Hall as [Ha Ht].
  simpl. rewrite visible_app, IH. simpl. rewrite Happ, !visible_app. simpl. rewrite En. simpl.
  rewrite !visible_app, (visible_blank a), (visible_blank tail) by by apply all_space_blank. done.
Qed.

Lemma visible_paragraphs s : visible (concat (paragraphs s)) = visible s.
Proof.
  etrans; [|exact (visible_split (S (length s)) [] s)]. unfold paragraphs.
  induction (split_paragraphs (S (length s)) [] s) as [|p l IH]; [done|]. simpl.
  destruct (has_text p) eqn:E; csimpl; rewrite !visible_app, ?visible_strip, <- IH; [done|].
  by rewrite (visible_blank p).
Qed.

Lemma paragraphs_nonempty s : Forall (fun p => p <> []) (paragraphs s).
Proof.
  unfold paragraphs. apply Forall_fmap, Forall_forall. intros p Hp.
  apply list_elem_of_In, List.filter_In in Hp as [_ Hp]. simpl. intros Hs%strip_nil. congruence.
Qed.

Lemma split_paragraphs_length fuel cur s :
  Forall (fun p => length p <= length cur + length s) (split_paragraphs fuel cur s).
Proof.
  revert cur s. induction fuel as [|fuel IH]; intros cur s; simpl.
  { constructor; [|constructor]. by rewrite length_app, length_reverse. }
  destruct s as [|c s]; simpl; [constructor; [rewrite length_reverse; lia|constructor]|].
  assert (Hgo : Forall (fun p => length p <= length cur + S (length s)) (split_paragraphs fuel (c :: cur) s)).
  { eapply Forall_impl; [apply IH|]. simpl. lia. }
  destruct (c =? newline)%N; [|done].
  pose proof (span_app isspace s) as Happ. destruct (span isspace s) as [run rest].
  destruct (after_last_newline run) as [tail|] eqn:El; [|done].
  apply after_last_newline_suffix in El as [a ->]. constructor; [rewrite length_reverse; lia|].
  eapply Forall_impl; [apply IH|]. simpl. rewrite Happ, !length_app. lia.
Qed.

Lemma paragraphs_length s : Forall (fun p => length p <= length s) (paragraphs s).
Proof.
  unfold paragraphs. apply Forall_fmap, Forall_forall. intros p Hp.
  apply list_elem_of_In, List.filter_In in Hp as [Hp _]. apply list_elem_of_In in Hp. simpl.
  pose proof (split_paragraphs_length (S (length s)) [] s) as H. rewrite Forall_forall in H.
  specialize (H p Hp). pose proof (strip_length p). simpl in H. lia.
Qed.

(** ** The filling loop *)

Section filling.
Context (ch : StructuralChunker).

(** The room a loop iteration finds. *)
Definition room (current : pystr) : nat :=
  max_chars ch - length current - (match current with [] => 0 | _ => 2 end).

Lemma overlap_length current : length (overlap ch current) <= overlap_chars ch.
Proof. unfold overlap. destruct (Nat.eqb_spec (overlap_chars ch) 0); simpl; [lia|]. rewrite length_drop. lia. Qed.

(** Settings for which an overlap always leaves room. *)
Definition leaves_room : Prop := overlap_chars ch + 3 <= max_chars ch.

Lemma room_overlap current : leaves_room -> 0 < room (overlap ch current).
Proof.
  unfold leaves_room, room. intros H. pose proof (overlap_length current).
  destruct (overlap ch current); simpl in *; lia.
Qed.

(** What the loop has written so far: the finished parts are the groups of pieces [gs],
    each behind the tail carried over from the part before, and the current part is
    the group [g] behind its tail. *)
Definition carry (prev : option pystr) : list pystr :=
  match prev with
  | None => []
  | Some p => match overlap ch p with [] => [] | o => [o] end
  end.

Fixpoint render (prev : option pystr) (gs : list (list pystr)) : list pystr :=
  match gs with
  | [] => []
  | g :: gs' => let part := join gap (carry prev ++ g) in part :: render (Some part) gs'
  end.

Definition last_part (prev : option pystr) (parts : list pystr) : option pystr :=
  match last parts with Some p => Some p | None => prev end.

Lemma render_snoc prev gs g :
  render prev (gs ++ [g]) =
    render prev gs ++ [join gap (carry (last_part prev (render prev gs)) ++ g)].
Proof.
  revert prev. induction gs as [|g' gs IH]; intros prev; [done|]. simpl. rewrite IH.
  do 4 f_equal. unfold last_part at 2. rewrite last_cons. unfold last_part.
  by destruct (last (render _ gs)).
Qed.

Lemma join_snoc (items : list pystr) p : items <> [] -> join gap (items ++ [p]) = join gap items ++ gap ++ p.
Proof.
  induction items as [|x items IH]; [done|]. intros _. destruct items as [|y items]; [done|].
  change (join gap ((x :: y :: items) ++ [p])) with (x ++ gap ++ join gap ((y :: items) ++ [p])).
  rewrite IH by done. change (join gap (x :: y :: items)) with (x ++ gap ++ join gap (y :: items)).
  by rewrite <- !app_assoc.
Qed.

Lemma join_nil (items : list pystr) : Forall (fun p => p <> []) items -> join gap items = [] -> items = [].
Proof.
  intros HF. destruct HF as [|x items Hx _]; [done|]. destruct items as [|y items]; simpl; [done|].
  by intros [? _]%app_nil.
Qed.

Lemma carry_nonempty prev : Forall (fun p => p <> []) (carry prev).
Proof. destruct prev as [p|]; simpl; [|constructor]. destruct (overlap ch p) eqn:E; repeat constructor. done. Qed.

Lemma carry_overlap p : join gap (carry (Some p) ++ []) = overlap ch p.
Proof. simpl. by destruct (overlap ch p). Qed.

(** The written text, as an invariant of the loop. *)
Record layout (current : pystr) (parts : list pystr) (gs : list (list pystr)) (g : list pystr) : Prop := {
  la_parts : parts = render None gs;
  la_current : current = join gap (carry (last_part None parts) ++ g);
  la_pieces : Forall (fun p => p <> []) g;
  la_bounds : Forall (fun p => 1 <= length p <= max_chars ch) parts;
  la_room : length current <= max_chars ch;
}.

Lemma layout_close current parts gs g :
  layout current parts gs g -> current <> [] -> overlap_chars ch <= max_chars ch ->
  layout (overlap ch current) (parts ++ [current]) (gs ++ [g]) [].
Proof.
  intros [Hp Hc Hg Hb Hr] Hne Ho. split.
  - by rewrite render_snoc, <- Hp, <- Hc.
  - unfold last_part. by rewrite last_snoc, carry_overlap.
  - constructor.
  - apply Forall_app. split; [done|]. constructor; [|constructor]. destruct current; simpl in *; [done|lia].
  - pose proof (overlap_length current). lia.
Qed.

Definition extend (current piece : pystr) : pystr :=
  match current with [] => piece | _ => current ++ gap ++ piece end.

Lemma layout_extend current parts gs g piece :
  layout current parts gs g -> piece <> [] -> length piece <= room current -> 
  layout (extend current piece) parts gs (g ++ [piece]).
Proof.
  intros [Hp Hc Hg Hb Hr] Hne Hlen. split; try done.
  - rewrite app_assoc. unfold extend. destruct current as [|c cur] eqn:Ecur.
    + symmetry in Hc. apply join_nil in Hc as ->; [done|]. apply Forall_app. split; [apply carry_nonempty|done].
    + rewrite join_snoc; [by rewrite <- Hc|]. intros E. rewrite E in Hc. done.
  - apply Forall_app. by split; [|constructor].
  - unfold room in Hlen. unfold extend. destruct current as [|c cur]; [lia|].
    rewrite !length_app. change (length gap) with 2. simpl in *. destruct piece; simpl in *; [done|lia].
Qed.

(** Enough fuel, and what the loop does with one paragraph. *)
Lemma fill_spec fuel remaining current parts gs g :
  leaves_room -> layout current parts gs g ->
  2 * length remaining + (if room current =? 0 then 1 else 0) <= fuel ->
  exists current' parts' gs' g', fill ch fuel remaining current parts = Some (current', parts') /\
    layout current' parts' gs' g' /\
    concat (concat gs') ++ concat g' = concat (concat gs) ++ concat g ++ remaining.
Proof.
  intros Hroom. revert remaining current parts gs g.
  induction fuel as [|fuel IH]; intros remaining current parts gs g HL Hf.
  - destruct remaining as [|c r]; [|simpl in Hf; lia].
    exists current, parts, gs, g. simpl. by rewrite app_nil_r.
  - destruct remaining as [|c r].
    { exists current, parts, gs, g. simpl. by rewrite app_nil_r. }
    cbn [fill]. fold (room current). set (rem := c :: r) in *.
    assert (Hover : overlap_chars ch <= max_chars ch) by (unfold leaves_room in Hroom; lia).
    destruct (Nat.eqb_spec (room current) 0) as [E|E].
    + destruct (IH rem (overlap ch current) (parts ++ [current]) (gs ++ [g]) []) as (c' & p' & gs' & g' & Hfill & HL' & Heq).
      * apply layout_close; [done| |done]. intros ->. unfold room, leaves_room in *. simpl in E. lia.
      * pose proof (room_overlap current Hroom). destruct (Nat.eqb_spec (room (overlap ch current)) 0); lia.
      * exists c', p', gs', g'. split; [done|]. split; [done|]. rewrite Heq, !concat_app. simpl.
        by rewrite !app_nil_r, <- app_assoc.
    + set (piece := take (room current) rem).
      assert (Hpl : length piece <= room current /\ piece <> [] /\ 1 <= length piece <= length rem).
      { unfold piece. rewrite length_take. subst rem. destruct (room current); [done|]. simpl. split_and!; [lia|done|lia|lia]. }
      destruct Hpl as (Hpl & Hpne & Hp1). fold (extend current piece).
      pose proof (layout_extend _ _ _ _ _ HL Hpne Hpl) as HL1.
      assert (Hrem : rem = piece ++ drop (length piece) rem).
      { unfold piece. rewrite length_take. rewrite <- (take_drop (room current `min` length rem) rem) at 1. f_equal.
        rewrite <- take_take. by rewrite (take_ge rem (length rem)) by lia. }
      assert (Hlen : length (drop (length piece) rem) = length rem - length piece) by apply length_drop.
      destruct (max_chars ch <=? length (extend current piece)).
      * assert (extend current piece <> []) as Hne.
        { unfold extend. destruct current; [done|]. by intros [? _]%app_nil. }
        destruct (IH (drop (length piece) rem) (overlap ch (extend current piece)) (parts ++ [extend current piece])
          (gs ++ [g ++ [piece]]) []) as (c' & p' & gs' & g' & Hfill & HL' & Heq).
        { by apply layout_close. }
        { rewrite Hlen. destruct (_ =? 0); lia. }
        exists c', p', gs', g'. split; [done|]. split; [done|]. rewrite Heq, !concat_app. simpl.
        rewrite !app_nil_r, !concat_app. simpl. rewrite app_nil_r, <- !app_assoc. by rewrite <- Hrem.
      * destruct (IH (drop (length piece) rem) (extend current piece) parts gs (g ++ [piece]))
          as (c' & p' & gs' & g' & Hfill & HL' & Heq); [done| |].
        { rewrite Hlen. destruct (_ =? 0); lia. }
        exists c', p', gs', g'. split; [done|]. split; [done|]. rewrite Heq, !concat_app. simpl.
        rewrite app_nil_r, <- !app_assoc. by rewrite <- Hrem.
Qed.
End filling.

(** ** Guarantees *)

Section guarantees.
Context (ch : StructuralChunker).

Lemma fill_all_spec fuel ps current parts gs g :
  leaves_room ch -> layout ch current parts gs g ->
  Forall (fun p => 2 * length p + 1 <= fuel) ps ->
  exists parts' gs', fill_all ch fuel ps current parts = Some parts' /\ parts' = render ch None gs' /\
    concat (concat gs') = concat (concat gs) ++ concat g ++ concat ps /\
    Forall (fun p => 1 <= length p <= max_chars ch) parts'.
Proof.
  intros Hroom. revert current parts gs g. induction ps as [|p ps IH]; intros current parts gs g HL HF.
  - simpl. rewrite app_nil_r. destruct current as [|c cur] eqn:E.
    + exists parts, gs. destruct HL as [Hp Hc Hg Hb _]. split; [done|]. split; [done|]. split; [|done].
      symmetry in Hc. apply join_nil in Hc; [|apply Forall_app; split; [apply carry_nonempty|done]].
      apply app_nil in Hc as [_ ->]. by rewrite app_nil_r.
    + exists (parts ++ [c :: cur]), (gs ++ [g]).
      destruct (layout_close ch _ _ _ _ HL) as [Hp _ _ Hb _]; [done|unfold leaves_room in Hroom; lia|].
      split; [done|]. split; [done|]. split; [|done]. rewrite !concat_app. simpl. by rewrite app_nil_r.
  - apply Forall_cons in HF as [Hp HF]. simpl.
    destruct (fill_spec ch fuel p current parts gs g Hroom HL) as (c' & p' & gs' & g' & -> & HL' & Heq).
    { destruct (_ =? 0); lia. }
    destruct (IH c' p' gs' g' HL' HF) as (parts' & gs'' & -> & Hr & Hc & Hb).
    exists parts', gs''. split_and!; try done. by rewrite Hc, app_assoc, Heq, <- !app_assoc.
Qed.

Lemma bounded_parts_spec s :
  leaves_room ch ->
  exists parts gs, bounded_parts ch (fuel_for s) s = Some parts /\ parts = render ch None gs /\
    visible (concat (concat gs)) = visible s /\
    Forall (fun p => 1 <= length p <= max_chars ch) parts.
Proof.
  intros Hroom. destruct (fill_all_spec (fuel_for s) (paragraphs s) [] [] [] []) as (parts & gs & H1 & H2 & H3 & H4).
  - done.
  - split; simpl; first [constructor|lia|done].
  - eapply Forall_impl; [apply paragraphs_length|]. intros p Hp. unfold fuel_for. simpl in Hp. lia.
  - exists parts, gs. split_and!; try done. rewrite H3. simpl. apply visible_paragraphs.
Qed.

(** C39. [_bounded_parts] finishes when the overlap leaves room for a separator and one
    character, every part is non-empty and within [max_chars], and nothing visible is
    lost or invented: the parts are consecutive groups of pieces of the text, each
    behind the tail of the part before it. *)
Theorem bounded_parts_complete s :
  leaves_room ch ->
  exists parts groups, bounded_parts ch (fuel_for s) s = Some parts /\ parts = render ch None groups /\
    visible (concat (concat groups)) = visible s /\
    Forall (fun p => 1 <= length p <= max_chars ch) parts.
Proof. apply bounded_parts_spec. Qed.

(** The loop without room. *)
Lemma fill_stuck fuel remaining current parts :
  remaining <> [] -> length current = overlap_chars ch -> 0 < overlap_chars ch ->
  max_chars ch <= overlap_chars ch + 2 -> fill ch fuel remaining current parts = None.
Proof.
  intros Hr Hc H0 Hm. revert parts. induction fuel as [|fuel IH]; intros parts; destruct remaining as [|c r]; try done.
  cbn [fill]. fold (room ch current).
  assert (room ch current = 0) as -> by (unfold room; destruct current; simpl in *; lia).
  assert (overlap ch current = current) as ->.
  { unfold overlap. destruct (Nat.eqb_spec (overlap_chars ch) 0); [lia|].
    by replace (length current - overlap_chars ch) with 0 by lia. }
  apply IH.
Qed.

(** The constructor accepts overlaps that leave no room: with [overlap_chars] within two
    of [max_chars], the loop never finishes on a text whose first paragraph is longer
    than [max_chars], whatever the fuel. *)
Theorem bounded_parts_diverges max overlap s p ps fuel :
  init max overlap = Ok ch -> (max <= overlap + 2)%Z ->
  paragraphs s = p :: ps -> max_chars ch < length p -> bounded_parts ch fuel s = None.
Proof.
  unfold init. destruct (Z.ltb_spec max 200); [done|]. destruct (_ || _) eqn:Eo; [done|]. intros Hch Hle Hs Hlen.
  assert (ch = {| max_chars := Z.to_nat max; overlap_chars := Z.to_nat overlap |}) as Hdef by congruence.
  apply orb_false_iff in Eo as [Ho1%Z.ltb_ge Ho2%Z.leb_gt].
  assert (Hm : max_chars ch = Z.to_nat max /\ overlap_chars ch = Z.to_nat overlap) by (by rewrite Hdef).
  destruct Hm as [Hm Ho]. unfold bounded_parts. rewrite Hs. cbn [fill_all].
  enough (fill ch fuel p [] [] = None) as -> by done.
  destruct p as [|c p]; [simpl in Hlen; lia|]. destruct fuel as [|fuel]; [done|]. cbn [fill]. simpl length at 1. rewrite !Nat.sub_0_r.
  destruct (Nat.eqb_spec (max_chars ch) 0); [lia|].
  assert (Hpl : length (take (max_chars ch) (c :: p)) = max_chars ch) by (rewrite length_take; lia).
  rewrite Hpl, (proj2 (Nat.leb_le _ _)) by lia. apply fill_stuck; [| |lia|lia].
  - intros E%(f_equal length). rewrite length_drop in E. simpl length in *. lia.
  - unfold Chunking.overlap. destruct (Nat.eqb_spec (overlap_chars ch) 0); [lia|]. rewrite length_drop, Hpl. lia.
Qed.
End guarantees.

(** ** Chunks *)

Section chunks.
Context (ch : StructuralChunker) (uuid5 : UUID -> pystr -> UUID).
Context (case_id document_id : UUID) (metadata : list (pystr * json)).

(** What every emitted chunk satisfies at its position. *)
Definition chunk_ok (i : nat) (c : DocumentChunk) : Prop :=
  dc_position c = Z.of_nat i /\ valid_DocumentChunk c = true /\
  length (dc_content c) <= max_chars ch /\ strip (dc_content c) = dc_content c /\
  dc_case_id c = case_id /\ dc_document_id c = document_id /\ dc_metadata c = metadata /\
  dc_id c = uuid5 NAMESPACE_URL (str_uuid document_id ++ u ":" ++ str_int (Z.of_nat i) ++ u ":" ++ dc_content c).

Definition chunks_ok (l : list DocumentChunk) : Prop := forall i c, l !! i = Some c -> chunk_ok i c.

Lemma strip_idemp s : strip (strip s) = strip s.
Proof.
  destruct (has_text s) eqn:E.
  - unfold strip at 2. unfold strip. 
    assert (Hl : lstrip (rstrip (lstrip s)) = rstrip (lstrip s)).
    { destruct (lstrip s) as [|c t] eqn:El; [done|].
      assert (isspace c = false) as Hc.
      { pose proof (lstrip_idemp s) as Hi. rewrite El in Hi. simpl in Hi. destruct (isspace c); [|done].
        exfalso. pose proof (lstrip_length t) as Hlt. rewrite Hi in Hlt. simpl in Hlt. lia. }
      destruct (lstrip_split (reverse (c :: t))) as (b & Hb & Htb).
      unfold rstrip. destruct (reverse (lstrip (reverse (c :: t)))) as [|d r] eqn:Er.
      - done.
      - apply (f_equal reverse) in Hb. rewrite reverse_involutive, reverse_app, Er in Hb.
        injection Hb as -> _. by apply lstrip_lead. }
    rewrite Hl. unfold rstrip. by rewrite reverse_involutive, lstrip_idemp.
  - apply strip_nil in E. by rewrite E.
Qed.

Lemma emit_ok h outputs part :
  chunks_ok outputs -> length part <= max_chars ch ->
  chunks_ok (emit uuid5 case_id document_id metadata h outputs part).
Proof.
  intros H Hlen. unfold emit. pose proof (strip_length part) as Hs. pose proof (strip_idemp part) as Hi.
  destruct (strip part) as [|x content] eqn:E; [done|]. intros i c Hc.
  apply lookup_app_Some in Hc as [Hc|[Hge Hc]]; [by apply H|].
  apply list_lookup_singleton_Some in Hc as [Hz <-]. assert (i = length outputs) as -> by lia.
  unfold chunk_ok. cbn [dc_position dc_content dc_case_id dc_document_id dc_metadata dc_id].
  split_and!; try done; [|simpl in *; lia].
  unfold valid_DocumentChunk. cbn [dc_position dc_content dc_token_count]. rewrite !andb_true_iff, !Z.leb_le.
  split_and!; [lia|done|lia].
Qed.

Lemma emit_all_ok h parts outputs :
  chunks_ok outputs -> Forall (fun p => 1 <= length p <= max_chars ch) parts ->
  chunks_ok (fold_left (emit uuid5 case_id document_id metadata h) parts outputs).
Proof.
  intros H HF. revert outputs H. induction HF as [|p parts [_ Hp] _ IH]; intros outputs H; [done|].
  simpl. by apply IH, emit_ok.
Qed.

Lemma chunk_spec markdown :
  leaves_room ch ->
  exists chunks, chunk ch uuid5 case_id document_id markdown metadata = Some chunks /\ chunks_ok chunks.
Proof.
  intros Hroom. unfold chunk.
  assert (chunks_ok []) as H by (intros i c Hc; by rewrite lookup_nil in Hc). revert H.
  generalize (@nil DocumentChunk). induction (sections markdown) as [|s ss IH]; intros outputs H; [by exists outputs|].
  simpl. destruct (bounded_parts_spec ch (text s) Hroom) as (parts & gs & -> & _ & _ & Hb).
  by apply IH, emit_all_ok.
Qed.

(** Chunking always produces its chunks, numbered from zero, each valid, stripped,
    within [max_chars], owned by the given case and document, and identified by its
    document, position and content alone. *)
Theorem chunk_wellformed markdown :
  leaves_room ch ->
  exists chunks, chunk ch uuid5 case_id document_id markdown metadata = Some chunks /\ chunks_ok chunks.
Proof. apply chunk_spec. Qed.
End chunks.

(** ** Concrete runs *)

Section example.
Definition default_chunker : StructuralChunker := {| max_chars := 1600; overlap_chars := 200 |}.

Lemma default_leaves_room : leaves_room default_chunker.
Proof. apply Nat.leb_le. reflexivity. Qed.

Definition hash_length (_ : UUID) (n : pystr) : UUID := default NAMESPACE_URL (UUID_of_N (N.of_nat (length n))).

Lemma bounded_parts_complete_witness :
  exists parts groups, bounded_parts default_chunker (fuel_for (u "Shared credentials")) (u "Shared credentials") = Some parts /\
    parts = render default_chunker None groups /\
    visible (concat (concat groups)) = visible (u "Shared credentials") /\
    Forall (fun p => 1 <= length p <= 1600) parts.
Proof. exact (bounded_parts_complete default_chunker (u "Shared credentials") default_leaves_room). Defined.

Definition tight_chunker : StructuralChunker := {| max_chars := 200; overlap_chars := 198 |}.

Lemma bounded_parts_diverges_witness :
  bounded_parts tight_chunker 1000 (replicate 201 120%N) = None.
Proof.
  apply (bounded_parts_diverges tight_chunker 200 198 (replicate 201 120%N) (replicate 201 120%N) []).
  - reflexivity.
  - lia.
  - vm_compute. reflexivity.
  - apply Nat.ltb_lt. reflexivity.
Defined.

Lemma chunk_wellformed_witness :
  exists chunks, chunk default_chunker hash_length NAMESPACE_URL NAMESPACE_URL (u "# Security") [] = Some chunks /\
    chunks_ok default_chunker hash_length NAMESPACE_URL NAMESPACE_URL [] chunks.
Proof. exact (chunk_wellformed default_chunker hash_length NAMESPACE_URL NAMESPACE_URL [] (u "# Security") default_leaves_room). Defined.
End example.
