(* ===== verification/Ingestion.v ===== *)
(** * Document ingestion

    [DoclingDocumentParser] of [packages/ingestion/docling_parser.py].  The file system and
    the Docling library are parameters; what [pathlib] computes from a resolved path, its
    name, suffix and URI, is defined as the standard library of Python 3.12 does.  The
    state is the converter the parser keeps. *)
From S2P Require Import Prelude PyStr Uuid Effects Json Schemas ModelGateway JsonTextCode Settings.
Local Open Scope py_scope.

Record ParsedDocument := {
  pd_title : pystr;
  pd_markdown : pystr;
  pd_source_uri : pystr;
  pd_parser : pystr;
  pd_metadata : list (pystr * json);
}.

(** ** Paths *)

Definition slash : N := 47%N.
Definition dot : N := 46%N.

(** [PurePosixPath.name] of an absolute path: what follows the last slash. *)
Fixpoint after_last (c : N) (s : pystr) (found : pystr) : pystr :=
  match s with
  | [] => found
  | d :: s' => after_last c s' (if (d =? c)%N then s' else found)
  end.
Definition path_name (p : pystr) : pystr := after_last slash p p.

(** [str.rfind] of one character *)
Fixpoint rfind_from (c : N) (s : pystr) (i : nat) (found : option nat) : option nat :=
  match s with
  | [] => found
  | d :: s' => rfind_from c s' (S i) (if (d =? c)%N then Some i else found)
  end.

(** [PurePath.suffix] *)
Definition path_suffix (p : pystr) : pystr :=
  let name := path_name p in
  match rfind_from dot name 0 None with
  | Some i => if (0 <? i) && (i <? length name - 1) then drop i name else []
  | None => []
  end.

(** [os.fsencode]: UTF-8, with the escaped surrogates back as bytes. *)
Definition fs_char (c : N) : option (list N) :=
  if (56448 <=? c)%N && (c <=? 56575)%N then Some [(c - 56320)%N] else utf8_char c.
Definition fsencode (p : pystr) : result (list N) :=
  of_option (OtherError (u "UnicodeEncodeError") (u "surrogates not allowed")) (@concat N <$> mapM fs_char p).

(** [urllib.parse.quote_from_bytes], whose [safe] is the slash *)
Definition quote_path_byte (b : N) : pystr :=
  if always_safe b || (b =? slash)%N then [b] else [percent; hex_upper (b / 16); hex_upper (b mod 16)].

(** [PurePosixPath.as_uri] *)
Definition as_uri (p : pystr) : result pystr :=
  if pystr_eqb (take 1 p) [slash]
  then bytes ← fsencode p; Ok (u "file://" ++ ((bytes : list N) ≫= quote_path_byte))
  else Raise (ValueError (u "relative path can't be expressed as a file URI")).

(** ** The parser *)

(** [converter.convert(path).document.export_to_markdown()] *)
Abbreviation Converter := (pystr -> result pystr).

Section parser.
Context `{UnicodeLower}.
(** [Path.resolve(strict=True)] and [is_file]; building the Docling
    converter, [None] when the import fails. *)
Context (resolve : pystr -> result pystr) (is_file : pystr -> bool) (docling : option (result Converter)).

Definition not_a_file (source : pystr) : exn :=
  OtherError (u "FileNotFoundError") (u "Document source is not a file: " ++ source).
Definition not_installed : exn := RuntimeError (u "Docling is not installed; install the worker dependency extra").

(** [self._converter or self._create_converter()] *)
Definition converter : prog (option Converter) Converter :=
  atomic (fun kept => match kept with
    | Some c => (Ok c, Some c)
    | None => match docling with
              | None => (Raise not_installed, None)
              | Some (Raise e) => (Raise e, None)
              | Some (Ok c) => (Ok c, Some c)
              end
    end).

Definition parse (source : pystr) : prog (option Converter) ParsedDocument :=
  resolved ← of_result (resolve source);
  _ ← raise_if (negb (is_file resolved)) (not_a_file source);
  convert ← converter;
  markdown ← of_result ((convert : Converter) resolved);
  uri ← of_result (as_uri resolved);
  Ret {| pd_title := path_name resolved; pd_markdown := markdown; pd_source_uri := uri; pd_parser := u "docling-v2";
         pd_metadata := [(u "suffix", JStr (lower (path_suffix resolved)))] |}.
End parser.

(** ** Reading the provenance back *)

Lemma percent_decode_path bytes : Forall (fun b => (b < 256)%N) bytes ->
  percent_decode (bytes ≫= quote_path_byte) = bytes.
Proof.
  induction 1 as [|b bytes Hb _ IH]; [done|]. rewrite bind_cons. unfold quote_path_byte at 1.
  destruct (always_safe b || (b =? slash)%N) eqn:Es.
  - cbn [app]. rewrite percent_decode_char; [by rewrite IH|].
    apply orb_true_iff in Es as [Es|Es]; [by apply safe_not_percent|]. apply N.eqb_eq in Es. by subst b.
  - cbn [app percent_decode]. rewrite N.eqb_refl, !hex_upper_ok by (try apply N.mod_lt; try apply N.Div0.div_lt_upper_bound; lia).
    rewrite IH. f_equal. symmetry. apply N.div_mod. lia.
Qed.

Lemma fsencode_bytes p bytes : code_points p -> fsencode p = Ok bytes -> Forall (fun b => (b < 256)%N) bytes.
Proof.
  unfold fsencode. revert bytes. induction p as [|c p IH]; intros bytes Hp; [by intros [= <-]|].
  apply Forall_cons in Hp as [Hc Hp]. cbn. destruct (fs_char c) as [cb|] eqn:Ec; [|done]. cbn.
  destruct (mapM fs_char p) as [rest|] eqn:Es; [|done]. cbn. intros [= <-]. apply Forall_app. split; [|by apply IH].
  unfold fs_char in Ec. destruct (_ && _) eqn:Er; [|by eapply utf8_char_bytes].
  injection Ec as <-. apply andb_true_iff in Er as [H1 H2]. apply N.leb_le in H1, H2. constructor; [lia|constructor].
Qed.

(** The name is the last component. *)
Lemma after_last_app c a b f : c ∉ b -> after_last c (a ++ c :: b) f = b.
Proof.
  intros Hb. assert (forall f', after_last c b f' = f') as Hnone.
  { induction b as [|d b IH]; intros f'; [done|]. apply not_elem_of_cons in Hb as [Hne Hb]. cbn [after_last].
    rewrite (proj2 (N.eqb_neq d c)) by congruence. by apply IH. }
  revert f. induction a as [|d a IH]; intros f; cbn [app after_last]; [rewrite N.eqb_refl; apply Hnone|apply IH].
Qed.

Lemma path_name_spec p : slash ∈ p -> exists dir, p = dir ++ slash :: path_name p /\ slash ∉ path_name p.
Proof.
  intros (a & b & Hp & Hb)%list_elem_of_split_r. exists a. unfold path_name.
  assert (after_last slash p p = b) as ->; [|done]. rewrite Hp at 1. by apply after_last_app.
Qed.

Section provenance.
Context `{UnicodeLower} (resolve : pystr -> result pystr) (is_file : pystr -> bool) (docling : option (result Converter)).

Lemma run_converter kept : run (converter docling) kept =
  match kept, docling with
  | Some c, _ => (Ok c, Some c)
  | None, Some (Ok c) => (Ok c, Some c)
  | None, Some (Raise e) => (Raise e, None)
  | None, None => (Raise not_installed, None)
  end.
Proof. unfold converter. rewrite run_atomic. destruct kept; [done|]. by destruct docling as [[]|]. Qed.

(** A parsed document says where it comes from: its title is the last component of the
    resolved path, and its URI is a file URI whose percent-decoding is exactly the bytes
    of that path.  A path that does not resolve or is no regular file is refused before
    a converter is built, when Docling is not installed the first document raises [RuntimeError], and
    the converter of the first document is kept for all later ones, whatever it raises. *)
Theorem parse_keeps_provenance source kept :
  (forall p, resolve source = Ok p -> code_points p /\ take 1 p = [slash] /\ exists bytes, fsencode p = Ok bytes) ->
  match resolve source with
  | Raise e => run (parse resolve is_file docling source) kept = (Raise e, kept)
  | Ok p =>
      if is_file p then
        match run (converter docling) kept with
        | (Raise e, _) => (docling = None /\ e = not_installed \/ docling = Some (Raise e)) /\ kept = None /\ run (parse resolve is_file docling source) kept = (Raise e, None)
        | (Ok convert, kept') =>
            kept' = Some convert /\ (kept = Some convert \/ kept = None /\ docling = Some (Ok convert)) /\
            match convert p with
            | Raise e => run (parse resolve is_file docling source) kept = (Raise e, Some convert)
            | Ok markdown => exists doc dir q, run (parse resolve is_file docling source) kept = (Ok doc, Some convert) /\
                pd_markdown doc = markdown /\ p = dir ++ (slash :: pd_title doc) /\ (slash ∉ pd_title doc) /\
                pd_source_uri doc = u "file://" ++ q /\ fsencode p = Ok (percent_decode q)
            end
        end
      else run (parse resolve is_file docling source) kept = (Raise (not_a_file source), kept)
  end.
Proof.
  intros Hfs. unfold parse. rewrite run_bind, run_of_result. destruct (resolve source) as [p|e]; [|done].
  destruct (Hfs p eq_refl) as (Hcp & Habs & bytes & Hbytes). rewrite run_bind, run_raise_if.
  destruct (is_file p); cbn [negb]; [|done]. rewrite run_bind, run_converter.
  assert (Hrest : forall convert : Converter,
    match convert p with
    | Raise e => run (markdown ← of_result (convert p); uri ← of_result (as_uri p);
        Ret {| pd_title := path_name p; pd_markdown := markdown; pd_source_uri := uri; pd_parser := u "docling-v2";
               pd_metadata := [(u "suffix", JStr (lower (path_suffix p)))] |}) (Some convert) = (Raise e, Some convert)
    | Ok markdown => exists doc dir q, run (markdown ← of_result (convert p); uri ← of_result (as_uri p);
        Ret {| pd_title := path_name p; pd_markdown := markdown; pd_source_uri := uri; pd_parser := u "docling-v2";
               pd_metadata := [(u "suffix", JStr (lower (path_suffix p)))] |}) (Some convert) = (Ok doc, Some convert) /\
        pd_markdown doc = markdown /\ p = dir ++ (slash :: pd_title doc) /\ (slash ∉ pd_title doc) /\
        pd_source_uri doc = u "file://" ++ q /\ fsencode p = Ok (percent_decode q)
    end).
  { intros convert. rewrite run_bind, run_of_result. destruct (convert p) as [markdown|e]; [|done].
    rewrite run_bind, run_of_result. unfold as_uri. rewrite Habs, pystr_eqb_refl, Hbytes. cbn [mbind result_bind].
    destruct (path_name_spec p) as (dir & Hp & Hnin).
    { rewrite <- (take_drop 1 p), Habs. by left. }
    eexists _, dir, (bytes ≫= quote_path_byte). split; [reflexivity|]. cbn. split_and!; try done.
    rewrite percent_decode_path; [done|]. by eapply fsencode_bytes. }
  destruct kept as [c|]; [|destruct docling as [[c|e]|]]; cbn [fst snd].
  - split; [done|]. split; [by left|]. apply Hrest.
  - split; [done|]. split; [by right|]. apply Hrest.
  - split; [by right|done].
  - split; [by left|done].
Qed.
End provenance.

(** ** A concrete file *)

Definition report_path : pystr := u "/srv/in box/SOC 2.PDF".
Definition echo : Converter := fun p => Ok (u "# " ++ p).
Definition only_report (s : pystr) : result pystr := Ok report_path.

Lemma parse_keeps_provenance_witness :
  exists doc, run (parse only_report (fun _ => true) (Some (Ok echo)) (u "SOC 2.PDF")) None = (Ok doc, Some echo) /\
    pd_title doc = u "SOC 2.PDF" /\ pd_source_uri doc = u "file:///srv/in%20box/SOC%202.PDF" /\
    exists q, pd_source_uri doc = u "file://" ++ q /\ fsencode report_path = Ok (percent_decode q).
Proof.
  assert (Hfs : forall p, only_report (u "SOC 2.PDF") = Ok p ->
    code_points p /\ take 1 p = [slash] /\ exists bytes, fsencode p = Ok bytes).
  { intros p [= <-]. split; [|split; [reflexivity|eexists; vm_compute; reflexivity]].
    apply (bool_decide_unpack _). vm_compute. exact I. }
  pose proof (parse_keeps_provenance only_report (fun _ => true) (Some (Ok echo)) (u "SOC 2.PDF") None Hfs) as H.
  cbn [only_report] in H. rewrite run_converter in H. destruct H as (_ & _ & doc & dir & q & Hrun & _ & _ & _ & Huri & Hq).
  exists doc. split; [exact Hrun|]. vm_compute in Hrun. assert (doc = {| pd_title := u "SOC 2.PDF"; pd_markdown := u "# /srv/in box/SOC 2.PDF";
    pd_source_uri := u "file:///srv/in%20box/SOC%202.PDF"; pd_parser := u "docling-v2"; pd_metadata := [(u "suffix", JStr (u ".pdf"))] |})
    as -> by (injection Hrun as <-; reflexivity).
  split; [reflexivity|]. split; [reflexivity|]. by exists q.
Defined.
