(* ===== verification/Workers.v ===== *)
(** * The outbox worker

    [run_worker] of [apps/outbox_worker/main.py]: the polling loop around the dispatcher
    of [Outbox], built from the settings.  What the process meets from outside is an
    argument: for every turn of the loop the clock and what the database contributes to
    the claim, and whether the stop event is set when the loop looks at it.  The
    database engine is a parameter: [create_async_engine] reads the URL and connects later,
    and of the engine only [dispose] is used.  Waiting changes no state, so a turn only records whether it waited.  Fuel bounds the number of turns;
    the theorems show that any fuel above the turn the signal arrives in is enough. *)
From S2P Require Import Prelude PyStr Uuid Effects Json Schemas SchemaJson Ledger Database InMemory SqlActions.
From S2P Require Import Governance Lifecycle GovernanceProofs GovernanceTheorems Workflows Outbox OutboxProofs System.
From S2P Require Import SystemTheorems Settings.
Local Open Scope py_scope.

(** [try: m finally: f] *)
Definition finally {S A} (m : prog S A) (f : prog S unit) : prog S A :=
  r ← (try (Ok <$> m) except (fun e => Ret (Raise e))); _ ← f; of_result r.

(** [create_async_engine]: an engine that connects on first use; it raises for a URL it cannot read. *)
Class EngineFactory := { create_async_engine : pystr -> result unit }.

(** [create_database_engine] of [packages/persistence/database.py] *)
Definition create_database_engine `{EF : EngineFactory} (database_url : pystr) : result unit := create_async_engine database_url.

(** The part of [AsyncEngine] the worker uses. *)
Class Engine (S : Type) := { dispose : prog S unit }.

(** Disposing of the connection pool returns and leaves the data alone. *)
Class EngineLaws (S : Type) `{!Engine S} := {
  dispose_law Inv (R G : S -> S -> Prop) Q s :
    Reflexive G -> PreOrder R -> (forall s', R s s' -> Q (Ok tt) s') -> wp Inv R G dispose Q s;
}.

(** What one turn of the loop meets, and what it did. *)
Record Turn := { turn_scan : Scan; turn_time : datetime }.
Record Iteration := { it_result : option OutboxDispatchResult; it_waited : bool }.

Section loop.
Context {S : Type} `{!ActionRepository S, !ApprovalWorkflow S, !OutboxRepository S}.
Context (dp : OutboxDispatcher) (turns : nat -> Turn) (stopped : nat -> bool).

(** [try: result = await dispatcher.dispatch_once() except Exception: result = None] *)
Definition poll (t : Turn) : prog S (option OutboxDispatchResult) :=
  try (Some <$> dispatch_once dp (turn_scan t) (turn_time t)) except (fun _ => Ret None).

(** [result is not None and result.claimed > 0] *)
Definition claimed_some (result : option OutboxDispatchResult) : bool :=
  match result with Some r => (0 <? claimed r)%Z | None => false end.

(** [while not stop.is_set()], from its [k]th test; [None] when the fuel runs out. *)
Fixpoint poll_loop (fuel k : nat) : prog S (option (list Iteration)) :=
  match fuel with
  | O => Ret None
  | Datatypes.S fuel =>
      if stopped k then Ret (Some [])
      else
        result ← poll (turns k);
        rest ← poll_loop fuel (Datatypes.S k);
        Ret (cons {| it_result := result; it_waited := negb (claimed_some result) |} <$> (rest : option (list Iteration)))
  end.
End loop.

Definition worker_name (hostname : pystr) (pid : Z) : pystr := hostname ++ u "-" ++ str_int pid.

(** [OutboxDispatcher(outbox, handler, ...)] *)
Definition dispatcher_of (s : Settings) (worker_id : pystr) : OutboxDispatcher := {|
  worker_id := worker_id; batch_size := Z.to_nat (outbox_batch_size s);
  lock_timeout := seconds (outbox_lock_timeout_seconds s); max_attempts := outbox_max_attempts s;
  retry_base_seconds := outbox_retry_base_seconds s; retry_max_seconds := outbox_retry_max_seconds s |}.

Definition worker_requires_postgres : exn :=
  RuntimeError (u "The outbox worker requires REPOSITORY_BACKEND=postgres").

Definition run_worker {S} `{!ActionRepository S, !OutboxRepository S, EF : EngineFactory, !Engine S} (boto3 : result (StepFunctionsClient S))
    (s : Settings) (hostname : pystr) (pid : Z) (turns : nat -> Turn) (stopped : nat -> bool) (fuel : nat) :
    prog S (option (list Iteration)) :=
  if negb (pystr_eqb (repository_backend s) (u "postgres")) then Throw worker_requires_postgres
  else
    _ ← of_result (create_database_engine (database_url s));
    approvals ← of_result (create_approval_workflow (approval_workflow_backend s) (step_functions_state_machine_arn s) boto3);
    finally (@poll_loop S _ approvals _ (dispatcher_of s (worker_name hostname pid)) turns stopped fuel 0) dispose.

(** ** Runs *)

Lemma run_finally {S A} (m : prog S A) (f : prog S unit) w :
  run (finally m f) w = let '(r, w1) := run m w in
    match run f w1 with (Ok _, w2) => (r, w2) | (Raise e, w2) => (Raise e, w2) end.
Proof.
  unfold finally. rewrite run_bind, run_catch. unfold fmap, prog_fmap. rewrite run_bind.
  destruct (run m w) as [[a|e] w1]; cbn [run]; rewrite run_bind; destruct (run f w1) as [[[]|e'] w2]; done.
Qed.

Lemma run_dispose {S} `{!Engine S, !EngineLaws S} (w : S) : run dispose w = (Ok tt, w).
Proof.
  assert (wp (fun _ => True) (=) (fun _ _ => True) dispose (fun r w' => r = Ok tt /\ w' = w) w) as H.
  { apply dispose_law; [done|apply _|]. by intros ? <-. }
  apply wp_run in H as [? ?]. by rewrite (surjective_pairing (run dispose w)); f_equal.
Qed.

Section stops.
Context {S : Type} `{!ActionRepository S, !ApprovalWorkflow S, !OutboxRepository S}.
Context (dp : OutboxDispatcher) (turns : nat -> Turn) (stopped : nat -> bool).

(** No error of a poll leaves the loop. *)
Lemma run_poll t w : exists r w', run (poll dp t) w = (Ok r, w').
Proof.
  unfold poll. rewrite run_catch. unfold fmap, prog_fmap. rewrite run_bind.
  destruct (run (dispatch_once dp (turn_scan t) (turn_time t)) w) as [[r|e] w']; cbn [run]; eauto.
Qed.

(** The turns of a loop that began at test [k]: none is entered once the stop event is set,
    and a turn waits unless it claimed messages. *)
Definition turns_taken (k : nat) (its : list Iteration) : Prop :=
  (forall i, i < length its -> stopped (k + i) = false) /\ stopped (k + length its) = true /\
  Forall (fun it => it_waited it = negb (claimed_some (it_result it))) its.

Lemma poll_loop_stops fuel k n w :
  stopped n = true -> k <= n -> n < k + fuel ->
  exists its w', run (poll_loop dp turns stopped fuel k) w = (Ok (Some its), w') /\ turns_taken k its.
Proof.
  intros Hn. revert k w. induction fuel as [|fuel IH]; intros k w Hk Hf; [lia|]. cbn [poll_loop].
  destruct (stopped k) eqn:Hs.
  { exists [], w. split; [done|]. unfold turns_taken. simpl. rewrite Nat.add_0_r. split_and!; [lia|done|done]. }
  assert (k <> n) by (intros ->; congruence).
  destruct (run_poll (turns k) w) as (r & w1 & Hr). rewrite run_bind, Hr.
  destruct (IH (Datatypes.S k) w1) as (its & w2 & Hrun & Hbefore & Hat & Hwait); [lia|lia|].
  rewrite run_bind, Hrun. eexists _, w2. split; [reflexivity|]. split_and!.
  - intros [|i] Hi; [by rewrite Nat.add_0_r|]. simpl in Hi.
    replace (k + Datatypes.S i) with (Datatypes.S k + i) by lia. apply Hbefore. lia.
  - simpl length. by replace (k + Datatypes.S (length its)) with (Datatypes.S k + length its) by lia.
  - by constructor.
Qed.
End stops.

(** ** Interference *)

Section interference.
Context `{DT : DatetimeText} `{!ApprovalWorkflow SqlWorld, !ApprovalWorkflowLaws SqlWorld}.
Context (uuid5 : UUID -> pystr -> UUID) (max : Z).

Abbreviation wsys := (wp (system_ok max) system_le system_le).

Lemma wp_fmap_ok {A B} (f : A -> B) (m : prog SqlWorld A) (Q : result B -> SqlWorld -> Prop) s :
  wsys m (fun r s' => Q (f <$> r) s') s -> wsys (f <$> m) Q s.
Proof. intros H. apply wp_bind. eapply wp_mono; [|exact H]. by intros [a|e] s'. Qed.

Lemma wsys_dispatch dp sc t s :
  valid_job max (Poll dp sc t) ->
  wsys (dispatch_once dp sc t) (fun r _ => match r with Ok res => counted dp res | Raise _ => True end) s.
Proof.
  intros Hv. eapply wp_mono; [|exact (wp_both _ _ _ _ _ _ _ _ _ _ (ww_poll dp sc t s) (wo_poll max dp sc t s Hv))].
  by intros r s' [_ ?].
Qed.

(** What the turns of a worker may meet. *)
Definition valid_turns (turns : nat -> Turn) : Prop := forall k, scans (turn_scan (turns k)).

Definition counted_turn (dp : OutboxDispatcher) (it : Iteration) : Prop :=
  match it_result it with Some res => counted dp res | None => True end.

Lemma wsys_loop dp turns stopped fuel k s :
  max_attempts dp = max -> len_between 0 255 (length (worker_id dp)) = true -> valid_turns turns ->
  wsys (poll_loop dp turns stopped fuel k)
    (fun r _ => match r with Ok (Some its) => Forall (counted_turn dp) its | Ok None => True | Raise _ => False end) s.
Proof.
  intros Hmax Hw Ht. revert k s. induction fuel as [|fuel IH]; intros k s; cbn [poll_loop]; [exact I|].
  destruct (stopped k); [by constructor|]. apply wp_bind. unfold poll. apply wp_catch, wp_fmap_ok.
  assert (Hk : valid_job max (Poll dp (turn_scan (turns k)) (turn_time (turns k)))) by done.
  eapply wp_mono; [|exact (wsys_dispatch _ _ _ s Hk)].
  intros [res|e] s1 Hres; cbn [wp fmap result_fmap]; apply wp_bind; (eapply wp_mono; [|apply IH]);
    intros [[its|]|e'] s2 Hits; cbn [wp]; try done; by constructor.
Qed.

End interference.

(** A process of the deployed system: an API request or a worker. *)
Inductive process :=
  | ApiProcess (r : request)
  | WorkerProcess (s : Settings) (hostname : pystr) (pid : Z) (turns : nat -> Turn) (stopped : nat -> bool) (fuel : nat).

Inductive finished :=
  | Answered (o : outcome)
  | Stopped (its : option (list Iteration)).

Section processes.
Context `{DT : DatetimeText} `{!ApprovalWorkflow SqlWorld, !ApprovalWorkflowLaws SqlWorld}.
Context `{EF : EngineFactory, !Engine SqlWorld, !EngineLaws SqlWorld} (boto3 : result (StepFunctionsClient SqlWorld)).
Context (uuid5 : UUID -> pystr -> UUID) (max : Z).

Definition perform_process (p : process) : prog SqlWorld finished :=
  match p with
  | ApiProcess r => Answered <$> perform uuid5 (Serve r)
  | WorkerProcess s h pid turns stopped fuel => Stopped <$> run_worker boto3 s h pid turns stopped fuel
  end.

(** The settings of every worker agree on the retry limit and on the state machine. *)
Definition valid_process (p : process) : Prop :=
  match p with
  | ApiProcess r => validated r
  | WorkerProcess s h pid turns _ _ => outbox_max_attempts s = max /\ valid_turns turns /\
      len_between 0 255 (length (worker_name h pid)) = true /\
      (forall client, boto3 = Ok client -> client_promise client (step_functions_state_machine_arn s)) /\ length (step_functions_state_machine_arn s) <= 2000
  end.

(** What a process says when it ends. *)
Definition truthful (p : process) (f : finished) (s : SqlWorld) : Prop :=
  match p, f with
  | ApiProcess r, Answered o => fulfilled (Serve r) o s
  | WorkerProcess st h pid _ _ _, Stopped (Some its) => Forall (counted_turn (dispatcher_of st (worker_name h pid))) its
  | WorkerProcess _ _ _ _ _ _, Stopped None => True
  | _, _ => False
  end.

Definition process_post (p : process) (r : result finished) (s : SqlWorld) : Prop :=
  match r with Ok f => truthful p f s | Raise _ => True end.

Hypothesis positive_limit : (0 < max)%Z.

Abbreviation wsys := (wp (system_ok max) system_le system_le).

Lemma wsys_finally {A} (m : prog SqlWorld A) (Q : result A -> SqlWorld -> Prop) s :
  (forall r s1 s2, Q r s1 -> system_le s1 s2 -> Q r s2) ->
  wsys m Q s -> wsys (finally m dispose) Q s.
Proof.
  intros Hstable H. assert (PreOrder system_le) by exact (both_preorder _ _). unfold finally.
  apply wp_bind, wp_catch, wp_bind. eapply wp_mono; [|exact H].
  intros [a|e] s1 HQ; cbn [wp]; apply wp_bind, dispose_law; try apply _; intros s2 Hs2; cbn [wp of_result]; eauto.
Qed.

Lemma process_safe p s : valid_process p -> wsys (perform_process p) (process_post p) s.
Proof.
  destruct p as [r|st h pid turns stopped fuel]; intros Hp; cbn [perform_process]; apply wp_fmap_ok.
  - eapply wp_mono; [|by apply (job_safe uuid5 max)]. by intros [o|e] s'.
  - destruct Hp as (Hmax & Ht & Hw & Hclient & Harn). unfold run_worker.
    destruct (pystr_eqb (repository_backend st) (u "postgres")); [|exact I]. cbn [negb].
    destruct (create_database_engine (database_url st)); [|exact I]. cbn [of_result mbind prog_bind prog_bind_def].
    destruct (create_approval_workflow _ _ boto3) as [wf|e] eqn:Hwf; [|exact I].
    cbn [of_result mbind prog_bind prog_bind_def].
    pose proof (created_workflow_laws boto3 _ _ _ Hclient Harn Hwf) as Hlaws.
    apply wsys_finally; [done|].
    eapply wp_mono; [|exact (@wsys_loop _ wf Hlaws max
      (dispatcher_of st (worker_name h pid)) turns stopped fuel 0 s Hmax Hw Ht)].
    by intros [[its|]|e] s'.
Qed.

Lemma process_post_stable p r s s' : process_post p r s -> system_le s s' -> process_post p r s'.
Proof.
  destruct p as [rq|st h pid turns stopped fuel], r as [[o|[its|]]|e]; try done.
  destruct o; try done. intros H [Hle _]. by eapply served_stable.
Qed.
End processes.
