(* ===== verification/WorkerTheorems.v ===== *)
(** * What the outbox worker guarantees

    Theorems about [run_worker]: it stops when it is told to and lets no error of a poll
    out, it keeps the invariants of the deployed system among other processes, and
    undisturbed it publishes everything that is due. *)
From S2P Require Import Prelude PyStr Uuid Effects Json Schemas SchemaJson Ledger Database InMemory SqlActions.
From S2P Require Import Governance Lifecycle GovernanceProofs GovernanceTheorems Workflows Outbox OutboxProofs System.
From S2P Require Import SystemTheorems Settings Workers.
Local Open Scope py_scope.

(** ** Draining the outbox *)

Section drain.
Context `{DT : DatetimeText} `{!ApprovalWorkflow SqlWorld} (reference_of : GovernedAction -> pystr).
Hypothesis start_answers : forall a, start_workflow a = Ret (reference_of a).
Hypothesis reference_fits : forall a, reference_of a <> [] /\ len_between 0 2048 (length (reference_of a)) = true.
Context (max : Z) (dp : OutboxDispatcher).
Hypothesis name_fits : len_between 0 255 (length (worker_id dp)) = true.

(** The messages that are neither published nor dead-lettered. *)
Definition pending (d : Db) : gmap UUID OutboxMessageRecord :=
  filter (fun kr : UUID * OutboxMessageRecord => published_or_dead kr.2 = false) (t_outbox d).

(** Every pending message may be claimed in a turn. *)
Definition ready (t : Turn) (d : Db) : Prop :=
  scans (turn_scan t) /\
  forall j r, pending d !! j = Some r ->
    SqlAlchemyOutboxRepository.due (turn_time t) (turn_time t - lock_timeout dp) r = true /\ skip_locked (turn_scan t) j = false.

Lemma pending_Some d j r : pending d !! j = Some r <-> t_outbox d !! j = Some r /\ published_or_dead r = false.
Proof. unfold pending. by rewrite map_lookup_filter_Some. Qed.

Lemma removed_size (m1 m2 : gmap UUID OutboxMessageRecord) (l : list UUID) :
  m2 ⊆ m1 -> NoDup l -> (forall j, j ∈ l -> is_Some (m1 !! j) /\ m2 !! j = None) -> size m2 + length l <= size m1.
Proof.
  intros Hsub Hnd Hl. rewrite <- !(size_dom (D := gset UUID)).
  assert (size (list_to_set l : gset UUID) = length l) as <- by (by apply size_list_to_set).
  rewrite <- size_union.
  - apply subseteq_size. apply union_subseteq. split; [by apply subseteq_dom|].
    intros j Hj%elem_of_list_to_set. apply elem_of_dom. by apply Hl.
  - intros j Hj Hjl%elem_of_list_to_set. apply elem_of_dom in Hj as [r Hr]. destruct (Hl _ Hjl) as [_ Hn]. congruence.
Qed.

(** One undisturbed turn publishes a full batch, or all that is left. *)
Lemma turn_publishes t w :
  outbox_ok max (sw_db w) -> sql_inv (sw_db w) -> ready t (sw_db w) ->
  exists res d', run (dispatch_once dp (turn_scan t) (turn_time t)) w = (Ok res, put_db d' w) /\
    outbox_ok max d' /\ sql_inv d' /\ outbox_le (sw_db w) d' /\ pending d' ⊆ pending (sw_db w) /\
    (forall j r, pending (sw_db w) !! j = Some r -> is_Some (pending d' !! j) \/
       exists r', t_outbox d' !! j = Some r' /\ omr_published_at r' <> None) /\
    size (pending d') <= size (pending (sw_db w)) - batch_size dp.
Proof.
  intros Ho Hs [Hsc Hready].
  destruct (quiet_poll reference_of start_answers reference_fits max dp (turn_scan t) (turn_time t) w Ho Hs Hsc name_fits)
    as (ms & d1 & d2 & _ & Hrun & Ho2 & Hs2 & Hle & Hids & Hpub & Hother).
  set (sel := SqlAlchemyOutboxRepository.selected _ _ _ _ _) in Hids.
  assert (Hsub : pending d2 ⊆ pending (sw_db w)).
  { apply map_subseteq_spec. intros j r [Hr Hp]%pending_Some. apply pending_Some. split; [|done].
    destruct (base.decide (j ∈ om_id <$> ms)) as [Hin|Hnin]; [|by rewrite <- Hother].
    apply list_elem_of_fmap in Hin as (m & -> & Hm). destruct (Hpub m Hm) as (r' & Hr' & Hp').
    assert (r' = r) as -> by congruence. unfold published_or_dead in Hp. by rewrite Hp' in Hp. }
  assert (Hgone : forall j, j ∈ om_id <$> ms -> is_Some (pending (sw_db w) !! j) /\ pending d2 !! j = None).
  { intros j Hj. split.
    - rewrite Hids in Hj. apply list_elem_of_fmap in Hj as (r & -> & Hr).
      apply (selected_elem max) in Hr as (Hr & (Hp & Hdl & _)%due_spec & _); [|done|done].
      exists r. apply pending_Some. split; [done|]. unfold published_or_dead. by rewrite Hp, Hdl.
    - apply list_elem_of_fmap in Hj as (m & -> & Hm). destruct (Hpub m Hm) as (r & Hr & Hp).
      apply eq_None_not_Some. intros [r' [Hr' Hp']%pending_Some]. assert (r' = r) as -> by congruence.
      unfold published_or_dead in Hp'. by rewrite Hp in Hp'. }
  eexists _, d2. split; [exact Hrun|]. split_and!; try done.
  - intros j r [Hr Hp]%pending_Some. destruct (base.decide (j ∈ om_id <$> ms)) as [Hin|Hnin].
    + right. apply list_elem_of_fmap in Hin as (m & -> & Hm). destruct (Hpub m Hm) as (r' & Hr' & Hp').
      exists r'. split; [done|]. by rewrite Hp'.
    + left. exists r. apply pending_Some. by rewrite Hother.
  - destruct (candidates max (turn_scan t) (batch_size dp) (turn_time t) (turn_time t - lock_timeout dp) (sw_db w) Ho Hsc)
      as (l & Hl & _ & Hel). fold sel in Hl.
    destruct (Nat.le_gt_cases (batch_size dp) (length l)) as [Hfull|Hrest].
    + assert (length (om_id <$> ms) = batch_size dp) as Hlen
        by (rewrite Hids, length_fmap, Hl, length_take; lia).
      assert (NoDup (om_id <$> ms)) as Hnd by (rewrite Hids; by apply (selected_nodup max)).
      pose proof (removed_size _ _ _ Hsub Hnd Hgone). lia.
    + assert (pending d2 = ∅) as ->; [|rewrite map_size_empty; lia].
      apply map_empty. intros j. apply eq_None_not_Some. intros [r Hr].
      pose proof (lookup_weaken _ _ _ _ Hr Hsub) as Hr0. destruct (Hready j r Hr0) as [Hdue Hskip].
      apply pending_Some in Hr0 as [Hr0 _]. pose proof (oo_id _ _ Ho _ _ Hr0) as Hid. subst j.
      destruct (Hgone (omr_id r)) as [_ Hn]; [|congruence].
      rewrite Hids. apply list_elem_of_fmap_2. rewrite Hl, take_ge by lia. by apply Hel.
Qed.

Context (turns : nat -> Turn) (stopped : nat -> bool).
Hypothesis positive_batch : 1 <= batch_size dp.

(** A loop that makes enough undisturbed turns leaves nothing pending. *)
Lemma loop_drains fuel k m w :
  outbox_ok max (sw_db w) -> sql_inv (sw_db w) -> (forall i, stopped i = false -> ready (turns i) (sw_db w)) ->
  (forall i, i < m -> stopped i = false) -> stopped m = true -> k <= m -> m < k + fuel ->
  size (pending (sw_db w)) <= (m - k) * batch_size dp ->
  exists its d', run (poll_loop dp turns stopped fuel k) w = (Ok (Some its), put_db d' w) /\
    outbox_ok max d' /\ outbox_le (sw_db w) d' /\
    forall j r, pending (sw_db w) !! j = Some r -> exists r', t_outbox d' !! j = Some r' /\ omr_published_at r' <> None.
Proof.
  revert k w. induction fuel as [|fuel IH]; intros k w Ho Hs Hready Hbefore Hm Hk Hfuel Hsize; [lia|]. cbn [poll_loop].
  destruct (stopped k) eqn:Hstop.
  { assert (k = m) as -> by (destruct (Nat.eq_dec k m); [done|]; rewrite Hbefore in Hstop by lia; done).
    rewrite Nat.sub_diag in Hsize. apply Nat.le_0_r, map_size_empty_inv in Hsize.
    exists [], (sw_db w). rewrite put_db_same. split_and!; try done. intros j r. by rewrite Hsize, lookup_empty. }
  assert (k <> m) by congruence.
  destruct (turn_publishes (turns k) w Ho Hs (Hready k Hstop)) as (res & d1 & Hrun & Ho1 & Hs1 & Hle1 & Hsub & Hkeep & Hsz).
  destruct (IH (Datatypes.S k) (put_db d1 w)) as (its & d2 & Hrun2 & Ho2 & Hle2 & Hpub); try done; try lia.
  { intros i Hi. destruct (Hready i Hi) as [Hsc Hr]. split; [done|]. intros j r Hj. apply Hr. by eapply lookup_weaken. }
  { simpl. nia. }
  assert (Hpoll : run (poll dp (turns k)) w = (Ok (Some res), put_db d1 w)).
  { unfold poll, fmap, prog_fmap. rewrite run_catch, run_bind, Hrun. done. }
  eexists _, d2. rewrite run_bind, Hpoll, run_bind, Hrun2. split; [reflexivity|]. split_and!; [done|by etrans|].
  intros j r Hj. destruct (Hkeep j r Hj) as [[r1 Hr1]|(r1 & Hr1 & Hp1)]; [by apply (Hpub j r1)|].
  destruct (Hle2 _ _ Hr1) as (r2 & Hr2 & Hrl). exists r2. split; [done|].
  rewrite (rl_final _ _ Hrl); [done|]. unfold published_or_dead. by destruct (omr_published_at r1).
Qed.
End drain.

(** ** The process *)

(** C15. Told to stop, the worker stops: once the event is set before some turn, [run_worker]
    returns after exactly the turns before it, whatever those polls raised, and waited
    in each of them that claimed nothing.  It raises only before the first poll and
    without touching anything: for the wrong repository, for a missing state machine, or
    because a library refuses the database URL or the client. *)
Theorem worker_stops {S} `{!ActionRepository S, !OutboxRepository S, EF : EngineFactory, !Engine S, !EngineLaws S} (boto3 : result (StepFunctionsClient S))
    s hostname pid turns stopped n fuel (w : S) :
  stopped n = true -> n < fuel ->
  match run (run_worker boto3 s hostname pid turns stopped fuel) w with
  | (Ok (Some its), _) => repository_backend s = u "postgres" /\ turns_taken stopped 0 its
  | (Ok None, _) => False
  | (Raise e, w') => w' = w /\
      (repository_backend s <> u "postgres" /\ e = worker_requires_postgres \/
       repository_backend s = u "postgres" /\
       (create_database_engine (database_url s) = Raise e \/
        approval_workflow_backend s = u "step_functions" /\
        (boto3 = Raise e \/
         step_functions_state_machine_arn s = [] /\ e = ValueError (u "A Step Functions state machine ARN is required"))))
  end.
Proof.
  intros Hn Hf. unfold run_worker. destruct (pystr_eqb (repository_backend s) (u "postgres")) eqn:Hb; cbn [negb];
    [apply pystr_eqb_eq in Hb|split; [done|]; left; split; [|done]; intros Hx; rewrite Hx, pystr_eqb_refl in Hb; done].
  rewrite run_bind, run_of_result. destruct (create_database_engine (database_url s)) as [[]|e] eqn:He; [|by auto 6].
  rewrite run_bind, run_of_result. unfold create_approval_workflow, StepFunctionsApprovalWorkflow.init.
  destruct (pystr_eqb (approval_workflow_backend s) (u "step_functions")) eqn:Ha;
    [apply pystr_eqb_eq in Ha; destruct boto3 as [client|e]; [destruct (step_functions_state_machine_arn s) eqn:Harn|]|];
    cbn [mbind result_bind]; [by auto 10| |by auto 10|];
    rewrite run_finally;
    match goal with |- context [@poll_loop S ?a ?wf ?o ?dp turns stopped fuel 0] =>
      destruct (@poll_loop_stops S a wf o dp turns stopped fuel 0 n w Hn) as (its & w1 & Hrun & Htaken) end;
    try lia; rewrite Hrun, run_dispose; done.
Qed.

(** C11. Any number of API requests and whole worker processes, interleaved on one database,
    keep the invariants of the deployed system, and every answer and every poll summary
    a worker reports is true.  Each worker has its own turns, signal and settings; they
    share the retry limit. *)
Theorem workers_safe `{DT : DatetimeText} `{!ApprovalWorkflow SqlWorld, !ApprovalWorkflowLaws SqlWorld}
    `{EF : EngineFactory, !Engine SqlWorld, !EngineLaws SqlWorld} boto3 uuid5 max processes s ts s' :
  (0 < max)%Z ->
  Forall (valid_process boto3 max) processes -> system_ok max s ->
  rtc pool_step (perform_process boto3 uuid5 <$> processes, s) (ts, s') ->
  system_ok max s' /\ system_le s s' /\
  forall i p f, processes !! i = Some p -> ts !! i = Some (Ret f) -> truthful p f s'.
Proof.
  intros Hmax Hprocs H Hsteps. assert (PreOrder system_le) by exact (both_preorder _ _).
  destruct (pool_safe (system_ok max) system_le system_le (process_post <$> processes)
    (perform_process boto3 uuid5 <$> processes, s) (ts, s')) as (Hok & Hle & HF); try done.
  - apply Forall_fmap, Forall_true. intros p r t t'. apply process_post_stable.
  - simpl. apply Forall2_fmap, Forall_Forall2_diag. eapply Forall_impl; [exact Hprocs|].
    intros p Hp. by apply process_safe.
  - split; [done|]. split; [done|]. intros i p f Hp Hf. simpl in HF.
    eapply Forall2_lookup_lr in HF; [|by rewrite list_lookup_fmap, Hp|exact Hf]. exact HF.
Qed.

(** C13. Undisturbed, a worker with the local approval backend delivers the whole outbox: when
    it makes at least as many turns as there are batches of pending messages, each at
    a time when these are due, it ends with every one of them published and with the
    reference it was delivered with stored in its action. *)
Theorem worker_drains_outbox `{DT : DatetimeText} `{EF : EngineFactory, !Engine SqlWorld, !EngineLaws SqlWorld} boto3 s hostname pid turns stopped
    max n fuel w :
  valid_Settings s = true -> repository_backend s = u "postgres" -> create_database_engine (database_url s) = Ok tt -> approval_workflow_backend s = u "local" ->
  len_between 0 255 (length (worker_name hostname pid)) = true ->
  outbox_ok max (sw_db w) -> sql_inv (sw_db w) ->
  (forall i, stopped i = false -> ready (dispatcher_of s (worker_name hostname pid)) (turns i) (sw_db w)) ->
  (forall i, i < n -> stopped i = false) -> stopped n = true -> n < fuel ->
  (Z.of_nat (size (pending (sw_db w))) <= Z.of_nat n * outbox_batch_size s)%Z ->
  exists its d', run (run_worker boto3 s hostname pid turns stopped fuel) w = (Ok (Some its), put_db d' w) /\ length its = n /\
    outbox_le (sw_db w) d' /\
    forall j r, pending (sw_db w) !! j = Some r -> exists r' a ref, t_outbox d' !! j = Some r' /\
      omr_published_at r' <> None /\ omr_delivery_result_json r' = Some [(arn_key, ref)] /\
      t_actions d' !! omr_aggregate_id r = Some a /\ gar_workflow_execution_arn a = Some ref.
Proof.
  intros Hv Hpg Heng Hlocal Hname Ho Hs Hready Hbefore Hn Hfuel Hsize.
  assert (1 <= outbox_batch_size s)%Z as Hbatch.
  { unfold valid_Settings in Hv. unfold in_range in Hv. rewrite !andb_true_iff in Hv. decompose [and] Hv. lia. }
  set (dp := dispatcher_of s (worker_name hostname pid)) in *.
  destruct (@loop_drains _ LocalApprovalWorkflow.workflow local_reference local_answers local_reference_fits max dp Hname
    turns stopped ltac:(simpl; lia) fuel 0 n w Ho Hs Hready Hbefore Hn) as (its & d' & Hrun & Ho' & Hle & Hpub); try lia.
  { simpl. lia. }
  destruct (@poll_loop_stops _ _ LocalApprovalWorkflow.workflow _ dp turns stopped fuel 0 n w Hn) as (its2 & w2 & Hrun2 & Hlt & Hat & _);
    [lia|lia|]. assert (its2 = its) as -> by congruence.
  exists its, d'. split; [|split; [|split; [done|]]].
  - unfold run_worker, create_approval_workflow. rewrite Hpg, Hlocal, pystr_eqb_refl. cbn [negb].
    change (pystr_eqb (u "local") (u "step_functions")) with false.
    rewrite run_bind, run_of_result, Heng, run_bind. cbn [run of_result]. fold dp. rewrite run_finally, Hrun, run_dispose. done.
  - destruct (Nat.lt_trichotomy (length its) n) as [Hx|[Hx|Hx]]; [|done|].
    + specialize (Hbefore _ Hx). simpl in Hat. congruence.
    + specialize (Hlt _ Hx). simpl in Hlt. congruence.
  - intros j r Hj. destruct (Hpub j r Hj) as (r' & Hr' & Hp). apply pending_Some in Hj as [Hj _].
    destruct (Hle _ _ Hj) as (r2 & Hr2 & Hrl). assert (r2 = r') as -> by congruence.
    destruct (ro_action _ _ _ (oo_row _ _ Ho' _ _ Hr')) as (a & Ha & Hst).
    destruct (omr_published_at r') eqn:Ep; [|done]. destruct Hst as (ref & Hres & Harn).
    exists r', a, ref. rewrite Ep. split_and!; try done.
    pose proof (rl_identity _ _ Hrl) as Hid. unfold identity_of in Hid. congruence.
Qed.

(** ** Concrete workers *)

Section witnesses.
Import History LocalApprovalWorkflow.

(** Engines connect when first used. *)
#[local] Instance lazy_engines : EngineFactory := {| create_async_engine _ := Ok tt |}.
#[local] Instance pool : Engine SqlWorld := {| dispose := Ret tt |}.
#[local] Instance pool_laws : EngineLaws SqlWorld.
Proof. constructor. intros Inv R G Q s _ HR HQ. apply HQ. reflexivity. Qed.

Definition worker_settings : Settings := {|
  app_env := u "local"; log_level := u "INFO"; auth_mode := u "dev"; oidc_issuer := []; oidc_audience := [];
  oidc_jwks_url := []; oidc_algorithm := u "RS256"; Settings.model_backend := u "deterministic"; Settings.model_alias := [];
  Settings.openai_api_key := []; Settings.openai_model := []; aws_region := u "us-east-1"; Settings.bedrock_model_id := [];
  litellm_base_url := []; litellm_api_key := []; repository_backend := u "postgres"; database_url := [];
  checkpoint_backend := u "postgres"; langgraph_database_url := []; database_secret_arn := []; database_host := [];
  database_port := 5432; database_name := []; database_user := []; database_password := []; redis_url := [];
  opensearch_url := []; embedding_backend := u "deterministic"; embedding_dimension := 1024;
  bedrock_embedding_model_id := []; retrieval_limit := 8; approval_workflow_backend := u "local";
  step_functions_state_machine_arn := []; mcp_host := []; mcp_port := 8001;
  outbox_poll_interval_seconds := SpecFloat.S754_finite false 4503599627370496 (-52); outbox_batch_size := 20;
  outbox_lock_timeout_seconds := 120; outbox_max_attempts := 8; outbox_retry_base_seconds := 2; outbox_retry_max_seconds := 300 |}.

Definition clock (k : nat) : Turn := {| turn_scan := in_key_order; turn_time := 50 + Z.of_nat k |}.
Definition after (n k : nat) : bool := n <=? k.

Lemma clock_valid : valid_turns clock.
Proof. intros k. apply key_order_scans. Qed.

Lemma worker_stops_witness :
  exists its w', run (run_worker (Ok refusing_client) worker_settings (u "host") 7 clock (after 3) 9) enqueued = (Ok (Some its), w') /\
    length its <= 3.
Proof.
  pose proof (worker_stops (Ok refusing_client) worker_settings (u "host") 7 clock (after 3) 3 9 enqueued eq_refl ltac:(lia)) as H.
  destruct (run _ enqueued) as [[[its|]|e] w']; [|contradiction|].
  - exists its, w'. split; [reflexivity|]. destruct H as (_ & Hlt & _ & _).
    destruct (Nat.le_gt_cases (length its) 3) as [?|Hgt]; [done|]. specialize (Hlt 3 Hgt). discriminate Hlt.
  - exfalso. destruct H as [_ [[Hne _]|[_ [He|[Ha _]]]]]; [by apply Hne|discriminate He|discriminate Ha].
Defined.

(** Proposals, a decision and two workers. *)
Definition processes : list process :=
  [ApiProcess request_propose; ApiProcess request_approve;
   WorkerProcess worker_settings (u "host") 7 clock (after 2) 3; WorkerProcess worker_settings (u "host") 8 clock (after 2) 3].

Definition run_processes (sched : list nat) := run_schedule sched (perform_process (Ok refusing_client) hash <$> processes) sql_start.

Lemma processes_valid : Forall (valid_process (Ok refusing_client) 8) processes.
Proof.
  repeat apply Forall_cons_2; try apply Forall_nil_2; try done;
    (split_and!; [done|apply clock_valid|done|intros ? [= <-]; apply refusing_client_promise|simpl; lia]).
Qed.

Lemma run_processes_steps sched :
  rtc pool_step (perform_process (Ok refusing_client) hash <$> processes, sql_start) ((run_processes sched).1, (run_processes sched).2).
Proof. unfold run_processes. rewrite <- surjective_pairing. apply run_schedule_steps. Qed.

Lemma workers_safe_witness :
  let f := run_processes [0;2;0;3;2;0;1;3;2;1;3;2;3] in
  system_ok 8 f.2 /\ system_le sql_start f.2 /\
  (forall i p fi, processes !! i = Some p -> f.1 !! i = Some (Ret fi) -> truthful p fi f.2).
Proof.
  exact (workers_safe (Ok refusing_client) hash 8 processes sql_start _ _ limit_positive
    processes_valid sql_start_system_ok (run_processes_steps [0;2;0;3;2;0;1;3;2;1;3;2;3])).
Defined.

(** What is pending once an action has been proposed is due at any later time. *)
Lemma enqueued_ready i : after 2 i = false -> ready (dispatcher_of worker_settings (worker_name (u "host") 7)) (clock i) (sw_db enqueued).
Proof.
  intros Hi. split; [apply key_order_scans|].
  assert (map_Forall (fun _ r => SqlAlchemyOutboxRepository.due (turn_time (clock i)) (turn_time (clock i) - seconds 120) r = true)
    (pending (sw_db enqueued))) as Hall.
  { destruct i as [|[|i]]; [..|discriminate Hi]; (apply (bool_decide_unpack _); vm_compute; exact I). }
  intros j r Hj. split; [exact (Hall j r Hj)|reflexivity].
Qed.

Lemma worker_drains_outbox_witness :
  exists its d', run (run_worker (Ok refusing_client) worker_settings (u "host") 7 clock (after 2) 3) enqueued
      = (Ok (Some its), put_db d' enqueued) /\ length its = 2 /\ outbox_le (sw_db enqueued) d' /\
    forall j r, pending (sw_db enqueued) !! j = Some r -> exists r' a ref, t_outbox d' !! j = Some r' /\
      omr_published_at r' <> None /\ omr_delivery_result_json r' = Some [(arn_key, ref)] /\
      t_actions d' !! omr_aggregate_id r = Some a /\ gar_workflow_execution_arn a = Some ref.
Proof.
  apply (worker_drains_outbox (Ok refusing_client) worker_settings (u "host") 7 clock (after 2) 8 2 3 enqueued);
    try reflexivity; try lia.
  - apply enqueued_ok.
  - exact (wo_repo _ _ (proj1 enqueued_ok)).
  - apply enqueued_ready.
  - intros [|[|i]] Hi; [reflexivity|reflexivity|lia].
  - apply (bool_decide_unpack _). vm_compute. exact I.
Defined.

(** There is one message to drain. *)
Example one_pending : size (pending (sw_db enqueued)) = 1.
Proof. vm_compute. reflexivity. Qed.
End witnesses.
