(* ===== verification/Retrieval.v ===== *)
(** * Retrieval

    The schemas of [packages/schemas/documents.py] that retrieval answers with, the
    embedding providers of [packages/retrieval/embeddings.py], and the protocol and
    in-memory service of [packages/retrieval/service.py].  Distances are computed on
    binary64 floats, with [sum] as CPython 3.12 computes it. *)
From S2P Require Import Prelude PyStr Uuid Effects Json Schemas Governance Chunking.
From Corelib Require Import SpecFloat.
Local Open Scope py_scope.

Record RetrievedChunk := {
  rt_chunk : DocumentChunk;
  rt_document_title : pystr;
  rt_source_uri : option pystr;
  rt_distance : float64;
}.

Definition valid_RetrievedChunk (c : RetrievedChunk) : bool :=
  valid_DocumentChunk (rt_chunk c) && fle float_zero (rt_distance c).

Record IndexResult := {
  ix_case_id : UUID;
  ix_document_count : Z;
  ix_chunk_count : Z;
  ix_embedding_backend : pystr;
}.

Definition valid_IndexResult (r : IndexResult) : bool := (0 <=? ix_document_count r)%Z && (0 <=? ix_chunk_count r)%Z.

Class RetrievalService (S : Type) := {
  index_case : SupplierCase -> prog S IndexResult;
  search : UUID -> pystr -> Z -> prog S (list RetrievedChunk);
}.

(** [EmbeddingProvider]; [embed] may raise. *)
Record EmbeddingProvider := {
  embedding_name : pystr;
  dimension : Z;
  embed : list pystr -> result (list (list float64));
}.

(** ** Floats *)

Definition fadd (x y : float64) : float64 := SFadd float_prec float_emax x y.
Definition fsub (x y : float64) : float64 := SFsub float_prec float_emax x y.
Definition fmul (x y : float64) : float64 := SFmul float_prec float_emax x y.
Definition fdiv (x y : float64) : float64 := SFdiv float_prec float_emax x y.
Definition fsqrt (x : float64) : float64 := SFsqrt float_prec float_emax x.

Definition is_zero (x : float64) : bool := match x with S754_zero _ => true | _ => false end.

(** [max(0.0, x)] *)
Definition fmax0 (x : float64) : float64 := if flt float_zero x then x else float_zero.

(** The compensated loop of [sum]: the running total and its correction. *)
Definition sum_step (acc : float64 * float64) (x : float64) : float64 * float64 :=
  let '(hi, lo) := acc in
  let t := fadd hi x in
  (t, if fle (SFabs x) (SFabs hi) then fadd lo (fadd (fsub hi t) x) else fadd lo (fadd (fsub x t) hi)).

(** [sum(xs)]; the integer start is added to the first item, and an empty sum is zero. *)
Definition fsum (xs : list float64) : float64 :=
  match xs with
  | [] => float_zero
  | x :: xs =>
      let '(hi, lo) := fold_left sum_step xs (fadd float_zero x, float_zero) in
      if negb (is_zero lo) && is_finite lo then fadd hi lo else hi
  end.

(** [zip(xs, ys, strict=True)] *)
Definition zip_strict {A B} (xs : list A) (ys : list B) : result (list (A * B)) :=
  if (length xs =? length ys)%nat then Ok (zip xs ys) else Raise (ValueError (u "zip() arguments have different lengths")).

(** [list.sort(key=...)]: an insertion sort, stable like the one of the language. *)
Section sorting.
Context {A : Type} (key : A -> float64).

Fixpoint insert_sorted (x : A) (l : list A) : list A :=
  match l with
  | [] => [x]
  | y :: l' => if flt (key y) (key x) then y :: insert_sorted x l' else x :: l
  end.

Definition sort_by (l : list A) : list A := foldr insert_sorted [] l.
End sorting.

(** [l[:limit]] *)
Definition first_items {A} (limit : Z) (l : list A) : list A :=
  if (limit <? 0)%Z then take (length l - Z.to_nat (- limit)) l else take (Z.to_nat limit) l.

(** ** The hash provider *)

Module HashEmbeddingProvider.
Section provider.
(** [hashlib.sha256(token.encode("utf-8")).digest()], as byte values *)
Context `{UnicodeLower} (sha256 : pystr -> list N) (dim : Z).

Definition byte_at (i : nat) (digest : list N) : N := default 0%N (digest !! i).

(** [int.from_bytes(digest[:4], "big")] *)
Definition from_bytes (bytes : list N) : Z := Z.of_N (fold_left (fun n b => n * 256 + b)%N bytes 0%N).

Definition fminus_one : float64 := SFopp float_one.

(** The loop over the tokens. *)
Definition add_token (vector : list float64) (token : pystr) : list float64 :=
  let digest := sha256 token in
  let index := Z.to_nat (from_bytes (take 4 digest) mod dim) in
  let sign := if N.even (byte_at 4 digest) then float_one else fminus_one in
  alter (fun v => fadd v sign) index vector.

(** [_embed_one] *)
Definition embed_one (s : pystr) : list float64 :=
  let vector := fold_left add_token (split (lower s)) (replicate (Z.to_nat dim) float_zero) in
  let root := fsqrt (fsum ((fun v => fmul v v) <$> vector)) in
  let norm := if is_zero root then float_one else root in
  (fun v => fdiv v norm) <$> vector.

Definition provider : EmbeddingProvider := {|
  embedding_name := u "deterministic-hash"; dimension := dim; embed texts := Ok (embed_one <$> texts) |}.

Lemma add_token_length vector token : length (add_token vector token) = length vector.
Proof. apply length_alter. Qed.

Lemma embed_one_length s : length (embed_one s) = Z.to_nat dim.
Proof.
  unfold embed_one. rewrite length_fmap. rewrite <- (length_replicate (Z.to_nat dim) float_zero) at 2.
  generalize (replicate (Z.to_nat dim) float_zero). induction (split (lower s)) as [|t ts IH]; intros v; [done|].
  cbn [fold_left]. by rewrite IH, add_token_length.
Qed.
End provider.
End HashEmbeddingProvider.

(** ** The in-memory service *)

Module InMemoryRetrievalService.

(** [_IndexedChunk] *)
Record IndexedChunk := {
  ic_chunk : DocumentChunk;
  ic_embedding : list float64;
  ic_document_title : pystr;
  ic_source_uri : option pystr;
}.

Definition t : Type := gmap UUID (list IndexedChunk).

Section methods.
Context (uuid5 : UUID -> pystr -> UUID) (embeddings : EmbeddingProvider) (chunker : StructuralChunker).

(** A chunker that never returns. *)
Definition diverges : exn := OtherError (u "diverges") [].

(** [uuid5(NAMESPACE_URL, f"{supplier_case.id}:{position}:{document.title}")] *)
Definition document_id_for (i : UUID) (position : nat) (doc : DocumentInput) : UUID :=
  uuid5 NAMESPACE_URL (str_uuid i ++ u ":" ++ str_int (Z.of_nat position) ++ u ":" ++ doc_title doc).

(** One iteration of the loop over the documents. *)
Definition document_chunks (i : UUID) (position : nat) (doc : DocumentInput) :
    result (list (DocumentChunk * pystr * option pystr)) :=
  chunks ← of_option diverges (chunk chunker uuid5 i (document_id_for i position doc) (doc_content doc)
             [(u "document_position", JInt (Z.of_nat position))]);
  Ok ((fun c => (c, doc_title doc, doc_source_uri doc)) <$> (chunks : list DocumentChunk)).

Definition case_chunks (c : SupplierCase) : result (list (DocumentChunk * pystr * option pystr)) :=
  @concat _ <$> mapR (fun '(position, doc) => document_chunks (case_id c) position doc) (imap pair (documents c)).

Definition indexed (entry : (DocumentChunk * pystr * option pystr) * list float64) : IndexedChunk :=
  let '((c, title, uri), vector) := entry in
  {| ic_chunk := c; ic_embedding := vector; ic_document_title := title; ic_source_uri := uri |}.

Definition index_case (c : SupplierCase) : prog t IndexResult :=
  chunks ← of_result (case_chunks c);
  vectors ← of_result (embed embeddings ((fun entry => dc_content entry.1.1) <$> (chunks : list (DocumentChunk * pystr * option pystr))));
  entries ← of_result (zip_strict chunks vectors);
  _ ← atomic (fun s => (Ok tt, <[case_id c := indexed <$> (entries : list ((DocumentChunk * pystr * option pystr) * list float64))]> s));
  of_result (construct valid_IndexResult {|
    ix_case_id := case_id c; ix_document_count := Z.of_nat (length (documents c));
    ix_chunk_count := Z.of_nat (length chunks); ix_embedding_backend := embedding_name embeddings |}).

(** [max(0.0, 1.0 - sum(left * right for left, right in zip(...)))] *)
Definition distance (v q : list float64) : result float64 :=
  pairs ← zip_strict v q;
  Ok (fmax0 (fsub float_one (fsum ((fun '(l, r) => fmul l r) <$> (pairs : list (float64 * float64)))))).

Definition retrieved (scored : float64 * IndexedChunk) : result RetrievedChunk :=
  construct valid_RetrievedChunk {|
    rt_chunk := ic_chunk scored.2; rt_document_title := ic_document_title scored.2;
    rt_source_uri := ic_source_uri scored.2; rt_distance := scored.1 |}.

Definition score (q : list float64) (item : IndexedChunk) : result (float64 * IndexedChunk) :=
  d ← distance (ic_embedding item) q; Ok (d, item).

Definition search (i : UUID) (query : pystr) (limit : Z) : prog t (list RetrievedChunk) :=
  query_vectors ← of_result (embed embeddings [query]);
  query_vector ← of_result (of_option (OtherError (u "IndexError") (u "list index out of range"))
                              (head (query_vectors : list (list float64))));
  reads (fun s =>
    scored ← mapR (score query_vector) (default [] (s !! i));
    mapR retrieved (first_items limit (sort_by fst scored))).

Definition service : RetrievalService t := {| Retrieval.index_case := index_case; Retrieval.search := search |}.
End methods.
End InMemoryRetrievalService.
