(* ===== verification/Embeddings.v ===== *)
(** * Titan embeddings and the embedding factory

    [BedrockTitanEmbeddingProvider] of [packages/retrieval/embeddings.py] and
    [packages/retrieval/factory.py].  The Bedrock client is a parameter: the text of the
    response body for the request the provider sends, or an exception. *)
From S2P Require Import Prelude PyStr Uuid Effects Json Schemas ModelGateway JsonTextCode RemoteModels Settings Chunking Retrieval.
From Corelib Require Import SpecFloat.
Local Open Scope py_scope.

(** What [client.invoke_model] is called with. *)
Record InvokeModelRequest := {
  im_model_id : pystr;
  im_body : pystr;
  im_content_type : pystr;
  im_accept : pystr;
}.

(** Answers [response["body"].read()]. *)
Abbreviation InvokeModelClient := (InvokeModelRequest -> result pystr).

Module BedrockTitanEmbeddingProvider.
Section provider.
(** [float(text)] on a string *)
Context `{JsonText} (float_of_text : pystr -> option float64).

(** [float(value)] *)
Definition float_of (j : json) : result float64 :=
  match j with
  | JFloat f => Ok f
  | JInt z =>
      let f := float_of_int z in
      if is_finite f then Ok f else Raise (OtherError (u "OverflowError") (u "int too large to convert to float"))
  | JBool b => Ok (if b then float_one else float_zero)
  | JStr s => of_option (ValueError (u "could not convert string to float")) (float_of_text s)
  | _ => Raise (OtherError (u "TypeError") (u "float() argument must be a string or a real number"))
  end.

Section client.
Context (client : InvokeModelClient) (model_id : pystr) (dim : Z).

Definition request_for (s : pystr) : InvokeModelRequest := {|
  im_model_id := model_id;
  im_body := json_text (JObj [(u "inputText", JStr s); (u "dimensions", JInt dim); (u "normalize", JBool true)]);
  im_content_type := u "application/json"; im_accept := u "application/json" |}.

(** [_embed_one] *)
Definition embed_one (s : pystr) : result (list float64) :=
  raw ← client (request_for s);
  payload ← of_option (ValueError (u "JSONDecodeError")) (json_value raw);
  embedding ← BedrockConverseBackend.item "embedding" payload;
  values ← DeterministicBackend.iterate embedding;
  mapR float_of values.

Definition provider : EmbeddingProvider := {|
  embedding_name := u "bedrock-titan-embeddings"; dimension := dim; embed texts := mapR embed_one texts |}.
End client.
End provider.
End BedrockTitanEmbeddingProvider.

(** [create_embedding_provider]; [titan] is what building the client of a region comes to. *)
Definition create_embedding_provider `{JsonText} `{UnicodeLower} (float_of_text : pystr -> option float64)
    (sha256 : pystr -> list N) (titan : pystr -> result InvokeModelClient) (s : Settings.Settings) : result EmbeddingProvider :=
  if pystr_eqb (embedding_backend s) (u "bedrock")
  then client ← titan (aws_region s);
       Ok (BedrockTitanEmbeddingProvider.provider float_of_text client (bedrock_embedding_model_id s) (embedding_dimension s))
  else Ok (HashEmbeddingProvider.provider sha256 (embedding_dimension s)).

(** ** What the Titan provider answers *)

Section titan.
Context `{JsonText} (float_of_text : pystr -> option float64) (client : InvokeModelClient) (model_id : pystr) (dim : Z).
Import BedrockTitanEmbeddingProvider.

(** The service answers one JSON object with the vector under [embedding]. *)
Definition answers_vector (s : pystr) (vector : list float64) : Prop :=
  exists fields, client (request_for model_id dim s) = Ok (json_text (JObj fields)) /\
    plain (JObj fields) = true /\ assoc (u "embedding") fields = Some (JArr (JFloat <$> vector)).

Lemma embed_one_answer s vector :
  answers_vector s vector -> embed_one float_of_text client model_id dim s = Ok vector.
Proof.
  intros (fields & Hc & Hp & He). unfold embed_one. rewrite Hc. cbn [mbind result_bind].
  rewrite json_value_text by done. cbn [of_option mbind result_bind BedrockConverseBackend.item]. rewrite He.
  cbn [of_option mbind result_bind DeterministicBackend.iterate].
  transitivity (mapR (float_of float_of_text) (JFloat <$> vector)); [done|].
  rewrite (mapR_fmap_ok _ JFloat id) by done. by rewrite list_fmap_id.
Qed.

(** One vector for each text, in the order of the texts; any failure fails the call. *)
Lemma titan_embeds texts vectors :
  Forall2 answers_vector texts vectors -> embed (provider float_of_text client model_id dim) texts = Ok vectors.
Proof.
  cbn [embed provider]. induction 1 as [|s v texts vectors Hs _ IH]; [done|].
  cbn [mapR]. rewrite (embed_one_answer _ _ Hs). cbn [mbind result_bind]. by rewrite IH.
Qed.

Lemma titan_fails texts s e :
  s ∈ texts ->
  client (request_for model_id dim s) = Raise e ->
  exists e', embed (provider float_of_text client model_id dim) texts = Raise e'.
Proof.
  intros Hs Hc. cbn [embed provider]. induction Hs as [texts|s s' texts Hs IH]; cbn [mapR].
  - unfold embed_one. rewrite Hc. by exists e.
  - destruct (embed_one _ _ _ _ s') as [v|e']; [|by exists e'].
    destruct (IH Hc) as (e' & He). cbn [mbind result_bind]. rewrite He. by exists e'.
Qed.
End titan.
