(* ===== verification/RetrievalTheorems.v ===== *)
(** * What retrieval returns

    Indexing replaces the chunks of one case and of no other; searching returns the
    nearest of them, in order of distance, each with its document. *)
From S2P Require Import Prelude PyStr Uuid Effects Json Schemas Governance Chunking Retrieval JsonTextCode.
From Corelib Require Import SpecFloat.
Import InMemoryRetrievalService.
Local Open Scope py_scope.

(** ** Distances are ordered *)

Definition nonnegative (f : float64) : bool :=
  match f with S754_zero _ | S754_finite false _ _ | S754_infinity false => true | _ => false end.

Lemma fmax0_nonnegative x : nonnegative (fmax0 x) = true.
Proof. unfold fmax0. destruct (flt float_zero x) eqn:E; [|done]. by destruct x as [|[]| |[]]. Qed.

Lemma nonnegative_valid f : nonnegative f = true -> fle float_zero f = true.
Proof. by destruct f as [|[]| |[]]. Qed.

(** [b] is not nearer than [a]. *)
Definition not_after (a b : float64) : Prop := flt b a = false.

Lemma not_after_trans a b c :
  nonnegative a = true -> nonnegative b = true -> nonnegative c = true -> not_after a b -> not_after b c -> not_after a c.
Proof.
  unfold not_after, flt, SFltb, SFcompare.
  destruct a as [sa|[]| |[] ma ea], b as [sb|[]| |[] mb eb], c as [sc|[]| |[] mc ec]; try done; cbn [nonnegative];
    intros _ _ _;
    repeat match goal with |- context [(?x ?= ?y)%Z] => destruct (Z.compare_spec x y) end; try done; try lia;
    repeat match goal with |- context [Pos.compare_cont Eq ?x ?y] => change (Pos.compare_cont Eq x y) with (x ?= y)%positive;
      destruct (Pos.compare_spec x y) end; try done; try lia.
Qed.

Lemma not_after_total a b : flt b a = true -> not_after b a.
Proof.
  unfold not_after, flt, SFltb, SFcompare. destruct a as [sa|[]| |[] ma ea], b as [sb|[]| |[] mb eb]; try done;
    rewrite (Z.compare_antisym eb ea); destruct (eb ?= ea)%Z; try done; cbn [CompOpp];
    change (Pos.compare_cont Eq ma mb) with (ma ?= mb)%positive; change (Pos.compare_cont Eq mb ma) with (mb ?= ma)%positive;
    rewrite (Pos.compare_antisym mb ma); by destruct (mb ?= ma)%positive.
Qed.

(** ** Sorting *)

Section sorting.
Context {A : Type} (key : A -> float64).

Definition in_order (a b : A) : Prop := not_after (key a) (key b).

Lemma insert_sorted_perm x l : insert_sorted key x l ≡ₚ x :: l.
Proof.
  induction l as [|y l IH]; [done|]. cbn [insert_sorted]. destruct (flt (key y) (key x)); [|done].
  rewrite IH. apply Permutation_swap.
Qed.

Lemma sort_by_perm l : sort_by key l ≡ₚ l.
Proof. induction l as [|x l IH]; [done|]. cbn [sort_by foldr]. by rewrite insert_sorted_perm, IH. Qed.

Lemma insert_sorted_in_order x l :
  Forall (fun y => nonnegative (key y) = true) (x :: l) -> StronglySorted in_order l -> StronglySorted in_order (insert_sorted key x l).
Proof.
  intros [Hx Hl]%Forall_cons Hs. induction Hs as [|y l Hs IH Hy]; cbn [insert_sorted]; [by repeat constructor|].
  apply Forall_cons in Hl as [Hyn Hl]. destruct (flt (key y) (key x)) eqn:E.
  - constructor; [by apply IH|]. rewrite insert_sorted_perm. constructor; [|done]. by apply not_after_total.
  - constructor; [by constructor|]. constructor; [done|]. rewrite Forall_forall in Hy, Hl |- *.
    intros z Hz. apply (not_after_trans _ (key y)); auto. by apply Hy.
Qed.

Lemma sort_by_in_order l : Forall (fun y => nonnegative (key y) = true) l -> StronglySorted in_order (sort_by key l).
Proof.
  induction 1 as [|x l Hx Hl IH]; [constructor|]. cbn [sort_by foldr]. apply insert_sorted_in_order; [|done].
  constructor; [done|]. fold (sort_by key l). by rewrite sort_by_perm.
Qed.
End sorting.

Lemma StronglySorted_app_inv {A} (R : A -> A -> Prop) l k :
  StronglySorted R (l ++ k) -> StronglySorted R l /\ Forall (fun x => Forall (R x) k) l.
Proof.
  induction l as [|x l IH]; [split; constructor|]. cbn [app]. intros [Hs Hx]%StronglySorted_inv.
  destruct (IH Hs) as [? ?]. apply Forall_app in Hx as [? ?]. split; by constructor.
Qed.

(** ** Indexing *)

Section service.
Context (uuid5 : UUID -> pystr -> UUID) (embeddings : EmbeddingProvider) (chunker : StructuralChunker).
Context (Hroom : leaves_room chunker).

(** A provider that embeds every text, one vector each, of one dimension. *)
Definition embeds_all (dim : nat) : Prop := forall texts, exists vectors,
  embed embeddings texts = Ok vectors /\ length vectors = length texts /\ Forall (fun v => length v = dim) vectors.

(** A chunk of a document of the case. *)
Definition chunk_of (c : SupplierCase) (ch : DocumentChunk) (title : pystr) (uri : option pystr) : Prop :=
  exists position doc, documents c !! position = Some doc /\ title = doc_title doc /\ uri = doc_source_uri doc /\
    valid_DocumentChunk ch = true /\ dc_case_id ch = case_id c /\
    dc_document_id ch = document_id_for uuid5 (case_id c) position doc.

Lemma mapR_ok {A B} (f : A -> result B) (P : B -> Prop) l :
  (forall a, a ∈ l -> exists b, f a = Ok b /\ P b) -> exists bs, mapR f l = Ok bs /\ Forall P bs /\ length bs = length l.
Proof.
  induction l as [|a l IH]; intros Hf; [by exists []|]. destruct (Hf a) as (b & Hb & HP); [by left|].
  destruct IH as (bs & Hbs & HPs & Hl); [intros a' Ha'; apply Hf; by right|].
  exists (b :: bs). cbn [mapR]. rewrite Hb. cbn [mbind result_bind]. rewrite Hbs. split; [done|]. split; [by constructor|]. simpl. by rewrite Hl.
Qed.

Lemma case_chunks_spec c : exists entries, case_chunks uuid5 chunker c = Ok entries /\
  Forall (fun e => chunk_of c e.1.1 e.1.2 e.2) entries.
Proof.
  unfold case_chunks.
  destruct (mapR_ok (fun '(position, doc) => document_chunks uuid5 chunker (case_id c) position doc)
    (Forall (fun e => chunk_of c e.1.1 e.1.2 e.2)) (imap pair (documents c))) as (entries & -> & Hall & _).
  - intros [position doc] Hin. apply elem_of_lookup_imap in Hin as (p & d & [= -> ->] & Hd). unfold document_chunks.
    destruct (chunk_spec chunker uuid5 (case_id c) (document_id_for uuid5 (case_id c) p d)
      [(u "document_position", JInt (Z.of_nat p))] (doc_content d) Hroom) as (chunks & -> & Hok).
    cbn [of_option mbind result_bind]. eexists. split; [done|]. apply Forall_fmap, Forall_forall. intros ch Hch. cbn.
    apply list_elem_of_lookup in Hch as (k & Hk). apply Hok in Hk as (_ & Hv & _ & _ & Hcase & Hdoc & _ & _). exists p, d. done.
  - exists (concat entries). split; [done|]. by apply Forall_concat.
Qed.

(** What [index_case] stores for the case. *)
Definition index_of (c : SupplierCase) (dim : nat) (items : list IndexedChunk) : Prop :=
  (exists entries, case_chunks uuid5 chunker c = Ok entries /\
     (fun it => (ic_chunk it, ic_document_title it, ic_source_uri it)) <$> items = entries) /\
  embed embeddings ((fun it => dc_content (ic_chunk it)) <$> items) = Ok (ic_embedding <$> items) /\
  Forall (fun it => chunk_of c (ic_chunk it) (ic_document_title it) (ic_source_uri it) /\ length (ic_embedding it) = dim) items.

Lemma index_spec c dim s : embeds_all dim ->
  exists items, index_of c dim items /\ run (index_case uuid5 embeddings chunker c) s
    = (Ok {| ix_case_id := case_id c; ix_document_count := Z.of_nat (length (documents c));
             ix_chunk_count := Z.of_nat (length items); ix_embedding_backend := embedding_name embeddings |},
       <[case_id c := items]> s).
Proof.
  intros Hembed. destruct (case_chunks_spec c) as (entries & Hentries & Hall). unfold index_case.
  rewrite run_bind, run_of_result, Hentries, run_bind, run_of_result.
  destruct (Hembed ((fun entry => dc_content entry.1.1) <$> entries)) as (vectors & Hv & Hlen & Hdim). rewrite length_fmap in Hlen.
  rewrite Hv, run_bind, run_of_result. unfold zip_strict. rewrite Hlen, Nat.eqb_refl. rewrite run_bind, run_atomic, run_of_result.
  assert ((fun it => (ic_chunk it, ic_document_title it, ic_source_uri it)) <$> (indexed <$> zip entries vectors) = entries) as Hentry.
  { rewrite <- list_fmap_compose. transitivity (fst <$> zip entries vectors).
    - apply list_fmap_ext. by intros k [[[? ?] ?] ?] _.
    - apply fst_zip. lia. }
  exists (indexed <$> zip entries vectors). split.
  - split; [|split].
    + by exists entries.
    + transitivity (Ok vectors); [|f_equal].
      * rewrite <- Hv. f_equal. rewrite <- Hentry at 2. by rewrite <- !list_fmap_compose.
      * rewrite <- list_fmap_compose. transitivity (snd <$> zip entries vectors); [symmetry; apply snd_zip; lia|].
        apply list_fmap_ext. by intros k [[[? ?] ?] ?] _.
    + apply Forall_fmap, Forall_forall. intros [[[ch title] uri] v] Hin. cbn.
      split; [exact (proj1 (Forall_forall _ _) Hall _ (elem_of_zip_l _ _ _ _ Hin))
             |exact (proj1 (Forall_forall _ _) Hdim _ (elem_of_zip_r _ _ _ _ Hin))].
  - rewrite construct_valid by (unfold valid_IndexResult; cbn; apply andb_true_iff; rewrite !Z.leb_le; lia).
    do 2 f_equal. f_equal. rewrite length_fmap, length_zip_with. lia.
Qed.

(** ** Searching *)

(** What a chunk and its distance are returned as. *)
Definition as_retrieved (scored : float64 * IndexedChunk) : RetrievedChunk := {|
  rt_chunk := ic_chunk scored.2; rt_document_title := ic_document_title scored.2;
  rt_source_uri := ic_source_uri scored.2; rt_distance := scored.1 |}.

(** One less the inner product, and no less than zero. *)
Definition apart (v q : list float64) : float64 := fmax0 (fsub float_one (fsum (zip_with fmul v q))).

(** A chunk as a search for [q] returns it. *)
Definition result_of (q : list float64) (it : IndexedChunk) : RetrievedChunk := as_retrieved (apart (ic_embedding it) q, it).

Lemma products_zip (v q : list float64) : (fun '(l, r) => fmul l r) <$> zip v q = zip_with fmul v q.
Proof. revert q. induction v as [|x v IH]; intros [|y q]; [done..|]. cbn. f_equal. apply IH. Qed.

Lemma score_ok q it : length (ic_embedding it) = length q -> score q it = Ok (apart (ic_embedding it) q, it).
Proof. intros Hl. unfold score, distance, zip_strict, apart. by rewrite Hl, Nat.eqb_refl, <- products_zip. Qed.

Lemma scored_spec q items dim :
  length q = dim -> Forall (fun it => length (ic_embedding it) = dim) items ->
  mapR (score q) items = Ok ((fun it => (apart (ic_embedding it) q, it)) <$> items).
Proof.
  intros Hq. induction 1 as [|it items Hit _ IH]; [done|].
  cbn [mapR fmap list_fmap]. rewrite score_ok by (by rewrite Hit). cbn [mbind result_bind]. by rewrite IH.
Qed.

Lemma retrieved_ok d :
  nonnegative d.1 = true -> valid_DocumentChunk (ic_chunk d.2) = true -> retrieved d = Ok (as_retrieved d).
Proof. intros Hn Hv. apply construct_valid. unfold valid_RetrievedChunk. cbn. by rewrite Hv, nonnegative_valid. Qed.

Lemma retrieved_spec scored :
  Forall (fun d => nonnegative d.1 = true /\ valid_DocumentChunk (ic_chunk d.2) = true) scored ->
  mapR retrieved scored = Ok (as_retrieved <$> scored).
Proof.
  induction 1 as [|d scored [Hn Hv] _ IH]; [done|]. cbn [mapR]. rewrite (retrieved_ok d Hn Hv).
  cbn [mbind result_bind]. by rewrite IH.
Qed.

Lemma Forall_perm {A} (P : A -> Prop) l k : l ≡ₚ k -> Forall P l -> Forall P k.
Proof. by intros ->. Qed.

(** The results of a search for the vector [q]: the chunks with their distances from [q], in
    order, as many as asked for, nothing left out nearer. *)
Record nearest (c : SupplierCase) (q : list float64) (items : list IndexedChunk) (n : nat) (out : list RetrievedChunk) : Prop := {
  ne_length : length out = n `min` length items;
  ne_sorted : StronglySorted (in_order rt_distance) out;
  ne_chunks : Forall (fun r => chunk_of c (rt_chunk r) (rt_document_title r) (rt_source_uri r)) out;
  ne_rest : exists rest, out ++ rest ≡ₚ result_of q <$> items /\
    Forall (fun r => Forall (in_order rt_distance r) rest) out;
}.

Lemma search_spec c dim items i query q limit s :
  embed embeddings [query] = Ok [q] -> length q = dim -> index_of c dim items -> (0 <= limit)%Z -> s !! i = Some items ->
  exists out, run (search embeddings i query limit) s = (Ok out, s) /\ nearest c q items (Z.to_nat limit) out.
Proof.
  intros Hembed Hq (_ & _ & Hitems) Hlimit Hs. unfold search. rewrite Hembed, run_bind, run_of_result, run_bind, run_of_result.
  cbn [head of_option]. rewrite run_reads, Hs. cbn [default from_option id].
  rewrite (scored_spec q items dim Hq) by (eapply Forall_impl; [exact Hitems|by intros ? []]).
  cbn [mbind result_bind]. set (scored := (fun it => (apart (ic_embedding it) q, it)) <$> items).
  pose proof (sort_by_perm fst scored) as Hperm. set (sorted := sort_by fst scored) in *.
  assert (Forall (fun d => nonnegative d.1 = true) scored) as Hn
    by (apply Forall_fmap, Forall_forall; intros it _; apply fmax0_nonnegative).
  assert (Forall (fun d => nonnegative d.1 = true /\ chunk_of c (ic_chunk d.2) (ic_document_title d.2) (ic_source_uri d.2)) sorted) as Hall.
  { apply (Forall_perm _ scored); [done|]. apply Forall_and. split; [done|]. apply Forall_fmap.
    eapply Forall_impl; [exact Hitems|]. by intros ? []. }
  assert (StronglySorted (in_order rt_distance) (as_retrieved <$> sorted)) as Hsorted.
  { pose proof (sort_by_in_order fst scored Hn) as Hso. fold sorted in Hso. clear -Hso.
    induction Hso as [|d l Hl IH Hd]; [constructor|]. cbn. constructor; [done|]. by apply Forall_fmap. }
  unfold first_items. rewrite (proj2 (Z.ltb_ge _ _) Hlimit). set (n := Z.to_nat limit).
  rewrite retrieved_spec.
  2:{ apply Forall_take. eapply Forall_impl; [exact Hall|]. intros d [? (p & doc & _ & _ & _ & ? & _)]. done. }
  eexists. split; [done|]. rewrite <- (take_drop n sorted), fmap_app in Hsorted.
  apply StronglySorted_app_inv in Hsorted as [Hso Hrest]. split; [|done| |].
  - rewrite length_fmap, length_take, Hperm. unfold scored. by rewrite length_fmap.
  - apply Forall_fmap, Forall_take. eapply Forall_impl; [exact Hall|]. by intros d [].
  - exists (as_retrieved <$> drop n sorted). split; [|done].
    rewrite <- fmap_app, take_drop, Hperm. unfold scored. by rewrite <- list_fmap_compose.
Qed.

(** C38. Indexing a case replaces the chunks of that case and of no other, each with the vector
    the provider gives its text, and counts them; a search of the case then returns as many
    chunks as asked for or as there are, each with the title and source of the document of the
    case it was cut from and with its distance from the vector of the query (one less the inner
    product of the two, and no less than zero), in order of distance and none farther than a
    chunk left out, and changes nothing. A case that was never indexed has no results. *)
Theorem search_returns_nearest c dim query limit s :
  embeds_all dim -> (0 <= limit)%Z ->
  (exists items q s' out, index_of c dim items /\ run (index_case uuid5 embeddings chunker c) s
     = (Ok {| ix_case_id := case_id c; ix_document_count := Z.of_nat (length (documents c));
              ix_chunk_count := Z.of_nat (length items); ix_embedding_backend := embedding_name embeddings |}, s') /\
     (forall i, i <> case_id c -> s' !! i = s !! i) /\ embed embeddings [query] = Ok [q] /\
     run (search embeddings (case_id c) query limit) s' = (Ok out, s') /\ nearest c q items (Z.to_nat limit) out) /\
  (forall i, s !! i = None -> run (search embeddings i query limit) s = (Ok [], s)).
Proof.
  intros Hembed Hlimit. destruct (Hembed [query]) as ([|q [|q' vs]] & Hq & Hlen & Hdim); [done| |done].
  apply Forall_cons in Hdim as [Hqd _]. split.
  - destruct (index_spec c dim s Hembed) as (items & Hitems & Hrun).
    destruct (search_spec c dim items (case_id c) query q limit (<[case_id c := items]> s) Hq Hqd Hitems Hlimit) as (out & Hout & Hnear);
      [apply lookup_insert_eq|].
    exists items, q, (<[case_id c := items]> s), out. split_and!; try done. intros i Hi. by apply lookup_insert_ne.
  - intros i Hi. unfold search. rewrite Hq, run_bind, run_of_result, run_bind, run_of_result. cbn [head of_option]. rewrite run_reads, Hi.
    cbn [default from_option mapR mbind result_bind sort_by foldr]. unfold first_items. by rewrite (proj2 (Z.ltb_ge _ _) Hlimit), take_nil.
Qed.
End service.

(** ** A concrete index *)

Section example.

(** Bytes of a token instead of its digest. *)
Definition token_bytes (token : pystr) : list N := token ++ [0; 0; 0; 0; 0]%N.
Definition hash_provider : EmbeddingProvider := HashEmbeddingProvider.provider token_bytes 8.

Lemma hash_embeds_all : embeds_all hash_provider 8.
Proof.
  intros texts. eexists. split; [reflexivity|]. split; [apply length_fmap|]. apply Forall_fmap, Forall_forall.
  intros s _. apply (HashEmbeddingProvider.embed_one_length token_bytes 8 s).
Qed.

Definition indexed_case : SupplierCase := {|
  case_id := NAMESPACE_URL; case_tenant_id := u "acme"; supplier_name := u "Widgets"; description := [];
  case_status := NEW;
  documents := [{| doc_title := u "Policy"; doc_content := u "Access is reviewed."; doc_source_uri := None |};
                {| doc_title := u "Answers"; doc_content := u "Shared credentials."; doc_source_uri := None |}];
  case_created_at := 0%Z; case_updated_at := 0%Z |}.

Definition answer_of (query : pystr) (limit : Z) : result (list RetrievedChunk) :=
  let s := (run (index_case hash_length hash_provider default_chunker indexed_case) ∅).2 in
  (run (search hash_provider NAMESPACE_URL query limit) s).1.

(** The other chunk shares no token with the query and is at distance one. *)
Lemma search_returns_nearest_witness :
  (fun out : list RetrievedChunk => (fun r => (rt_document_title r, flt (rt_distance r) float_one)) <$> out)
    <$> answer_of (u "shared credentials.") 2 = Ok [(u "Answers", true); (u "Policy", false)] /\
  exists items q out, index_of hash_length hash_provider default_chunker indexed_case 8 items /\
    embed hash_provider [u "shared credentials."] = Ok [q] /\
    answer_of (u "shared credentials.") 1 = Ok out /\ nearest hash_length indexed_case q items 1 out.
Proof.
  split; [vm_compute; reflexivity|].
  pose proof (search_returns_nearest hash_length hash_provider default_chunker default_leaves_room indexed_case 8
    (u "shared credentials.") 1 ∅ hash_embeds_all (proj1 (Z.leb_le 0 1) eq_refl))
    as [(items & q & s' & out & Hi & Hr & _ & Hq & Hs & Hn) _].
  exists items, q, out. split; [exact Hi|]. split; [exact Hq|]. split; [|exact Hn].
  unfold answer_of. cbv zeta. rewrite Hr. cbn [snd]. change NAMESPACE_URL with (case_id indexed_case). rewrite Hs. reflexivity.
Defined.
End example.
