(* ===== verification/Api.v ===== *)
(** * The HTTP API

    The request handlers of [apps/api/main.py], over any container: the case
    repository, the review workflow, the retrieval service and the governance service
    are the protocols they are in the source.  Raising [HTTPException] is the error
    response; any other exception is a server error.  What a handler reads from the
    clock and from [uuid4] is an argument, one [Fresh] for each repository call. *)
From S2P Require Import Prelude PyStr Uuid Effects Json Schemas SchemaJson Ledger Cases Governance ModelGateway ReviewGraph Retrieval.
Import SupplierReviewWorkflow.
Local Open Scope py_scope.

Definition HTTP_401_UNAUTHORIZED : Z := 401.
Definition HTTP_403_FORBIDDEN : Z := 403.
Definition HTTP_404_NOT_FOUND : Z := 404.
Definition HTTP_409_CONFLICT : Z := 409.

(** [ReviewExecutionStart] *)
Record ReviewExecutionStart := {
  es_idempotency_key : UUID;
  es_require_evidence_confirmation : bool;
}.

(** What one request reads: the clock and identifiers of each repository call, the
    answers and the clock of the workflow, and [started_at]. *)
Record Readings := {
  fresh : nat -> Fresh;
  environment : Environment;
  started : datetime;
}.

Definition system_actor : pystr := u "system:review-workflow".

Definition audit_event (i : UUID) (event_type actor : pystr) (payload : list (pystr * json)) : AuditEventCreate := {|
  ae_case_id := i; ae_event_type := event_type; ae_actor_id := actor; ae_payload := payload |}.

(** The bodies of the audit events. *)
Definition created_event (c : SupplierCase) (p : Principal) : AuditEventCreate :=
  audit_event (case_id c) (u "case.created") (subject p) [(u "supplier_name", JStr (supplier_name c))].

Definition review_started_event (i : UUID) (p : Principal) : AuditEventCreate :=
  audit_event i (u "review.started") system_actor [(u "initiated_by", JStr (subject p))].

Definition review_failed_event (i : UUID) (e : exn) : AuditEventCreate :=
  audit_event i (u "review.failed") system_actor [(u "error_type", JStr (exn_name e))].

Definition execution_started_event (i eid : UUID) (p : Principal) (require : bool) : AuditEventCreate :=
  audit_event i (u "review.started") system_actor
    [(u "execution_id", JStr (str_uuid eid)); (u "initiated_by", JStr (subject p));
     (u "evidence_confirmation_required", JBool require)].

Definition execution_failed_event (i eid : UUID) (e : exn) : AuditEventCreate :=
  audit_event i (u "review.failed") system_actor
    [(u "execution_id", JStr (str_uuid eid)); (u "error_type", JStr (exn_name e))].

Definition cancelled_event (i eid : UUID) (p : Principal) : AuditEventCreate :=
  audit_event i (u "review.cancelled") (subject p) [(u "execution_id", JStr (str_uuid eid))].

Definition awaiting_event (i eid : UUID) : AuditEventCreate :=
  audit_event i (u "review.awaiting_input") system_actor [(u "execution_id", JStr (str_uuid eid))].

Definition resumed_event (i eid : UUID) (p : Principal) (d : EvidenceConfirmationDecision) : AuditEventCreate :=
  audit_event i (u "review.resumed") (subject p)
    [(u "execution_id", JStr (str_uuid eid)); (u "decision", JStr (value d))].

Definition completed_event (r : ReviewResult) : AuditEventCreate :=
  audit_event (rv_case_id r) (u "review.completed") system_actor
    [(u "review_id", JStr (str_uuid (rv_review_id r)));
     (u "decision", JStr (value (rec_decision (rv_recommendation r))));
     (u "finding_count", JInt (Z.of_nat (length (rv_findings r))))].

Definition indexed_event (i : UUID) (r : IndexResult) : AuditEventCreate :=
  audit_event i (u "documents.indexed") (u "system:retrieval")
    [(u "document_count", JInt (ix_document_count r)); (u "chunk_count", JInt (ix_chunk_count r));
     (u "embedding_backend", JStr (ix_embedding_backend r))].

Section api.
Context `{JsonText} `{DT : DatetimeText} `{IsoText} (uuid5 : UUID -> pystr -> UUID).
Context {S : Type} `{!CaseRepository S, !ActionRepository S, !ApprovalWorkflow S, !SupplierSystem S, !RetrievalService S}.
Context (graph : CompiledGraph S).

(** [except E as exc: raise HTTPException(status, detail=str(exc))] for the class [E]
    [select] recognises. *)
Definition to_http {A} (status : Z) (select : exn -> option pystr) (m : prog S A) : prog S A :=
  catch m (fun e => Throw (match select e with Some detail => HTTPException status detail | None => e end)).

Definition is_case_not_found (e : exn) : option pystr := match e with CaseNotFoundError m => Some m | _ => None end.
Definition is_not_found (e : exn) : option pystr :=
  match e with CaseNotFoundError m | ReviewNotFoundError m => Some m | _ => None end.
Definition is_execution_not_found (e : exn) : option pystr :=
  match e with ReviewExecutionNotFoundError m => Some m | _ => None end.
Definition is_execution_state (e : exn) : option pystr :=
  match e with ReviewExecutionStateError m => Some m | _ => None end.

(** [get_principal], over what the authenticator makes of the request's headers. *)
Definition get_principal (authenticated : result Principal) : result Principal :=
  match authenticated with
  | Raise (AuthenticationError m) => Raise (HTTPException HTTP_401_UNAUTHORIZED m)
  | r => r
  end.

(** [health] *)
Definition health (model_backend repository_backend : pystr) : list (pystr * pystr) :=
  [(u "status", u "ok"); (u "model_backend", model_backend); (u "repository_backend", repository_backend)].

Definition get_authorized_case (i : UUID) (p : Principal) : prog S SupplierCase :=
  c ← to_http HTTP_404_NOT_FOUND is_case_not_found (get_case i);
  _ ← raise_if (negb (bool_decide (ADMIN ∈ roles p)) && negb (bool_decide (case_tenant_id c = principal_tenant_id p)))
        (HTTPException HTTP_404_NOT_FOUND (u "Supplier case " ++ str_uuid i ++ u " was not found"));
  Ret c.

Definition require_analyst (p : Principal) : prog S unit :=
  raise_if (negb (has_role p ANALYST)) (HTTPException HTTP_403_FORBIDDEN (u "The analyst role is required")).

(** [cases.append_audit_event(AuditEventCreate(...))] *)
Definition audit (fr : Fresh) (e : AuditEventCreate) : prog S AuditEvent :=
  e ← of_result (construct valid_AuditEventCreate e); append_audit_event fr e.

Definition persist_completed_review (r : ReviewResult) (fr_status fr_audit : Fresh) : prog S bool :=
  known ← (try (_ ← get_review (rv_review_id r); Ret true)
           except (fun e => match e with ReviewNotFoundError _ => Ret false | _ => Throw e end));
  if (known : bool) then Ret false
  else
    _ ← save_review r;
    _ ← Cases.set_status fr_status (rv_case_id r) CASE_PENDING_APPROVAL;
    _ ← audit fr_audit (completed_event r);
    Ret true.

(** ** Cases *)

(** [create_case]; [i] is the identifier [uuid4] draws. *)
Definition create_case_handler (payload : SupplierCaseCreate) (p : Principal) (i : UUID) (t : datetime) (rd : Readings) :
    prog S SupplierCase :=
  c ← of_result (construct valid_SupplierCase {|
        case_id := i; case_tenant_id := principal_tenant_id p; supplier_name := scc_supplier_name payload;
        description := scc_description payload; case_status := NEW; documents := scc_documents payload;
        case_created_at := t; case_updated_at := t |});
  created ← create_case c;
  _ ← audit (fresh rd 0) (created_event created p);
  Ret created.

Definition get_case_handler (i : UUID) (p : Principal) : prog S SupplierCase := get_authorized_case i p.

(** ** Reviews *)

(** [review_case]; [eid] is the identifier [uuid4] draws for the execution. *)
Definition review_case (i : UUID) (p : Principal) (eid : UUID) (rd : Readings) : prog S ReviewResult :=
  c ← get_authorized_case i p;
  _ ← require_analyst p;
  _ ← Cases.set_status (fresh rd 0) i IN_REVIEW;
  _ ← audit (fresh rd 1) (review_started_event i p);
  r ← (try (run_review graph c eid (environment rd) (started rd))
       except (fun e =>
         _ ← Cases.set_status (fresh rd 2) i REVIEW_FAILED;
         _ ← audit (fresh rd 3) (review_failed_event i e);
         Throw e));
  _ ← persist_completed_review r (fresh rd 4) (fresh rd 5);
  Ret r.

Definition no_result : exn := RuntimeError (u "Completed review execution has no result").

(** [await persist_completed_review(execution.result, dependencies)] *)
Definition persist_result (execution : ReviewExecution) (rd : Readings) : prog S unit :=
  match ex_result execution with
  | None => Throw no_result
  | Some r => _ ← persist_completed_review r (fresh rd 4) (fresh rd 5); Ret tt
  end.

Definition cancel_case (i eid : UUID) (p : Principal) (rd : Readings) : prog S unit :=
  _ ← Cases.set_status (fresh rd 6) i NEW;
  _ ← audit (fresh rd 7) (cancelled_event i eid p);
  Ret tt.

(** The part of [start_review_execution] for an execution that does not exist. *)
Definition start_new (c : SupplierCase) (i eid : UUID) (p : Principal) (require : bool) (rd : Readings) :
    prog S ReviewExecution :=
  _ ← Cases.set_status (fresh rd 0) i IN_REVIEW;
  _ ← audit (fresh rd 1) (execution_started_event i eid p require);
  try (start graph c eid require (environment rd) (started rd))
  except (fun e =>
    _ ← Cases.set_status (fresh rd 2) i REVIEW_FAILED;
    _ ← audit (fresh rd 3) (execution_failed_event i eid e);
    Throw e).

Definition start_review_execution (i : UUID) (payload : ReviewExecutionStart) (p : Principal) (rd : Readings) :
    prog S ReviewExecution :=
  c ← get_authorized_case i p;
  _ ← require_analyst p;
  let eid := execution_id_for uuid5 (case_tenant_id c) (case_id c) (es_idempotency_key payload) in
  found ← (try (Some <$> get_execution graph c eid)
           except (fun e => match e with ReviewExecutionNotFoundError _ => Ret None | _ => Throw e end));
  execution_created ← (match (found : option ReviewExecution) with
                       | Some execution => Ret (execution, false)
                       | None => execution ← start_new c i eid p (es_require_evidence_confirmation payload) rd;
                                 Ret (execution, true)
                       end);
  let '(execution, created) := (execution_created : ReviewExecution * bool) in
  _ ← (match ex_status execution with
       | COMPLETED => persist_result execution rd
       | CANCELLED => if bool_decide (case_status c = IN_REVIEW) then cancel_case i eid p rd else Ret tt
       | AWAITING_INPUT =>
           if created then _ ← audit (fresh rd 8) (awaiting_event i eid); Ret tt else Ret tt
       | RUNNING => Ret tt
       end);
  Ret execution.

Definition get_review_execution (i eid : UUID) (p : Principal) : prog S ReviewExecution :=
  c ← get_authorized_case i p;
  to_http HTTP_404_NOT_FOUND is_execution_not_found (get_execution graph c eid).

Definition resume_review_execution (i eid : UUID) (payload : EvidenceConfirmation) (p : Principal) (rd : Readings) :
    prog S ReviewExecution :=
  c ← get_authorized_case i p;
  _ ← require_analyst p;
  both ← to_http HTTP_409_CONFLICT is_execution_state (to_http HTTP_404_NOT_FOUND is_execution_not_found (
           current ← get_execution graph c eid;
           execution ← resume graph c eid payload (environment rd);
           Ret (current, execution)));
  let '(current, execution) := (both : ReviewExecution * ReviewExecution) in
  let was_waiting := bool_decide (ex_status current = AWAITING_INPUT) in
  _ ← (if was_waiting then _ ← audit (fresh rd 1) (resumed_event i eid p (ec_decision payload)); Ret tt else Ret tt);
  _ ← (match ex_status execution with
       | COMPLETED => persist_result execution rd
       | CANCELLED => if was_waiting || bool_decide (case_status c = IN_REVIEW) then cancel_case i eid p rd else Ret tt
       | _ => Ret tt
       end);
  Ret execution.

Definition get_latest_review_handler (i : UUID) (p : Principal) : prog S ReviewResult :=
  _ ← get_authorized_case i p;
  to_http HTTP_404_NOT_FOUND is_not_found (get_latest_review i).

Definition list_audit_events_handler (i : UUID) (p : Principal) : prog S (list AuditEvent) :=
  _ ← get_authorized_case i p;
  list_audit_events i.

(** ** Retrieval *)

Definition index_case_documents (i : UUID) (p : Principal) (rd : Readings) : prog S IndexResult :=
  c ← get_authorized_case i p;
  _ ← require_analyst p;
  r ← index_case c;
  _ ← audit (fresh rd 0) (indexed_event i r);
  Ret r.

Definition search_case_evidence (i : UUID) (query : pystr) (p : Principal) (retrieval_limit : Z) :
    prog S (list RetrievedChunk) :=
  _ ← get_authorized_case i p;
  search i query retrieval_limit.

(** ** Governance *)

Definition propose_case_action (i : UUID) (payload : ActionProposalRequest) (p : Principal) (t : datetime) (rd : Readings) :
    prog S GovernedAction :=
  c ← get_authorized_case i p;
  try (review ← get_latest_review i; propose uuid5 c review payload p t (fresh rd 0))
  except (fun e => Throw match e with
    | ReviewNotFoundError m | IdempotencyConflictError m => HTTPException HTTP_409_CONFLICT m
    | AuthorizationDeniedError m => HTTPException HTTP_403_FORBIDDEN m
    | _ => e
    end).

Definition get_action_handler (i : UUID) (p : Principal) : prog S GovernedAction :=
  try (Governance.get i p)
  except (fun e => Throw match e with
    | ActionNotFoundError _ | AuthorizationDeniedError _ =>
        HTTPException HTTP_404_NOT_FOUND (u "Governed action " ++ str_uuid i ++ u " was not found")
    | _ => e
    end).

Definition decide_action (i : UUID) (payload : ApprovalRequest) (p : Principal) (t : datetime) (rd : Readings) :
    prog S GovernedAction :=
  try (decide i payload p t (fresh rd 0))
  except (fun e => Throw match e with
    | ActionNotFoundError m => HTTPException HTTP_404_NOT_FOUND m
    | AuthorizationDeniedError m => HTTPException HTTP_403_FORBIDDEN m
    | ActionStateError m => HTTPException HTTP_409_CONFLICT m
    | _ => e
    end).
End api.
