(* ===== verification/Http.v ===== *)
(** * Requests and responses

    The application of [create_app] in [apps/api/main.py]: its routes as one type of requests,
    each served by its handler of [Api] for the principal its headers authenticate, with the
    status of its decorator.  Matching the path, reading the parameters and the body and
    writing the response are FastAPI's: an [endpoint] carries what the handler receives, with
    the identifiers and the time it draws, and a raised [HTTPException] carries its status. *)
From S2P Require Import Prelude PyStr Uuid Effects Json Schemas Ledger Cases Governance ModelGateway ReviewGraph Retrieval Identity Api.
Import SupplierReviewWorkflow.
Local Open Scope py_scope.

(** The routes that need a principal, in the order of the source; [health] is in [Api]. *)
Inductive endpoint :=
  | CreateCase (payload : SupplierCaseCreate) (i : UUID) (t : datetime)
  | GetCase (i : UUID)
  | ReviewCase (i eid : UUID)
  | StartReviewExecution (i : UUID) (payload : ReviewExecutionStart)
  | GetReviewExecution (i eid : UUID)
  | ResumeReviewExecution (i eid : UUID) (payload : EvidenceConfirmation)
  | GetLatestReview (i : UUID)
  | ListAuditEvents (i : UUID)
  | IndexCaseDocuments (i : UUID)
  | SearchCaseEvidence (i : UUID) (query : pystr)
  | ProposeCaseAction (i : UUID) (payload : ActionProposalRequest) (t : datetime)
  | GetAction (i : UUID)
  | DecideAction (i : UUID) (payload : ApprovalRequest) (t : datetime).

(** The models the routes return. *)
Inductive body :=
  | CaseBody (c : SupplierCase)
  | ReviewBody (r : ReviewResult)
  | ExecutionBody (e : ReviewExecution)
  | EventsBody (es : list AuditEvent)
  | IndexBody (r : IndexResult)
  | ChunksBody (l : list RetrievedChunk)
  | ActionBody (a : GovernedAction).

Record request := { rq_headers : headers; rq_endpoint : endpoint; rq_readings : Readings }.

Definition HTTP_200_OK : Z := 200.
Definition HTTP_201_CREATED : Z := 201.

(** [status_code] of the decorators; a route that names none answers 200. *)
Definition success_status (e : endpoint) : Z :=
  match e with
  | CreateCase _ _ _ | StartReviewExecution _ _ | ProposeCaseAction _ _ _ => HTTP_201_CREATED
  | _ => HTTP_200_OK
  end.

Section application.
Context `{JsonText} `{DatetimeText} `{IsoText} (uuid5 : UUID -> pystr -> UUID).
Context {S : Type} `{!CaseRepository S, !ActionRepository S, !ApprovalWorkflow S, !SupplierSystem S, !RetrievalService S}.
Context (graph : CompiledGraph S) (authenticator : Authenticator) (retrieval_limit : Z).

(** The handler of each route. *)
Definition dispatch (e : endpoint) (p : Principal) (rd : Readings) : prog S body :=
  match e with
  | CreateCase payload i t => CaseBody <$> create_case_handler payload p i t rd
  | GetCase i => CaseBody <$> get_case_handler i p
  | ReviewCase i eid => ReviewBody <$> review_case graph i p eid rd
  | StartReviewExecution i payload => ExecutionBody <$> start_review_execution uuid5 graph i payload p rd
  | GetReviewExecution i eid => ExecutionBody <$> get_review_execution graph i eid p
  | ResumeReviewExecution i eid payload => ExecutionBody <$> resume_review_execution graph i eid payload p rd
  | GetLatestReview i => ReviewBody <$> get_latest_review_handler i p
  | ListAuditEvents i => EventsBody <$> list_audit_events_handler i p
  | IndexCaseDocuments i => IndexBody <$> index_case_documents i p rd
  | SearchCaseEvidence i query => ChunksBody <$> search_case_evidence i query p retrieval_limit
  | ProposeCaseAction i payload t => ActionBody <$> propose_case_action uuid5 i payload p t rd
  | GetAction i => ActionBody <$> get_action_handler i p
  | DecideAction i payload t => ActionBody <$> decide_action i payload p t rd
  end.

(** [Depends(get_principal)] comes before the handler. *)
Definition serve (rq : request) : prog S (Z * body) :=
  p ← of_result (get_principal (@authenticate authenticator (rq_headers rq)));
  b ← dispatch (rq_endpoint rq) p (rq_readings rq);
  Ret (success_status (rq_endpoint rq), b).
End application.
