(* ===== verification/ApiProofs.v ===== *)
(** * What the review endpoints do to a case

    The portfolio of cases, reviews and audit trails a request changes, the laws a
    container keeps, and the effect of each repository call and of each handler of
    [Api] on the portfolio. *)
From S2P Require Import Prelude PyStr Uuid Effects Json Schemas SchemaJson Ledger Cases Governance ModelGateway.
From S2P Require Import ReviewGraph ReviewMachine Retrieval Api.
Import SupplierReviewWorkflow.
Local Open Scope py_scope.

Module Mem := InMemoryCaseRepository.

(** ** Portfolios *)

(** The state of the repository but for the times and identifiers of updates. *)
Record Portfolio := {
  pf_cases : gmap UUID SupplierCase;
  pf_reviews : gmap UUID (list ReviewResult);
  pf_by_id : gmap UUID ReviewResult;
  pf_trail : gmap UUID (list AuditEventCreate);
}.

Definition undated (c : SupplierCase) : SupplierCase := with_status c (case_status c) 0%Z.

Definition portfolio (v : Mem.t) : Portfolio := {|
  pf_cases := undated <$> Mem.cases v; pf_reviews := Mem.reviews v; pf_by_id := Mem.reviews_by_id v;
  pf_trail := (fun es : list AuditEvent => event_create <$> es) <$> Mem.events v |}.

Definition put_status (i : UUID) (st : CaseStatus) (P : Portfolio) : Portfolio := {|
  pf_cases := alter (fun c => with_status c st 0%Z) i (pf_cases P); pf_reviews := pf_reviews P; pf_by_id := pf_by_id P;
  pf_trail := pf_trail P |}.

Definition record_event (e : AuditEventCreate) (P : Portfolio) : Portfolio := {|
  pf_cases := pf_cases P; pf_reviews := pf_reviews P; pf_by_id := pf_by_id P;
  pf_trail := Mem.push (ae_case_id e) e (pf_trail P) |}.

Definition file_review (r : ReviewResult) (P : Portfolio) : Portfolio := {|
  pf_cases := pf_cases P; pf_reviews := Mem.push (rv_case_id r) r (pf_reviews P);
  pf_by_id := <[rv_review_id r := r]> (pf_by_id P); pf_trail := pf_trail P |}.

(** A review result reaching the repository: filed once. *)
Definition filed (r : ReviewResult) (P : Portfolio) : Portfolio :=
  if is_some (pf_by_id P !! rv_review_id r) then P
  else record_event (completed_event r) (put_status (rv_case_id r) CASE_PENDING_APPROVAL (file_review r P)).

(** A case the repository knows. *)
Definition known (i : UUID) (P : Portfolio) : Prop := is_Some (pf_cases P !! i).

Lemma known_put_status i j st P : known i P -> known i (put_status j st P).
Proof.
  unfold known. cbn [pf_cases put_status]. destruct (base.decide (i = j)) as [->|Hne].
  - intros [c Hc]. rewrite lookup_alter_eq, Hc. by eexists.
  - by rewrite lookup_alter_ne.
Qed.

Lemma known_case v i c : Mem.cases v !! i = Some c -> known i (portfolio v).
Proof. intros Hc. unfold known. cbn [pf_cases portfolio]. rewrite lookup_fmap, Hc. by eexists. Qed.

Lemma case_known v i : known i (portfolio v) -> exists c, Mem.cases v !! i = Some c.
Proof.
  unfold known. cbn [pf_cases portfolio]. rewrite lookup_fmap. destruct (Mem.cases v !! i) as [c|]; [by eexists|by intros []].
Qed.

Lemma fmap_push {V W} (f : V -> W) k v (m : gmap UUID (list V)) :
  (fun l : list V => f <$> l) <$> Mem.push k v m = Mem.push k (f v) ((fun l : list V => f <$> l) <$> m).
Proof.
  unfold Mem.push. rewrite fmap_insert, lookup_fmap. f_equal. rewrite fmap_app. f_equal. by destruct (m !! k).
Qed.

(** ** Repository calls *)

Lemma mem_set_status fr i st v : known i (portfolio v) ->
  exists c v', run (Mem.set_status fr i st) v = (Ok c, v') /\ portfolio v' = put_status i st (portfolio v).
Proof.
  intros [c Hc]%case_known. unfold Mem.set_status. rewrite run_atomic, Hc. eexists _, _. split; [done|].
  unfold portfolio, put_status. cbn. f_equal. rewrite fmap_insert. apply map_eq. intros j.
  destruct (base.decide (j = i)) as [->|Hne].
  - by rewrite lookup_insert_eq, lookup_alter_eq, lookup_fmap, Hc.
  - by rewrite lookup_insert_ne, lookup_alter_ne.
Qed.

Lemma mem_append fr e v : known (ae_case_id e) (portfolio v) ->
  exists ev v', run (Mem.append_audit_event fr e) v = (Ok ev, v') /\ portfolio v' = record_event e (portfolio v).
Proof.
  intros [c Hc]%case_known. unfold Mem.append_audit_event, Mem.get. rewrite run_bind, run_reads, Hc. cbn [of_option].
  rewrite run_atomic. eexists _, _. split; [done|].
  unfold portfolio, record_event. cbn. f_equal. by rewrite fmap_push.
Qed.

Lemma mem_save r v : Mem.reviews_by_id v !! rv_review_id r = None ->
  exists r' v', run (Mem.save_review r) v = (Ok r', v') /\ portfolio v' = file_review r (portfolio v).
Proof. intros Hr. unfold Mem.save_review. rewrite run_atomic, Hr. eexists _, _. by split. Qed.

(** ** Containers *)

Section container.
Context `{JT : JsonText} `{DT : DatetimeText} `{IT : IsoText} (uuid5 : UUID -> pystr -> UUID).
Context (finding_batch_schema recommendation_schema : json).
Context {S : Type} `{!CaseRepository S, !ActionRepository S, !ApprovalWorkflow S, !SupplierSystem S, !RetrievalService S}.
Context (run_graph : CompiledGraph S) (view : S -> Mem.t) (checkpoints : S -> gmap pystr Checkpoint).

Abbreviation graph_of := (build_graph uuid5 finding_batch_schema recommendation_schema).

(** A query answers what the in-memory repository does and changes nothing. *)
Definition queries {A} (m : prog S A) (m' : prog Mem.t A) : Prop := forall s, run m s = ((run m' (view s)).1, s).

(** An update does what the in-memory repository does and leaves the checkpoints. *)
Definition updates {A} (m : prog S A) (m' : prog Mem.t A) : Prop := forall s, exists s',
  run m s = ((run m' (view s)).1, s') /\ view s' = (run m' (view s)).2 /\ checkpoints s' = checkpoints s.

(** A container whose requests are served one at a time. *)
Record container_laws : Prop := {
  cl_runtime : runtime_laws graph_of run_graph checkpoints;
  cl_graph env input thread s : view (run (ainvoke run_graph env input thread) s).2 = view s;
  cl_get i : queries (get_case i) (Mem.get i);
  cl_get_review i : queries (get_review i) (Mem.get_review i);
  cl_get_latest_review i : queries (get_latest_review i) (Mem.get_latest_review i);
  cl_list_audit_events i : queries (list_audit_events i) (Mem.list_audit_events i);
  cl_create c : updates (create_case c) (Mem.create c);
  cl_set_status fr i st : updates (Cases.set_status fr i st) (Mem.set_status fr i st);
  cl_save_review r : updates (save_review r) (Mem.save_review r);
  cl_append_audit_event fr e : updates (append_audit_event fr e) (Mem.append_audit_event fr e);
}.

Context (Hlaws : container_laws).

Abbreviation pf := (fun s => portfolio (view s)).

(** [m] succeeds from [s] and changes the portfolio to [P], the checkpoints not at all. *)
Definition succeeds {A} (m : prog S A) (s : S) (P : Portfolio) : Prop :=
  exists a s', run m s = (Ok a, s') /\ pf s' = P /\ checkpoints s' = checkpoints s.

Lemma updates_succeed {A} (m : prog S A) (m' : prog Mem.t A) s P :
  updates m m' -> (exists a v', run m' (view s) = (Ok a, v') /\ portfolio v' = P) -> succeeds m s P.
Proof.
  intros Hm (a & v' & Hrun & HP). destruct (Hm s) as (s' & Hs & Hv & Hc). rewrite Hrun in Hs, Hv.
  exists a, s'. split; [done|]. by rewrite Hv.
Qed.

Lemma set_status_succeeds fr i st s : known i (pf s) -> succeeds (Cases.set_status fr i st) s (put_status i st (pf s)).
Proof. intros Hk. eapply updates_succeed; [apply (cl_set_status Hlaws)|by apply mem_set_status]. Qed.

Lemma audit_succeeds fr e s :
  known (ae_case_id e) (pf s) -> valid_AuditEventCreate e = true -> succeeds (audit fr e) s (record_event e (pf s)).
Proof.
  intros Hk Hv. destruct (updates_succeed _ _ _ _ (cl_append_audit_event Hlaws fr e) (mem_append fr e _ Hk)) as (a & s' & Hrun & HP).
  exists a, s'. split; [|done]. unfold audit. by rewrite construct_valid.
Qed.

(** Sequencing successes. *)
Lemma succeeds_then {A B} (m : prog S A) (k : A -> prog S B) s P Q :
  succeeds m s P -> (forall a s', pf s' = P -> succeeds (k a) s' Q) -> succeeds (m ≫= k) s Q.
Proof.
  intros (a & s' & Hrun & HP & Hc) Hk. destruct (Hk a s' HP) as (b & s'' & Hrun' & HQ & Hc').
  exists b, s''. rewrite run_bind, Hrun. split; [done|]. split; [done|]. by rewrite Hc'.
Qed.

Lemma succeeds_ret {A} (a : A) s : succeeds (Ret a) s (pf s).
Proof. by exists a, s. Qed.

Lemma system_event_valid i ty payload :
  len_between 1 128 (length (u ty)) = true -> valid_AuditEventCreate (audit_event i (u ty) system_actor payload) = true.
Proof. intros Ht. unfold valid_AuditEventCreate. cbn [ae_event_type ae_actor_id audit_event]. by rewrite Ht. Qed.

Lemma principal_event_valid i ty p payload :
  valid_Principal p = true -> len_between 1 128 (length (u ty)) = true ->
  valid_AuditEventCreate (audit_event i (u ty) (subject p) payload) = true.
Proof.
  intros Hp Ht. unfold valid_AuditEventCreate. cbn [ae_event_type ae_actor_id audit_event]. rewrite Ht.
  unfold valid_Principal in Hp. by apply andb_prop in Hp as [-> _].
Qed.

(** A query in front of a success. *)
Lemma succeeds_query {A B} (m : prog S A) (k : A -> prog S B) s a Q :
  run m s = (Ok a, s) -> succeeds (k a) s Q -> succeeds (m ≫= k) s Q.
Proof. intros Hm (b & s' & Hrun & HQ). exists b, s'. by rewrite run_bind, Hm. Qed.

Lemma run_known r s :
  run (try (_ ← get_review (rv_review_id r); Ret true)
       except (fun e => match e with ReviewNotFoundError _ => Ret false | _ => Throw e end)) s
  = (Ok (is_some (pf_by_id (pf s) !! rv_review_id r)), s).
Proof.
  rewrite run_catch, run_bind, (cl_get_review Hlaws). unfold Mem.get_review. rewrite run_reads. cbn [fst pf_by_id portfolio].
  by destruct (Mem.reviews_by_id (view s) !! rv_review_id r).
Qed.

Lemma persist_succeeds r fr1 fr2 s :
  known (rv_case_id r) (pf s) -> succeeds (persist_completed_review r fr1 fr2) s (filed r (pf s)).
Proof.
  intros Hk. unfold persist_completed_review, filed. eapply succeeds_query; [apply run_known|].
  destruct (pf_by_id (pf s) !! rv_review_id r) as [r'|] eqn:E; cbn [is_some]; [apply succeeds_ret|].
  eapply succeeds_then; [eapply updates_succeed; [apply (cl_save_review Hlaws)|by apply mem_save]|]. intros _ s1 H1.
  eapply succeeds_then; [apply set_status_succeeds; by rewrite H1|]. intros _ s2 H2. rewrite H1 in H2.
  eapply succeeds_then; [apply audit_succeeds; [|by apply system_event_valid]|].
  { rewrite H2. by apply known_put_status. }
  intros _ s3 H3. rewrite H2 in H3. rewrite <- H3. apply succeeds_ret.
Qed.

(** ** Who sees a case *)

Definition visible (p : Principal) (c : SupplierCase) : bool :=
  bool_decide (ADMIN ∈ roles p) || bool_decide (case_tenant_id c = principal_tenant_id p).

Definition not_found (i : UUID) : exn :=
  HTTPException HTTP_404_NOT_FOUND (u "Supplier case " ++ str_uuid i ++ u " was not found").

(** The case a principal is shown. *)
Definition shown_case (p : Principal) (i : UUID) (s : S) : result SupplierCase :=
  match Mem.cases (view s) !! i with
  | Some c => if visible p c then Ok c else Raise (not_found i)
  | None => Raise (not_found i)
  end.

Lemma run_authorized i p s : run (get_authorized_case i p) s = (shown_case p i s, s).
Proof.
  unfold get_authorized_case, to_http, shown_case, visible. rewrite run_bind, run_catch, (cl_get Hlaws).
  unfold Mem.get. rewrite run_reads. cbn [fst]. destruct (Mem.cases (view s) !! i) as [c|]; [|done].
  cbn [of_option]. rewrite run_bind, run_raise_if.
  by destruct (bool_decide (ADMIN ∈ roles p)), (bool_decide (case_tenant_id c = principal_tenant_id p)).
Qed.

(** ** The workflow leaves the repository alone *)

Definition keeps_view {A} (m : prog S A) : Prop := forall s, view (run m s).2 = view s.

Lemma keeps_bind {A B} (m : prog S A) (k : A -> prog S B) :
  keeps_view m -> (forall a, keeps_view (k a)) -> keeps_view (m ≫= k).
Proof.
  intros Hm Hk s. rewrite run_bind. specialize (Hm s). destruct (run m s) as [[a|e] s']; [|done]. by rewrite Hk.
Qed.

Lemma keeps_of_result {A} (r : result A) : keeps_view (of_result r).
Proof. intros s. by rewrite run_of_result. Qed.

Lemma keeps_get thread : keeps_view (aget_state run_graph thread).
Proof. intros s. by rewrite (rl_get _ _ _ (cl_runtime Hlaws)). Qed.

Lemma keeps_snapshot eid : keeps_view (snapshot_of run_graph eid).
Proof. apply keeps_bind; [apply keeps_get|]. intros [cp|]; [apply keeps_of_result|done]. Qed.

Lemma keeps_invoke env input thread : keeps_view (ainvoke run_graph env input thread).
Proof. intros s. apply (cl_graph Hlaws). Qed.

Lemma keeps_start c eid require env t : keeps_view (start run_graph c eid require env t).
Proof.
  apply keeps_bind; [apply keeps_get|]. intros [cp|].
  - apply keeps_bind; [apply keeps_of_result|]. intros _. apply keeps_of_result.
  - apply keeps_bind; [apply keeps_invoke|]. intros _. apply keeps_snapshot.
Qed.

Lemma keeps_resume c eid conf env : keeps_view (resume run_graph c eid conf env).
Proof.
  apply keeps_bind.
  - apply keeps_bind; [apply keeps_get|]. intros [cp|]; [|done]. apply keeps_bind; [apply keeps_of_result|].
    intros _. apply keeps_of_result.
  - intros ex. destruct (ex_status ex); try done. apply keeps_bind; [apply keeps_invoke|]. intros _. apply keeps_snapshot.
Qed.

(** ** The review endpoints *)

Section review.
Context (eid : UUID) (c0 : SupplierCase) (Hvalid : valid_SupplierCase c0 = true).
Context (pr : Principal) (Hpr : valid_Principal pr = true) (Hanalyst : has_role pr ANALYST = true).

Abbreviation i := (case_id c0).
Abbreviation tracked := (tracks eid c0 checkpoints).

(** A call about the execution, made through the API. *)
Inductive review_call :=
  | StartCall (payload : ReviewExecutionStart)
  | GetCall
  | ResumeCall (payload : EvidenceConfirmation).

Definition handle (call : review_call) (rd : Readings) : prog S ReviewExecution :=
  match call with
  | StartCall payload => start_review_execution uuid5 run_graph i payload pr rd
  | GetCall => get_review_execution run_graph i eid pr
  | ResumeCall payload => resume_review_execution run_graph i eid payload pr rd
  end.

(** What the call asks of the workflow. *)
Definition event_of (call : review_call) (rd : Readings) : event :=
  match call with
  | StartCall payload => EvStart (es_require_evidence_confirmation payload) (environment rd) (started rd)
  | GetCall => EvGet
  | ResumeCall payload => EvResume payload (environment rd)
  end.

(** What an answered execution does to the case; [cancel] says whether a cancelled one
    gives the case back. *)
Definition settled_effect (cancel : bool) (ex : ReviewExecution) (P : Portfolio) : Portfolio :=
  match ex_status ex with
  | COMPLETED => match ex_result ex with Some r => filed r P | None => P end
  | CANCELLED => if cancel then record_event (cancelled_event i eid pr) (put_status i NEW P) else P
  | _ => P
  end.

Definition is_waiting (p : option phase) : bool := match p with Some (Waiting _ _ _) => true | _ => false end.

(** What the call does to the portfolio: [c] is the case as it was found, [p] the phase the
    execution was in and [r] what the workflow answered. *)
Definition effect (call : review_call) (c : SupplierCase) (p : option phase) (r : result ReviewExecution)
    (P : Portfolio) : Portfolio :=
  let in_review := bool_decide (case_status c = IN_REVIEW) in
  match call, r with
  | GetCall, _ => P
  | StartCall payload, r =>
      let P := if is_some p then P
               else record_event (execution_started_event i eid pr (es_require_evidence_confirmation payload))
                      (put_status i IN_REVIEW P) in
      match r with
      | Raise e => record_event (execution_failed_event i eid e) (put_status i REVIEW_FAILED P)
      | Ok ex =>
          settled_effect in_review ex
            (if negb (is_some p) && bool_decide (ex_status ex = AWAITING_INPUT) then record_event (awaiting_event i eid) P else P)
      end
  | ResumeCall payload, Raise _ => P
  | ResumeCall payload, Ok ex =>
      settled_effect (is_waiting p || in_review) ex
        (if is_waiting p then record_event (resumed_event i eid pr (ec_decision payload)) P else P)
  end.

(** What the client is told. *)
Definition response (call : review_call) (r : result ReviewExecution) : result ReviewExecution :=
  match call, r with
  | (GetCall | ResumeCall _), Raise (ReviewExecutionNotFoundError m) => Raise (HTTPException HTTP_404_NOT_FOUND m)
  | ResumeCall _, Raise (ReviewExecutionStateError m) => Raise (HTTPException HTTP_409_CONFLICT m)
  | _, _ => r
  end.

(** A case of the execution, as the repository holds it now. *)
Definition same_case (c : SupplierCase) : Prop := case_tenant_id c = case_tenant_id c0 /\ case_id c = case_id c0.

Lemma run_get_execution s p c : tracked s p -> same_case c ->
  run (get_execution run_graph c eid) s
  = (match p with None => Raise (execution_not_found eid) | Some q => Ok (shown eid c0 q) end, s).
Proof.
  intros Ht%tracks_inv [Htc Hcc]. unfold get_execution. rewrite run_bind, (rl_get _ _ _ (cl_runtime Hlaws)).
  destruct p as [q|]; [|by rewrite Ht]. destruct Ht as (cp & -> & Hcp).
  rewrite run_bind, run_of_result, (scope_ok _ _ _ _ _ Hcp) by done. rewrite run_of_result. by destruct Hcp as (_ & -> & _).
Qed.

Lemma tracked_same s s' p : tracked s p -> checkpoints s' = checkpoints s -> tracked s' p.
Proof. unfold tracks. by intros Ht ->. Qed.

(** The result of a completed execution is one of its case. *)
Lemma finished_case s r : tracked s (Some (Finished r)) -> rv_case_id r = i /\ rv_review_id r = eid.
Proof.
  intros (cp & _ & (Ht & Hc & He) & Hex & _)%tracks_inv. unfold execution_from_snapshot in Hex.
  apply bind_Ok in Hex as (req & _ & Hex). apply bind_Ok in Hex as ([st res] & Hst & Hex).
  apply bind_Ok in Hex as (e' & _ & Hex). apply bind_Ok in Hex as (i' & _ & Hex).
  injection Hex as _ _ -> _ ->. set (st := cp_values cp) in *.
  destruct (gs_cancelled st); [done|]. destruct (is_some (gs_recommendation st)); [|by destruct (is_some req)].
  apply bind_Ok in Hst as (r' & Hr & [= ->]). unfold result_from_state in Hr.
  destruct (gs_recommendation st), (gs_completed_at st); try done. rewrite Hc, He, !uuid_of_str in Hr. cbn [mbind result_bind] in Hr.
  by do 4 (apply bind_Ok in Hr as (? & _ & Hr)); injection Hr as <-.
Qed.

(** What every answer is followed by; [m] is what a waiting one is. *)
Lemma settle_succeeds q cancel rd (m : prog S unit) s P :
  tracked s (Some q) -> known i (pf s) -> succeeds m s P ->
  succeeds (match ex_status (shown eid c0 q) with
            | COMPLETED => persist_result (shown eid c0 q) rd
            | CANCELLED => if cancel : bool then cancel_case i eid pr rd else Ret tt
            | AWAITING_INPUT => m
            | RUNNING => Ret tt
            end) s
    (match ex_status (shown eid c0 q) with
     | AWAITING_INPUT => P
     | _ => settled_effect cancel (shown eid c0 q) (pf s)
     end).
Proof.
  intros Ht Hk Hm. unfold settled_effect. destruct q as [|fs b t|r|]; cbn [ex_status shown].
  - apply succeeds_ret.
  - exact Hm.
  - unfold persist_result. cbn [ex_result shown]. apply finished_case in Ht as [Hr _].
    eapply succeeds_then; [apply persist_succeeds; by rewrite Hr|]. intros _ s' <-. apply succeeds_ret.
  - destruct cancel; [|apply succeeds_ret]. unfold cancel_case.
    eapply succeeds_then; [by apply set_status_succeeds|]. intros _ s1 H1.
    eapply succeeds_then; [apply audit_succeeds; [rewrite H1; by apply known_put_status|by apply principal_event_valid]|].
    intros _ s2 H2. rewrite H1 in H2. rewrite <- H2. apply succeeds_ret.
Qed.

Abbreviation step := (exec_step uuid5 finding_batch_schema recommendation_schema eid c0).

Definition did (call : review_call) (rd : Readings) (c : SupplierCase) (p : option phase) (s : S)
    (out : result ReviewExecution * S) : Prop :=
  exists r p', step p (event_of call rd) r p' /\ out.1 = response call r /\ tracked out.2 p' /\
    pf out.2 = effect call c p r (pf s) /\
    forall thread, thread <> thread_of eid -> checkpoints out.2 !! thread = checkpoints s !! thread.

(** Calls that find the case: it is one of the execution, and an execution is started with
    the case it is about. *)
Definition finds (call : review_call) (c : SupplierCase) (p : option phase) (s : S) : Prop :=
  shown_case pr i s = Ok c /\ same_case c /\
  match call with
  | StartCall payload =>
      (p = None -> c = c0) /\ eid = execution_id_for uuid5 (case_tenant_id c0) i (es_idempotency_key payload)
  | GetCall => True
  | ResumeCall payload => valid_EvidenceConfirmation payload = true
  end.

Lemma found_known c s : shown_case pr i s = Ok c -> known i (pf s).
Proof. unfold shown_case. destruct (Mem.cases (view s) !! i) eqn:E; [|done]. intros _. by eapply known_case. Qed.

Lemma answered_inv s ev p out :
  answered uuid5 finding_batch_schema recommendation_schema eid c0 checkpoints s ev p out ->
  exists r s' p', out = (r, s') /\ step p ev r p' /\ tracked s' p' /\
    (forall thread, thread <> thread_of eid -> checkpoints s' !! thread = checkpoints s !! thread).
Proof. destruct out as [r s']. intros (p' & Hs & Ht & Ho). by exists r, s', p'. Qed.

Lemma step_ok p ev ex p' : step p ev (Ok ex) p' -> exists q, p' = Some q /\ ex = shown eid c0 q.
Proof. inversion 1; subst; eauto. Qed.

Lemma succeeded {A} (m : prog S A) s P : succeeds m s P ->
  exists a s', run m s = (Ok a, s') /\ pf s' = P /\ checkpoints s' = checkpoints s.
Proof. done. Qed.

(** Starting an execution that does not exist, up to what its answer is followed by. *)
Lemma start_new_runs payload rd s :
  tracked s None -> known i (pf s) ->
  exists r s' q, run (start_new run_graph c0 i eid pr (es_require_evidence_confirmation payload) rd) s = (r, s') /\
    step None (event_of (StartCall payload) rd) r (Some q) /\ (forall ex, r = Ok ex -> ex = shown eid c0 q) /\
    tracked s' (Some q) /\
    pf s' = (let P := record_event (execution_started_event i eid pr (es_require_evidence_confirmation payload))
                        (put_status i IN_REVIEW (pf s)) in
             match r with
             | Ok _ => P
             | Raise e => record_event (execution_failed_event i eid e) (put_status i REVIEW_FAILED P)
             end) /\
    (forall thread, thread <> thread_of eid -> checkpoints s' !! thread = checkpoints s !! thread).
Proof.
  intros Ht Hk. unfold start_new.
  destruct (set_status_succeeds (fresh rd 0) i IN_REVIEW s Hk) as (a1 & s1 & Hr1 & Hp1 & Hc1).
  assert (known i (pf s1)) as Hk1 by (rewrite Hp1; by apply known_put_status).
  destruct (audit_succeeds (fresh rd 1) (execution_started_event i eid pr (es_require_evidence_confirmation payload)) s1 Hk1)
    as (a2 & s2 & Hr2 & Hp2 & Hc2); [by apply system_event_valid|].
  rewrite run_bind, Hr1, run_bind, Hr2, run_catch. rewrite Hp1 in Hp2.
  assert (tracked s2 None) as Ht2 by (eapply tracked_same; [exact Ht|congruence]).
  pose proof (start_answered uuid5 _ _ eid c0 Hvalid run_graph checkpoints (cl_runtime Hlaws) s2 None c0
    (es_require_evidence_confirmation payload) (environment rd) (started rd) Ht2) as Hst.
  apply answered_inv in Hst as (r & s3 & p' & Hrun & Hstep & Ht3 & Ho); [|by split_and!].
  pose proof (keeps_start c0 eid (es_require_evidence_confirmation payload) (environment rd) (started rd) s2) as Hv.
  rewrite Hrun in Hv |- *. cbn [snd] in Hv.
  assert (exists q, p' = Some q) as [q ->] by (inversion Hstep; eauto).
  assert (pf s3 = pf s2) as Hp3 by (by rewrite Hv). destruct r as [ex|e].
  - exists (Ok ex), s3, q. split_and!; [done|done| |done|by rewrite Hp3, Hp2|].
    + intros ex' [= <-]. apply step_ok in Hstep as (q' & [= <-] & ->). done.
    + intros th Hth. rewrite Ho by done. by rewrite Hc2, Hc1.
  - assert (known i (pf s3)) as Hk3 by (by rewrite Hp3, Hp2; apply known_put_status).
    destruct (set_status_succeeds (fresh rd 2) i REVIEW_FAILED s3 Hk3) as (a4 & s4 & Hr4 & Hp4 & Hc4).
    destruct (audit_succeeds (fresh rd 3) (execution_failed_event i eid e) s4) as (a5 & s5 & Hr5 & Hp5 & Hc5);
      [rewrite Hp4; by apply known_put_status|by apply system_event_valid|].
    rewrite run_bind, Hr4, run_bind, Hr5. exists (Raise e), s5, q. split_and!; [done|done|done| | |].
    + eapply tracked_same; [exact Ht3|congruence].
    + by rewrite Hp5, Hp4, Hp3, Hp2.
    + intros th Hth. rewrite Hc5, Hc4, Ho by done. by rewrite Hc2, Hc1.
Qed.

Lemma start_call payload rd c p s :
  tracked s p -> finds (StartCall payload) c p s ->
  did (StartCall payload) rd c p s (run (handle (StartCall payload) rd) s).
Proof.
  intros Ht (Hc & [Htc Hcc] & Hnew & Heid). pose proof (found_known _ _ Hc) as Hk. unfold handle, start_review_execution.
  rewrite run_bind, run_authorized, Hc, run_bind. unfold require_analyst. rewrite run_raise_if, Hanalyst. cbn [negb].
  rewrite Htc, Hcc, <- Heid, run_bind, run_catch.
  change (Some <$> get_execution run_graph c eid) with (get_execution run_graph c eid ≫= fun a => Ret (Some a)).
  rewrite run_bind, (run_get_execution _ _ _ Ht) by done. destruct p as [q|].
  - cbn [run]. rewrite run_bind. cbn [run]. rewrite run_bind.
    destruct (settle_succeeds q (bool_decide (case_status c = IN_REVIEW)) rd (Ret tt) s (pf s) Ht Hk (succeeds_ret _ _))
      as (a & s' & Hrun & HP & Hcp).
    rewrite Hrun. cbn [run]. exists (Ok (shown eid c0 q)), (Some q). split_and!; [constructor|done|by eapply tracked_same| |].
    + cbn [snd]. rewrite HP. cbn [effect is_some negb andb]. unfold settled_effect. by destruct q.
    + intros th _. cbn [snd]. by rewrite Hcp.
  - unfold execution_not_found. cbn [run]. rewrite run_bind, run_bind. destruct (start_new_runs payload rd s Ht Hk) as (r & s1 & q & Hrun & Hstep & Hex & Ht1 & Hp1 & Ho).
    rewrite (Hnew eq_refl) in *. rewrite Hrun. destruct r as [ex|e].
    2:{ exists (Raise e), (Some q). by split_and!. }
    rewrite (Hex ex eq_refl) in *. cbn [run]. rewrite run_bind.
    assert (known i (pf s1)) as Hk1 by (rewrite Hp1; by apply known_put_status).
    destruct (settle_succeeds q (bool_decide (case_status c0 = IN_REVIEW)) rd
      (_ ← audit (fresh rd 8) (awaiting_event i eid); Ret tt) s1 (record_event (awaiting_event i eid) (pf s1)) Ht1 Hk1)
      as (a & s' & Hrun' & HP & Hcp).
    { eapply succeeds_then; [apply audit_succeeds; [done|by apply system_event_valid]|]. intros _ s' <-. apply succeeds_ret. }
    rewrite Hrun'. cbn [run]. exists (Ok (shown eid c0 q)), (Some q).
    split_and!; [done|done|by eapply tracked_same| |intros th Hth; cbn [snd]; rewrite Hcp; by apply Ho].
    cbn [snd]. rewrite HP. cbn [effect is_some negb andb]. rewrite Hp1. unfold settled_effect. by destruct q.
Qed.

Lemma get_call rd c p s :
  tracked s p -> finds GetCall c p s -> did GetCall rd c p s (run (handle GetCall rd) s).
Proof.
  intros Ht (Hc & Hsame & _). unfold handle, get_review_execution, to_http.
  rewrite run_bind, run_authorized, Hc, run_catch, (run_get_execution _ _ _ Ht) by done.
  destruct p as [q|]; cbn [run].
  - exists (Ok (shown eid c0 q)), (Some q). by split_and!; [constructor|..].
  - exists (Raise (execution_not_found eid)), None. by split_and!; [constructor|..].
Qed.

(** The two exceptions a resumed call turns into responses. *)
Lemma run_responses {A} (m : prog S A) s :
  run (to_http HTTP_409_CONFLICT is_execution_state (to_http HTTP_404_NOT_FOUND is_execution_not_found m)) s
  = (match (run m s).1 with
     | Raise (ReviewExecutionNotFoundError d) => Raise (HTTPException HTTP_404_NOT_FOUND d)
     | Raise (ReviewExecutionStateError d) => Raise (HTTPException HTTP_409_CONFLICT d)
     | r => r
     end, (run m s).2).
Proof. unfold to_http. rewrite !run_catch. destruct (run m s) as [[a|e] s']; [done|]. by destruct e. Qed.

Lemma waiting_status q : bool_decide (ex_status (shown eid c0 q) = AWAITING_INPUT) = is_waiting (Some q).
Proof. by destruct q. Qed.

Lemma resume_call payload rd c p s :
  tracked s p -> finds (ResumeCall payload) c p s ->
  did (ResumeCall payload) rd c p s (run (handle (ResumeCall payload) rd) s).
Proof.
  intros Ht (Hc & Hsame & Hconf). pose proof (found_known _ _ Hc) as Hk. unfold handle, resume_review_execution.
  rewrite run_bind, run_authorized, Hc, run_bind. unfold require_analyst. rewrite run_raise_if, Hanalyst. cbn [negb].
  rewrite run_bind, run_responses, run_bind, (run_get_execution _ _ _ Ht) by done. destruct p as [q|]; cbn [fst snd].
  2:{ exists (Raise (execution_not_found eid)), None. by split_and!; [constructor|..]. }
  pose proof (resume_answered uuid5 _ _ eid c0 Hvalid run_graph checkpoints (cl_runtime Hlaws) s _ c payload (environment rd) Ht) as Hre.
  apply answered_inv in Hre as (r & s1 & p' & Hrun & Hstep & Ht1 & Ho); [|by destruct Hsame].
  pose proof (keeps_resume c eid payload (environment rd) s) as Hv. rewrite Hrun in Hv. cbn [snd] in Hv.
  assert (pf s1 = pf s) as Hp1 by (by rewrite Hv). rewrite run_bind, Hrun. destruct r as [ex|e].
  2:{ cbn [fst snd]. exists (Raise e), p'. split_and!; [done|by destruct e|by destruct e|by destruct e|by destruct e]. }
  apply step_ok in Hstep as Hq. destruct Hq as (q' & -> & ->). cbn [run fst snd]. rewrite waiting_status, run_bind.
  assert (succeeds (if is_waiting (Some q) then _ ← audit (fresh rd 1) (resumed_event i eid pr (ec_decision payload)); Ret tt else Ret tt) s1
            (if is_waiting (Some q) then record_event (resumed_event i eid pr (ec_decision payload)) (pf s) else pf s)) as Hs.
  { rewrite <- Hp1. destruct (is_waiting (Some q)); [|apply succeeds_ret].
    eapply succeeds_then; [apply audit_succeeds; [by rewrite Hp1|by apply principal_event_valid]|].
    intros _ s' <-. apply succeeds_ret. }
  apply succeeded in Hs as (a2 & s2 & Hr2 & Hp2 & Hc2). rewrite Hr2, run_bind.
  assert (tracked s2 (Some q')) as Ht2 by (by eapply tracked_same).
  assert (known i (pf s2)) as Hk2 by (rewrite Hp2; by destruct (is_waiting (Some q))).
  destruct (settle_succeeds q' (is_waiting (Some q) || bool_decide (case_status c = IN_REVIEW)) rd (Ret tt) s2 (pf s2) Ht2 Hk2
    (succeeds_ret _ _)) as (a3 & s3 & Hr3 & Hp3 & Hc3).
  assert (run (match ex_status (shown eid c0 q') with
       | COMPLETED => persist_result (shown eid c0 q') rd
       | CANCELLED => if is_waiting (Some q) || bool_decide (case_status c = IN_REVIEW) then cancel_case i eid pr rd else Ret tt
       | _ => Ret tt
       end) s2 = (Ok a3, s3)) as Hr3' by (by destruct q').
  rewrite Hr3'. cbn [run]. exists (Ok (shown eid c0 q')), (Some q').
  split_and!; [done|done|by eapply tracked_same| |intros th Hth; cbn [snd]; rewrite Hc3, Hc2; by apply Ho].
  cbn [snd]. rewrite Hp3, Hp2. unfold effect, settled_effect. by destruct q'.
Qed.

Lemma call_did call rd c p s : tracked s p -> finds call c p s -> did call rd c p s (run (handle call rd) s).
Proof. destruct call; [apply start_call|apply get_call|apply resume_call]. Qed.
End review.
End container.
