(* ===== verification/ApiWorld.v ===== *)
(** * One API process on the in-memory container

    What [create_container] of [apps/api/dependencies.py] builds without PostgreSQL: the
    stores of [MemWorld], the checkpoints of the review graph and the index of the
    retrieval service, each component reading and writing its own part. *)
From S2P Require Import Prelude PyStr Uuid Effects Json Schemas SchemaJson Cases Ledger InMemory Governance.
From S2P Require Import GovernanceTheorems ModelGateway JsonTextCode RemoteModels ModelTheorems ReviewGraph.
From S2P Require Import ReviewMachine ReviewRuntime ReviewTheorems Chunking Retrieval RetrievalTheorems Api.
From S2P Require Import ApiProofs.
Import SupplierReviewWorkflow.
Local Open Scope py_scope.

Record ApiWorld := {
  aw_stores : MemWorld;
  aw_checkpoints : gmap pystr Checkpoint;
  aw_chunks : InMemoryRetrievalService.t;
}.

Definition put_aw_stores (w : MemWorld) (s : ApiWorld) : ApiWorld :=
  {| aw_stores := w; aw_checkpoints := aw_checkpoints s; aw_chunks := aw_chunks s |}.
Definition put_checkpoints (m : gmap pystr Checkpoint) (s : ApiWorld) : ApiWorld :=
  {| aw_stores := aw_stores s; aw_checkpoints := m; aw_chunks := aw_chunks s |}.
Definition put_chunks (m : InMemoryRetrievalService.t) (s : ApiWorld) : ApiWorld :=
  {| aw_stores := aw_stores s; aw_checkpoints := aw_checkpoints s; aw_chunks := m |}.

Definition aw_cases (s : ApiWorld) : InMemoryCaseRepository.t := mw_cases (aw_stores s).
Definition put_aw_cases (c : InMemoryCaseRepository.t) (s : ApiWorld) : ApiWorld :=
  put_aw_stores (put_cases c (aw_stores s)) s.

(** [cases = InMemoryCaseRepository()] *)
#[export] Instance api_cases : CaseRepository ApiWorld := {|
  create_case c := zoom aw_cases put_aw_cases (InMemoryCaseRepository.create c);
  get_case i := zoom aw_cases put_aw_cases (InMemoryCaseRepository.get i);
  set_status fr i st := zoom aw_cases put_aw_cases (InMemoryCaseRepository.set_status fr i st);
  save_review r := zoom aw_cases put_aw_cases (InMemoryCaseRepository.save_review r);
  get_latest_review i := zoom aw_cases put_aw_cases (InMemoryCaseRepository.get_latest_review i);
  get_review i := zoom aw_cases put_aw_cases (InMemoryCaseRepository.get_review i);
  append_audit_event fr e := zoom aw_cases put_aw_cases (InMemoryCaseRepository.append_audit_event fr e);
  list_audit_events i := zoom aw_cases put_aw_cases (InMemoryCaseRepository.list_audit_events i);
|}.

(** The governance service over the same stores. *)
#[export] Instance api_actions : ActionRepository ApiWorld := {|
  uses_transactional_outbox := @uses_transactional_outbox MemWorld _;
  create_proposal fr a e m := zoom aw_stores put_aw_stores (create_proposal fr a e m);
  get_action i := zoom aw_stores put_aw_stores (get_action i);
  save_transition fr a e st := zoom aw_stores put_aw_stores (save_transition fr a e st);
|}.

#[export] Instance api_supplier : SupplierSystem ApiWorld := {|
  set_onboarding_decision fr i key args := zoom aw_stores put_aw_stores (set_onboarding_decision fr i key args);
|}.

(** [create_approval_workflow] of the local backend. *)
#[export] Instance api_approvals : ApprovalWorkflow ApiWorld := LocalApprovalWorkflow.workflow.

(** [retrieval = InMemoryRetrievalService(embeddings)] *)
#[export] Instance api_retrieval (uuid5 : UUID -> pystr -> UUID) (embeddings : EmbeddingProvider) (chunker : StructuralChunker) :
    RetrievalService ApiWorld := {|
  index_case c := zoom aw_chunks put_chunks (InMemoryRetrievalService.index_case uuid5 embeddings chunker c);
  search i query limit := zoom aw_chunks put_chunks (InMemoryRetrievalService.search embeddings i query limit);
|}.

(** [SupplierReviewWorkflow(backend)] with its in-memory checkpointer. *)
Definition api_runtime (g : StateGraph) : CompiledGraph ApiWorld := {|
  aget_state thread := zoom aw_checkpoints put_checkpoints (aget_state (in_memory_runtime g) thread);
  ainvoke env input thread := zoom aw_checkpoints put_checkpoints (ainvoke (in_memory_runtime g) env input thread);
|}.

(** ** The laws of a container *)

Lemma run_on_cases {A} (m : prog InMemoryCaseRepository.t A) s :
  run (zoom aw_cases put_aw_cases m) s = ((run m (aw_cases s)).1, put_aw_cases (run m (aw_cases s)).2 s).
Proof. rewrite run_zoom; [by destruct (run m (aw_cases s))|done|by intros [[]]|done]. Qed.

Lemma run_on_checkpoints {A} (m : prog (gmap pystr Checkpoint) A) s :
  run (zoom aw_checkpoints put_checkpoints m) s = ((run m (aw_checkpoints s)).1, put_checkpoints (run m (aw_checkpoints s)).2 s).
Proof. rewrite run_zoom; [by destruct (run m (aw_checkpoints s))|done|by intros []|done]. Qed.

Section laws.
Context `{JsonText} `{DatetimeText} `{IsoText} (uuid5 : UUID -> pystr -> UUID) (finding_batch_schema recommendation_schema : json).

Abbreviation graph := (build_graph uuid5 finding_batch_schema recommendation_schema).

Lemma api_runtime_laws : runtime_laws graph (api_runtime graph) aw_checkpoints.
Proof.
  pose proof (in_memory_laws uuid5 finding_batch_schema recommendation_schema) as [Hget Hinput Hresume]. split.
  - intros thread s. cbn [aget_state api_runtime]. rewrite run_on_checkpoints, Hget. by destruct s.
  - intros env st thread s Hs. destruct (Hinput env st thread (aw_checkpoints s) Hs) as (r & c & m & Hrun & Hm & Hinv).
    cbn [ainvoke api_runtime]. rewrite run_on_checkpoints, Hrun. by exists r, c, (put_checkpoints m s).
  - intros env v thread st value n s Hs. destruct (Hresume env v thread st value n (aw_checkpoints s) Hs) as (r & c & m & Hrun & Hm & Hinv).
    cbn [ainvoke api_runtime]. rewrite run_on_checkpoints, Hrun. by exists r, c, (put_checkpoints m s).
Qed.

Lemma query_on_cases {A} (m : prog InMemoryCaseRepository.t A) :
  (forall v, (run m v).2 = v) -> queries aw_cases (zoom aw_cases put_aw_cases m) m.
Proof. intros Hm s. rewrite run_on_cases, Hm. by destruct s as [[]]. Qed.

Lemma update_on_cases {A} (m : prog InMemoryCaseRepository.t A) :
  updates aw_cases aw_checkpoints (zoom aw_cases put_aw_cases m) m.
Proof. intros s. rewrite run_on_cases. eexists. split; [done|]. by split. Qed.

Lemma api_laws : container_laws uuid5 finding_batch_schema recommendation_schema (api_runtime graph) aw_cases aw_checkpoints.
Proof.
  split; try (intros; apply update_on_cases).
  - apply api_runtime_laws.
  - intros env input thread s. cbn [ainvoke api_runtime]. by rewrite run_on_checkpoints.
  - intros i. apply query_on_cases. intros v. unfold InMemoryCaseRepository.get. by rewrite run_reads.
  - intros i. apply query_on_cases. intros v. unfold InMemoryCaseRepository.get_review. by rewrite run_reads.
  - intros i. apply query_on_cases. intros v. unfold InMemoryCaseRepository.get_latest_review, InMemoryCaseRepository.get.
    rewrite run_bind, run_reads. destruct (InMemoryCaseRepository.cases v !! i); [|done]. cbn [of_option]. by rewrite run_reads.
  - intros i. apply query_on_cases. intros v. unfold InMemoryCaseRepository.list_audit_events, InMemoryCaseRepository.get.
    rewrite run_bind, run_reads. destruct (InMemoryCaseRepository.cases v !! i); [|done]. cbn [of_option]. by rewrite run_reads.
Qed.
End laws.

(** ** A concrete process *)

Module Process.
Import History Review SupplierReviewWorkflow.

#[export] Instance retrieval : RetrievalService ApiWorld := api_retrieval id_of hash_provider default_chunker.

Definition api_graph : CompiledGraph ApiWorld := api_runtime review_graph.
Definition process_laws : container_laws id_of JNull JNull api_graph aw_cases aw_checkpoints :=
  api_laws id_of JNull JNull.

Definition fresh_of (n : nat) : Fresh := {|
  now := Z.of_nat n; new_event_id := uuid (N.of_nat n); new_message_id := uuid (N.of_nat n) |}.
Definition readings (t : Z) : Readings := {| Api.fresh := fresh_of; environment := at_time t; Api.started := t |}.
Definition readings_down : Readings := {| Api.fresh := fresh_of; environment := down; Api.started := 3%Z |}.

(** The case of [Review], new. *)
Definition new_case : SupplierCase := with_status reviewed_case NEW 2%Z.
Definition process : ApiWorld := {|
  aw_stores := put_cases (InMemoryCaseRepository.set_cases {[case_id new_case := new_case]} InMemoryCaseRepository.empty) mem_empty;
  aw_checkpoints := ∅; aw_chunks := ∅ |}.

Definition start_request : ReviewExecutionStart :=
  {| es_idempotency_key := uuid 40; es_require_evidence_confirmation := true |}.
Definition run_id : UUID := execution_id_for id_of (case_tenant_id new_case) (case_id new_case) (uuid 40).

Definition analyst : Principal := who (u "ana") ANALYST.
Definition outsider : Principal := {| subject := u "eve"; principal_tenant_id := u "another"; roles := {[ANALYST]}; scopes := ∅ |}.
Definition clerk : Principal := who (u "cy") APPROVER.
End Process.
