(* ===== verification/ApiTheorems.v ===== *)
(** * What the API guarantees

    Tenants do not see each other's cases through any endpoint; every call about a
    review execution is a step of the execution machine followed by its effect on the
    case; a review started and confirmed through the API is filed. *)
From S2P Require Import Prelude PyStr Uuid Effects Json Schemas SchemaJson Ledger Cases Governance ModelGateway.
From S2P Require Import RemoteModels ModelTheorems ReviewGraph ReviewMachine ReviewTheorems Retrieval Api.
From S2P Require Import ApiProofs JsonTextCode ReviewRuntime GovernanceTheorems InMemory ApiWorld.
Import SupplierReviewWorkflow.
Local Open Scope py_scope.

Section api.
Context `{JT : JsonText} `{UL : UnicodeLower} `{DT : DatetimeText} `{IT : IsoText} (uuid5 : UUID -> pystr -> UUID).
Context (finding_batch_schema recommendation_schema : json).
Context {S : Type} `{!CaseRepository S, !ActionRepository S, !ApprovalWorkflow S, !SupplierSystem S, !RetrievalService S}.
Context (run_graph : CompiledGraph S) (view : S -> Mem.t) (checkpoints : S -> gmap pystr Checkpoint).

Abbreviation laws := (container_laws uuid5 finding_batch_schema recommendation_schema run_graph view checkpoints).

(** ** Tenants *)

(** A request about a case. *)
Inductive case_request :=
  | GetCase
  | ReviewCase (eid : UUID) (rd : Readings)
  | StartExecution (payload : ReviewExecutionStart) (rd : Readings)
  | GetExecution (eid : UUID)
  | ResumeExecution (eid : UUID) (payload : EvidenceConfirmation) (rd : Readings)
  | LatestReview
  | AuditEvents
  | IndexDocuments (rd : Readings)
  | SearchEvidence (query : pystr) (limit : Z)
  | ProposeAction (payload : ActionProposalRequest) (t : datetime) (rd : Readings).

Definition serve_case (i : UUID) (p : Principal) (rq : case_request) : prog S unit :=
  match rq with
  | GetCase => Mem.ignore (get_case_handler i p)
  | ReviewCase eid rd => Mem.ignore (review_case run_graph i p eid rd)
  | StartExecution payload rd => Mem.ignore (start_review_execution uuid5 run_graph i payload p rd)
  | GetExecution eid => Mem.ignore (get_review_execution run_graph i eid p)
  | ResumeExecution eid payload rd => Mem.ignore (resume_review_execution run_graph i eid payload p rd)
  | LatestReview => Mem.ignore (get_latest_review_handler i p)
  | AuditEvents => Mem.ignore (list_audit_events_handler i p)
  | IndexDocuments rd => Mem.ignore (index_case_documents i p rd)
  | SearchEvidence query limit => Mem.ignore (search_case_evidence i query p limit)
  | ProposeAction payload t rd => Mem.ignore (propose_case_action uuid5 i payload p t rd)
  end.

(** Requests only an analyst may make. *)
Definition analysts_only (rq : case_request) : bool :=
  match rq with ReviewCase _ _ | StartExecution _ _ | ResumeExecution _ _ _ | IndexDocuments _ => true | _ => false end.

(** The case does not exist, or is another tenant's and the principal is no administrator. *)
Definition hidden (p : Principal) (i : UUID) (s : S) : Prop :=
  match Mem.cases (view s) !! i with
  | Some c => (ADMIN ∉ roles p) /\ case_tenant_id c <> principal_tenant_id p
  | None => True
  end.

Definition analyst_required : exn := HTTPException HTTP_403_FORBIDDEN (u "The analyst role is required").

(** Every request about a case looks the case up first. *)
Lemma serve_refused (Hlaws : laws) i p rq s e :
  shown_case view p i s = Raise e -> run (serve_case i p rq) s = (Raise e, s).
Proof.
  intros E. destruct rq; cbn [serve_case]; unfold Mem.ignore; rewrite run_bind;
    unfold get_case_handler, review_case, start_review_execution, get_review_execution, resume_review_execution,
      get_latest_review_handler, list_audit_events_handler, index_case_documents, search_case_evidence, propose_case_action;
    try rewrite run_bind; by rewrite (run_authorized uuid5 _ _ run_graph view checkpoints Hlaws), E.
Qed.

(** C18. Every endpoint answers a request about a case of another tenant exactly as one about a
    case that does not exist, and changes nothing; and a principal who is not an analyst
    cannot review, resume or index a case, nor change anything by trying. *)
Theorem cases_stay_in_their_tenant (Hlaws : laws) i p rq s :
  (hidden p i s -> run (serve_case i p rq) s = (Raise (not_found i), s)) /\
  (analysts_only rq = true -> has_role p ANALYST = false -> ~ hidden p i s ->
     run (serve_case i p rq) s = (Raise analyst_required, s)).
Proof.
  split.
  - intros Hh. apply serve_refused; [done|]. unfold shown_case, hidden, visible in *. destruct (Mem.cases (view s) !! i) as [c|]; [|done].
    destruct Hh as [Ha Ht]. by rewrite !bool_decide_eq_false_2.
  - intros Hrq Ha Hh. assert (exists c, shown_case view p i s = Ok c) as [c Hc].
    { unfold shown_case, hidden, visible in *. destruct (Mem.cases (view s) !! i) as [c|]; [|by destruct Hh].
      exists c. case_bool_decide; [done|]. case_bool_decide; [done|]. by destruct Hh. }
    destruct rq; try discriminate Hrq; cbn [serve_case]; unfold Mem.ignore; rewrite run_bind;
      unfold review_case, start_review_execution, resume_review_execution, index_case_documents;
      rewrite run_bind, (run_authorized uuid5 _ _ run_graph view checkpoints Hlaws), Hc, run_bind;
      unfold require_analyst; by rewrite run_raise_if, Ha.
Qed.

(** ** Reviews *)

Section review.
Context (eid : UUID) (c0 : SupplierCase) (pr : Principal).

Abbreviation tracked := (tracks eid c0 checkpoints).
Abbreviation answer_of := (handle uuid5 run_graph eid c0 pr).

(** C17. Every call about a review execution made through the API by an analyst is one step of
    the execution machine, answered as that step is, and changes the case, its reviews and its
    audit trail exactly as [effect] says: a new execution puts the case in review and is
    audited, one that fails marks the case as failed, a completed one is filed once and put up
    for approval, a rejected one gives the case back. *)
Theorem review_calls_refine (Hlaws : laws) (Hvalid : valid_SupplierCase c0 = true) (Hpr : valid_Principal pr = true)
    (Hanalyst : has_role pr ANALYST = true) call rd c p s :
  tracked s p -> finds uuid5 view eid c0 pr call c p s ->
  let '(r, s') := run (answer_of call rd) s in
  exists r0 p', exec_step uuid5 finding_batch_schema recommendation_schema eid c0 p (event_of call rd) r0 p' /\
    r = response call r0 /\ tracked s' p' /\
    portfolio (view s') = effect eid c0 pr call c p r0 (portfolio (view s)) /\
    forall thread, thread <> thread_of eid -> checkpoints s' !! thread = checkpoints s !! thread.
Proof.
  intros Ht Hf. pose proof (call_did uuid5 finding_batch_schema recommendation_schema run_graph view checkpoints Hlaws eid c0 Hvalid
    pr Hpr Hanalyst call rd c p s Ht Hf) as Hd.
  destruct (run (answer_of call rd) s) as [r s']. exact Hd.
Qed.

(** The audit trail of the case. *)
Definition trail (s : S) : list AuditEventCreate := Mem.get_list (case_id c0) (pf_trail (portfolio (view s))).

Lemma trail_record e P : ae_case_id e = case_id c0 ->
  Mem.get_list (case_id c0) (pf_trail (record_event e P)) = Mem.get_list (case_id c0) (pf_trail P) ++ [e].
Proof. intros He. cbn [pf_trail record_event]. by rewrite Mem.get_list_push, He, decide_True. Qed.

Lemma shown_again p c s s' f :
  shown_case view p (case_id c0) s = Ok c -> (forall d, case_tenant_id (f d) = case_tenant_id d) ->
  (forall d, case_id (f d) = case_id d) -> case_id c = case_id c0 ->
  pf_cases (portfolio (view s')) !! case_id c0 = f <$> pf_cases (portfolio (view s)) !! case_id c0 ->
  exists c', shown_case view p (case_id c0) s' = Ok c' /\ case_tenant_id c' = case_tenant_id c /\ case_id c' = case_id c0 /\
    undated c' = f (undated c).
Proof.
  unfold shown_case, visible. cbn [pf_cases portfolio]. rewrite !lookup_fmap.
  destruct (Mem.cases (view s) !! case_id c0) as [d|]; [|done].
  destruct (_ || _) eqn:Ev; [|done]. intros [= ->] Ht Hi Hc Hs'. cbn [fmap option_fmap option_map] in Hs'.
  destruct (Mem.cases (view s') !! case_id c0) as [c'|]; [|done]. cbn [fmap option_fmap option_map] in Hs'.
  assert (undated c' = f (undated c)) as Hu by congruence. exists c'.
  pose proof (f_equal case_tenant_id Hu) as Htu. pose proof (f_equal case_id Hu) as Hiu. rewrite Ht in Htu. rewrite Hi in Hiu.
  cbn in Htu, Hiu. rewrite Htu, Ev. split; [done|]. split; [done|]. split; [congruence|done].
Qed.

Lemma status_put i st P : known i P -> case_status <$> pf_cases (put_status i st P) !! i = Some st.
Proof. intros [c Hc]. cbn [pf_cases put_status]. by rewrite lookup_alter_eq, Hc. Qed.

(** What a confirmed execution does to its case. *)
Lemma confirm_effect c conf fs b t r P :
  rv_case_id r = case_id c0 -> rv_review_id r = eid -> pf_by_id P !! eid = None ->
  effect eid c0 pr (ResumeCall conf) c (Some (Waiting fs b t)) (Ok (shown eid c0 (Finished r))) P
  = record_event (completed_event r) (put_status (case_id c0) CASE_PENDING_APPROVAL
      (file_review r (record_event (resumed_event (case_id c0) eid pr (ec_decision conf)) P))).
Proof. intros Hc Hi HP. cbn [effect is_waiting settled_effect ex_status ex_result shown]. unfold filed. cbn [pf_by_id record_event]. by rewrite Hi, HP, Hc. Qed.

Lemma latest_filed (Hlaws : laws) s r rest c :
  shown_case view pr (case_id c0) s = Ok c -> Mem.get_list (case_id c0) (pf_reviews (portfolio (view s))) = rest ++ [r] ->
  run (get_latest_review_handler (case_id c0) pr) s = (Ok r, s).
Proof.
  intros Hc Hl. unfold get_latest_review_handler, to_http.
  rewrite run_bind, (run_authorized uuid5 _ _ run_graph view checkpoints Hlaws), Hc, run_catch, (cl_get_latest_review _ _ _ _ _ _ Hlaws).
  unfold Mem.get_latest_review, Mem.get. rewrite run_bind, run_reads.
  unfold shown_case in Hc. destruct (Mem.cases (view s) !! case_id c0); [|done]. cbn [of_option]. rewrite run_reads.
  cbn [pf_reviews portfolio] in Hl. rewrite Hl, last_snoc. reflexivity.
Qed.

(** A review started through the API on the deterministic backend waits for a confirmation
    with the case in review; once an analyst confirms it, the client is answered the completed
    review, the same review is the latest of the case, the case awaits approval, and the audit
    trail has gained the start, the wait, the confirmation and the completion, in that order. *)
Theorem confirmed_review_is_filed (Hlaws : laws) (Hvalid : valid_SupplierCase c0 = true) (Hpr : valid_Principal pr = true)
    (Hanalyst : has_role pr ANALYST = true) payload conf rd rd' s :
  let i := case_id c0 in
  shown_case view pr i s = Ok c0 -> checkpoints s !! thread_of eid = None ->
  pf_by_id (portfolio (view s)) !! eid = None ->
  eid = execution_id_for uuid5 (case_tenant_id c0) i (es_idempotency_key payload) ->
  es_require_evidence_confirmation payload = true ->
  answers (environment rd) = DeterministicBackend.backend uuid5 ->
  answers (environment rd') = DeterministicBackend.backend uuid5 ->
  valid_EvidenceConfirmation conf = true -> ec_decision conf = EC_CONFIRM ->
  exists fs rec s1 s2,
    let waiting := Waiting fs (u "deterministic") (started rd) in
    let result := finished eid c0 fs rec (u "deterministic") (started rd) (clock (environment rd')) in
    reviewed uuid5 eid c0 fs /\ decided c0 (rec_decision rec) /\
    run (start_review_execution uuid5 run_graph i payload pr rd) s = (Ok (shown eid c0 waiting), s1) /\
    case_status <$> pf_cases (portfolio (view s1)) !! i = Some IN_REVIEW /\
    run (resume_review_execution run_graph i eid conf pr rd') s1 = (Ok (shown eid c0 (Finished result)), s2) /\
    case_status <$> pf_cases (portfolio (view s2)) !! i = Some CASE_PENDING_APPROVAL /\
    run (get_latest_review_handler i pr) s2 = (Ok result, s2) /\
    trail s2 = trail s ++ [execution_started_event i eid pr true; awaiting_event i eid;
                           resumed_event i eid pr EC_CONFIRM; completed_event result].
Proof.
  intros i Hc Hnew Hunfiled Heid Hreq Henv Henv' Hconf Hdec.
  assert (tracked s None) as Ht by (unfold tracks; by rewrite Hnew).
  pose proof (call_did uuid5 finding_batch_schema recommendation_schema run_graph view checkpoints Hlaws eid c0 Hvalid
    pr Hpr Hanalyst) as Hdid.
  destruct (Hdid (StartCall payload) rd c0 None s Ht) as (r & p' & Hstep & Hr & Ht1 & Hp1 & _); [by split_and!|].
  cbn [event_of] in Hstep. rewrite Hreq in Hstep.
  apply (backend_start uuid5 finding_batch_schema recommendation_schema eid c0 Hvalid _ _ _ _ _ Henv) in Hstep
    as (fs & Hfs & Hv & -> & ->).
  destruct (run (handle uuid5 run_graph eid c0 pr (StartCall payload) rd) s) as [r1 s1] eqn:E1. cbn [fst snd response] in *. subst r1.
  set (waiting := Waiting fs (u "deterministic") (started rd)) in *.
  assert (portfolio (view s1) = record_event (awaiting_event i eid)
    (record_event (execution_started_event i eid pr true) (put_status i IN_REVIEW (portfolio (view s))))) as HP1
    by (rewrite Hp1; cbn [effect is_some negb andb]; by rewrite Hreq).
  clear Hp1. pose proof (found_known view c0 pr c0 s Hc) as Hk.
  destruct (shown_again pr c0 s s1 (fun c => with_status c IN_REVIEW 0%Z) Hc) as (c1 & Hc1 & Htc1 & Hcc1 & _); [done..| |].
  { rewrite HP1. cbn [pf_cases record_event put_status]. by rewrite lookup_alter_eq. }
  destruct (Hdid (ResumeCall conf) rd' c1 (Some waiting) s1 Ht1) as (r & p' & Hstep & Hr & _ & Hp2 & _); [by split_and!|].
  apply (backend_confirm uuid5 finding_batch_schema recommendation_schema eid c0 _ _ _ _ _ _ Henv' Hdec Hfs Hv) in Hstep
    as (rec & Hd & _ & ->).
  destruct (run (handle uuid5 run_graph eid c0 pr (ResumeCall conf) rd') s1) as [r2 s2] eqn:E2. cbn [fst snd response] in *. subst r2.
  set (result := finished eid c0 fs rec (u "deterministic") (started rd) (clock (environment rd'))) in *.
  rewrite (confirm_effect c1 conf fs (u "deterministic") (started rd) result _ eq_refl eq_refl), Hdec in Hp2
    by (by rewrite HP1).
  assert (known i (portfolio (view s1))) as Hk1 by (eapply found_known; exact Hc1).
  destruct (shown_again pr c1 s1 s2 (fun c => with_status c CASE_PENDING_APPROVAL 0%Z) Hc1) as (c2 & Hc2 & _); [done..| |].
  { rewrite Hp2. cbn [pf_cases record_event put_status file_review]. by rewrite lookup_alter_eq. }
  exists fs, rec, s1, s2. cbv zeta. fold waiting result. split_and!; [done|done|exact E1| |exact E2| | |].
  - rewrite HP1. cbn [pf_cases record_event]. by apply status_put.
  - rewrite Hp2. cbn [pf_cases record_event]. by apply status_put.
  - apply (latest_filed Hlaws s2 result (Mem.get_list i (pf_reviews (portfolio (view s1)))) c2 Hc2).
    rewrite Hp2. cbn [pf_reviews record_event put_status file_review]. by rewrite Mem.get_list_push, decide_True.
  - unfold trail. rewrite Hp2, trail_record by done. cbn [pf_trail put_status file_review]. rewrite trail_record by done.
    rewrite HP1, !trail_record by done. cbn [pf_trail put_status]. by rewrite <- !app_assoc.
Qed.
End review.
End api.

(** ** A concrete process *)

Section example.
Import History Review Process.

Lemma cases_stay_in_their_tenant_witness :
  run (serve_case id_of api_graph (case_id new_case) outsider (StartExecution start_request (readings 3))) process
    = (Raise (not_found (case_id new_case)), process) /\
  run (serve_case id_of api_graph (case_id new_case) clerk (StartExecution start_request (readings 3))) process
    = (Raise analyst_required, process).
Proof.
  destruct (cases_stay_in_their_tenant id_of JNull JNull api_graph aw_cases aw_checkpoints process_laws (case_id new_case) outsider
    (StartExecution start_request (readings 3)) process) as [Hhidden _].
  destruct (cases_stay_in_their_tenant id_of JNull JNull api_graph aw_cases aw_checkpoints process_laws (case_id new_case) clerk
    (StartExecution start_request (readings 3)) process) as [_ Hrole]. split.
  - apply Hhidden. vm_compute. split; [|discriminate]. intros H. discriminate H.
  - apply Hrole; [reflexivity|reflexivity|]. vm_compute. intros [_ H]. by apply H.
Defined.

(** The provider is down: the case is marked as failed. *)
Lemma review_calls_refine_witness :
  let '(r, s') := run (handle id_of api_graph run_id new_case analyst (StartCall start_request) readings_down) process in
  r = Raise outage /\
  portfolio (aw_cases s')
  = effect run_id new_case analyst (StartCall start_request) new_case None (Raise outage) (portfolio (aw_cases process)) /\
  case_status <$> pf_cases (portfolio (aw_cases s')) !! case_id new_case = Some REVIEW_FAILED.
Proof.
  pose proof (review_calls_refine id_of JNull JNull api_graph aw_cases aw_checkpoints run_id new_case analyst process_laws
    eq_refl eq_refl eq_refl (StartCall start_request) readings_down new_case None process I) as H.
  assert (finds id_of aw_cases run_id new_case analyst (StartCall start_request) new_case None process) as Hf
    by (split; [vm_compute; reflexivity|]; split; [by split|by split]).
  specialize (H Hf).
  assert ((run (handle id_of api_graph run_id new_case analyst (StartCall start_request) readings_down) process).1 = Raise outage) as Hr
    by (vm_compute; reflexivity).
  destruct (run (handle id_of api_graph run_id new_case analyst (StartCall start_request) readings_down) process) as [r s'].
  destruct H as (r0 & p' & _ & Hr0 & _ & HP & _). cbn [fst] in Hr. cbn [response] in Hr0. rewrite Hr in Hr0.
  subst r0. split; [exact Hr|]. split; [exact HP|]. rewrite HP. vm_compute. reflexivity.
Defined.

Lemma confirmed_review_is_filed_witness :
  exists s1 s2 rv,
    (run (start_review_execution id_of api_graph (case_id new_case) start_request analyst (readings 3)) process).2 = s1 /\
    (run (resume_review_execution api_graph (case_id new_case) run_id confirm analyst (readings 6)) s1).2 = s2 /\
    run (get_latest_review_handler (case_id new_case) analyst) s2 = (Ok rv, s2) /\
    decided new_case (rec_decision (rv_recommendation rv)) /\
    ae_event_type <$> trail aw_cases new_case s2
    = [u "review.started"; u "review.awaiting_input"; u "review.resumed"; u "review.completed"].
Proof.
  pose proof (confirmed_review_is_filed id_of JNull JNull api_graph aw_cases aw_checkpoints run_id new_case analyst process_laws
    eq_refl eq_refl eq_refl start_request confirm (readings 3) (readings 6) process eq_refl eq_refl eq_refl eq_refl eq_refl
    eq_refl eq_refl eq_refl eq_refl) as (fs & rec & s1 & s2 & _ & Hd & H1 & _ & H2 & _ & H3 & H4).
  eexists s1, s2, _. split; [by rewrite H1|]. split; [by rewrite H2|]. split; [exact H3|]. split; [exact Hd|].
  rewrite H4. vm_compute. reflexivity.
Defined.

(** What [finds] does not protect from: a resume whose synthesis fails leaves the case in
    review with nothing in its audit trail, the execution running for ever, and every further
    resume refused. *)
Definition status_now (s : ApiWorld) : option CaseStatus :=
  case_status <$> pf_cases (portfolio (aw_cases s)) !! case_id new_case.

Definition waiting_process : ApiWorld :=
  (run (start_review_execution id_of api_graph (case_id new_case) start_request analyst (readings 3)) process).2.
Definition stranded := run (resume_review_execution api_graph (case_id new_case) run_id confirm analyst readings_down) waiting_process.

Example failed_resume_strands_case :
  stranded.1 = Raise outage /\ status_now stranded.2 = Some IN_REVIEW /\
  trail aw_cases new_case stranded.2 = trail aw_cases new_case waiting_process /\
  ex_status <$> (run (get_review_execution api_graph (case_id new_case) run_id analyst) stranded.2).1 = Ok RUNNING /\
  (run (resume_review_execution api_graph (case_id new_case) run_id confirm analyst (readings 6)) stranded.2).1
    = Raise (HTTPException HTTP_409_CONFLICT (u "Review execution " ++ str_uuid run_id ++ u " is not awaiting analyst input")).
Proof. split_and!; vm_compute; reflexivity. Qed.

(** Identifiers that tell the two executions apart. *)
Definition digest_of (_ : UUID) (n : pystr) : UUID :=
  default NAMESPACE_URL (UUID_of_N (fold_left (fun h c => (h * 31 + c) mod 1329227995784915872903807060280344576)%N n 7%N)).
Definition two_graph : CompiledGraph ApiWorld := api_runtime (SupplierReviewWorkflow.build_graph digest_of JNull JNull).
Definition second_request : ReviewExecutionStart :=
  {| es_idempotency_key := uuid 41; es_require_evidence_confirmation := true |}.
Definition reject : EvidenceConfirmation := {| ec_decision := EC_REJECT; ec_comment := u "insufficient" |}.

(** Replaying the start of a rejected execution gives the case back although another
    execution of it is waiting for its confirmation. *)
Example replayed_cancellation_resets_case :
  let starts rq t s := (run (start_review_execution digest_of two_graph (case_id new_case) rq analyst (readings t)) s).2 in
  let first := execution_id_for digest_of (case_tenant_id new_case) (case_id new_case) (uuid 40) in
  let s1 := starts start_request 3%Z process in
  let s2 := (run (resume_review_execution two_graph (case_id new_case) first reject analyst (readings 4)) s1).2 in
  let s3 := starts second_request 5%Z s2 in
  let s4 := starts start_request 6%Z s3 in
  status_now <$> [s1; s2; s3; s4] = [Some IN_REVIEW; Some NEW; Some IN_REVIEW; Some NEW].
Proof. vm_compute. reflexivity. Qed.

(** Two requests that complete one review at a time when neither is filed: it is filed once
    and announced twice. *)
Definition completed_result : ReviewResult :=
  finished run_id new_case [] {| rec_decision := APPROVE; rec_rationale := u "ok"; rec_required_actions := [];
    rec_confidence := float_one |} (u "deterministic") 3%Z 4%Z.
Definition completing : prog ApiWorld bool := persist_completed_review completed_result (fresh_of 4) (fresh_of 5).
Definition raced := run_schedule [0; 1; 0; 0; 0; 0; 1; 1; 1; 1] [completing; completing] process.

Example racing_completions_announced_twice :
  raced.1 = [Ret true; Ret true] /\
  Mem.get_list (case_id new_case) (Mem.reviews (aw_cases raced.2)) = [completed_result] /\
  trail aw_cases new_case raced.2 = [completed_event completed_result; completed_event completed_result].
Proof. split_and!; vm_compute; reflexivity. Qed.
End example.
