(* ===== verification/Tenancy.v ===== *)
(** * Tenants on one API process

    Which tenant a stored record belongs to, what of the state of the in-memory container of
    [ApiWorld] a tenant can see, and that every repository, retrieval and checkpoint call on
    a tenant's own records is confined to that tenant.  The graph runtime is a parameter
    that keeps one checkpoint per thread. *)
From S2P Require Import Prelude PyStr Uuid Effects Json Schemas SchemaJson Cases Ledger InMemory Governance.
From S2P Require Import Confinement ModelGateway ReviewGraph Chunking Retrieval Api ApiWorld.
From stdpp Require Import gmap.
Import SupplierReviewWorkflow.
Local Open Scope py_scope.

(** The tenant of each case and of each action identifier, and the case of each execution:
    identifiers are drawn or derived for one tenant each. *)
Record owners := {
  case_owner : UUID -> pystr;
  execution_case : UUID -> UUID;
  action_owner : UUID -> pystr;
}.

Definition execution_owner (o : owners) (eid : UUID) : pystr := case_owner o (execution_case o eid).

(** The identifying fields of a graph state. *)
Definition scope (st : ReviewGraphState) : pystr * pystr * pystr := (gs_tenant_id st, gs_case_id st, gs_execution_id st).

Definition scope_of (o : owners) (eid : UUID) : pystr * pystr * pystr :=
  (execution_owner o eid, str_uuid (execution_case o eid), str_uuid eid).

Abbreviation the_cases s := (InMemoryCaseRepository.cases (aw_cases s)).
Abbreviation the_reviews s := (InMemoryCaseRepository.reviews (aw_cases s)).
Abbreviation the_reviews_by_id s := (InMemoryCaseRepository.reviews_by_id (aw_cases s)).
Abbreviation the_events s := (InMemoryCaseRepository.events (aw_cases s)).
Abbreviation the_actions s := (InMemoryActionRepository.actions (mw_actions (aw_stores s))).
Abbreviation the_keys s := (InMemoryActionRepository.idempotency (mw_actions (aw_stores s))).

(** ** Ownership of the stored records *)

Definition owned_case (o : owners) (i : UUID) (c : SupplierCase) : Prop := case_id c = i /\ case_tenant_id c = case_owner o i.

Definition owned_action (o : owners) (i : UUID) (a : GovernedAction) : Prop :=
  ga_id a = i /\ ga_tenant_id a = action_owner o i /\ case_owner o (ga_case_id a) = action_owner o i.

Definition owned_checkpoint (o : owners) (thread : pystr) (cp : Checkpoint) : Prop :=
  exists eid, thread = str_uuid eid /\ scope (cp_values cp) = scope_of o eid.

Record tenancy (o : owners) (s : ApiWorld) : Prop := {
  tn_cases : map_Forall (owned_case o) (the_cases s);
  tn_actions : map_Forall (owned_action o) (the_actions s);
  tn_keys : map_Forall (fun k i => action_owner o i = k.1) (the_keys s);
  tn_checkpoints : map_Forall (owned_checkpoint o) (aw_checkpoints s);
}.

(** What two states have in common when they look alike to a tenant. *)
Record sees (o : owners) (t : pystr) (s s' : ApiWorld) : Prop := {
  see_cases i : case_owner o i = t -> the_cases s !! i = the_cases s' !! i;
  see_reviews i : case_owner o i = t -> the_reviews s !! i = the_reviews s' !! i;
  see_events i : case_owner o i = t -> the_events s !! i = the_events s' !! i;
  see_chunks i : case_owner o i = t -> aw_chunks s !! i = aw_chunks s' !! i;
  see_reviews_by_id i : execution_owner o i = t -> the_reviews_by_id s !! i = the_reviews_by_id s' !! i;
  see_checkpoints i : execution_owner o i = t -> aw_checkpoints s !! str_uuid i = aw_checkpoints s' !! str_uuid i;
  see_actions i : action_owner o i = t -> the_actions s !! i = the_actions s' !! i;
  see_keys k : the_keys s !! (t, k) = the_keys s' !! (t, k);
}.

#[export] Instance sees_equivalence o t : Equivalence (sees o t).
Proof.
  split.
  - by split.
  - intros s s' []. split; intros; symmetry; auto.
  - intros s1 s2 s3 [A1 A2 A3 A4 A5 A6 A7 A8] [B1 B2 B3 B4 B5 B6 B7 B8].
    split; intros; (rewrite ?A1, ?A2, ?A3, ?A4, ?A5, ?A6, ?A7, ?A8 by done); auto.
Qed.

(** ** The container *)

(** [SupplierReviewWorkflow(backend)] over the checkpoints of the process, as [api_runtime], for
    any graph runtime. *)
Definition checkpointed (rt : CompiledGraph (gmap pystr Checkpoint)) : CompiledGraph ApiWorld := {|
  aget_state thread := zoom aw_checkpoints put_checkpoints (aget_state rt thread);
  ainvoke env input thread := zoom aw_checkpoints put_checkpoints (ainvoke rt env input thread);
|}.

(** What a checkpoint of the thread says, if there is one. *)
Definition scoped (thread : pystr) (sc : pystr * pystr * pystr) (m : gmap pystr Checkpoint) : Prop :=
  forall cp, m !! thread = Some cp -> scope (cp_values cp) = sc.

(** An invocation that reads and writes the checkpoint of its thread and keeps its scope. *)
Fixpoint keeps_to (thread : pystr) (sc : pystr * pystr * pystr) {A} (m : prog (gmap pystr Checkpoint) A) : Prop :=
  match m with
  | Step f k =>
      (forall m1 m2, m1 !! thread = m2 !! thread -> scoped thread sc m1 ->
         (f m1).1 = (f m2).1 /\ (f m1).2 !! thread = (f m2).2 !! thread) /\
      (forall m1, scoped thread sc m1 ->
         scoped thread sc (f m1).2 /\ (forall th, th <> thread -> (f m1).2 !! th = m1 !! th) /\ keeps_to thread sc (k (f m1).1))
  | _ => True
  end.

(** LangGraph keeps one checkpoint for each [thread_id]; the values of an input or of the
    checkpoint it resumes stay the values of a key no node writes. *)
Record checkpoint_laws (rt : CompiledGraph (gmap pystr Checkpoint)) : Prop := {
  cl_get thread : section (aget_state rt thread) (fun m => (Ok (m !! thread), m));
  cl_input env st thread : keeps_to thread (scope st) (ainvoke rt env (Input st) thread);
  cl_resume env v thread sc : keeps_to thread sc (ainvoke rt env (Resume v) thread);
}.

(** ** Changes of one record *)

Lemma put_aw_cases_same s : put_aw_cases (aw_cases s) s = s.
Proof. by destruct s as [[]]. Qed.
Lemma put_checkpoints_same s : put_checkpoints (aw_checkpoints s) s = s.
Proof. by destruct s. Qed.
Lemma put_chunks_same s : put_chunks (aw_chunks s) s = s.
Proof. by destruct s. Qed.
Definition put_case (i : UUID) (c : SupplierCase) (s : ApiWorld) : ApiWorld :=
  put_aw_cases (InMemoryCaseRepository.set_cases (<[i := c]> (the_cases s)) (aw_cases s)) s.
Definition put_review (r : ReviewResult) (s : ApiWorld) : ApiWorld :=
  put_aw_cases (InMemoryCaseRepository.set_reviews (InMemoryCaseRepository.push (rv_case_id r) r (the_reviews s))
    (<[rv_review_id r := r]> (the_reviews_by_id s)) (aw_cases s)) s.
Definition put_event (i : UUID) (e : AuditEvent) (s : ApiWorld) : ApiWorld :=
  put_aw_cases (InMemoryCaseRepository.set_events (InMemoryCaseRepository.push i e (the_events s)) (aw_cases s)) s.
Definition put_actions (m : InMemoryActionRepository.t) (s : ApiWorld) : ApiWorld :=
  put_aw_stores {| mw_actions := m; mw_cases := aw_cases s; mw_receipts := mw_receipts (aw_stores s) |} s.

Lemma insert_alike {V} (m1 m2 : gmap UUID V) i v j : m1 !! j = m2 !! j -> <[i := v]> m1 !! j = <[i := v]> m2 !! j.
Proof. intros H. rewrite !lookup_insert. by case_decide. Qed.

Section changes.
Context (o : owners) (t : pystr).

#[local] Abbreviation hides := (hidden (tenancy o) (sees o) t).

(** A record of [t] is at no key another party sees. *)
Ltac elsewhere := split; intros; cbn; try done; unfold InMemoryCaseRepository.push;
  symmetry; (apply lookup_insert_ne || apply lookup_delete_ne); unfold action_key; intros ?; simplify_eq; congruence.
(** The same record put in two states that look alike to [t]. *)
Ltac same_place H := destruct H as [A1 A2 A3 A4 A5 A6 A7 A8];
  split; intros; cbn; unfold InMemoryCaseRepository.push; rewrite ?lookup_insert; repeat case_decide; simplify_eq; rewrite ?A2, ?A3 by done; auto.

Lemma hides_case i c s : tenancy o s -> case_owner o i = t -> owned_case o i c -> hides s (put_case i c s).
Proof.
  intros [] Hi Hc. split; [|intros t' Ht'; elsewhere]. split; cbn; try done. by apply map_Forall_insert_2.
Qed.

Lemma alike_case i c s1 s2 : sees o t s1 s2 -> sees o t (put_case i c s1) (put_case i c s2).
Proof. intros H. same_place H. Qed.

Lemma hides_review r s :
  tenancy o s -> case_owner o (rv_case_id r) = t -> execution_owner o (rv_review_id r) = t -> hides s (put_review r s).
Proof. intros [] Hc Hr. split; [by split|intros t' Ht'; elsewhere]. Qed.

Lemma alike_review r s1 s2 : case_owner o (rv_case_id r) = t -> sees o t s1 s2 -> sees o t (put_review r s1) (put_review r s2).
Proof. intros Hc H. same_place H. Qed.

Lemma hides_event i e s : tenancy o s -> case_owner o i = t -> hides s (put_event i e s).
Proof. intros [] Hc. split; [by split|intros t' Ht'; elsewhere]. Qed.

Lemma alike_event i e s1 s2 : case_owner o i = t -> sees o t s1 s2 -> sees o t (put_event i e s1) (put_event i e s2).
Proof. intros Hc H. same_place H. Qed.

Lemma hides_chunks i l s : tenancy o s -> case_owner o i = t -> hides s (put_chunks (<[i := l]> (aw_chunks s)) s).
Proof. intros [] Hc. split; [by split|intros t' Ht'; elsewhere]. Qed.

Lemma alike_chunks i l s1 s2 : sees o t s1 s2 ->
  sees o t (put_chunks (<[i := l]> (aw_chunks s1)) s1) (put_chunks (<[i := l]> (aw_chunks s2)) s2).
Proof. intros []. split; intros; try (cbn; auto; done). by apply (insert_alike (aw_chunks s1) (aw_chunks s2)); auto. Qed.

Lemma hides_store a s : tenancy o s -> owned_action o (ga_id a) a -> ga_tenant_id a = t ->
  hides s (put_actions (InMemoryActionRepository.store a (mw_actions (aw_stores s))) s).
Proof.
  intros [] Ha Ht. pose proof Ha as (_ & Hown & _). rewrite Ht in Hown. split; [|intros t' Ht'; elsewhere].
  split; cbn; try done; apply map_Forall_insert_2; try done. cbn. by rewrite Ht.
Qed.

Lemma hides_unstore a s : tenancy o s -> owned_action o (ga_id a) a -> ga_tenant_id a = t ->
  hides s (put_actions (InMemoryActionRepository.unstore a (mw_actions (aw_stores s))) s).
Proof.
  intros [] (_ & Hown & _) Ht. rewrite Ht in Hown. split.
  - split; cbn; try done; by apply map_Forall_delete.
  - intros t' Ht'. elsewhere.
Qed.

Lemma hides_action i a s : tenancy o s -> action_owner o i = t -> owned_action o i a ->
  hides s (put_actions (InMemoryActionRepository.set_action i a (mw_actions (aw_stores s))) s).
Proof.
  intros [] Hi Ha. split; [|intros t' Ht'; elsewhere]. split; cbn; try done. by apply map_Forall_insert_2.
Qed.

(** The same change of the action store, where it depends on what [t] sees. *)
Lemma alike_actions (f : InMemoryActionRepository.t -> InMemoryActionRepository.t) s1 s2 :
  (forall m1 m2 : InMemoryActionRepository.t,
     (forall i, action_owner o i = t -> InMemoryActionRepository.actions m1 !! i = InMemoryActionRepository.actions m2 !! i) ->
     (forall k, InMemoryActionRepository.idempotency m1 !! (t, k) = InMemoryActionRepository.idempotency m2 !! (t, k)) ->
     (forall i, action_owner o i = t -> InMemoryActionRepository.actions (f m1) !! i = InMemoryActionRepository.actions (f m2) !! i) /\
     (forall k, InMemoryActionRepository.idempotency (f m1) !! (t, k) = InMemoryActionRepository.idempotency (f m2) !! (t, k))) ->
  sees o t s1 s2 ->
  sees o t (put_actions (f (mw_actions (aw_stores s1))) s1) (put_actions (f (mw_actions (aw_stores s2))) s2).
Proof.
  intros Hf [A1 A2 A3 A4 A5 A6 A7 A8]. destruct (Hf _ _ A7 A8) as [B7 B8]. split; cbn; auto.
Qed.
End changes.

(** ** Calls on a tenant's own records *)

Section calls.
Context (o : owners) (t : pystr).

#[local] Abbreviation own m P := (confined (tenancy o) (sees o) t m P).
#[local] Abbreviation hides := (hidden (tenancy o) (sees o) t).

Lemma hides_nothing s : tenancy o s -> hides s s.
Proof. apply hidden_refl, _. Qed.

Lemma case_reads_section {A} (f : InMemoryCaseRepository.t -> result A) :
  section (zoom aw_cases put_aw_cases (reads f)) (fun s => (f (aw_cases s), s)).
Proof. eapply section_ext; [apply section_zoom, section_atomic|]. intros s. cbn. by rewrite put_aw_cases_same. Qed.

Lemma own_case_reads {A} (f : InMemoryCaseRepository.t -> result A) (P : result A -> Prop) :
  (forall s, tenancy o s -> P (f (aw_cases s))) ->
  (forall s1 s2, sees o t s1 s2 -> f (aw_cases s1) = f (aw_cases s2)) ->
  own (zoom aw_cases put_aw_cases (reads f)) P.
Proof. intros HP Hf. eapply confined_reads; [apply _|apply case_reads_section|done|]. intros s1 s2 _ _. apply Hf. Qed.

Lemma own_get i : case_owner o i = t ->
  own (zoom aw_cases put_aw_cases (InMemoryCaseRepository.get i)) (fun r => forall c, r = Ok c -> owned_case o i c).
Proof.
  intros Hi. apply own_case_reads.
  - intros s Hs c. destruct (the_cases s !! i) as [c'|] eqn:E; [|done]. intros [= <-]. by apply (tn_cases _ _ Hs).
  - intros s1 s2 Hs. by rewrite (see_cases _ _ _ _ Hs).
Qed.

Lemma own_create_case c : case_owner o (case_id c) = t -> case_tenant_id c = t -> own (create_case c) (fun r => r = Ok c).
Proof.
  intros Hi Ht. eapply confined_section; [apply section_zoom, section_atomic|..]; cbn [fst snd].
  - intros s Hs. split; [|done]. apply (hides_case o t (case_id c)); [done..|]. by split; [|rewrite Hi].
  - intros s1 s2 _ _ Hs. split; [|done]. by apply (alike_case o t (case_id c) c).
Qed.

Lemma own_set_status fr i st : case_owner o i = t -> own (Cases.set_status fr i st) (fun _ => True).
Proof.
  intros Hi. eapply confined_section; [apply section_zoom, section_atomic|..]; cbn [fst snd].
  - intros s Hs. split; [|done]. destruct (the_cases s !! i) as [c|] eqn:E; cbn [snd]; [|rewrite put_aw_cases_same; by apply hides_nothing].
    apply (hides_case o t i); [done..|]. by apply (tn_cases _ _ Hs) in E.
  - intros s1 s2 _ _ Hs. rewrite <- (see_cases _ _ _ _ Hs i Hi).
    destruct (the_cases s1 !! i) as [c|]; cbn [fst snd]; [|by rewrite !put_aw_cases_same]. split; [|done].
    by apply (alike_case o t i (with_status c st (now fr))).
Qed.

Lemma own_save_review r : case_owner o (rv_case_id r) = t -> execution_owner o (rv_review_id r) = t ->
  own (save_review r) (fun _ => True).
Proof.
  intros Hc Hr. eapply confined_section; [apply section_zoom, section_atomic|..]; cbn [fst snd].
  - intros s Hs. split; [|done]. destruct (the_reviews_by_id s !! rv_review_id r) as [r0|]; cbn [snd];
      [rewrite put_aw_cases_same; by apply hides_nothing|]. by apply (hides_review o t r).
  - intros s1 s2 _ _ Hs. rewrite <- (see_reviews_by_id _ _ _ _ Hs _ Hr).
    destruct (the_reviews_by_id s1 !! rv_review_id r) as [r0|]; cbn [fst snd]; [by rewrite !put_aw_cases_same|]. split; [|done].
    by apply (alike_review o t r).
Qed.

Lemma own_get_review eid : execution_owner o eid = t -> own (get_review eid) (fun _ => True).
Proof.
  intros Hi. apply own_case_reads; [done|]. intros s1 s2 Hs. by rewrite (see_reviews_by_id _ _ _ _ Hs).
Qed.

Lemma own_get_latest_review i : case_owner o i = t -> own (get_latest_review i) (fun _ => True).
Proof.
  intros Hi. eapply confined_zoom_bind; [by apply own_get| |done]. intros _ _. apply own_case_reads; [done|].
  intros s1 s2 Hs. unfold InMemoryCaseRepository.get_list. by rewrite (see_reviews _ _ _ _ Hs).
Qed.

Lemma own_list_audit_events i : case_owner o i = t -> own (list_audit_events i) (fun _ => True).
Proof.
  intros Hi. eapply confined_zoom_bind; [by apply own_get| |done]. intros _ _. apply own_case_reads; [done|].
  intros s1 s2 Hs. unfold InMemoryCaseRepository.get_list. by rewrite (see_events _ _ _ _ Hs).
Qed.

Lemma own_append_audit_event fr e : case_owner o (ae_case_id e) = t -> own (append_audit_event fr e) (fun _ => True).
Proof.
  intros Hi. eapply confined_zoom_bind; [by apply own_get| |done]. intros _ _.
  eapply confined_section; [apply section_zoom, section_atomic|..]; cbn [fst snd].
  - intros s Hs. split; [|done]. by apply (hides_event o t (ae_case_id e)).
  - intros s1 s2 _ _ Hs. split; [|done]. by apply (alike_event o t (ae_case_id e)).
Qed.

(** ** Retrieval *)

Lemma own_zoom_of_result {U A} (get : ApiWorld -> U) put (r : result A) : own (zoom get put (of_result r)) (fun r' => r' = r).
Proof. by destruct r. Qed.

Lemma own_index_case uuid5 embeddings chunker c : case_owner o (case_id c) = t ->
  own (index_case (RetrievalService := api_retrieval uuid5 embeddings chunker) c) (fun _ => True).
Proof.
  intros Hi. do 3 (eapply confined_zoom_bind; [apply own_zoom_of_result| |done]; intros ? _).
  eapply confined_zoom_bind; [|intros [] _; eapply confined_mono; [|apply own_zoom_of_result]; done|done].
  eapply (confined_section _ _ _ _ _ (fun _ => True)); [apply section_zoom, section_atomic|..]; cbn [fst snd].
  - intros s Hs. split; [|done]. by apply (hides_chunks o t (case_id c)).
  - intros s1 s2 _ _ Hs. split; [|done]. by apply (alike_chunks o t (case_id c)).
Qed.

Lemma own_search uuid5 embeddings chunker i query limit : case_owner o i = t ->
  own (search (RetrievalService := api_retrieval uuid5 embeddings chunker) i query limit) (fun _ => True).
Proof.
  intros Hi. do 2 (eapply confined_zoom_bind; [apply own_zoom_of_result| |done]; intros ? _).
  eapply confined_section; [apply section_zoom, section_atomic|..]; cbn [fst snd].
  - intros s Hs. rewrite put_chunks_same. auto using hides_nothing.
  - intros s1 s2 _ _ Hs. rewrite !put_chunks_same. split; [done|].
    pose proof (see_chunks _ _ _ _ Hs i Hi) as E. unfold InMemoryRetrievalService.t in *. by rewrite E.
Qed.

(** ** Checkpoints *)

Section runtime.
Context (rt : CompiledGraph (gmap pystr Checkpoint)) (rt_laws : checkpoint_laws rt).

Lemma aget_state_section thread : section (aget_state (checkpointed rt) thread) (fun s => (Ok (aw_checkpoints s !! thread), s)).
Proof. eapply section_ext; [apply section_zoom, (cl_get _ rt_laws)|]. intros s. cbn. by rewrite put_checkpoints_same. Qed.

Lemma scoped_tenancy s eid : tenancy o s -> scoped (str_uuid eid) (scope_of o eid) (aw_checkpoints s).
Proof. intros Hs cp Hcp. destruct (tn_checkpoints _ _ Hs _ _ Hcp) as (eid' & E%str_uuid_inj & Hsc). by subst eid'. Qed.

Lemma own_aget_state eid : execution_owner o eid = t ->
  own (aget_state (checkpointed rt) (str_uuid eid))
      (fun r => exists x, r = Ok x /\ forall cp, x = Some cp -> scope (cp_values cp) = scope_of o eid).
Proof.
  intros He. eapply confined_reads; [apply _|apply aget_state_section|..]; cbn beta.
  - intros s Hs. eexists. split; [done|]. by apply scoped_tenancy.
  - intros s1 s2 _ _ Hs. by rewrite (see_checkpoints _ _ _ _ Hs).
Qed.

Lemma tenancy_checkpoints (s : ApiWorld) (eid : UUID) (m : gmap pystr Checkpoint) :
  tenancy o s -> scoped (str_uuid eid) (scope_of o eid) m ->
  (forall th, th <> str_uuid eid -> m !! th = aw_checkpoints s !! th) -> tenancy o (put_checkpoints m s).
Proof.
  intros [] Hm Hoth. split; cbn; try done. intros th cp Hcp. destruct (decide (th = str_uuid eid)) as [->|Hth].
  - exists eid. split; [done|]. by apply Hm.
  - rewrite Hoth in Hcp by done. by apply tn_checkpoints0.
Qed.

Lemma own_keeps_to {A} (eid : UUID) (m : prog (gmap pystr Checkpoint) A) : execution_owner o eid = t ->
  keeps_to (str_uuid eid) (scope_of o eid) m -> own (zoom aw_checkpoints put_checkpoints m) (fun _ => True).
Proof.
  intros He. unfold confined. induction m as [a|e|X f k IH]; [done|done|]. intros [Hsame Hkeep] s1 s2 H1 H2 Hs.
  pose proof (Hsame _ _ (see_checkpoints _ _ _ _ Hs eid He) (scoped_tenancy s1 eid H1)) as [Er Em].
  destruct (Hkeep _ (scoped_tenancy s1 eid H1)) as (Hm1 & Ho1 & Hk), (Hkeep _ (scoped_tenancy s2 eid H2)) as (Hm2 & Ho2 & _).
  assert (hide : forall s m', tenancy o s -> scoped (str_uuid eid) (scope_of o eid) m' ->
    (forall th, th <> str_uuid eid -> m' !! th = aw_checkpoints s !! th) -> hides s (put_checkpoints m' s)).
  { intros s m' Hten Hsc Hoth. split; [by apply (tenancy_checkpoints s eid)|]. intros t' Ht'. split; intros; cbn; try done.
    symmetry. apply Hoth. intros E%str_uuid_inj. congruence. }
  destruct (f (aw_checkpoints s1)) as [r1 m1] eqn:E1, (f (aw_checkpoints s2)) as [r2 m2] eqn:E2. cbn [fst snd] in *. subst r2.
  split_and!; [by apply hide|by apply hide| |by apply IH].
  destruct Hs. split; cbn; auto. intros j Hj. destruct (decide (str_uuid j = str_uuid eid)) as [E|E]; [by rewrite E|].
  rewrite Ho1, Ho2 by done. auto.
Qed.
End runtime.

(** ** Actions *)

Lemma get_action_section i : section (get_action i) (fun s => (of_option (action_not_found i) (the_actions s !! i), s)).
Proof. eapply section_ext; [apply section_zoom, section_zoom, section_atomic|]. by intros [[] ? ?]. Qed.

Lemma own_get_action i : action_owner o i = t -> own (get_action i) (fun r => forall a, r = Ok a -> owned_action o i a).
Proof.
  intros Hi. eapply confined_reads; [apply _|apply get_action_section|..]; cbn beta.
  - intros s Hs a. destruct (the_actions s !! i) as [a'|] eqn:E; [|done]. intros [= <-]. by apply (tn_actions _ _ Hs).
  - intros s1 s2 _ _ Hs. by rewrite (see_actions _ _ _ _ Hs).
Qed.

Lemma audit_written fr e c :
  InMemoryActionRepository.write_audit container_audit_writer fr e c =
  match InMemoryCaseRepository.cases c !! ae_case_id e with
  | Some _ => (Ok tt, InMemoryCaseRepository.set_events (InMemoryCaseRepository.push (ae_case_id e)
      {| event_create := e; event_id := new_event_id fr; event_created_at := now fr |} (InMemoryCaseRepository.events c)) c)
  | None => (Raise (case_not_found (ae_case_id e)), c)
  end.
Proof.
  unfold InMemoryActionRepository.write_audit, container_audit_writer, InMemoryCaseRepository.append_audit_event, InMemoryCaseRepository.get.
  rewrite run_bind, run_reads. by destruct (_ !! ae_case_id e).
Qed.

Abbreviation stored fr e := {| event_create := e; event_id := new_event_id fr; event_created_at := now fr |}.

Lemma create_proposal_section fr a e m : section (create_proposal fr a e m) (fun s =>
  match the_keys s !! action_key a with
  | Some i => (of_option (OtherError (u "KeyError") (str_uuid i)) ((fun b => (b, false)) <$> the_actions s !! i), s)
  | None =>
      match the_cases s !! ae_case_id e with
      | Some _ => (Ok (a, true),
          put_actions (InMemoryActionRepository.store a (mw_actions (aw_stores s))) (put_event (ae_case_id e) (stored fr e) s))
      | None => (Raise (case_not_found (ae_case_id e)),
          put_actions (InMemoryActionRepository.unstore a (InMemoryActionRepository.store a (mw_actions (aw_stores s)))) s)
      end
  end).
Proof.
  eapply section_ext; [apply section_zoom, section_zoom, section_atomic|]. intros [[acts c rs] cps chs]. cbn.
  destruct (_ !! action_key a); [done|]. rewrite audit_written. by destruct (_ !! ae_case_id e).
Qed.

Lemma save_transition_section fr a e expected : section (save_transition fr a e expected) (fun s =>
  match the_actions s !! ga_id a with
  | None => (Raise (action_not_found (ga_id a)), s)
  | Some current =>
      if bool_decide (ga_status current <> expected)
      then (Raise (transition_conflict (ga_id a) (ga_status current)), s)
      else
        let stores := InMemoryActionRepository.set_action (ga_id a) a (mw_actions (aw_stores s)) in
        match the_cases s !! ae_case_id e with
        | Some _ => (Ok a, put_actions stores (put_event (ae_case_id e) (stored fr e) s))
        | None => (Raise (case_not_found (ae_case_id e)),
            put_actions (InMemoryActionRepository.set_action (ga_id a) current stores) s)
        end
  end).
Proof.
  eapply section_ext; [apply section_zoom, section_zoom, section_atomic|]. intros [[acts c rs] cps chs]. cbn.
  destruct (_ !! ga_id a); [|done]. case_bool_decide; [done|]. rewrite audit_written. by destruct (_ !! ae_case_id e).
Qed.

Lemma own_create_proposal fr a e m : owned_action o (ga_id a) a -> ga_tenant_id a = t -> case_owner o (ae_case_id e) = t ->
  own (create_proposal fr a e m) (fun r => forall b new, r = Ok (b, new) -> ga_tenant_id b = t).
Proof.
  intros Ha Ht He. eapply confined_section; [apply create_proposal_section|..]; cbn beta.
  - intros s Hs. destruct (the_keys s !! action_key a) as [i|] eqn:Ek; cbn [fst snd].
    { split; [by apply hides_nothing|]. intros b new. destruct (the_actions s !! i) as [b'|] eqn:Eb; [|done]. intros [= <- <-].
      destruct (tn_actions _ _ Hs _ _ Eb) as (_ & -> & _). rewrite (tn_keys _ _ Hs _ _ Ek). done. }
    destruct (the_cases s !! ae_case_id e); cbn [fst snd]; (split; [|intros b new; (done || by intros [= <- _])]).
    + eapply hidden_trans; [apply _|by apply (hides_event o t (ae_case_id e) (stored fr e))|]. apply (hides_store o t a (put_event (ae_case_id e) (stored fr e) s)); [|done..].
      by apply (hides_event o t (ae_case_id e) (stored fr e) s).
    + eapply hidden_trans; [apply _|by apply (hides_store o t a s)|]. apply (hides_unstore o t a (put_actions _ s)); [|done..].
      by apply (hides_store o t a s).
  - intros s1 s2 H1 H2 Hs. pose proof (see_keys _ _ _ _ Hs (ga_idempotency_key a)) as Ek. rewrite <- Ht in Ek at 1 2.
    change (ga_tenant_id a, ga_idempotency_key a) with (action_key a) in Ek. rewrite <- Ek.
    destruct (the_keys s1 !! action_key a) as [i|] eqn:E1; cbn [fst snd].
    { split; [done|]. rewrite (see_actions _ _ _ _ Hs); [done|]. rewrite (tn_keys _ _ H1 _ _ E1). done. }
    rewrite (see_cases _ _ _ _ Hs _ He). destruct (the_cases s2 !! ae_case_id e); cbn [fst snd]; (split; [|done]).
    + change (mw_actions (aw_stores s1)) with (mw_actions (aw_stores (put_event (ae_case_id e) (stored fr e) s1))) at 1.
      change (mw_actions (aw_stores s2)) with (mw_actions (aw_stores (put_event (ae_case_id e) (stored fr e) s2))) at 1.
      apply (alike_actions o t (InMemoryActionRepository.store a)); [|by apply alike_event].
      intros m1 m2 A K. split; intros; cbn; rewrite !lookup_insert; case_decide; auto.
    + apply (alike_actions o t (fun m => InMemoryActionRepository.unstore a (InMemoryActionRepository.store a m))); [|done].
      intros m1 m2 A K. split; intros; cbn; rewrite !lookup_delete; case_decide; try done; rewrite !lookup_insert_ne by done; auto.
Qed.

Lemma own_save_transition fr a e expected : owned_action o (ga_id a) a -> ga_tenant_id a = t -> case_owner o (ae_case_id e) = t ->
  own (save_transition fr a e expected) (fun _ => True).
Proof.
  intros Ha Ht He. pose proof Ha as (_ & Hi & _). rewrite Ht in Hi. symmetry in Hi.
  eapply confined_section; [apply save_transition_section|..]; cbn beta.
  - intros s Hs. split; [|done]. destruct (the_actions s !! ga_id a) as [cur|] eqn:Ec; cbn [fst snd]; [|by apply hides_nothing].
    case_bool_decide; cbn [fst snd]; [by apply hides_nothing|]. destruct (the_cases s !! ae_case_id e); cbn [fst snd].
    + eapply hidden_trans; [apply _|by apply (hides_event o t (ae_case_id e) (stored fr e))|].
      apply (hides_action o t (ga_id a) a (put_event (ae_case_id e) (stored fr e) s)); [|done..].
      by apply (hides_event o t (ae_case_id e) (stored fr e) s).
    + eapply hidden_trans; [apply _|by apply (hides_action o t (ga_id a) a s)|].
      apply (hides_action o t (ga_id a) cur (put_actions _ s)); [by apply (hides_action o t (ga_id a) a s)|done|].
      by apply (tn_actions _ _ Hs) in Ec.
  - intros s1 s2 H1 H2 Hs. rewrite <- (see_actions _ _ _ _ Hs _ Hi), <- (see_cases _ _ _ _ Hs _ He).
    destruct (the_actions s1 !! ga_id a) as [cur|]; cbn [fst snd]; [|done]. case_bool_decide; cbn [fst snd]; [done|].
    destruct (the_cases s1 !! ae_case_id e); cbn [fst snd]; (split; [|done]).
    + apply (alike_actions o t (InMemoryActionRepository.set_action (ga_id a) a)
        (put_event (ae_case_id e) (stored fr e) s1) (put_event (ae_case_id e) (stored fr e) s2)); [|by apply alike_event].
      intros m1 m2 A K. split; intros; cbn; [|done]. rewrite !lookup_insert. case_decide; auto.
    + apply (alike_actions o t (fun m => InMemoryActionRepository.set_action (ga_id a) cur (InMemoryActionRepository.set_action (ga_id a) a m))); [|done].
      intros m1 m2 A K. split; intros; cbn; [|done]. rewrite !lookup_insert. case_decide; auto.
Qed.
End calls.
