(* ===== verification/TenancyProofs.v ===== *)
(** * Every request is confined to the tenant of its principal

    The handlers of [Api] on the in-memory container: for a principal who is not an
    administrator, each is confined to the principal's tenant, whatever case, execution
    or action its path names.  A record of another tenant is answered like a missing
    one, but for a decision on an action, which is refused with another status. *)
From S2P Require Import Prelude PyStr Uuid Effects Json Schemas SchemaJson Cases Ledger InMemory Governance.
From S2P Require Import Confinement ModelGateway ReviewGraph ReviewMachine Chunking Retrieval Identity Api ApiWorld Http Tenancy.
From stdpp Require Import gmap.
Import SupplierReviewWorkflow.
Local Open Scope py_scope.

(** ** Snapshots *)

Section snapshots.
Context `{JsonText} `{DT : DatetimeText} `{IsoText} (o : owners) (eid : UUID).

(** What a caller is told about an execution names that execution and its case. *)
Definition reports (ex : ReviewExecution) : Prop :=
  forall r, ex_result ex = Some r -> rv_review_id r = eid /\ rv_case_id r = execution_case o eid.

Lemma result_scope st r : scope st = scope_of o eid -> result_from_state st = Ok r ->
  rv_review_id r = eid /\ rv_case_id r = execution_case o eid.
Proof.
  intros [= _ Hc He] Hr. unfold result_from_state in Hr. destruct (gs_recommendation st), (gs_completed_at st); try done.
  rewrite Hc, He, !uuid_of_str in Hr. cbn [mbind result_bind] in Hr.
  by do 4 (apply bind_Ok in Hr as (? & _ & Hr)); injection Hr as <-.
Qed.

Lemma snapshot_reports cp ex : scope (cp_values cp) = scope_of o eid -> execution_from_snapshot cp = Ok ex -> reports ex.
Proof.
  intros Hsc Hex r Hr. unfold execution_from_snapshot in Hex.
  apply bind_Ok in Hex as (req & _ & Hex). apply bind_Ok in Hex as ([st res] & Hst & Hex).
  apply bind_Ok in Hex as (e' & _ & Hex). apply bind_Ok in Hex as (i' & _ & Hex). injection Hex as <-. cbn in Hr. subst res.
  destruct (gs_cancelled _); [done|]. destruct (is_some (gs_recommendation _)); [|by destruct (is_some req)].
  apply bind_Ok in Hst as (r' & Hr' & [= _ <-]). by eapply result_scope.
Qed.

(** [_validate_scope] admits only a case the execution is of. *)
Lemma validate_scope_spec st c : scope st = scope_of o eid ->
  validate_scope st c eid = Ok tt /\ execution_owner o eid = case_tenant_id c /\ execution_case o eid = case_id c \/
  validate_scope st c eid = Raise (execution_not_found eid).
Proof.
  intros [= Ht Hc He]. unfold validate_scope. rewrite Ht, Hc, He. destruct (_ || _) eqn:E; [by right|left].
  apply orb_false_iff in E as [[E1%negb_false_iff E2%negb_false_iff]%orb_false_iff _].
  apply pystr_eqb_eq in E1, E2. split_and!; [done|done|]. by apply str_uuid_inj.
Qed.
End snapshots.

(** The identifiers drawn or derived for the new records of a request are names of the
    principal's tenant.  The records a path names may be anybody's. *)
Definition belongs (uuid5 : UUID -> pystr -> UUID) (o : owners) (p : Principal) (e : endpoint) : Prop :=
  let t := principal_tenant_id p in
  match e with
  | CreateCase _ i _ => case_owner o i = t
  | ReviewCase i eid => execution_case o eid = i
  | StartReviewExecution i payload => execution_case o (execution_id_for uuid5 t i (es_idempotency_key payload)) = i
  | ProposeCaseAction _ payload _ => action_owner o (uuid5 NAMESPACE_URL (action_name t (apr_idempotency_key payload))) = t
  | _ => True
  end.

(** What a decision on an action of another tenant is answered: that it is another tenant's,
    or that there is none. *)
Definition refused {A} (i : UUID) (r : result A) : Prop :=
  r = Raise (HTTPException HTTP_403_FORBIDDEN (u "The resource belongs to another tenant")) \/
  r = Raise (HTTPException HTTP_404_NOT_FOUND (u "Governed action " ++ str_uuid i ++ u " was not found")).

(** The same outcome, or two refusals of a decision on an action of another tenant. *)
Definition same_answer {A} (o : owners) (t : pystr) (e : endpoint) (r1 r2 : result A) : Prop :=
  r1 = r2 \/
  match e with DecideAction i _ _ => action_owner o i <> t /\ refused i r1 /\ refused i r2 | _ => False end.

Section handlers.
Context `{JT : JsonText} `{DT : DatetimeText} `{IT : IsoText} (uuid5 : UUID -> pystr -> UUID).
Context (embeddings : EmbeddingProvider) (chunker : StructuralChunker).
Context (rt : CompiledGraph (gmap pystr Checkpoint)) (rt_laws : checkpoint_laws rt).

#[local] Instance the_retrieval : RetrievalService ApiWorld := api_retrieval uuid5 embeddings chunker.
Abbreviation graph := (checkpointed rt).

Context (o : owners) (t : pystr).

#[local] Abbreviation agrees := (agree (tenancy o) (sees o) t).
#[local] Abbreviation own m P := (confined (tenancy o) (sees o) t m P).

(** Two outcomes of the same kind, of states that may differ. *)
Definition both {A} (P : result A -> Prop) (r1 r2 : result A) : Prop := P r1 /\ P r2.

(** ** Executions *)

(** A checkpoint has the scope of its execution. *)
Definition has_scope (eid : UUID) (r : result (option Checkpoint)) : Prop :=
  exists x, r = Ok x /\ forall cp, x = Some cp -> scope (cp_values cp) = scope_of o eid.

Lemma any_aget_state eid : agrees (aget_state graph (thread_of eid)) (aget_state graph (thread_of eid)) (both (has_scope eid)).
Proof.
  eapply agree_reads; [apply _|by apply aget_state_section|]. intros s1 s2 H1 H2 _.
  split; (eexists; split; [done|by apply scoped_tenancy]).
Qed.

Lemma own_snapshot_of eid : execution_owner o eid = t ->
  own (snapshot_of graph eid) (fun r => forall ex, r = Ok ex -> reports o eid ex).
Proof.
  intros He. eapply confined_bind; [by apply own_aget_state| |by intros e (x & ? & _)].
  intros x (y & [= <-] & Hsc). destruct x as [cp|]; [|by apply confined_throw]. apply confined_of_result. intros ex. apply snapshot_reports; auto.
Qed.

(** The case decides: an execution of another case is answered like a missing one. *)
Lemma own_get_execution c eid : case_tenant_id c = t ->
  own (get_execution graph c eid) (fun r => forall ex, r = Ok ex -> execution_owner o eid = t /\ execution_case o eid = case_id c /\ reports o eid ex).
Proof.
  intros Ht. destruct (decide (execution_owner o eid = t)) as [He|He].
  - eapply confined_bind; [by apply own_aget_state| |done]. intros x (y & [= <-] & Hsc).
    destruct x as [cp|]; [|by apply confined_throw]. specialize (Hsc cp eq_refl).
    destruct (validate_scope_spec o eid (cp_values cp) c Hsc) as [(-> & ? & ?)| ->]; [|by apply confined_throw].
    apply confined_of_result. intros ex Hex. split_and!; [done..|]. by eapply snapshot_reports.
  - apply agree_bind. eapply agree_mono; [|apply any_aget_state]. intros r1 r2 [(x1 & -> & Hs1) (x2 & -> & Hs2)].
    enough (forall x, (forall cp, x = Some cp -> scope (cp_values cp) = scope_of o eid) ->
      match x with
      | None => Throw (execution_not_found eid)
      | Some cp => _ ← of_result (validate_scope (cp_values cp) c eid); of_result (execution_from_snapshot cp)
      end = Throw (S := ApiWorld) (execution_not_found eid)) as E by (cbn [next]; rewrite !E by done; by split).
    intros [cp|] Hsc; [|done]. destruct (validate_scope_spec o eid (cp_values cp) c (Hsc cp eq_refl)) as [(_ & ? & _)| ->]; [congruence|done].
Qed.

(** The context of a case of [t]. *)
Section own_case.
Context (c : SupplierCase) (eid : UUID).
Context (Hc : owned_case o (case_id c) c) (Ht : case_owner o (case_id c) = t) (He : execution_case o eid = case_id c).

#[local] Lemma own_execution : execution_owner o eid = t.
Proof. unfold execution_owner. by rewrite He. Qed.

Lemma own_start require env started_at :
  own (start graph c eid require env started_at) (fun r => forall ex, r = Ok ex -> reports o eid ex).
Proof.
  destruct Hc as [_ Hct]. eapply confined_bind; [by apply own_aget_state, own_execution| |done].
  intros x (y & [= <-] & Hsc). destruct x as [cp|].
  - specialize (Hsc cp eq_refl). destruct (validate_scope_spec o eid (cp_values cp) c Hsc) as [(-> & _)| ->]; [|by apply confined_throw].
    apply confined_of_result. intros ex Hex. by eapply snapshot_reports.
  - eapply (confined_bind _ _ _ _ _ (fun _ => True)); [|intros [] _; by apply own_snapshot_of, own_execution|done].
    apply (own_keeps_to o t eid); [apply own_execution|].
    enough (scope_of o eid = scope (initial_state c eid require (backend_name (answers env)) started_at)) as -> by apply (cl_input _ rt_laws).
    unfold scope_of, scope, execution_owner, initial_state. cbn. by rewrite He, Hct.
Qed.

Lemma own_run_review env started_at :
  own (run_review graph c eid env started_at) (fun r => forall rv, r = Ok rv -> rv_review_id rv = eid /\ rv_case_id rv = execution_case o eid).
Proof.
  eapply confined_bind; [apply own_start| |done]. intros ex Hex. destruct (ex_result ex) as [r|] eqn:E; [|by apply confined_throw].
  apply confined_ret. intros rv [= <-]. by apply (Hex ex).
Qed.
End own_case.

Lemma own_resume c eid confirmation env : case_tenant_id c = t ->
  own (resume graph c eid confirmation env) (fun r => forall ex, r = Ok ex -> reports o eid ex).
Proof.
  intros Ht. eapply confined_bind; [by apply own_get_execution| |done]. intros ex Hex.
  destruct (Hex ex eq_refl) as (He & _ & Hr). destruct (ex_status ex); try by (apply confined_ret; intros ? [= <-]).
  - by apply confined_throw.
  - eapply (confined_bind _ _ _ _ _ (fun _ => True)); [|intros [] _; by apply own_snapshot_of|done].
    apply (own_keeps_to o t eid); [done|]. apply (cl_resume _ rt_laws).
Qed.

(** ** The handlers of the API *)

Abbreviation nothing := (fun _ => True).

Lemma own_to_http {A} status select (m : prog ApiWorld A) P : own m (gives P) -> own (to_http status select m) (gives P).
Proof. intros Hm. apply gives_catch; [done|]. intros e. apply gives_throw. Qed.

Lemma own_audit fr e : case_owner o (ae_case_id e) = t -> own (audit fr e) (gives nothing).
Proof.
  intros He. apply gives_bind with (P := fun e' => e' = e).
  - apply gives_result. by intros a [_ ->]%construct_Ok.
  - intros ? ->. by apply gives_any, own_append_audit_event.
Qed.

Lemma own_persist_completed_review r fr1 fr2 : case_owner o (rv_case_id r) = t -> execution_owner o (rv_review_id r) = t ->
  own (persist_completed_review r fr1 fr2) (gives nothing).
Proof.
  intros Hc Hr. apply gives_bind with (P := nothing).
  - apply gives_catch; [|intros []; by (apply gives_ret || apply gives_throw)].
    eapply gives_bind; [by apply gives_any, own_get_review|]. intros ? _. by apply gives_ret.
  - intros known _. destruct known; [by apply gives_ret|].
    eapply gives_bind; [by apply gives_any, own_save_review|intros ? _].
    eapply gives_bind; [by apply gives_any, own_set_status|intros ? _].
    eapply gives_bind; [by apply own_audit|intros ? _]. by apply gives_ret.
Qed.

Section principal.
Context (p : Principal) (Hp : principal_tenant_id p = t) (Hadmin : ADMIN ∉ roles p).

(** The cases a principal may open. *)
Definition opened (i : UUID) (c : SupplierCase) : Prop := owned_case o i c /\ case_owner o i = t.

(** What is read of a case of another tenant. *)
Definition foreign_case (i : UUID) (r : result SupplierCase) : Prop :=
  (exists c, r = Ok c /\ case_tenant_id c <> t) \/ r = Raise (case_not_found i).

Lemma any_get_case i : case_owner o i <> t -> agrees (get_case i) (get_case i) (both (foreign_case i)).
Proof.
  intros Hi. eapply agree_reads; [apply _|apply case_reads_section|].
  assert (forall s, tenancy o s -> foreign_case i (of_option (case_not_found i) (the_cases s !! i))) as H.
  { intros s Hs. destruct (the_cases s !! i) as [c|] eqn:E; [left|by right]. exists c. split; [done|].
    destruct (tn_cases _ _ Hs _ _ E) as [_ ->]. done. }
  intros s1 s2 H1 H2 _. by split; apply H.
Qed.

Lemma own_get_authorized_case i : own (get_authorized_case i p) (gives (opened i)).
Proof.
  unfold get_authorized_case. rewrite (bool_decide_false (ADMIN ∈ _)) by done. cbn [negb andb].
  destruct (decide (case_owner o i = t)) as [Hi|Hi].
  - eapply gives_bind; [by apply own_to_http, own_get|]. intros c Hc. eapply gives_bind; [apply gives_raise_if|].
    intros [] _. by apply gives_ret.
  - apply agree_bind, agree_catch. eapply agree_mono; [|by apply any_get_case].
    intros r1 r2 [[(c1 & -> & N1)| ->] [(c2 & -> & N2)| ->]]; cbn; rewrite ?(bool_decide_false (case_tenant_id _ = _)) by congruence;
      by split.
Qed.

(** One call after the other, each by its lemma. *)
Ltac follows L := let x := fresh "x" in eapply gives_bind; [by L|intros x _].
Ltac call L := let x := fresh "x" in eapply gives_bind; [by apply gives_any, L|intros x _].
Ltac finish := by (apply gives_ret || apply gives_throw).

Lemma own_require_analyst : own (require_analyst p) (gives nothing).
Proof. eapply confined_mono; [|apply gives_raise_if]. done. Qed.

Lemma own_create_case_handler payload i now rd : case_owner o i = t -> own (create_case_handler payload p i now rd) (gives nothing).
Proof.
  intros Hi. apply gives_bind with (P := fun c => case_id c = i /\ case_tenant_id c = t).
  { apply gives_result. by intros a [_ ->]%construct_Ok. }
  intros c [Hc Hct]. eapply gives_bind with (P := fun c' => c' = c).
  { eapply confined_mono; [|apply own_create_case; congruence]. by intros r -> a [= <-]. }
  intros ? ->. follows ltac:(apply own_audit; cbn; rewrite Hc). finish.
Qed.

Lemma own_review_case i eid rd : execution_case o eid = i -> own (review_case graph i p eid rd) (gives nothing).
Proof.
  intros He. eapply gives_bind; [apply own_get_authorized_case|]. intros c [Hc Hi]. pose proof Hc as [Hid _].
  follows ltac:(apply own_require_analyst). call own_set_status. follows ltac:(apply own_audit).
  eapply gives_bind.
  { apply gives_catch.
    - eapply own_run_review; rewrite Hid; done.
    - intros e. call own_set_status. follows ltac:(apply own_audit). finish. }
  intros r [Hr Hrc]. follows ltac:(apply own_persist_completed_review; unfold execution_owner; congruence). finish.
Qed.

Lemma own_persist_result eid ex rd : execution_owner o eid = t -> reports o eid ex -> own (persist_result ex rd) (gives nothing).
Proof.
  intros He Hex. unfold persist_result. destruct (ex_result ex) as [r|] eqn:E; [|finish]. destruct (Hex r E) as [Hr Hrc].
  follows ltac:(apply own_persist_completed_review; unfold execution_owner in *; congruence). finish.
Qed.

Lemma own_cancel_case i eid rd : case_owner o i = t -> own (cancel_case i eid p rd) (gives nothing).
Proof. intros Hi. call own_set_status. follows ltac:(apply own_audit). finish. Qed.

Lemma own_start_new c i eid require rd : owned_case o i c -> case_owner o i = t -> execution_case o eid = i ->
  own (start_new graph c i eid p require rd) (gives (reports o eid)).
Proof.
  intros Hc Hi He. pose proof Hc as [<- _]. call own_set_status. follows ltac:(apply own_audit). apply gives_catch; [by apply own_start|].
  intros e. call own_set_status. follows ltac:(apply own_audit). finish.
Qed.

Lemma own_start_review_execution i payload rd :
  execution_case o (execution_id_for uuid5 t i (es_idempotency_key payload)) = i ->
  own (start_review_execution uuid5 graph i payload p rd) (gives nothing).
Proof.
  intros He. eapply gives_bind; [apply own_get_authorized_case|]. intros c [Hc Hi]. pose proof Hc as [Hid Hct].
  follows ltac:(apply own_require_analyst). rewrite Hct, Hi, Hid. set (eid := execution_id_for _ _ _ _) in *.
  assert (execution_owner o eid = t) as Heo by (unfold execution_owner; congruence).
  apply gives_bind with (P := fun found => forall ex, found = Some ex -> reports o eid ex).
  { apply gives_catch; [|intros []; try finish].
    eapply gives_bind; [apply own_get_execution; congruence|]. intros ex (_ & _ & Hex). apply gives_ret. by intros ? [= <-]. }
  intros found Hfound. apply gives_bind with (P := fun ec => reports o eid ec.1).
  { destruct found as [ex|]; [apply gives_ret; by apply Hfound|].
    eapply gives_bind; [by apply own_start_new|]. intros ex Hex. by apply gives_ret. }
  intros [ex created] Hex. cbn [fst] in Hex. eapply gives_bind with (P := nothing); [|intros ? _; finish].
  destruct (ex_status ex).
  - finish.
  - destruct created; [|finish]. follows ltac:(apply own_audit). finish.
  - by eapply own_persist_result.
  - case_bool_decide; [by apply own_cancel_case|finish].
Qed.
Lemma own_get_review_execution i eid : own (get_review_execution graph i eid p) (gives nothing).
Proof.
  eapply gives_bind; [apply own_get_authorized_case|]. intros c [[Hid Hct] Hi]. apply own_to_http.
  eapply confined_mono; [|apply own_get_execution; congruence]. done.
Qed.

Lemma own_resume_review_execution i eid payload rd : own (resume_review_execution graph i eid payload p rd) (gives nothing).
Proof.
  eapply gives_bind; [apply own_get_authorized_case|]. intros c [[Hid Hct] Hi]. follows ltac:(apply own_require_analyst).
  apply gives_bind with (P := fun both => execution_owner o eid = t /\ reports o eid both.2).
  { apply own_to_http, own_to_http. eapply gives_bind; [apply own_get_execution; congruence|]. intros current (Heo & _).
    eapply gives_bind; [apply own_resume; congruence|]. intros ex Hex. by apply gives_ret. }
  intros [current ex] [Heo Hex]. cbn [snd] in Hex. eapply gives_bind with (P := nothing).
  { case_bool_decide; [|finish]. follows ltac:(apply own_audit). finish. }
  intros _ _. eapply gives_bind with (P := nothing); [|intros _ _; finish].
  destruct (ex_status ex); try finish; [by eapply own_persist_result|].
  destruct (_ || _); [by apply own_cancel_case|finish].
Qed.

Lemma own_get_latest_review_handler i : own (get_latest_review_handler i p) (gives nothing).
Proof.
  eapply gives_bind; [apply own_get_authorized_case|]. intros c [_ Hi]. by apply own_to_http, gives_any, own_get_latest_review.
Qed.

Lemma own_list_audit_events_handler i : own (list_audit_events_handler i p) (gives nothing).
Proof. eapply gives_bind; [apply own_get_authorized_case|]. intros c [_ Hi]. by apply gives_any, own_list_audit_events. Qed.

Lemma own_index_case_documents i rd : own (index_case_documents i p rd) (gives nothing).
Proof.
  eapply gives_bind; [apply own_get_authorized_case|]. intros c [[Hid _] Hi]. follows ltac:(apply own_require_analyst).
  eapply gives_bind; [apply gives_any, own_index_case; congruence|]. intros r _. follows ltac:(apply own_audit). finish.
Qed.

Lemma own_search_case_evidence i query limit : own (search_case_evidence i query p limit) (gives nothing).
Proof. eapply gives_bind; [apply own_get_authorized_case|]. intros c [_ Hi]. by apply gives_any, own_search. Qed.

(** ** Governance *)

Lemma own_raise_if (c : bool) e : own (raise_if c e) (gives nothing).
Proof. eapply confined_mono; [|apply gives_raise_if]. done. Qed.

Lemma own_submit a fr : owned_action o (ga_id a) a -> ga_tenant_id a = t -> own (submit a p fr) (gives nothing).
Proof.
  intros Ha Ht. pose proof Ha as (_ & Hi & Hc). apply gives_bind with (P := fun e => e = proposed_event a p).
  { apply gives_result. by intros e [_ ->]%construct_Ok. }
  intros ? ->. apply gives_bind with (P := nothing); [by apply gives_result|]. intros m _.
  eapply gives_bind; [apply gives_any; eapply confined_mono; [|apply own_create_proposal]; cbn; try done; congruence|].
  intros [b new] _. follows ltac:(apply own_raise_if). finish.
Qed.

Lemma own_propose c rv payload now fr : owned_case o (case_id c) c -> case_owner o (case_id c) = t ->
  action_owner o (uuid5 NAMESPACE_URL (action_name t (apr_idempotency_key payload))) = t ->
  own (propose uuid5 c rv payload p now fr) (gives nothing).
Proof.
  intros [_ Hct] Hi Ha. do 3 follows ltac:(apply own_raise_if).
  apply gives_bind with (P := fun a => owned_action o (ga_id a) a /\ ga_tenant_id a = t).
  { apply gives_result. intros a H. unfold proposed_action in H. apply bind_Ok in H as (args & _ & [_ ->]%construct_Ok).
    unfold owned_action. cbn. rewrite Hp, Ha. split_and!; congruence. }
  intros a [Hown Ht]. apply gives_bind with (P := fun a => owned_action o (ga_id a) a /\ ga_tenant_id a = t).
  { by apply gives_ret. }
  intros a' [Hown' Ht']. by apply own_submit.
Qed.

Lemma own_propose_case_action i payload now rd :
  action_owner o (uuid5 NAMESPACE_URL (action_name t (apr_idempotency_key payload))) = t ->
  own (propose_case_action uuid5 i payload p now rd) (gives nothing).
Proof.
  intros Ha. eapply gives_bind; [apply own_get_authorized_case|]. intros c [Hc Hi]. pose proof Hc as [<- _].
  apply gives_catch; [|intros e; finish]. call own_get_latest_review. by apply own_propose.
Qed.

Lemma own_require_tenant tenant : own (require_tenant p tenant) (gives nothing).
Proof. apply own_raise_if. Qed.

(** What is read of an action of another tenant. *)
Definition foreign_action (i : UUID) (r : result GovernedAction) : Prop :=
  (exists a, r = Ok a /\ ga_tenant_id a <> t) \/ r = Raise (action_not_found i).

Lemma any_get_action i : action_owner o i <> t -> agrees (get_action i) (get_action i) (both (foreign_action i)).
Proof.
  intros Hi. eapply agree_reads; [apply _|apply get_action_section|].
  assert (forall s, tenancy o s -> foreign_action i (of_option (action_not_found i) (the_actions s !! i))) as H.
  { intros s Hs. destruct (the_actions s !! i) as [a|] eqn:E; [left|by right]. exists a. split; [done|].
    destruct (tn_actions _ _ Hs _ _ E) as (_ & -> & _). done. }
  intros s1 s2 H1 H2 _. by split; apply H.
Qed.

Lemma own_get_action_handler i : own (get_action_handler i p) (gives nothing).
Proof.
  destruct (decide (action_owner o i = t)) as [Hi|Hi].
  - apply gives_catch; [|intros e; finish]. eapply gives_bind; [by apply own_get_action|]. intros a _.
    follows ltac:(apply own_require_tenant). finish.
  - apply agree_catch, agree_bind. eapply agree_mono; [|by apply any_get_action].
    intros r1 r2 [[(c1 & -> & N1)| ->] [(c2 & -> & N2)| ->]]; cbn; unfold require_tenant;
      rewrite ?(bool_decide_false (ADMIN ∈ _)) by done; rewrite ?(bool_decide_false (principal_tenant_id _ = _)) by congruence;
      by split.
Qed.

Lemma own_decide_action i payload now rd : action_owner o i = t -> own (decide_action i payload p now rd) (gives nothing).
Proof.
  intros Hi. apply gives_catch; [|intros e; finish]. follows ltac:(apply own_raise_if).
  eapply gives_bind; [by apply own_get_action|]. intros a (Hid & Hat & Hac). follows ltac:(apply own_require_tenant).
  do 2 follows ltac:(apply own_raise_if). eapply gives_bind with (P := nothing); [|intros ? _; finish].
  apply gives_catch; [|intros []; finish].
  apply gives_bind with (P := fun e => e = decided_event (with_decision a (decision_status (ar_decision payload)) (subject p) (ar_comment payload) now) p).
  { apply gives_result. by intros e [_ ->]%construct_Ok. }
  intros ? ->. apply gives_any, own_save_transition; cbn; try congruence. split_and!; cbn; congruence.
Qed.
Lemma any_decide_action i payload now rd : action_owner o i <> t ->
  agrees (decide_action i payload p now rd) (decide_action i payload p now rd) (fun r1 r2 => r1 = r2 \/ both (refused i) r1 r2).
Proof.
  intros Hi. apply agree_catch, agree_bind. unfold require_role, raise_if. destruct (negb (has_role p APPROVER)); [by left|].
  cbn [agree next]. apply agree_bind. eapply agree_mono; [|by apply any_get_action].
  intros r1 r2 [[(c1 & -> & N1)| ->] [(c2 & -> & N2)| ->]]; cbn; unfold require_tenant;
    rewrite ?(bool_decide_false (ADMIN ∈ _)) by done; rewrite ?(bool_decide_false (principal_tenant_id _ = _)) by congruence;
    cbn; right; split; (by left) || by right.
Qed.

Lemma own_body {A} (wrap : A -> body) (m : prog ApiWorld A) e :
  own m (gives nothing) -> agrees (wrap <$> m) (wrap <$> m) (same_answer o t e).
Proof.
  intros Hm. apply agree_bind. eapply agree_mono; [|exact Hm]. intros [a|e1] r2 [<- _]; by left.
Qed.

#[local] Hint Resolve own_create_case_handler own_review_case own_start_review_execution own_get_review_execution
  own_resume_review_execution own_get_latest_review_handler own_list_audit_events_handler own_index_case_documents
  own_search_case_evidence own_propose_case_action own_get_action_handler : core.

Lemma any_dispatch limit e rd : belongs uuid5 o p e ->
  agrees (dispatch uuid5 graph limit e p rd) (dispatch uuid5 graph limit e p rd) (same_answer o t e).
Proof.
  intros He. destruct e; cbn [belongs] in He; rewrite ?Hp in He; try (apply own_body; auto; fail).
  - apply own_body. eapply confined_mono; [|apply own_get_authorized_case]. done.
  - destruct (decide (action_owner o i = t)) as [Hi|Hi]; [by apply own_body, own_decide_action|].
    apply agree_bind. eapply agree_mono; [|by apply any_decide_action]. intros r1 r2 [->|[[->| ->] [->| ->]]].
    + destruct r2; by left.
    + by left.
    + right. split_and!; [done|by left|by right].
    + right. split_and!; [done|by right|by left].
    + by left.
Qed.
End principal.
End handlers.
