(* ===== verification/TenancyTheorems.v ===== *)
(** * Tenants do not interfere

    Whatever the requests of other tenants do, and however all of them interleave, a tenant
    is answered as if it were alone, and finds its records as if it were alone. *)
From S2P Require Import Prelude PyStr Uuid Effects Json Schemas SchemaJson Cases Ledger InMemory Governance GovernanceTheorems.
From S2P Require Import Confinement Identity ModelGateway JsonTextCode RemoteModels ModelTheorems ReviewGraph ReviewMachine ReviewRuntime ReviewTheorems.
From S2P Require Import Chunking Retrieval RetrievalTheorems Api ApiWorld Http Tenancy TenancyProofs.
From stdpp Require Import gmap.
Import SupplierReviewWorkflow.
Local Open Scope py_scope.

(** ** The runtime of [ReviewRuntime] keeps one checkpoint for each thread *)

Lemma apply_updates_scope ups st : scope (fold_left apply_update ups st) = scope st.
Proof. revert st. induction ups as [|up ups IH]; intros st; [done|]. cbn [fold_left]. by rewrite IH. Qed.

Lemma drive_scope g env fuel ns v st : scope (cp_values (drive g env fuel ns v st).2) = scope st.
Proof.
  revert ns v st. induction fuel as [|fuel IH]; intros [|n ns] v st; try done. cbn [drive].
  destruct (collect _) as [ups|[]]; try done. cbn zeta. by rewrite IH, apply_updates_scope.
Qed.

(** One section that is about one thread. *)
Lemma keeps_to_atomic (thread : pystr) (sc : pystr * pystr * pystr) {A} (f : gmap pystr Checkpoint -> result A * gmap pystr Checkpoint) :
  (forall m1 m2, m1 !! thread = m2 !! thread -> (f m1).1 = (f m2).1 /\ (f m1).2 !! thread = (f m2).2 !! thread) ->
  (forall m, scoped thread sc m -> scoped thread sc (f m).2 /\ forall th, th <> thread -> (f m).2 !! th = m !! th) ->
  keeps_to thread sc (atomic f).
Proof.
  intros Hsame Hkeep. split; [by intros m1 m2 Hm _; apply Hsame|]. intros m Hm. destruct (Hkeep m Hm).
  split_and!; [done..|]. by destruct (f m).1.
Qed.

Lemma keeps_to_checkpoint (thread : pystr) (sc : pystr * pystr * pystr) (c : Checkpoint) (m : gmap pystr Checkpoint) : scope (cp_values c) = sc ->
  scoped thread sc (<[thread := c]> m) /\ forall th, th <> thread -> <[thread := c]> m !! th = m !! th.
Proof.
  intros Hc. split; [|by intros th Hth; apply lookup_insert_ne]. intros cp. rewrite lookup_insert_eq. by intros [= <-].
Qed.

Lemma in_memory_checkpoint_laws g : checkpoint_laws (in_memory_runtime g).
Proof.
  split.
  - intros thread m. by split.
  - intros env st thread. apply keeps_to_atomic; unfold invoke.
    + intros m1 m2 Hm. destruct (drive _ _ _ _ _ _). cbn [fst snd]. by rewrite !lookup_insert_eq.
    + intros m _. pose proof (drive_scope g env enough (from_start g) None st) as Hsc. destruct (drive _ _ _ _ _ _).
      by apply keeps_to_checkpoint.
  - intros env v thread sc. apply keeps_to_atomic; unfold invoke.
    + intros m1 m2 Hm. rewrite <- Hm. destruct (m1 !! thread) as [c|] eqn:E; [|cbn; by rewrite E]. destruct (drive _ _ _ _ _ _). cbn [fst snd].
      by rewrite !lookup_insert_eq.
    + intros m Hm. destruct (m !! thread) as [c|] eqn:E; [|done].
      pose proof (drive_scope g env enough (cp_next c) (Some v) (cp_values c)) as Hsc. destruct (drive _ _ _ _ _ _).
      apply keeps_to_checkpoint. etrans; [exact Hsc|]. by apply Hm.
Qed.

(** ** Noninterference *)

Section process.
Context `{JT : JsonText} `{DT : DatetimeText} `{IT : IsoText} (uuid5 : UUID -> pystr -> UUID).
Context (embeddings : EmbeddingProvider) (chunker : StructuralChunker) (authenticator : Authenticator) (retrieval_limit : Z).
Context (rt : CompiledGraph (gmap pystr Checkpoint)).

#[local] Instance process_retrieval : RetrievalService ApiWorld := api_retrieval uuid5 embeddings chunker.

(** The program of a request, and the tenant of its principal. *)
Definition thread_for (rq : request) : prog ApiWorld (Z * body) := serve uuid5 (checkpointed rt) authenticator retrieval_limit rq.

Definition principal_of (rq : request) : result Principal := get_principal (@authenticate authenticator (rq_headers rq)).

Definition party (rq : request) : option pystr := to_option (principal_tenant_id <$> principal_of rq).

(** A request of no administrator. *)
Definition admissible (o : owners) (rq : request) : Prop :=
  forall p, principal_of rq = Ok p -> (ADMIN ∉ roles p) /\ belongs uuid5 o p (rq_endpoint rq).

Lemma thread_agrees o rq p : checkpoint_laws rt -> principal_of rq = Ok p -> ADMIN ∉ roles p -> belongs uuid5 o p (rq_endpoint rq) ->
  agree (tenancy o) (sees o) (principal_tenant_id p) (thread_for rq) (thread_for rq)
    (same_answer o (principal_tenant_id p) (rq_endpoint rq)).
Proof.
  intros Hrt E Hadmin Hb. unfold thread_for, serve. fold (principal_of rq). rewrite E. cbn [of_result mbind prog_bind prog_bind_def].
  apply agree_bind. eapply agree_mono; [|by apply any_dispatch]. intros r1 r2 [->|H]; [destruct r2; by left|].
  unfold same_answer. destruct (rq_endpoint rq); try done. destruct H as (Hi & H1 & H2). unfold refused in *.
  by destruct H1 as [->| ->], H2 as [->| ->]; cbn; unfold refused; auto 6.
Qed.

Lemma threads_of_parties o rq : checkpoint_laws rt -> admissible o rq -> of_party (tenancy o) (sees o) (party rq) (thread_for rq).
Proof.
  intros Hrt Hrq. unfold party, thread_for, serve. fold (principal_of rq). destruct (principal_of rq) as [p|e] eqn:E; cbn; [|by eexists].
  destruct (Hrq p E) as [Hadmin Hb]. pose proof (thread_agrees o rq p Hrt E Hadmin Hb) as H.
  unfold thread_for, serve in H. fold (principal_of rq) in H. rewrite E in H. revert H. by apply agree_mono.
Qed.

(** C16. Whatever requests are served together, of any principals who are not administrators, and
    however their calls of the stores, the checkpoints and the index interleave, take away
    the requests of all tenants but one. In the same order, each request of that tenant ends
    in the same status, body or error, or does not end in both; only a decision on an action
    of another tenant, which is refused either way, may be refused as forbidden in one and as
    not found in the other. The tenant's cases, reviews, audit trails, indexed chunks,
    checkpoints and actions end up the same. The identifiers drawn or derived for new records
    are taken to be names of the tenant they are drawn for. *)
Theorem tenants_noninterfere (Hrt : checkpoint_laws rt) o t (rqs : list request) (schedule : list nat) s :
  tenancy o s -> Forall (admissible o) rqs ->
  let threads := thread_for <$> rqs in
  let all := run_schedule schedule threads s in
  let alone := run_schedule (own_moves (party <$> rqs) t schedule) threads s in
  tenancy o all.2 /\ sees o t all.2 alone.2 /\
  forall i rq, rqs !! i = Some rq -> party rq = Some t ->
    option_Forall2 (same_answer o t (rq_endpoint rq)) (all.1 !! i ≫= outcome) (alone.1 !! i ≫= outcome).
Proof.
  intros Hs Hrqs threads all alone. set (Qs i r1 r2 := forall rq, rqs !! i = Some rq -> same_answer (A := Z * body) o t (rq_endpoint rq) r1 r2).
  assert (Forall2 (of_party (tenancy o) (sees o)) (party <$> rqs) threads) as Hp.
  { apply Forall2_fmap, Forall_Forall2_diag. eapply Forall_impl; [exact Hrqs|]. intros rq Hrq. by apply threads_of_parties. }
  destruct (purge (tenancy o) (sees o) Qs (party <$> rqs) t schedule threads threads s s) as (Hall & Hsees & Halike).
  { done. } { done. } { reflexivity. } { done. }
  { intros i (rq & Hrq & Hi)%list_lookup_fmap_Some. exists (thread_for rq), (thread_for rq).
    unfold threads. rewrite list_lookup_fmap, Hi. split; [done|]. split; [done|].
    unfold party in Hrq. destruct (principal_of rq) as [p|] eqn:E; [|done]. injection Hrq as ->.
    destruct (proj1 (Forall_lookup _ _) Hrqs i rq Hi p E). eapply agree_mono; [|by eapply thread_agrees].
    intros r1 r2 Hr rq' Hrq'. by assert (rq' = rq) as -> by congruence. }
  split_and!; [done..|]. intros i rq Hi Ht. destruct (Halike i) as (m1 & m2 & Hm1 & Hm2 & Ha).
  { by rewrite list_lookup_fmap, Hi; cbn; rewrite Ht. }
  subst all alone. rewrite Hm1, Hm2. cbn. apply agree_outcome in Ha. destruct Ha as [r1 r2 Hr|]; constructor. by apply Hr.
Qed.
End process.

(** ** What a decision tells *)

Section decisions.
Context {S : Type} `{!ActionRepository S, !ApprovalWorkflow S, !SupplierSystem S}.

(** Reading an action of another tenant and one that does not exist gets one answer. Deciding
    on them does not: an approver learns which actions of other tenants exist. *)
Theorem decide_reveals_action p i payload t rd a s :
  APPROVER ∈ roles p -> ADMIN ∉ roles p ->
  (run (get_action i) s = (Ok a, s) -> ga_tenant_id a <> principal_tenant_id p ->
   run (decide_action i payload p t rd) s
     = (Raise (HTTPException HTTP_403_FORBIDDEN (u "The resource belongs to another tenant")), s) /\
   run (get_action_handler i p) s
     = (Raise (HTTPException HTTP_404_NOT_FOUND (u "Governed action " ++ str_uuid i ++ u " was not found")), s)) /\
  (run (get_action i) s = (Raise (action_not_found i), s) ->
   run (decide_action i payload p t rd) s
     = (Raise (HTTPException HTTP_404_NOT_FOUND (u "Governed action " ++ str_uuid i ++ u " was not found")), s) /\
   run (get_action_handler i p) s
     = (Raise (HTTPException HTTP_404_NOT_FOUND (u "Governed action " ++ str_uuid i ++ u " was not found")), s)).
Proof.
  intros Happ Hadmin.
  assert (has_role p APPROVER = true) as Hrole by (apply has_role_spec; by left).
  unfold decide_action, get_action_handler, Governance.decide, Governance.get, require_role. rewrite Hrole. split.
  - intros Hget Ht. unfold require_tenant. rewrite (bool_decide_false (ADMIN ∈ _)) by done. autorewrite with py. cbn. rewrite Hget.
    rewrite (bool_decide_false (principal_tenant_id p = _)) by congruence. done.
  - intros Hget. autorewrite with py. cbn. rewrite Hget. done.
Qed.
End decisions.

(** ** Two tenants on one process *)

Section example.
Import History Review Process.

(** The case of [Process] and its execution are [tenant]'s, every other name is [another]'s. *)
Definition two_owners : owners := {|
  case_owner i := if base.decide (i = case_id new_case) then tenant else u "another";
  execution_case eid := if base.decide (eid = run_id) then case_id new_case else uuid 77;
  action_owner i := if base.decide (i = uuid 90) then tenant else u "another" |}.

Definition sent_by (name tenant_id role : pystr) (e : endpoint) : request := {|
  rq_headers := [(u "x-actor-id", name); (u "x-tenant-id", tenant_id); (u "x-roles", role)];
  rq_endpoint := e; rq_readings := readings 3 |}.

Definition other_case : SupplierCaseCreate := {| scc_supplier_name := u "Gears"; scc_description := []; scc_documents := sample_docs |}.

(** The analyst starts a review of the case and the outsider looks at it and tries to decide on an
    action, while it creates and reviews a case of its own; one request has no credentials. *)
Definition together : list request := [
  sent_by (u "ana") tenant (u "analyst") (StartReviewExecution (case_id new_case) start_request);
  sent_by (u "eve") (u "another") (u "analyst") (GetCase (case_id new_case));
  sent_by (u "eve") (u "another") (u "analyst") (GetReviewExecution (case_id new_case) run_id);
  sent_by (u "eve") (u "another") (u "analyst") (CreateCase other_case (uuid 77) 1%Z);
  sent_by (u "eve") (u "another") (u "analyst") (ReviewCase (uuid 77) (uuid 78));
  sent_by (u "ana") [] (u "analyst") (ListAuditEvents (case_id new_case));
  sent_by (u "eve") (u "another") (u "approver") (DecideAction (uuid 90) (verdict AD_APPROVE) 2%Z)].

Definition turns : list nat := concat (replicate 30 [0; 3; 1; 0; 2; 4; 5; 6]).

Abbreviation served := (thread_for id_of hash_provider default_chunker DevelopmentAuthenticator.authenticator 5 (in_memory_runtime review_graph)).
Abbreviation sender := (party DevelopmentAuthenticator.authenticator).

Definition everyone := run_schedule turns (served <$> together) process.
Definition analyst_alone := run_schedule (own_moves (sender <$> together) tenant turns) (served <$> together) process.

(** The status of a response, once there is one. *)
Definition status (m : prog ApiWorld (Z * body)) : option Z :=
  match outcome m with
  | Some (Ok (st, _)) | Some (Raise (HTTPException st _)) => Some st
  | _ => None
  end.

Lemma process_tenancy : tenancy two_owners process.
Proof.
  split; [|intros i a Ha; vm_compute in Ha; discriminate Ha..].
  change (map_Forall (owned_case two_owners) ({[case_id new_case := new_case]} : gmap UUID SupplierCase)). apply map_Forall_singleton. by split.
Qed.

Lemma together_admissible : Forall (admissible id_of DevelopmentAuthenticator.authenticator two_owners) together.
Proof.
  assert (forall name tenant_id role r e p0, principal_of DevelopmentAuthenticator.authenticator (sent_by name tenant_id role e) = Ok p0 ->
    principal_of DevelopmentAuthenticator.authenticator (sent_by name tenant_id role e)
      = Ok {| subject := name; principal_tenant_id := tenant_id; roles := {[r]}; scopes := ∅ |} -> r <> ADMIN ->
    belongs id_of two_owners {| subject := name; principal_tenant_id := tenant_id; roles := {[r]}; scopes := ∅ |} e ->
    (ADMIN ∉ roles p0) /\ belongs id_of two_owners p0 e) as H.
  { intros name tenant_id role r e p0 Hp0 Hp Hr Hb. rewrite Hp in Hp0. injection Hp0 as <-. split; [|done]. cbn. set_solver. }
  repeat (apply Forall_cons; split); [..|done]; intros p0 Hp0; first [vm_compute in Hp0; discriminate Hp0 | idtac];
    first [eapply (H _ _ _ ANALYST); [exact Hp0|vm_compute; reflexivity|done|vm_compute; reflexivity || exact I]
          |eapply (H _ _ _ APPROVER); [exact Hp0|vm_compute; reflexivity|done|exact I]].
Qed.

Lemma tenants_noninterfere_witness :
  status <$> everyone.1 = Some <$> [201; 404; 404; 201; 200; 401; 404]%Z /\
  status <$> analyst_alone.1 = [Some 201%Z; None; None; None; None; Some 401%Z; None] /\
  sees two_owners tenant everyone.2 analyst_alone.2 /\
  everyone.1 !! 0 ≫= outcome = analyst_alone.1 !! 0 ≫= outcome.
Proof.
  split; [vm_compute; reflexivity|]. split; [vm_compute; reflexivity|].
  destruct (tenants_noninterfere id_of hash_provider default_chunker DevelopmentAuthenticator.authenticator 5 (in_memory_runtime review_graph)
    (in_memory_checkpoint_laws review_graph) two_owners tenant together turns process process_tenancy together_admissible) as (_ & Hsees & Hanswers).
  split; [exact Hsees|].
  destruct (Hanswers 0 _ eq_refl ltac:(vm_compute; reflexivity)) as [r1 r2 [H|[]]|]; [by f_equal|reflexivity].
Defined.
End example.
