(* ===== verification/SqlCases.v ===== *)
(** * The PostgreSQL case repository

    [SqlAlchemyCaseRepository] of [packages/persistence/repositories.py] over the
    tables of [Database].  Every statement whose effect other transactions can
    observe separately is one atomic section: [set_status] reads the row and writes
    it back in two, [save_review] looks the review up before it flushes, and the
    queries of one session are separate reads.  The identifiers [uuid4] draws for
    documents and the order in which the database meets unordered rows are
    arguments. *)
From S2P Require Import Prelude PyStr Uuid Effects Json Schemas SchemaJson Cases Database.
Local Open Scope py_scope.

(** The order rows are met in where a statement has no [ORDER BY]. *)
Record RowOrder := {
  finding_order : list FindingRecord -> list FindingRecord;
  document_order : list DocumentRecord -> list DocumentRecord;
  review_order : list ReviewRunRecord -> list ReviewRunRecord;
  event_order : list AuditEventRecord -> list AuditEventRecord;
}.

Module SqlAlchemyCaseRepository.

(** [E(text)] of a [StrEnum] column. *)
Definition enum_of `{StrEnum A} (name : string) (s : pystr) : result A :=
  of_option (ValueError (u "'" ++ s ++ u "' is not a valid " ++ u name)) (of_value s).

(** ** Records from models *)

Definition case_record (c : SupplierCase) : SupplierCaseRecord := {|
  scr_id := case_id c; scr_tenant_id := case_tenant_id c; scr_supplier_name := supplier_name c;
  scr_description := description c; scr_status := value (case_status c);
  scr_created_at := case_created_at c; scr_updated_at := case_updated_at c |}.

Definition document_record (i : UUID) (draw : nat -> UUID) (position : nat) (doc : DocumentInput) :
    DocumentRecord := {|
  dr_id := draw position; dr_case_id := i; dr_title := doc_title doc; dr_position := Z.of_nat position;
  dr_content := doc_content doc; dr_source_uri := doc_source_uri doc; dr_checksum := None;
  dr_metadata_json := [] |}.

(** [DocumentRecord(...) for position, document in enumerate(supplier_case.documents)] *)
Definition document_records (draw : nat -> UUID) (c : SupplierCase) : list DocumentRecord :=
  imap (document_record (case_id c) draw) (documents c).

Definition review_record (r : ReviewResult) : ReviewRunRecord := {|
  rrr_id := rv_review_id r; rrr_case_id := rv_case_id r; rrr_model_backend := rv_model_backend r;
  rrr_decision := Some (value (rec_decision (rv_recommendation r)));
  rrr_rationale := Some (rec_rationale (rv_recommendation r));
  rrr_required_actions_json := rec_required_actions (rv_recommendation r);
  rrr_confidence := Some (rec_confidence (rv_recommendation r));
  rrr_started_at := rv_started_at r; rrr_completed_at := Some (rv_completed_at r) |}.

Definition finding_record (review_id : UUID) (f : Finding) : FindingRecord := {|
  fr_id := finding_id f; fr_review_run_id := review_id; fr_category := value (category f);
  fr_severity := value (severity f); fr_title := finding_title f; fr_summary := summary f;
  fr_evidence_json := dump_Evidence <$> evidence f; fr_remediation := remediation f;
  fr_confidence := finding_confidence f |}.

Definition event_record (e : AuditEvent) : AuditEventRecord := {|
  aer_id := event_id e; aer_case_id := ae_case_id (event_create e);
  aer_event_type := ae_event_type (event_create e); aer_actor_id := ae_actor_id (event_create e);
  aer_payload_json := ae_payload (event_create e); aer_created_at := event_created_at e |}.

(** ** Models from records *)

(** [sorted(record.documents, key=lambda item: item.position)] *)
Definition by_position (a b : DocumentRecord) : Prop := (dr_position a <= dr_position b)%Z.

#[export] Instance by_position_dec : RelDecision by_position.
Proof. intros a b. unfold by_position. apply _. Defined.

Definition document_from_record (r : DocumentRecord) : result DocumentInput :=
  construct valid_DocumentInput
    {| doc_title := dr_title r; doc_content := dr_content r; doc_source_uri := dr_source_uri r |}.

(** [_case_from_record] *)
Definition case_from_record (r : SupplierCaseRecord) (docs : list DocumentRecord) : result SupplierCase :=
  status ← enum_of "CaseStatus" (scr_status r);
  documents ← mapR document_from_record (merge_sort by_position docs);
  construct valid_SupplierCase {|
    case_id := scr_id r; case_tenant_id := scr_tenant_id r; supplier_name := scr_supplier_name r;
    description := scr_description r; case_status := status; documents := documents;
    case_created_at := scr_created_at r; case_updated_at := scr_updated_at r |}.

Definition finding_from_record (r : FindingRecord) : result Finding :=
  category ← enum_of "RiskCategory" (fr_category r);
  severity ← enum_of "Severity" (fr_severity r);
  evidence ← mapR validate_Evidence (fr_evidence_json r);
  construct valid_Finding {|
    finding_id := fr_id r; category := category; severity := severity; finding_title := fr_title r;
    summary := fr_summary r; evidence := evidence; remediation := fr_remediation r;
    finding_confidence := fr_confidence r |}.

Definition incomplete (i : UUID) : exn := ValueError (u "Review " ++ str_uuid i ++ u " is incomplete").

(** [_review_from_records] *)
Definition review_from_records (r : ReviewRunRecord) (fs : list FindingRecord) : result ReviewResult :=
  match rrr_decision r, rrr_completed_at r, rrr_confidence r with
  | Some decision, Some completed_at, Some confidence =>
      findings ← mapR finding_from_record fs;
      decision ← dec_enum (JStr decision);
      recommendation ← construct valid_Recommendation {|
        rec_decision := decision; rec_rationale := default [] (rrr_rationale r);
        rec_required_actions := rrr_required_actions_json r; rec_confidence := confidence |};
      Ok {| rv_review_id := rrr_id r; rv_case_id := rrr_case_id r; rv_findings := findings;
            rv_recommendation := recommendation; rv_model_backend := rrr_model_backend r;
            rv_started_at := rrr_started_at r; rv_completed_at := completed_at |}
  | _, _, _ => Raise (incomplete (rrr_id r))
  end.

Definition event_from_record (r : AuditEventRecord) : result AuditEvent :=
  create ← construct valid_AuditEventCreate {|
    ae_case_id := aer_case_id r; ae_event_type := aer_event_type r; ae_actor_id := aer_actor_id r;
    ae_payload := aer_payload_json r |};
  Ok {| event_create := create; event_id := aer_id r; event_created_at := aer_created_at r |}.

(** ** Queries *)

Definition documents_of (i : UUID) (d : Db) : list DocumentRecord :=
  filter (fun r => dr_case_id r = i) (map_to_list (t_documents d)).*2.

Definition findings_of (i : UUID) (d : Db) : list FindingRecord :=
  filter (fun r => fr_review_run_id r = i) (map_to_list (t_findings d)).*2.

Definition reviews_of (i : UUID) (d : Db) : list ReviewRunRecord :=
  filter (fun r => rrr_case_id r = i) (map_to_list (t_reviews d)).*2.

Definition events_of (i : UUID) (d : Db) : list AuditEventRecord :=
  filter (fun r => aer_case_id r = i) (map_to_list (t_audit d)).*2.

(** [ORDER BY completed_at DESC]; PostgreSQL puts [NULL] first. *)
Definition completed_later (a b : ReviewRunRecord) : Prop :=
  match rrr_completed_at a, rrr_completed_at b with
  | None, _ => True
  | Some _, None => False
  | Some s, Some t => (t <= s)%Z
  end.

#[export] Instance completed_later_dec : RelDecision completed_later.
Proof. intros a b. unfold completed_later. destruct (rrr_completed_at a), (rrr_completed_at b); apply _. Defined.

(** [ORDER BY created_at, id] *)
Definition event_earlier (a b : AuditEventRecord) : Prop :=
  (aer_created_at a < aer_created_at b)%Z \/
  aer_created_at a = aer_created_at b /\ (uuid_int (aer_id a) <= uuid_int (aer_id b))%N.

#[export] Instance event_earlier_dec : RelDecision event_earlier.
Proof. intros a b. unfold event_earlier. apply _. Defined.

(** ** Methods *)

Definition create (draw : nat -> UUID) (c : SupplierCase) : prog Db SupplierCase :=
  atomic (fun d =>
    match flush (RowCase (case_record c) :: (RowDocument <$> document_records draw c)) d with
    | Ok d' => (Ok c, d')
    | Raise e => (Raise e, d)
    end).

Definition get (o : RowOrder) (i : UUID) : prog Db SupplierCase :=
  record ← reads (fun d => Ok (t_cases d !! i));
  match record with
  | None => Throw (case_not_found i)
  | Some record =>
      docs ← reads (fun d => Ok (document_order o (documents_of i d)));
      of_result (case_from_record record docs)
  end.

(** The [UPDATE] of [set_status]: the session writes the columns whose value changed. *)
Definition update_status (read : SupplierCaseRecord) (st : CaseStatus) (t : datetime)
    (r : SupplierCaseRecord) : SupplierCaseRecord := {|
  scr_id := scr_id r; scr_tenant_id := scr_tenant_id r; scr_supplier_name := scr_supplier_name r;
  scr_description := scr_description r;
  scr_status := if pystr_eqb (scr_status read) (value st) then scr_status r else value st;
  scr_created_at := scr_created_at r; scr_updated_at := t |}.

Definition stale_data : exn := OtherError (u "StaleDataError") [].

Definition set_status (o : RowOrder) (fr : Fresh) (i : UUID) (st : CaseStatus) : prog Db SupplierCase :=
  record ← reads (fun d => Ok (t_cases d !! i));
  match record with
  | None => Throw (case_not_found i)
  | Some record =>
      _ ← atomic (fun d =>
            match t_cases d !! i with
            | None => (Raise stale_data, d)
            | Some r => (Ok tt, put_case (update_status record st (now fr) r) d)
            end);
      get o i
  end.

Definition get_review (o : RowOrder) (i : UUID) : prog Db ReviewResult :=
  review ← reads (fun d => Ok (t_reviews d !! i));
  match review with
  | None => Throw (review_not_found i)
  | Some review =>
      findings ← reads (fun d => Ok (finding_order o (findings_of (rrr_id review) d)));
      of_result (review_from_records review findings)
  end.

(** The transaction of [save_review] after the lookup: an [IntegrityError] of the
    flush of the review propagates, one of the commit of the findings is answered by
    [get_review] after a rollback. *)
Definition insert_review (r : ReviewResult) (d : Db) : result bool * Db :=
  match flush [RowReview (review_record r)] d with
  | Raise e => (Raise e, d)
  | Ok d1 =>
      match flush (RowFinding <$> (finding_record (rv_review_id r) <$> rv_findings r)) d1 with
      | Ok d2 => (Ok true, d2)
      | Raise (IntegrityError _) => (Ok false, d)
      | Raise e => (Raise e, d)
      end
  end.

Definition save_review (o : RowOrder) (r : ReviewResult) : prog Db ReviewResult :=
  existing ← reads (fun d => Ok (t_reviews d !! rv_review_id r));
  match existing with
  | Some _ => get_review o (rv_review_id r)
  | None =>
      committed ← atomic (insert_review r);
      if committed : bool then Ret r else get_review o (rv_review_id r)
  end.

Definition get_latest_review (o : RowOrder) (i : UUID) : prog Db ReviewResult :=
  _ ← get o i;
  review ← reads (fun d => Ok (head (merge_sort completed_later (review_order o (reviews_of i d)))));
  match review with
  | None => Throw (no_completed_review i)
  | Some review => get_review o (rrr_id review)
  end.

Definition append_audit_event (o : RowOrder) (fr : Fresh) (e : AuditEventCreate) : prog Db AuditEvent :=
  _ ← get o (ae_case_id e);
  let stored := {| event_create := e; event_id := new_event_id fr; event_created_at := now fr |} in
  atomic (fun d =>
    match flush [RowAudit (event_record stored)] d with
    | Ok d' => (Ok stored, d')
    | Raise err => (Raise err, d)
    end).

Definition list_audit_events (o : RowOrder) (i : UUID) : prog Db (list AuditEvent) :=
  _ ← get o i;
  records ← reads (fun d => Ok (merge_sort event_earlier (event_order o (events_of i d))));
  of_result (mapR event_from_record records).

(** The protocol, for one choice of the arguments. *)
Definition repository (draw : UUID -> nat -> UUID) (o : RowOrder) : CaseRepository Db := {|
  create_case c := create (draw (case_id c)) c;
  get_case := get o;
  Cases.set_status := set_status o;
  Cases.save_review := save_review o;
  Cases.get_latest_review := get_latest_review o;
  Cases.get_review := get_review o;
  Cases.append_audit_event := append_audit_event o;
  Cases.list_audit_events := list_audit_events o;
|}.

End SqlAlchemyCaseRepository.
