(* ===== verification/EntryPoints.v ===== *)
(** * The MCP server and the approval-status function

    [apps/mcp_server/main.py]: the tool that executes an approved action by identifier, as
    one service principal, on the PostgreSQL container.  [apps/approval_status/lambda_handler.py]:
    the status Step Functions polls, read straight from the table. *)
From S2P Require Import Prelude PyStr Uuid Effects Json Schemas SchemaJson Cases Ledger Database InMemory SqlActions.
From S2P Require Import Governance Lifecycle GovernanceProofs GovernanceTheorems GovernanceOutcomes ModelGateway JsonTextCode Outbox OutboxProofs System.
From S2P Require Import SystemTheorems Settings Workers SqlCases.
Local Open Scope py_scope.

(** ** The MCP server *)

Module MCPServer.

Definition service_principal : Principal := {|
  subject := u "service:mcp-supplier-executor"; principal_tenant_id := u "service";
  roles := {[ADMIN; EXECUTOR]}; scopes := ∅ |}.

(** The tool of [create_mcp_server(governance)]. *)
Definition execute_supplier_decision {S} `{!ActionRepository S, !SupplierSystem S} (action_id : UUID) (fr : Fresh) :
    prog S ExecutionReceipt := execute action_id service_principal fr.

Definition requires_postgres : exn :=
  RuntimeError (u "The deployed MCP server requires REPOSITORY_BACKEND=postgres").

(** The tool [_create_runtime_server] serves. *)
Definition create_runtime_server `{DT : DatetimeText} `{EF : EngineFactory} (s : Settings) :
    result (UUID -> Fresh -> prog SqlWorld ExecutionReceipt) :=
  if negb (pystr_eqb (repository_backend s) (u "postgres")) then Raise requires_postgres
  else _ ← create_database_engine (database_url s); Ok execute_supplier_decision.

End MCPServer.

(** ** The approval status *)

Record ApprovalStatusRequest := { asq_action_id : UUID }.

Definition validate_ApprovalStatusRequest (j : json) : result ApprovalStatusRequest :=
  d ← model_fields [u "action_id"] j;
  f_action_id ← field "action_id" dec_uuid d;
  Ok {| asq_action_id := f_action_id |}.

Definition dump_ApprovalStatusResponse (x : ApprovalStatusResponse) : json :=
  JObj [(u "action_id", enc_uuid (asr_action_id x)); (u "status", enc_enum (asr_status x))].

Module ApprovalStatus.
Section handler.
Context `{JsonText} (get_secret_value : pystr -> result (list (pystr * json))) `{EF : EngineFactory, !Engine Db}.

Definition not_found (i : UUID) : exn := RuntimeError (u "Governed action " ++ str_uuid i ++ u " was not found").

(** [ActionStatus(status)] *)
Definition response_of (i : UUID) (status : option pystr) : result ApprovalStatusResponse :=
  match status with
  | None => Raise (not_found i)
  | Some s => st ← SqlAlchemyCaseRepository.enum_of "ActionStatus" s; Ok {| asr_action_id := i; asr_status := st |}
  end.

(** [_read_status] of the settings of the process. *)
Definition read_status (s : Settings) (request : ApprovalStatusRequest) : prog Db ApprovalStatusResponse :=
  settings ← of_result (resolve_database_settings get_secret_value s);
  _ ← of_result (create_database_engine (database_url settings));
  status ← finally (reads (fun d => Ok (option_map gar_status (t_actions d !! asq_action_id request)))) dispose;
  of_result (response_of (asq_action_id request) status).

Definition handler (s : Settings) (event : json) : prog Db json :=
  request ← of_result (validate_ApprovalStatusRequest event);
  response ← read_status s request;
  Ret (dump_ApprovalStatusResponse response).
End handler.
End ApprovalStatus.

(** ** Runs on the database *)

Section runs.
Context `{DT : DatetimeText}.

Lemma run_sql_get i w :
  sql_inv (sw_db w) ->
  run (get_action i) w = (of_option (action_not_found i) (stored_actions (sw_db w) !! i), w).
Proof.
  intros H. cbn [get_action sql_actions]. rewrite run_zoom by (intros []; done).
  unfold SqlAlchemyActionRepository.get. rewrite run_reads, put_db_same. f_equal.
  destruct (t_actions (sw_db w) !! i) as [r|] eqn:E.
  - destruct (si_decode _ H _ _ E) as [a Ha]. rewrite Ha.
    by rewrite (proj2 (stored_actions_Some _ _ _) (ex_intro _ r (conj E Ha))).
  - by rewrite (proj2 (stored_actions_None _ _ H) E).
Qed.

(** What the supplier system answers for an action, and what it then holds. *)
Definition sql_supplied (fr : Fresh) (a : GovernedAction) (w : SqlWorld) : ExecutionReceipt :=
  default {| rc_action_id := ga_id a; rc_external_reference := InMemorySupplierSystem.reference (ga_id a);
             rc_applied_decision := args_decision (ga_arguments a); rc_executed_at := now fr |}
    (sw_receipts w !! ga_idempotency_key a).

Lemma run_sql_supplier fr a w :
  run (set_onboarding_decision fr (ga_id a) (ga_idempotency_key a) (ga_arguments a)) w =
  (Ok (sql_supplied fr a w), put_sw_receipts (<[ga_idempotency_key a := sql_supplied fr a w]> (sw_receipts w)) w).
Proof.
  simpl. unfold sql_supplied. destruct (sw_receipts w !! ga_idempotency_key a) as [rc|] eqn:E; simpl; [|done].
  by rewrite insert_id.
Qed.

(** A transition that meets its preconditions commits. *)
Lemma run_sql_transition fr a e r w :
  t_actions (sw_db w) !! ga_id a = Some r -> gar_status r = value APPROVED ->
  SqlAlchemyActionRepository.changes_fit r a = true ->
  column_fits (RowAudit (SqlAlchemyActionRepository.audit_record fr e)) = true ->
  t_audit (sw_db w) !! new_event_id fr = None -> is_Some (t_cases (sw_db w) !! ae_case_id e) ->
  run (save_transition fr a e APPROVED) w =
  (Ok a, put_db (put_audit (SqlAlchemyActionRepository.audit_record fr e)
           (put_action (SqlAlchemyActionRepository.update_record r a) (sw_db w))) w).
Proof.
  intros Hr Hst Hfit Hef Hn Hc. cbn [save_transition sql_actions]. rewrite run_zoom by (intros []; done).
  unfold SqlAlchemyActionRepository.save_transition. rewrite run_atomic, Hr, Hst, pystr_eqb_refl, Hfit.
  cbn [flush]. unfold flush_row. rewrite Hef. cbn [insert_row]. rewrite (proj2 (absent_true _ _)) by done. by rewrite (proj2 (present_true _ _)).
Qed.
End runs.

(** ** The tool *)

Section tool.
Context `{DT : DatetimeText}.

(** What one call of the tool does to the stored action [a]. *)
Inductive tool_outcome (w : SqlWorld) (i : UUID) (fr : Fresh) : result ExecutionReceipt * SqlWorld -> Prop :=
  | tool_unknown : stored_actions (sw_db w) !! i = None ->
      tool_outcome w i fr (Raise (action_not_found i), w)
  | tool_refused a : stored_actions (sw_db w) !! i = Some a ->
      ga_status a = PENDING_APPROVAL \/ ga_status a = REJECTED ->
      tool_outcome w i fr (Raise (not_approved a), w)
  | tool_replayed a rc : stored_actions (sw_db w) !! i = Some a -> ga_status a = EXECUTED ->
      sw_receipts w !! ga_idempotency_key a = Some rc ->
      tool_outcome w i fr (Ok rc, w)
  | tool_executed a b w' : stored_actions (sw_db w) !! i = Some a -> ga_status a = APPROVED ->
      sw_receipts w' = <[ga_idempotency_key a := sql_supplied fr a w]> (sw_receipts w) ->
      stored_actions (sw_db w') = <[i := b]> (stored_actions (sw_db w)) -> ga_status b = EXECUTED ->
      ga_execution_receipt b = Some (sql_supplied fr a w) -> proposal_of b = proposal_of a ->
      (forall fr', run (MCPServer.execute_supplier_decision i fr') w' = (Ok (sql_supplied fr a w), w')) ->
      tool_outcome w i fr (Ok (sql_supplied fr a w), w').

Lemma service_is_executor {S} (s : S) : run (require_role MCPServer.service_principal EXECUTOR) s = (Ok tt, s).
Proof. rewrite run_require_role. reflexivity. Qed.

Lemma service_in_tenant {S} t (s : S) : run (require_tenant MCPServer.service_principal t) s = (Ok tt, s).
Proof. reflexivity. Qed.

Lemma tool_replays i a rc fr w :
  sql_inv (sw_db w) -> stored_actions (sw_db w) !! i = Some a -> stored_receipt a = Some rc ->
  run (MCPServer.execute_supplier_decision i fr) w = (Ok rc, w).
Proof.
  intros H Ha Hrc. unfold MCPServer.execute_supplier_decision, execute.
  rewrite run_bind, service_is_executor, run_bind, run_sql_get by done. rewrite Ha. cbn [of_option].
  by rewrite run_bind, service_in_tenant, Hrc.
Qed.
End tool.
