(* ===== verification/EntryPointTheorems.v ===== *)
(** * What the MCP server and the approval-status function guarantee

    The tool executes approved actions only, once, for every tenant; the status function
    reports what the governance service reads. *)
From S2P Require Import Prelude PyStr Uuid Effects Json Schemas SchemaJson Cases Ledger Database InMemory SqlActions.
From S2P Require Import Governance Lifecycle GovernanceProofs GovernanceTheorems GovernanceOutcomes ModelGateway JsonTextCode Outbox.
From S2P Require Import OutboxProofs System SystemTheorems Settings Workers WorkerTheorems SqlCases EntryPoints.
Local Open Scope py_scope.

Section tool.
Context `{DT : DatetimeText}.

Lemma sql_supplied_valid fr a w :
  database_ok w -> valid_ExecutionReceipt (sql_supplied fr a w) = true.
Proof.
  intros H. unfold sql_supplied. destruct (sw_receipts w !! ga_idempotency_key a) as [rc|] eqn:E; [|done].
  by apply (wo_receipts _ _ H (ga_idempotency_key a)).
Qed.

(** The approved action is executed and its receipt is on record. *)
Lemma tool_executes i a fr w :
  database_ok w -> stored_actions (sw_db w) !! i = Some a -> ga_status a = APPROVED ->
  is_Some (t_cases (sw_db w) !! ga_case_id a) -> t_audit (sw_db w) !! new_event_id fr = None ->
  tool_outcome w i fr (run (MCPServer.execute_supplier_decision i fr) w).
Proof.
  intros H Ha Hst Hc Hn. pose proof (wo_repo _ _ H) as Hs. change (sql_inv (sw_db w)) in Hs.
  pose proof Ha as (r & Hr & Hdec)%stored_actions_Some.
  pose proof (action_from_record_Ok _ _ Hdec) as (Hid & _ & Hval & Hv). pose proof (si_id _ Hs _ _ Hr) as Hi.
  assert (ga_id a = i) as Hai by congruence.
  set (rc := sql_supplied fr a w). set (b := with_execution a rc).
  assert (valid_GovernedAction b = true) as Hvb
    by (apply valid_with_execution; [done|by apply sql_supplied_valid]).
  set (w1 := put_sw_receipts (<[ga_idempotency_key a := rc]> (sw_receipts w)) w).
  set (e := executed_event b rc MCPServer.service_principal).
  set (d' := put_audit (SqlAlchemyActionRepository.audit_record fr e)
           (put_action (SqlAlchemyActionRepository.update_record r b) (sw_db w))).
  assert (Hrun : run (MCPServer.execute_supplier_decision i fr) w = (Ok rc, put_db d' w1)).
  { unfold MCPServer.execute_supplier_decision, execute.
    rewrite run_bind, service_is_executor, run_bind, run_sql_get by done. rewrite Ha. cbn [of_option].
    rewrite run_bind, service_in_tenant. unfold stored_receipt. rewrite Hst.
    rewrite run_bind, run_raise_if, bool_decide_eq_false_2 by auto.
    rewrite run_bind, run_sql_supplier. fold rc. fold w1. cbv zeta. fold b.
    rewrite run_catch, run_bind. unfold executed_event at 1. rewrite valid_event_actor by done. cbn [of_result run].
    rewrite run_bind. change (Build_AuditEventCreate _ _ _ _) with e. rewrite (run_sql_transition fr b e r w1); [done|simpl; congruence|congruence| |reflexivity|done|done].
    unfold SqlAlchemyActionRepository.changes_fit. by rewrite (proj1 (action_from_record_texts _ _ Hdec)), (proj2 (action_from_record_texts _ _ Hdec)), !bool_decide_eq_true_2. }
  assert (Hdec' : SqlAlchemyActionRepository.action_from_record (SqlAlchemyActionRepository.update_record r b) = Ok (apply_transition a b))
    by (by apply action_from_record_update).
  assert (Hact : stored_actions d' = <[i := apply_transition a b]> (stored_actions (sw_db w))).
  { rewrite <- Hai. by apply (stored_actions_insert (sw_db w) d' (SqlAlchemyActionRepository.update_record r b) (apply_transition a b)). }
  assert (Hs' : sql_inv d').
  { apply (sql_inv_insert (sw_db w) d' (SqlAlchemyActionRepository.update_record r b) (apply_transition a b)); [done|done|done|].
    intros j r' Hj Heq. change (j = gar_id r). rewrite Hi. by apply (si_key _ Hs _ _ r' r). }
  rewrite Hrun. apply (tool_executed _ _ _ a (apply_transition a b)); try done.
  intros fr'. apply (tool_replays i (apply_transition a b)); [done| |done].
  change (stored_actions d' !! i = Some (apply_transition a b)). rewrite Hact. apply lookup_insert_eq.
Qed.

(** C29. The MCP tool of the deployed server executes approved actions by identifier and
    nothing else, whatever their tenant: unknown, pending and rejected actions are
    refused without effect, an executed one answers its receipt again, and an approved
    one is applied to the supplier system once, recorded as executed, and answers the
    same receipt to every later call. *)
Theorem tool_executes_approved_only `{EF : EngineFactory} s tool i fr w :
  MCPServer.create_runtime_server s = Ok tool -> database_ok w ->
  (forall a, stored_actions (sw_db w) !! i = Some a -> is_Some (t_cases (sw_db w) !! ga_case_id a)) ->
  t_audit (sw_db w) !! new_event_id fr = None ->
  repository_backend s = u "postgres" /\ tool_outcome w i fr (run (tool i fr) w).
Proof.
  unfold MCPServer.create_runtime_server. destruct (pystr_eqb _ _) eqn:Hb; [|done]. cbn [negb].
  apply pystr_eqb_eq in Hb. destruct (create_database_engine (database_url s)) as [[]|]; [|done]. cbn [mbind result_bind].
  intros [= <-] H Hc Hn. split; [done|].
  destruct (stored_actions (sw_db w) !! i) as [a|] eqn:Ha.
  2:{ unfold MCPServer.execute_supplier_decision, execute.
      rewrite run_bind, service_is_executor, run_bind, run_sql_get by apply (wo_repo _ _ H). rewrite Ha. by apply tool_unknown. }
  pose proof (reachable_consistent _ (lo_reachable _ _ (wo_ledger _ _ H) _ _ Ha)) as Hcons.
  assert (refused : ga_status a = PENDING_APPROVAL \/ ga_status a = REJECTED ->
    tool_outcome w i fr (run (MCPServer.execute_supplier_decision i fr) w)).
  { intros Hst. assert (stored_receipt a = None) as Hnone by (unfold stored_receipt; by destruct Hst as [-> | ->]).
    unfold MCPServer.execute_supplier_decision, execute.
    rewrite run_bind, service_is_executor, run_bind, run_sql_get by apply (wo_repo _ _ H). rewrite Ha. cbn [of_option].
    rewrite run_bind, service_in_tenant, Hnone, run_bind, run_raise_if, bool_decide_eq_true_2
      by (destruct Hst as [-> | ->]; done). by apply (tool_refused _ _ _ a). }
  destruct (ga_status a) eqn:Hst; unfold consistent in Hcons; rewrite Hst in Hcons.
  - apply refused; auto.
  - by apply (tool_executes i a); auto.
  - apply refused; auto.
  - destruct Hcons as (_ & rc & Hrc & _). rewrite (tool_replays i a rc fr w (wo_repo _ _ H) Ha) by (unfold stored_receipt; by rewrite Hst).
    apply (tool_replayed _ _ _ a); [done|done|]. pose proof (wo_executed _ _ H i a Ha Hst) as Hx. by rewrite <- Hrc, Hx.
  - done.
Qed.
End tool.

(** ** The approval status *)

Section status.
Context `{DT : DatetimeText} `{JsonText} (get_secret_value : pystr -> result (list (pystr * json))).
Context `{EF : EngineFactory, !Engine Db, !EngineLaws Db}.

Lemma validate_status_request i : validate_ApprovalStatusRequest (JObj [(u "action_id", enc_uuid i)]) = Ok {| asq_action_id := i |}.
Proof. unfold validate_ApprovalStatusRequest. json_round_trip. by autorewrite with py. Qed.

(** C30. The status the workflow polls is the status the governance service reads: for a
    valid request the function answers the status of the action [get] returns, and
    fails when there is none; it writes nothing.  A request is refused before the
    database is opened unless it is an object with the one field [action_id]. *)
Theorem status_matches_service s s' event d :
  resolve_database_settings get_secret_value s = Ok s' -> create_database_engine (database_url s') = Ok tt -> sql_inv d ->
  match validate_ApprovalStatusRequest event with
  | Raise e => run (ApprovalStatus.handler get_secret_value s event) d = (Raise e, d)
  | Ok request =>
      let i := asq_action_id request in
      match run (SqlAlchemyActionRepository.get i) d with
      | (Ok a, _) => ga_id a = i /\ run (ApprovalStatus.handler get_secret_value s event) d =
          (Ok (JObj [(u "action_id", enc_uuid i); (u "status", enc_enum (ga_status a))]), d)
      | (Raise e, _) => e = action_not_found i /\
          run (ApprovalStatus.handler get_secret_value s event) d = (Raise (ApprovalStatus.not_found i), d)
      end
  end /\
  (forall i, validate_ApprovalStatusRequest (JObj [(u "action_id", enc_uuid i)]) = Ok {| asq_action_id := i |}) /\
  (forall l k v, (k, v) ∈ l -> k <> u "action_id" ->
     validate_ApprovalStatusRequest (JObj l) = Raise (ValidationError (u "extra_forbidden"))).
Proof.
  intros Hset Heng Hinv. split; [|split; [apply validate_status_request|]].
  - unfold ApprovalStatus.handler. destruct (validate_ApprovalStatusRequest event) as [[i]|e]; [|done].
    rewrite run_bind. cbn [run of_result]. unfold ApprovalStatus.read_status.
    rewrite !run_bind, run_of_result, Hset, run_bind, run_of_result, Heng, run_bind, run_finally, run_reads, run_dispose.
    unfold SqlAlchemyActionRepository.get. rewrite run_reads. cbn [asq_action_id].
    destruct (t_actions d !! i) as [r|] eqn:Er; cbn [option_map]; [|done].
    destruct (si_decode _ Hinv _ _ Er) as [a Ha]. rewrite Ha.
    pose proof (action_from_record_Ok _ _ Ha) as (Hid & _ & Hst & _). split; [rewrite Hid; by apply (si_id _ Hinv)|].
    rewrite run_of_result. unfold ApprovalStatus.response_of, SqlAlchemyCaseRepository.enum_of.
    rewrite <- Hst, of_value_value. done.
  - intros l k v Hk Hne. unfold validate_ApprovalStatusRequest, model_fields.
    destruct (only_keys _ l) eqn:E; [|done]. exfalso. apply Hne.
    unfold only_keys in E. rewrite List.forallb_forall in E. apply list_elem_of_In in Hk. specialize (E _ Hk).
    simpl in E. rewrite orb_false_r in E. by apply pystr_eqb_eq.
Qed.
End status.

(** ** A concrete approval *)

Section witnesses.
Import History LocalApprovalWorkflow.

(** The database once the proposal is approved. *)
Definition approved : SqlWorld := (run_jobs [0;0;2;2]).2.

Lemma approved_ok : system_ok 8 approved.
Proof.
  exact (proj1 (jobs_safe hash 8 limit_positive jobs sql_start _ _ jobs_valid
    sql_start_system_ok (run_jobs_steps [0;0;2;2]))).
Qed.

Definition status_of_action (o : option GovernedAction) : option ActionStatus := ga_status <$> o.

Example approved_action : status_of_action (stored_actions (sw_db approved) !! action) = Some APPROVED.
Proof. vm_compute. reflexivity. Qed.

#[local] Existing Instance WorkerTheorems.lazy_engines.
#[local] Instance db_pool : Engine Db := {| dispose := Ret tt |}.
#[local] Instance db_pool_laws : EngineLaws Db.
Proof. constructor. intros Inv R G Q s _ HR HQ. apply HQ. reflexivity. Qed.

Definition mcp_settings : Settings := WorkerTheorems.worker_settings.

Lemma tool_executes_approved_only_witness :
  repository_backend mcp_settings = u "postgres" /\
  tool_outcome approved action (fresh 9) (run (MCPServer.execute_supplier_decision action (fresh 9)) approved).
Proof.
  apply (tool_executes_approved_only mcp_settings).
  - reflexivity.
  - exact (proj1 approved_ok).
  - assert (map_Forall (fun _ a => is_Some (t_cases (sw_db approved) !! ga_case_id a)) (stored_actions (sw_db approved))) as H
      by (apply (bool_decide_unpack _); vm_compute; exact I).
    intros a Ha. exact (H action a Ha).
  - apply (bool_decide_unpack _). vm_compute. exact I.
Defined.

Definition no_secret (_ : pystr) : result (list (pystr * json)) := Raise (ClientError None).
Definition poll_event : json := JObj [(u "action_id", enc_uuid action)].

Lemma status_matches_service_witness :
  run (ApprovalStatus.handler no_secret mcp_settings poll_event) (sw_db approved) =
  (Ok (JObj [(u "action_id", enc_uuid action); (u "status", JStr (u "approved"))]), sw_db approved).
Proof.
  destruct (status_matches_service (EF := WorkerTheorems.lazy_engines) no_secret mcp_settings mcp_settings poll_event (sw_db approved) eq_refl eq_refl
    (wo_repo _ _ (proj1 approved_ok))) as (H & Hreq & _).
  unfold poll_event in H. rewrite Hreq in H. cbv zeta in H. cbn [asq_action_id] in H.
  assert (status_of_action (to_option (run (SqlAlchemyActionRepository.get action) (sw_db approved)).1) = Some APPROVED) as Hst
    by (vm_compute; reflexivity).
  destruct (run (SqlAlchemyActionRepository.get action) (sw_db approved)) as [[a|e] d]; [|discriminate Hst].
  destruct H as [_ H]. cbn in Hst. assert (ga_status a = APPROVED) as Ha by congruence. rewrite Ha in H. exact H.
Defined.
End witnesses.
