(* ===== verification/PgVector.v ===== *)
(** * The pgvector retrieval service

    [PgVectorRetrievalService] of [packages/retrieval/service.py] over the tables of
    [Database].  A stored vector and the vector a search binds are rounded to the single
    precision of [VECTOR] ([float4]).  Parameters stand for the database's own choices: the order in which
    rows without [ORDER BY] are met, the cosine distance of two vectors ([<=>]) and the
    plan of the ordered, limited query, which an HNSW index may answer approximately.

    A transaction that replaces chunks is two sections.  Its [DELETE] fixes the rows it
    sees and locks them; what it deletes and inserts becomes visible at the commit.  A
    [DELETE] that had to wait for another transaction on the same rows finds them gone
    afterwards and does not see the rows that replaced them; [waited] says whether
    that happened, so the model has every outcome the database has. *)
From S2P Require Import Prelude PyStr Uuid Effects Json Schemas SchemaJson Cases Ledger Database Governance.
From S2P Require Import Chunking Retrieval SqlCases.
From Corelib Require Import SpecFloat.
Import SqlAlchemyCaseRepository.
Local Open Scope py_scope.

(** A matching row: the chunk, its document, and the distance. *)
Abbreviation Match := (DocumentChunkRecord * DocumentRecord * float64)%type.

(** Ascending order of PostgreSQL's [double precision]: NaN is greater than every number. *)
Definition is_nan (x : float64) : bool := match x with S754_nan => true | _ => false end.
Definition sorts_before (x y : float64) : bool := is_nan y || (negb (is_nan x) && fle x y).

Module PgVectorRetrievalService.
Section methods.
Context (uuid5 : UUID -> pystr -> UUID) (embeddings : EmbeddingProvider) (chunker : StructuralChunker).

(** [__init__] *)
Definition init : result unit :=
  if negb (dimension embeddings =? 1024)%Z
  then Raise (ValueError (u "The current pgvector schema requires 1024-dimensional embeddings")) else Ok tt.

(** [_chunker.chunk] for one document row *)
Definition document_chunks (i : UUID) (document : DocumentRecord) : result (list DocumentChunk) :=
  of_option InMemoryRetrievalService.diverges
    (chunk chunker uuid5 i (dr_id document) (dr_content document) [(u "document_position", JInt (dr_position document))]).

Definition case_chunks (i : UUID) (docs : list DocumentRecord) : result (list DocumentChunk) :=
  @concat _ <$> mapR (document_chunks i) docs.

(** [DocumentChunkRecord(...)], as its row: the column keeps the vector in single precision. *)
Definition chunk_record (entry : DocumentChunk * list float64) : DocumentChunkRecord :=
  let '(c, vector) := entry in {|
    chr_id := dc_id c; chr_document_id := dc_document_id c; chr_case_id := dc_case_id c;
    chr_position := dc_position c; chr_heading := dc_heading c; chr_content := dc_content c;
    chr_token_count := dc_token_count c; chr_metadata_json := dc_metadata c; chr_embedding := float4 <$> vector |}.

Definition chunk_rows_of (i : UUID) (d : Db) : gmap UUID DocumentChunkRecord :=
  filter (fun kr => chr_case_id kr.2 = i) (t_chunks d).

(** [delete(...).where(case_id == ...)], [session.add_all(records)], [session.commit()] *)
Definition replace_chunks (waited : bool) (i : UUID) (records : list DocumentChunkRecord) : prog Db unit :=
  seen ← reads (fun d => Ok (dom (chunk_rows_of i d)));
  atomic (fun d =>
    let kept := if waited then t_chunks d else filter (fun kr => kr.1 ∉ (seen : gset UUID)) (t_chunks d) in
    match flush (RowChunk <$> records) (set_chunks kept d) with
    | Ok d' => (Ok tt, d')
    | Raise e => (Raise e, d)
    end).

Definition index_case (order : RowOrder) (waited : bool) (c : SupplierCase) : prog Db IndexResult :=
  docs ← reads (fun d => Ok (merge_sort by_position (document_order order (documents_of (case_id c) d))));
  chunks ← of_result (case_chunks (case_id c) docs);
  vectors ← of_result (embed embeddings (dc_content <$> (chunks : list DocumentChunk)));
  entries ← of_result (zip_strict chunks vectors);
  _ ← replace_chunks waited (case_id c) (chunk_record <$> (entries : list (DocumentChunk * list float64)));
  of_result (construct valid_IndexResult {|
    ix_case_id := case_id c; ix_document_count := Z.of_nat (length (docs : list DocumentRecord));
    ix_chunk_count := Z.of_nat (length chunks); ix_embedding_backend := embedding_name embeddings |}).

(** ** Search *)

Context (cosine_distance : list float64 -> list float64 -> float64) (plan : list Match -> nat -> list Match).

(** The rows of the join with their distance. *)
Definition matches (i : UUID) (q : list float64) (d : Db) : list Match :=
  omap (fun kr => (fun doc => (kr.2, doc, cosine_distance (chr_embedding kr.2) q)) <$> t_documents d !! chr_document_id kr.2)
       (map_to_list (chunk_rows_of i d)).

Definition retrieved (row : Match) : result RetrievedChunk :=
  let '(c, document, distance) := row in
  construct valid_RetrievedChunk {|
    rt_chunk := {|
      dc_id := chr_id c; dc_document_id := chr_document_id c; dc_case_id := chr_case_id c;
      dc_position := chr_position c; dc_heading := chr_heading c; dc_content := chr_content c;
      dc_token_count := chr_token_count c; dc_metadata := chr_metadata_json c |};
    rt_document_title := dr_title document; rt_source_uri := dr_source_uri document; rt_distance := distance |}.

Definition search (i : UUID) (query : pystr) (limit : Z) : prog Db (list RetrievedChunk) :=
  query_vectors ← of_result (embed embeddings [query]);
  q ← of_result (of_option (OtherError (u "IndexError") (u "list index out of range"))
                   (head (query_vectors : list (list float64))));
  let q := float4 <$> (q : list float64) in
  rows ← reads (fun d =>
    if (length q =? 1024)%nat && forallb is_finite q && (0 <=? limit)%Z
    then Ok (plan (matches i q d) (Z.to_nat limit)) else Raise data_error);
  of_result (mapR retrieved rows).

Definition service (order : RowOrder) (waited : bool) : RetrievalService Db :=
  {| Retrieval.index_case := index_case order waited; Retrieval.search := search |}.
End methods.
End PgVectorRetrievalService.
