(* ===== verification/CaseRefinement.v ===== *)
(** * The two case repositories agree

    [SqlAlchemyCaseRepository] implements the same abstract repository as
    [InMemoryCaseRepository]: the relation [represents] between a database and an
    in-memory state, and the proof that every call answers alike and keeps it.  The
    database returns the findings of a review in the order it meets them, so
    reviews agree up to that order. *)
From S2P Require Import Prelude PyStr Uuid Effects Json Schemas SchemaJson Cases Database SqlCases.
Local Open Scope py_scope.

Module Mem := InMemoryCaseRepository.
Module Sql := SqlAlchemyCaseRepository.
Import SqlAlchemyCaseRepository.

(** ** Calls through the protocol *)

Inductive answer :=
  | ACase (c : SupplierCase)
  | AReview (r : ReviewResult)
  | AEvent (e : AuditEvent)
  | AEvents (es : list AuditEvent).

Definition through {S} (repo : CaseRepository S) (c : Mem.call) : prog S answer :=
  match c with
  | Mem.Create c => ACase <$> create_case c
  | Mem.Get i => ACase <$> get_case i
  | Mem.SetStatus fr i st => ACase <$> Cases.set_status fr i st
  | Mem.SaveReview r => AReview <$> Cases.save_review r
  | Mem.GetLatestReview i => AReview <$> Cases.get_latest_review i
  | Mem.GetReview i => AReview <$> Cases.get_review i
  | Mem.AppendAuditEvent fr e => AEvent <$> Cases.append_audit_event fr e
  | Mem.ListAuditEvents i => AEvents <$> Cases.list_audit_events i
  end.

(** Equal but for the order of the findings. *)
Definition same_review (r r' : ReviewResult) : Prop :=
  rv_findings r ≡ₚ rv_findings r' /\
  r = {| rv_review_id := rv_review_id r'; rv_case_id := rv_case_id r'; rv_findings := rv_findings r;
         rv_recommendation := rv_recommendation r'; rv_model_backend := rv_model_backend r';
         rv_started_at := rv_started_at r'; rv_completed_at := rv_completed_at r' |}.

Definition same_answer (x y : result answer) : Prop :=
  match x, y with
  | Ok (AReview r), Ok (AReview r') => same_review r r'
  | _, _ => x = y
  end.

(** ** The relation *)

Definition valid_review (r : ReviewResult) : bool :=
  forallb valid_Finding (rv_findings r) && valid_Recommendation (rv_recommendation r).

Definition sooner (a b : ReviewResult) : Prop := (rv_completed_at a < rv_completed_at b)%Z.
Definition before (a b : AuditEvent) : Prop := (event_created_at a < event_created_at b)%Z.

(** One case and its rows. *)
Definition case_stored (d : Db) (i : UUID) (o : option SupplierCase) : Prop :=
  match o with
  | None => t_cases d !! i = None /\ documents_of i d = []
  | Some c => case_id c = i /\ valid_SupplierCase c = true /\ t_cases d !! i = Some (case_record c) /\
      exists draw, documents_of i d ≡ₚ document_records draw c
  end.

(** One review and its rows. *)
Definition review_stored (d : Db) (i : UUID) (o : option ReviewResult) : Prop :=
  match o with
  | None => t_reviews d !! i = None /\ findings_of i d = []
  | Some r => rv_review_id r = i /\ valid_review r = true /\ t_reviews d !! i = Some (review_record r) /\
      findings_of i d ≡ₚ finding_record i <$> rv_findings r
  end.

Record represents (d : Db) (s : Mem.t) : Prop := {
  rp_case : forall i, case_stored d i (Mem.cases s !! i);
  rp_review : forall i, review_stored d i (Mem.reviews_by_id s !! i);
  rp_reviews : forall i, reviews_of i d ≡ₚ review_record <$> Mem.get_list i (Mem.reviews s);
  rp_sooner : forall i, StronglySorted sooner (Mem.get_list i (Mem.reviews s));
  rp_indexed : forall i r, r ∈ Mem.get_list i (Mem.reviews s) -> Mem.reviews_by_id s !! rv_review_id r = Some r;
  rp_events : forall i, events_of i d ≡ₚ event_record <$> Mem.get_list i (Mem.events s);
  rp_before : forall i, StronglySorted before (Mem.get_list i (Mem.events s));
  rp_valid_event : forall i e, e ∈ Mem.get_list i (Mem.events s) -> valid_AuditEventCreate (event_create e) = true;
}.

(** Orders that only permute. *)
Record permuting (o : RowOrder) : Prop := {
  po_findings : forall l, finding_order o l ≡ₚ l;
  po_documents : forall l, document_order o l ≡ₚ l;
  po_reviews : forall l, review_order o l ≡ₚ l;
  po_events : forall l, event_order o l ≡ₚ l;
}.

(** What the callers see to: new identifiers are unused, models are valid and fit
    the columns, in length and in the characters PostgreSQL can hold, a new case is not known and a new review belongs to a known case, and
    the clock moves on between the reviews and the events of a case. *)
Definition allowed (draw : UUID -> nat -> UUID) (d : Db) (s : Mem.t) (c : Mem.call) : Prop :=
  match c with
  | Mem.Create c =>
      valid_SupplierCase c = true /\ Mem.cases s !! case_id c = None /\
      column_fits (RowCase (case_record c)) = true /\
      Forall (fun r => column_fits (RowDocument r) = true /\ t_documents d !! dr_id r = None)
        (document_records (draw (case_id c)) c) /\
      NoDup (dr_id <$> document_records (draw (case_id c)) c)
  | Mem.SaveReview r =>
      Mem.reviews_by_id s !! rv_review_id r = None ->
      is_Some (Mem.cases s !! rv_case_id r) /\ valid_review r = true /\
      column_fits (RowReview (review_record r)) = true /\
      Forall (fun f => column_fits (RowFinding (finding_record (rv_review_id r) f)) = true /\
                t_findings d !! finding_id f = None) (rv_findings r) /\
      NoDup (finding_id <$> rv_findings r) /\
      Forall (fun r' => sooner r' r) (Mem.get_list (rv_case_id r) (Mem.reviews s))
  | Mem.AppendAuditEvent fr e =>
      valid_AuditEventCreate e = true /\ t_audit d !! new_event_id fr = None /\
      column_fits (RowAudit (event_record {| event_create := e; event_id := new_event_id fr; event_created_at := now fr |})) = true /\
      Forall (fun e' => (event_created_at e' < now fr)%Z) (Mem.get_list (ae_case_id e) (Mem.events s))
  | _ => True
  end.

(** ** Rows of one parent *)

(** The rows a query selects, after the insertion of a new one. *)
Lemma select_insert {V} (p : V -> Prop) `{!forall v, base.Decision (p v)} (m : gmap UUID V) k v :
  m !! k = None ->
  filter p (map_to_list (<[k := v]> m)).*2 ≡ₚ
  (if base.decide (p v) then [v] else []) ++ filter p (map_to_list m).*2.
Proof.
  intros Hk. rewrite (map_to_list_insert m k v Hk). cbn [fmap list_fmap snd]. rewrite filter_cons.
  by case_decide.
Qed.

Lemma flush_documents i docs d :
  Forall (fun r => column_fits (RowDocument r) = true /\ t_documents d !! dr_id r = None) docs ->
  NoDup (dr_id <$> docs) -> Forall (fun r => dr_case_id r = i) docs -> is_Some (t_cases d !! i) ->
  exists d', flush (RowDocument <$> docs) d = Ok d' /\
    documents_of i d' ≡ₚ docs ++ documents_of i d /\
    (forall j, j <> i -> documents_of j d' ≡ₚ documents_of j d) /\
    t_cases d' = t_cases d /\ t_reviews d' = t_reviews d /\ t_findings d' = t_findings d /\ t_audit d' = t_audit d.
Proof.
  revert d. induction docs as [|r docs IH]; intros d Hfit Hnd Hcase Hi; [by exists d|].
  apply Forall_cons in Hfit as [[Hf Hn] Hfit]. cbn [fmap list_fmap] in Hnd. apply NoDup_cons in Hnd as [Hnotin Hnd].
  apply Forall_cons in Hcase as [Hr Hcase].
  destruct (IH (put_document r d)) as (d' & Hflush & Hdocs & Hother & Hsame); [|done..|].
  { apply Forall_forall. intros r' Hr'. rewrite Forall_forall in Hfit. destruct (Hfit r' Hr') as [? ?].
    split; [done|]. simpl. rewrite lookup_insert_ne; [done|]. intros E. apply Hnotin. rewrite E. by apply list_elem_of_fmap_2. }
  exists d'. split; [|split; [|split; [|done]]].
  - cbn [flush fmap list_fmap]. unfold flush_row at 1. rewrite Hf. simpl. unfold absent, present. rewrite Hn, Hr.
    rewrite (proj2 (is_some_true _) Hi). done.
  - rewrite Hdocs. unfold documents_of. simpl t_documents. rewrite select_insert by done. rewrite decide_True by done.
    simpl. by rewrite Permutation_middle.
  - intros j Hj. rewrite Hother by done. unfold documents_of. simpl t_documents. rewrite select_insert by done.
    rewrite decide_False by congruence. done.
Qed.

Lemma flush_findings i fs d :
  Forall (fun r => column_fits (RowFinding r) = true /\ t_findings d !! fr_id r = None) fs ->
  NoDup (fr_id <$> fs) -> Forall (fun r => fr_review_run_id r = i) fs -> is_Some (t_reviews d !! i) ->
  exists d', flush (RowFinding <$> fs) d = Ok d' /\
    findings_of i d' ≡ₚ fs ++ findings_of i d /\
    (forall j, j <> i -> findings_of j d' ≡ₚ findings_of j d) /\
    t_cases d' = t_cases d /\ t_documents d' = t_documents d /\ t_reviews d' = t_reviews d /\ t_audit d' = t_audit d.
Proof.
  revert d. induction fs as [|r fs IH]; intros d Hfit Hnd Hcase Hi; [by exists d|].
  apply Forall_cons in Hfit as [[Hf Hn] Hfit]. cbn [fmap list_fmap] in Hnd. apply NoDup_cons in Hnd as [Hnotin Hnd].
  apply Forall_cons in Hcase as [Hr Hcase].
  destruct (IH (put_finding r d)) as (d' & Hflush & Hdocs & Hother & Hsame); [|done..|].
  { apply Forall_forall. intros r' Hr'. rewrite Forall_forall in Hfit. destruct (Hfit r' Hr') as [? ?].
    split; [done|]. simpl. rewrite lookup_insert_ne; [done|]. intros E. apply Hnotin. rewrite E. by apply list_elem_of_fmap_2. }
  exists d'. split; [|split; [|split; [|done]]].
  - cbn [flush fmap list_fmap]. unfold flush_row at 1. rewrite Hf. simpl. unfold absent, present. rewrite Hn, Hr.
    rewrite (proj2 (is_some_true _) Hi). done.
  - rewrite Hdocs. unfold findings_of. simpl t_findings. rewrite select_insert by done. rewrite decide_True by done.
    simpl. by rewrite Permutation_middle.
  - intros j Hj. rewrite Hother by done. unfold findings_of. simpl t_findings. rewrite select_insert by done.
    rewrite decide_False by congruence. done.
Qed.

(** ** Reading models back *)

Lemma enum_of_value `{StrEnum A} name (a : A) : enum_of name (value a) = Ok a.
Proof. unfold enum_of. by rewrite of_value_value. Qed.

#[local] Instance by_position_total : Total by_position.
Proof. intros a b. unfold by_position. lia. Qed.
#[local] Instance by_position_trans : Transitive by_position.
Proof. intros a b c. unfold by_position. lia. Qed.

Lemma document_positions draw i docs n :
  StronglySorted by_position (imap (fun k => document_record i draw (n + k)) docs).
Proof.
  revert n. induction docs as [|x docs IH]; intros n; [constructor|]. rewrite imap_cons. constructor.
  - specialize (IH (S n)). erewrite imap_ext; [exact IH|]. intros k y _. simpl. by rewrite Nat.add_succ_r.
  - apply Forall_forall. intros r Hr. apply list_elem_of_lookup in Hr as [k Hk].
    rewrite list_lookup_imap in Hk. destruct (docs !! k); [|done]. simplify_eq/=.
    unfold by_position. simpl. lia.
Qed.

Lemma sorted_documents draw c l :
  l ≡ₚ document_records draw c -> merge_sort by_position l = document_records draw c.
Proof.
  intros Hl. apply (StronglySorted_unique_strong by_position).
  - intros a b Ha Hb. rewrite merge_sort_Permutation, Hl in Ha. unfold document_records in *.
    apply list_elem_of_lookup in Ha as [j Ha], Hb as [k Hb]. rewrite list_lookup_imap in Ha, Hb.
    destruct (documents c !! j) eqn:Ej, (documents c !! k) eqn:Ek; simplify_eq/=. unfold by_position. simpl.
    intros H1 H2. assert (j = k) as -> by lia. congruence.
  - apply (StronglySorted_merge_sort by_position).
  - apply (document_positions draw (case_id c) (documents c) 0).
  - by rewrite merge_sort_Permutation.
Qed.

Lemma document_read i draw k x :
  valid_DocumentInput x = true -> document_from_record (document_record i draw k x) = Ok x.
Proof. intros Hx. unfold document_from_record. rewrite construct_valid by (by destruct x). by destruct x. Qed.

Lemma documents_read draw i n docs :
  forallb valid_DocumentInput docs = true ->
  mapR document_from_record (imap (fun k => document_record i draw (n + k)) docs) = Ok docs.
Proof.
  revert n. induction docs as [|x docs IH]; intros n; [done|]. cbn [forallb]. intros [Hx Hdocs]%andb_prop.
  rewrite imap_cons. cbn [mapR]. rewrite document_read by done. cbn [mbind result_bind].
  specialize (IH (S n) Hdocs). erewrite imap_ext; [rewrite IH; done|]. intros k y _. simpl. by rewrite Nat.add_succ_r.
Qed.

Lemma case_read draw c l :
  valid_SupplierCase c = true -> l ≡ₚ document_records draw c -> case_from_record (case_record c) l = Ok c.
Proof.
  intros Hv Hl. unfold case_from_record. rewrite (sorted_documents draw c l Hl). cbn [case_record scr_status].
  rewrite enum_of_value. pose proof (proj2 (andb_prop _ _ Hv)) as Hdocs.
  pose proof (documents_read draw (case_id c) 0 (documents c) Hdocs) as Hread. cbn [mbind result_bind].
  unfold document_records. change (imap (document_record (case_id c) draw) (documents c))
    with (imap (fun k => document_record (case_id c) draw (0 + k)) (documents c)). rewrite Hread.
  cbn [mbind result_bind]. rewrite construct_valid by (by destruct c). by destruct c.
Qed.

Lemma finding_read i f : valid_Finding f = true -> finding_from_record (finding_record i f) = Ok f.
Proof.
  intros Hv. unfold finding_from_record. cbn [finding_record fr_category fr_severity fr_evidence_json].
  rewrite !enum_of_value. cbn [mbind result_bind].
  assert (mapR validate_Evidence (dump_Evidence <$> evidence f) = Ok (id <$> evidence f)) as ->.
  { apply mapR_fmap_ok. intros e He. apply validate_dump_Evidence.
    apply (forallb_elem _ (evidence f)); [|done]. by apply andb_prop in Hv as [? _]. }
  rewrite list_fmap_id. cbn [mbind result_bind]. rewrite construct_valid by (by destruct f). by destruct f.
Qed.

Lemma review_read r l :
  valid_review r = true -> l ≡ₚ finding_record (rv_review_id r) <$> rv_findings r ->
  exists r', review_from_records (review_record r) l = Ok r' /\ same_review r' r.
Proof.
  intros [Hf Hr]%andb_prop Hl. apply Permutation_map_inv in Hl as (fs & -> & Hperm).
  unfold review_from_records. cbn [review_record rrr_decision rrr_completed_at rrr_confidence].
  assert (mapR finding_from_record (map (finding_record (rv_review_id r)) fs) = Ok (id <$> fs)) as ->.
  { apply (mapR_fmap_ok finding_from_record (finding_record (rv_review_id r))). intros f Hin.
    apply finding_read, (forallb_elem _ (rv_findings r)); [done|]. by rewrite Hperm. }
  rewrite list_fmap_id. cbn [mbind result_bind]. rewrite dec_enum_value. cbn [mbind result_bind].
  rewrite construct_valid by (by destruct (rv_recommendation r)). cbn [mbind result_bind].
  eexists. split; [done|]. split; simpl; [by rewrite Hperm|].
  destruct r as [? ? ? []]; done.
Qed.

#[local] Instance completed_later_total : Total completed_later.
Proof. intros a b. unfold completed_later. destruct (rrr_completed_at a), (rrr_completed_at b); simpl; lia || auto. Qed.
#[local] Instance completed_later_trans : Transitive completed_later.
Proof.
  intros a b c. unfold completed_later. destruct (rrr_completed_at a), (rrr_completed_at b), (rrr_completed_at c); simpl; lia || done.
Qed.
#[local] Instance event_earlier_total : Total event_earlier.
Proof. intros a b. unfold event_earlier. lia. Qed.
#[local] Instance event_earlier_trans : Transitive event_earlier.
Proof. intros a b c. unfold event_earlier. lia. Qed.

(** A list in strict order determines the sorted form of its rows. *)
Lemma sort_strict {V W} (R : W -> W -> Prop) `{!RelDecision R, !Total R, !Transitive R} (lt : V -> V -> Prop)
    (row_of : V -> W) l vs :
  (forall a b, lt a b -> R (row_of a) (row_of b) /\ ~ R (row_of b) (row_of a)) ->
  StronglySorted lt vs -> l ≡ₚ row_of <$> vs -> merge_sort R l = row_of <$> vs.
Proof.
  intros Hlt Hsorted Hl. apply (StronglySorted_unique_strong R).
  - intros x y Hx Hy. rewrite merge_sort_Permutation, Hl in Hx.
    apply list_elem_of_fmap in Hx as (a & -> & Ha), Hy as (b & -> & Hb). revert Ha Hb.
    clear Hl. induction Hsorted as [|v vs _ IH Hv]; [by intros ?%elem_of_nil|]. rewrite Forall_forall in Hv.
    intros [->|Ha]%elem_of_cons [->|Hb]%elem_of_cons; [done|..|by apply IH].
    + destruct (Hlt _ _ (Hv b Hb)). done.
    + destruct (Hlt _ _ (Hv a Ha)). done.
  - by apply (StronglySorted_merge_sort R).
  - clear Hl. induction Hsorted as [|v vs _ IH Hv]; [constructor|]. constructor; [done|].
    apply Forall_fmap. eapply Forall_impl; [exact Hv|]. intros w Hw. by apply Hlt.
  - by rewrite merge_sort_Permutation.
Qed.

Lemma StronglySorted_reverse {V} (lt : V -> V -> Prop) l :
  StronglySorted lt l -> StronglySorted (flip lt) (reverse l).
Proof.
  induction 1 as [|v l _ IH Hv]; [constructor|]. rewrite reverse_cons. apply StronglySorted_app_2; [|done|].
  - intros a b Ha Hb%list_elem_of_singleton. subst b. rewrite reverse_Permutation in Ha.
    rewrite Forall_forall in Hv. by apply Hv.
  - by constructor; [constructor|].
Qed.

Section reads.
Context (o : RowOrder) (Ho : permuting o) (d : Db) (s : Mem.t) (H : represents d s).

Lemma run_get i : run (get o i) d = (of_option (case_not_found i) (Mem.cases s !! i), d).
Proof.
  unfold get. rewrite run_bind, run_reads. pose proof (rp_case _ _ H i) as Hc.
  destruct (Mem.cases s !! i) as [c|]; [|by destruct Hc as [-> _]]. destruct Hc as (_ & Hv & -> & draw & Hdocs).
  rewrite run_bind, run_reads, run_of_result. rewrite (case_read draw); [done..|]. by rewrite po_documents.
Qed.

Lemma run_get_review i :
  exists res, run (get_review o i) d = (res, d) /\
    match Mem.reviews_by_id s !! i with
    | None => res = Raise (review_not_found i)
    | Some r => exists r', res = Ok r' /\ same_review r' r
    end.
Proof.
  unfold get_review. rewrite run_bind, run_reads. pose proof (rp_review _ _ H i) as Hr.
  destruct (Mem.reviews_by_id s !! i) as [r|]; [|destruct Hr as [-> _]; by eexists]. destruct Hr as (<- & Hv & -> & Hf).
  rewrite run_bind, run_reads, run_of_result.
  destruct (review_read r (finding_order o (findings_of (rv_review_id r) d)) Hv) as (r' & Hread & Hsame).
  - by rewrite po_findings.
  - cbn [review_record rrr_id]. rewrite Hread. eexists. split; [done|]. by exists r'.
Qed.

Lemma latest_row i :
  head (merge_sort completed_later (review_order o (reviews_of i d)))
    = review_record <$> last (Mem.get_list i (Mem.reviews s)).
Proof.
  rewrite (sort_strict completed_later (flip sooner) review_record _ (reverse (Mem.get_list i (Mem.reviews s)))).
  - rewrite <- head_reverse. by destruct (reverse _).
  - intros a b Hab. unfold flip, sooner in Hab. unfold completed_later. simpl. lia.
  - apply StronglySorted_reverse, (rp_sooner _ _ H).
  - rewrite po_reviews by done. rewrite (rp_reviews _ _ H). by rewrite reverse_Permutation.
Qed.

Lemma run_get_latest_review i :
  exists res, run (get_latest_review o i) d = (res, d) /\
    match Mem.cases s !! i, last (Mem.get_list i (Mem.reviews s)) with
    | None, _ => res = Raise (case_not_found i)
    | Some _, None => res = Raise (no_completed_review i)
    | Some _, Some r => exists r', res = Ok r' /\ same_review r' r
    end.
Proof.
  unfold get_latest_review. rewrite run_bind, run_get.
  destruct (Mem.cases s !! i) as [c|]; cbn [of_option]; [|by eexists].
  rewrite run_bind, run_reads, latest_row.
  destruct (last (Mem.get_list i (Mem.reviews s))) as [r|] eqn:Er; cbn [fmap option_fmap option_map]; [|by eexists].
  destruct (run_get_review (rrr_id (review_record r))) as (res & -> & Hres). exists res. split; [done|].
  cbn [review_record rrr_id] in Hres. rewrite (rp_indexed _ _ H i) in Hres; [done|]. by apply last_Some_elem_of.
Qed.

Lemma run_list_audit_events i :
  run (list_audit_events o i) d
    = (match Mem.cases s !! i with
       | None => Raise (case_not_found i)
       | Some _ => Ok (Mem.get_list i (Mem.events s))
       end, d).
Proof.
  unfold list_audit_events. rewrite run_bind, run_get. destruct (Mem.cases s !! i) as [c|]; cbn [of_option]; [|done].
  rewrite run_bind, run_reads, run_of_result.
  rewrite (sort_strict event_earlier before event_record _ (Mem.get_list i (Mem.events s))).
  - rewrite (mapR_fmap_ok _ _ id); [by rewrite list_fmap_id|]. intros e He. unfold event_from_record. simpl.
    rewrite construct_valid by (apply (rp_valid_event _ _ H) in He; by destruct (event_create e)).
    by destruct e as [[]].
  - intros a b Hab. unfold before in Hab. unfold event_earlier. simpl. lia.
  - apply (rp_before _ _ H).
  - rewrite po_events by done. apply (rp_events _ _ H).
Qed.
End reads.

(** ** Changes *)

Lemma case_stored_same d d' i o :
  t_cases d' !! i = t_cases d !! i -> documents_of i d' ≡ₚ documents_of i d -> case_stored d i o -> case_stored d' i o.
Proof.
  intros Hc Hd. destruct o as [c|]; simpl; rewrite Hc.
  - intros (? & ? & ? & draw & Hp). split_and!; try done. exists draw. by rewrite Hd.
  - intros [? Hp]. split; [done|]. rewrite Hp in Hd. by apply Permutation_nil_r.
Qed.

Lemma review_stored_same d d' i o :
  t_reviews d' !! i = t_reviews d !! i -> findings_of i d' ≡ₚ findings_of i d ->
  review_stored d i o -> review_stored d' i o.
Proof.
  intros Hc Hd. destruct o as [r|]; simpl; rewrite Hc.
  - intros (? & ? & ? & Hp). split_and!; try done. by rewrite Hd.
  - intros [? Hp]. split; [done|]. rewrite Hp in Hd. by apply Permutation_nil_r.
Qed.

Lemma flush_case c d :
  column_fits (RowCase (case_record c)) = true -> t_cases d !! case_id c = None ->
  flush_row (RowCase (case_record c)) d = Ok (put_case (case_record c) d).
Proof. intros Hf Hn. unfold flush_row. rewrite Hf. simpl. unfold absent. by rewrite Hn. Qed.

Section changes.
Context (draw : UUID -> nat -> UUID) (d : Db) (s : Mem.t) (H : represents d s).

Lemma create_represents c :
  allowed draw d s (Mem.Create c) ->
  exists d', run (create (draw (case_id c)) c) d = (Ok c, d') /\
    represents d' (Mem.set_cases (<[case_id c := c]> (Mem.cases s)) s).
Proof.
  intros (Hv & Hnew & Hfit & Hdocs & Hnd). pose proof (rp_case _ _ H (case_id c)) as Hc. rewrite Hnew in Hc.
  destruct Hc as [Habs Hempty].
  destruct (flush_documents (case_id c) (document_records (draw (case_id c)) c) (put_case (case_record c) d))
    as (d' & Hflush & Hof & Hother & Ec & Er & Ef & Ea); [done|done|..].
  { unfold document_records. apply Forall_forall. intros r [k Hk]%list_elem_of_lookup.
    rewrite list_lookup_imap in Hk. destruct (documents c !! k); [|done]. by simplify_eq/=. }
  { simpl. rewrite lookup_insert_eq. by eexists. }
  exists d'. split.
  - unfold create. rewrite run_atomic. cbn [flush]. rewrite flush_case by done. cbn [mbind result_bind]. by rewrite Hflush.
  - split; simpl.
    + intros i. rewrite lookup_insert. case_decide as E.
      * subst i. simpl. rewrite Ec. simpl. rewrite lookup_insert_eq. split_and!; try done. exists (draw (case_id c)).
        rewrite Hof. change (documents_of (case_id c) (put_case (case_record c) d)) with (documents_of (case_id c) d).
        by rewrite Hempty, app_nil_r.
      * apply (case_stored_same d); [|by apply (Hother i (not_eq_sym E))|apply H]. rewrite Ec. simpl.
        by rewrite lookup_insert_ne.
    + intros i. apply (review_stored_same d); [by rewrite Er|unfold findings_of; by rewrite Ef|apply H].
    + intros i. unfold reviews_of. rewrite Er. apply H.
    + apply H.
    + apply H.
    + intros i. unfold events_of. rewrite Ea. apply H.
    + apply H.
    + apply H.
Qed.

Lemma set_status_represents o fr i st :
  permuting o ->
  exists d', run (set_status o fr i st) d = ((run (Mem.set_status fr i st) s).1, d') /\
    represents d' (run (Mem.set_status fr i st) s).2.
Proof.
  intros Ho. unfold set_status, Mem.set_status. rewrite run_bind, run_reads, run_atomic.
  pose proof (rp_case _ _ H i) as Hc. destruct (Mem.cases s !! i) as [c|] eqn:Ei.
  - destruct Hc as (Hid & Hv & Hrow & dr & Hdocs). rewrite Hrow, run_bind, run_atomic, Hrow. cbn [fst snd].
    set (d' := put_case _ d). set (s' := Mem.set_cases _ s).
    assert (Hrep : represents d' s').
    { assert (Hupd : update_status (case_record c) st (now fr) (case_record c) = case_record (with_status c st (now fr))).
      { unfold update_status, case_record. simpl. f_equal. destruct (pystr_eqb _ _) eqn:E; [|done].
        by apply pystr_eqb_eq in E. }
      unfold d', s'. rewrite Hupd. split; simpl; try apply H. intros j. rewrite lookup_insert. case_decide as E.
      - subst j. simpl. rewrite Hid, lookup_insert_eq. split_and!; try done. by exists dr.
      - apply (case_stored_same d); [simpl; by rewrite lookup_insert_ne by congruence|done|apply H]. }
    exists d'. split; [|done]. rewrite (run_get o Ho d' s' Hrep). unfold s'. simpl. by rewrite lookup_insert_eq.
  - destruct Hc as [Hrow _]. rewrite Hrow. by exists d.
Qed.

Lemma append_represents o fr e :
  permuting o -> allowed draw d s (Mem.AppendAuditEvent fr e) ->
  exists d', run (append_audit_event o fr e) d = ((run (Mem.append_audit_event fr e) s).1, d') /\
    represents d' (run (Mem.append_audit_event fr e) s).2.
Proof.
  intros Ho (Hv & Hnew & Hfit & Hlater). unfold append_audit_event, Mem.append_audit_event, Mem.get.
  rewrite !run_bind, run_reads, (run_get o Ho d s H). pose proof (rp_case _ _ H (ae_case_id e)) as Hc.
  destruct (Mem.cases s !! ae_case_id e) as [c|] eqn:Ei; cbn [of_option]; [|by exists d].
  destruct Hc as (_ & _ & Hrow & _). rewrite !run_atomic. cbn [fst snd].
  set (stored := {| event_create := e; event_id := new_event_id fr; event_created_at := now fr |}).
  exists (put_audit (event_record stored) d). split.
  - cbn [flush]. unfold flush_row. fold stored in Hfit. rewrite Hfit. simpl. unfold absent, present. by rewrite Hnew, Hrow.
  - split; simpl; try apply H.
    + intros i. unfold events_of. simpl t_audit. rewrite select_insert by done. rewrite Mem.get_list_push.
      case_decide as E1; case_decide as E2; simpl in *; try congruence; [|apply H].
      rewrite (rp_events _ _ H i : filter _ _ ≡ₚ _), fmap_app. simpl. by rewrite Permutation_cons_append.
    + intros i. rewrite Mem.get_list_push. case_decide as E; [|apply H]. subst i. apply StronglySorted_app_2.
      * intros a b Ha Hb%list_elem_of_singleton. subst b. rewrite Forall_forall in Hlater. by apply Hlater.
      * apply H.
      * by constructor; [constructor|].
    + intros i x. rewrite Mem.get_list_push. case_decide as E; [|apply H].
      intros [Hx| ->%list_elem_of_singleton]%elem_of_app; [by eapply H|done].
Qed.
End changes.

Section save.
Context (draw : UUID -> nat -> UUID) (d : Db) (s : Mem.t) (H : represents d s).

(** The transaction of a new review commits the review with its findings. *)
Lemma insert_review_represents r :
  allowed draw d s (Mem.SaveReview r) -> Mem.reviews_by_id s !! rv_review_id r = None ->
  exists d', insert_review r d = (Ok true, d') /\
    represents d' (Mem.set_reviews (Mem.push (rv_case_id r) r (Mem.reviews s))
                     (<[rv_review_id r := r]> (Mem.reviews_by_id s)) s).
Proof.
  intros Ha Hnew. destruct (Ha Hnew) as ([c Hc] & Hv & Hfit & Hfs & Hnd & Hlater).
  pose proof (rp_case _ _ H (rv_case_id r)) as Hcase. rewrite Hc in Hcase. destruct Hcase as (_ & _ & Hrow & _).
  pose proof (rp_review _ _ H (rv_review_id r)) as Hrev. rewrite Hnew in Hrev. destruct Hrev as [Habs Hnone].
  destruct (flush_findings (rv_review_id r) (finding_record (rv_review_id r) <$> rv_findings r)
    (put_review (review_record r) d)) as (d' & Hflush & Hof & Hother & Ec & Ed & Er & Ea).
  { by apply Forall_fmap. }
  { by rewrite <- list_fmap_compose. }
  { apply Forall_fmap, Forall_true. done. }
  { simpl. rewrite lookup_insert_eq. by eexists. }
  assert (Hr1 : flush [RowReview (review_record r)] d = Ok (put_review (review_record r) d)).
  { cbn [flush]. unfold flush_row. rewrite Hfit. simpl. unfold absent, present. by rewrite Habs, Hrow. }
  exists d'. split; [unfold insert_review; by rewrite Hr1, Hflush|]. split; simpl.
  - intros i. apply (case_stored_same d); [by rewrite Ec|unfold documents_of; by rewrite Ed|apply H].
  - intros i. rewrite lookup_insert. case_decide as E.
    + subst i. simpl. rewrite Er. simpl. rewrite lookup_insert_eq. split_and!; try done.
      change (findings_of (rv_review_id r) (put_review (review_record r) d)) with (findings_of (rv_review_id r) d) in Hof.
      by rewrite Hof, Hnone, app_nil_r.
    + apply (review_stored_same d); [rewrite Er; simpl; by rewrite lookup_insert_ne|by apply (Hother i (not_eq_sym E))|apply H].
  - intros i. unfold reviews_of. rewrite Er. simpl t_reviews. rewrite select_insert by done. rewrite Mem.get_list_push.
    case_decide as E1; case_decide as E2; simpl in *; try congruence; [|apply H].
    rewrite (rp_reviews _ _ H i : filter _ _ ≡ₚ _), fmap_app. simpl. by rewrite Permutation_cons_append.
  - intros i. rewrite Mem.get_list_push. case_decide as E; [|apply H]. subst i. apply StronglySorted_app_2.
    + intros a b Hin Hb%list_elem_of_singleton. subst b. rewrite Forall_forall in Hlater. by apply Hlater.
    + apply H.
    + by constructor; [constructor|].
  - intros i x. rewrite Mem.get_list_push. intros Hx.
    assert (x = r \/ x ∈ Mem.get_list i (Mem.reviews s)) as [->|Hold].
    { case_decide; [|by right]. apply elem_of_app in Hx as [?|Hx%list_elem_of_singleton]; auto. }
    + by rewrite lookup_insert_eq.
    + apply (rp_indexed _ _ H) in Hold. rewrite lookup_insert_ne by congruence. done.
  - intros i. unfold events_of. rewrite Ea. apply H.
  - apply H.
  - apply H.
Qed.

Lemma save_review_represents o r :
  permuting o -> allowed draw d s (Mem.SaveReview r) ->
  exists r' d', run (save_review o r) d = (Ok r', d') /\
    (exists r0, (run (Mem.save_review r) s).1 = Ok r0 /\ same_review r' r0) /\
    represents d' (run (Mem.save_review r) s).2.
Proof.
  intros Ho Ha. unfold save_review, Mem.save_review. rewrite run_bind, run_reads, run_atomic.
  pose proof (rp_review _ _ H (rv_review_id r)) as Hrev.
  destruct (Mem.reviews_by_id s !! rv_review_id r) as [old|] eqn:E; cbn [fst snd].
  - destruct Hrev as (_ & _ & Hrow & _). rewrite Hrow.
    destruct (run_get_review o Ho d s H (rv_review_id r)) as (res & -> & Hres). rewrite E in Hres.
    destruct Hres as (r' & -> & Hsame). exists r', d. split_and!; [done| |done]. by exists old.
  - destruct Hrev as [Hrow _]. rewrite Hrow, run_bind, run_atomic.
    destruct (insert_review_represents r Ha E) as (d' & -> & Hrep). exists r, d'. split_and!; [done| |done].
    exists r. split; [done|]. split; [done|]. by destruct r.
Qed.
End save.

(** ** Every call *)

Lemma through_represents draw o d s c :
  represents d s -> permuting o -> allowed draw d s c ->
  exists x d', run (through (repository draw o) c) d = (x, d') /\
    same_answer x (run (through Mem.repository c) s).1 /\ represents d' (run (through Mem.repository c) s).2.
Proof.
  intros H Ho Ha. destruct c; unfold through, fmap, prog_fmap; rewrite !run_bind;
    cbn [create_case get_case Cases.set_status Cases.save_review Cases.get_latest_review Cases.get_review
         Cases.append_audit_event Cases.list_audit_events repository Mem.repository].
  - destruct (create_represents draw d s H c Ha) as (d' & -> & Hrep). by eexists _, d'.
  - rewrite (run_get o Ho d s H). unfold Mem.get. rewrite run_reads.
    destruct (Mem.cases s !! i); cbn [of_option]; by eexists _, d.
  - destruct (set_status_represents d s H o fr i st Ho) as (d' & -> & Hrep).
    destruct (run (Mem.set_status fr i st) s) as [[] s']; by eexists _, d'.
  - destruct (save_review_represents draw d s H o r Ho Ha) as (r' & d' & -> & (r0 & Hr0 & Hsame) & Hrep).
    destruct (run (Mem.save_review r) s) as [res s']. simpl in Hr0. subst res. by eexists _, d'.
  - destruct (run_get_latest_review o Ho d s H i) as (res & -> & Hres).
    unfold Mem.get_latest_review, Mem.get. rewrite run_bind, run_reads.
    destruct (Mem.cases s !! i); cbn [of_option]; [|subst res; by eexists _, d]. rewrite run_reads.
    destruct (last (Mem.get_list i (Mem.reviews s))); [destruct Hres as (r' & -> & ?)|subst res]; by eexists _, d.
  - destruct (run_get_review o Ho d s H i) as (res & -> & Hres). unfold Mem.get_review. rewrite run_reads.
    destruct (Mem.reviews_by_id s !! i); [destruct Hres as (r' & -> & ?)|subst res]; by eexists _, d.
  - destruct (append_represents draw d s H o fr e Ho Ha) as (d' & -> & Hrep).
    destruct (run (Mem.append_audit_event fr e) s) as [[] s']; by eexists _, d'.
  - rewrite (run_list_audit_events o Ho d s H). unfold Mem.list_audit_events, Mem.get. rewrite run_bind, run_reads.
    destruct (Mem.cases s !! i); cbn [of_option]; [rewrite run_reads|]; by eexists _, d.
Qed.

(** A session of calls, with the row order each of them meets. *)
Fixpoint sql_session (draw : UUID -> nat -> UUID) (cs : list (RowOrder * Mem.call)) (d : Db) :
    list (result answer) * Db :=
  match cs with
  | [] => ([], d)
  | (o, c) :: cs =>
      let '(x, d1) := run (through (repository draw o) c) d in
      let '(xs, d2) := sql_session draw cs d1 in (x :: xs, d2)
  end.

Fixpoint mem_session (cs : list Mem.call) (s : Mem.t) : list (result answer) * Mem.t :=
  match cs with
  | [] => ([], s)
  | c :: cs =>
      let '(x, s1) := run (through Mem.repository c) s in
      let '(xs, s2) := mem_session cs s1 in (x :: xs, s2)
  end.

(** Every call of the session is allowed when it is made. *)
Fixpoint session_allowed (draw : UUID -> nat -> UUID) (cs : list (RowOrder * Mem.call)) (d : Db) (s : Mem.t) : Prop :=
  match cs with
  | [] => True
  | (o, c) :: cs =>
      permuting o /\ allowed draw d s c /\
      session_allowed draw cs (run (through (repository draw o) c) d).2 (run (through Mem.repository c) s).2
  end.

Lemma session_represents draw cs d s :
  represents d s -> session_allowed draw cs d s ->
  Forall2 same_answer (sql_session draw cs d).1 (mem_session cs.*2 s).1 /\
  represents (sql_session draw cs d).2 (mem_session cs.*2 s).2.
Proof.
  revert d s. induction cs as [|[o c] cs IH]; intros d s H; [by split|]. intros (Ho & Ha & Hcs).
  destruct (through_represents draw o d s c H Ho Ha) as (x & d' & Hrun & Hsame & Hrep).
  simpl in Hcs. rewrite Hrun in Hcs. destruct (IH _ _ Hrep Hcs) as [Hall Hend].
  cbn [sql_session mem_session fmap list_fmap snd]. rewrite Hrun.
  destruct (run (through Mem.repository c) s) as [y s'].
  cbn [fst snd] in *. destruct (sql_session draw cs d'), (mem_session cs.*2 s').
  split; [by constructor|done].
Qed.

Lemma represents_empty : represents db_empty Mem.empty.
Proof. split; intros i; simpl; try (by constructor); try done; intros ? Hx; by apply elem_of_nil in Hx. Qed.

(** A race on one new review: both callers look it up before either has committed. *)
Lemma second_save_conflicts r d :
  t_reviews d !! rv_review_id r = Some (review_record r) ->
  column_fits (RowReview (review_record r)) = true -> insert_review r d = (Raise integrity_error, d).
Proof.
  intros Hrow Hfit. unfold insert_review. cbn [flush]. unfold flush_row. rewrite Hfit. simpl. unfold absent.
  by rewrite Hrow.
Qed.
