(* ===== verification/CaseTheorems.v ===== *)
(** * What the case repository and the stored forms guarantee

    The in-memory repository of [Cases] under concurrent calls, the replay of saved
    reviews, the order of the audit trail, the agreement of the PostgreSQL repository
    with the in-memory one, and the round trips of models through JSON and through
    table rows. *)
From S2P Require Import Prelude PyStr Uuid Effects Json Schemas SchemaJson Cases Ledger Database InMemory SqlActions.
From S2P Require Import SqlCases CaseRefinement Governance GovernanceTheorems.
Import InMemoryCaseRepository.

(** However calls of the in-memory case repository interleave, its two review indexes
    agree, records are filed under their keys, every audit event belongs to an
    existing case, and reviews and audit events are only ever appended. *)
Theorem case_calls_safe calls s ts s' :
  wf s -> rtc pool_step (perform <$> calls, s) (ts, s') -> wf s' /\ evolves s s'.
Proof.
  intros H Hsteps.
  destruct (pool_safe wf evolves evolves ((fun _ _ _ => True) <$> calls) (perform <$> calls, s) (ts, s'))
    as (? & ? & _); try done.
  - by apply Forall_fmap, Forall_true.
  - simpl. apply Forall2_fmap, Forall_Forall2_diag, Forall_true. intros c. apply rg_perform.
Qed.

(** A review is saved once: the first version under an identifier wins, saving it again
    returns that version and changes nothing, and a new review becomes the latest of
    its case. *)
Theorem review_saved_once s r :
  wf s ->
  let '(res, s1) := run (save_review r) s in
  (exists r0, res = Ok r0 /\ run (get_review (rv_review_id r)) s1 = (Ok r0, s1) /\
     run (save_review r) s1 = (Ok r0, s1) /\
     match reviews_by_id s !! rv_review_id r with
     | Some old => r0 = old /\ s1 = s
     | None => r0 = r /\
         (is_Some (cases s !! rv_case_id r) -> run (get_latest_review (rv_case_id r)) s1 = (Ok r, s1)) /\
         (forall i, i <> rv_case_id r -> get_list i (reviews s1) = get_list i (reviews s))
     end).
Proof.
  intros H. unfold save_review at 1. rewrite run_atomic.
  destruct (reviews_by_id s !! rv_review_id r) as [old|] eqn:E.
  - exists old. unfold get_review, save_review. rewrite run_reads, run_atomic, E. done.
  - exists r. unfold get_review, save_review. rewrite run_reads, run_atomic. cbn [reviews_by_id set_reviews].
    rewrite lookup_insert_eq. split_and!; try done.
    + intros Hc. unfold get_latest_review, get. rewrite run_bind, run_reads. cbn [cases set_reviews].
      destruct Hc as [c ->]. cbn [of_option]. rewrite run_reads. cbn [reviews set_reviews].
      rewrite get_list_push, decide_True by done. by rewrite last_snoc.
    + intros i Hi. cbn [reviews set_reviews]. by rewrite get_list_push, decide_False.
Qed.

(** The audit trail lists events in the order they were appended, per case: an appended
    event is listed last with its actor, type and payload unchanged, other cases keep
    their lists, and an unknown case is refused without effect. *)
Theorem audit_trail_ordered fr e s :
  let '(res, s1) := run (append_audit_event fr e) s in
  match (run (list_audit_events (ae_case_id e)) s).1 with
  | Raise err => res = Raise err /\ err = case_not_found (ae_case_id e) /\ s1 = s
  | Ok before =>
      exists stored, res = Ok stored /\ event_create stored = e /\
        run (list_audit_events (ae_case_id e)) s1 = (Ok (before ++ [stored]), s1) /\
        (forall i, i <> ae_case_id e ->
           run (list_audit_events i) s1 = ((run (list_audit_events i) s).1, s1))
  end.
Proof.
  unfold list_audit_events, append_audit_event, get. rewrite !run_bind, !run_reads.
  destruct (cases s !! ae_case_id e) as [c|] eqn:Ec; [|done]. cbn [of_option fst]. rewrite run_atomic.
  eexists. split; [reflexivity|]. split; [done|]. split.
  - rewrite run_bind, run_reads. cbn [cases set_events]. rewrite Ec. cbn [of_option]. rewrite run_reads.
    cbn [events set_events]. by rewrite get_list_push, decide_True.
  - intros i Hi. rewrite !run_bind, !run_reads. cbn [cases set_events].
    destruct (cases s !! i) as [ci|]; [|done]. cbn [of_option].
    cbn [events set_events fst]. by rewrite get_list_push, decide_False.
Qed.

(** C22. The PostgreSQL case repository implements the in-memory one: over any session of
    calls made with unused identifiers, models whose texts fit the columns (no longer than they
    are wide, and without U+0000 or surrogates, which PostgreSQL refuses) and a clock that moves
    on, both give the same answers and raise the same errors, reviews agreeing up to the order
    of their findings, and the database keeps representing the in-memory state. *)
Theorem sql_repository_refines draw calls d s :
  represents d s -> session_allowed draw calls d s ->
  Forall2 same_answer (sql_session draw calls d).1 (mem_session calls.*2 s).1 /\
  represents (sql_session draw calls d).2 (mem_session calls.*2 s).2.
Proof. apply session_represents. Qed.

(** The save of a new review races: when two callers look it up before either commits, one
    commits it with its findings and the other's flush raises an integrity error that
    [save_review] does not catch. *)
Theorem racing_saves_conflict draw o r d s :
  represents d s -> allowed draw d s (Mem.SaveReview r) -> Mem.reviews_by_id s !! rv_review_id r = None ->
  exists d', represents d' (run (Mem.save_review r) s).2 /\
    rtc pool_step ([Sql.save_review o r; Sql.save_review o r], d) ([Ret r; Throw integrity_error], d').
Proof.
  intros H Ha Hnew. destruct (insert_review_represents draw d s H r Ha Hnew) as (d' & Hins & Hrep).
  exists d'. pose proof (rp_review _ _ H (rv_review_id r)) as Habs. rewrite Hnew in Habs. destruct Habs as [Habs _].
  pose proof (rp_review _ _ Hrep (rv_review_id r)) as Hrow. simpl in Hrow. rewrite lookup_insert_eq in Hrow.
  destruct Hrow as (_ & _ & Hrow & _). destruct (Ha Hnew) as (_ & _ & Hfit & _).
  pose proof (second_save_conflicts r d' Hrow Hfit) as Hconflict.
  split; [unfold Mem.save_review; by rewrite run_atomic, Hnew|].
  assert (run_schedule [0;1;0;1] [Sql.save_review o r; Sql.save_review o r] d = ([Ret r; Throw integrity_error], d')) as <-.
  { unfold Sql.save_review. simpl. rewrite Habs. simpl. rewrite Hins. simpl. by rewrite Hconflict. }
  apply run_schedule_steps.
Qed.

(** A text that a Pydantic model takes and PostgreSQL does not, U+0000 in the description of a
    case, is a database error where the in-memory repository stores the case. *)
Theorem unstorable_text_refused draw c d s : storable (description c) = false ->
  run (Sql.create draw c) d = (Raise data_error, d) /\
  (run (Mem.create c) s).1 = Ok c /\ (run (Mem.get (case_id c)) (run (Mem.create c) s).2).1 = Ok c.
Proof.
  intros Hc. unfold Sql.create, Mem.create, Mem.get. rewrite !run_atomic, run_reads. cbn [flush fst snd].
  unfold flush_row. cbn [column_fits Sql.case_record scr_description]. rewrite Hc, andb_false_r. split; [done|]. split; [done|].
  cbn. by rewrite lookup_insert_eq.
Qed.

Section stored_forms.
Context `{DT : DatetimeText}.


(** An action survives its table row: a valid proposal is read back as it was written,
    and a stored transition is read back with exactly the transition's fields changed. *)
Theorem action_row_round_trip a b :
  valid_GovernedAction a = true -> ga_execution_receipt a = None -> valid_GovernedAction b = true ->
  SqlAlchemyActionRepository.action_from_record (SqlAlchemyActionRepository.record_from_action a) = Ok a /\
  SqlAlchemyActionRepository.action_from_record
    (SqlAlchemyActionRepository.update_record (SqlAlchemyActionRepository.record_from_action a) b)
    = Ok (apply_transition a b).
Proof.
  intros Ha Hr Hb. pose proof (action_from_record_from_action a Ha Hr) as Hrow.
  split; [done|]. by apply action_from_record_update.
Qed.
End stored_forms.

(** ** Concrete runs *)

Section witnesses.
Import History.

Definition stored_case : t := set_cases {[uuid 10 := supplier_case]} empty.

Lemma stored_case_wf : wf stored_case.
Proof. apply (good_set_cases empty (uuid 10) supplier_case wf_empty eq_refl). Qed.

Definition event : AuditEventCreate := {|
  ae_case_id := uuid 10; ae_event_type := u "review.completed"; ae_actor_id := u "ana"; ae_payload := [] |}.

Definition calls : list call :=
  [SaveReview review; AppendAuditEvent (fresh 1) event; SetStatus (fresh 2) (uuid 10) IN_REVIEW; SaveReview review].

Lemma case_calls_safe_witness :
  let f := run_schedule [1;0;2;3;1] (perform <$> calls) stored_case in
  wf f.2 /\ evolves stored_case f.2 /\ length (get_list (uuid 10) (events f.2)) = 1 /\
  get_list (uuid 10) (reviews f.2) = [review].
Proof.
  destruct (case_calls_safe calls stored_case
    (run_schedule [1;0;2;3;1] (perform <$> calls) stored_case).1
    (run_schedule [1;0;2;3;1] (perform <$> calls) stored_case).2) as [Hwf Hev].
  - exact stored_case_wf.
  - rewrite <- surjective_pairing. apply run_schedule_steps.
  - split; [exact Hwf|]. split; [exact Hev|]. split; vm_compute; reflexivity.
Defined.

Lemma review_saved_once_witness :
  run (get_latest_review (uuid 10)) (run (save_review review) stored_case).2
    = (Ok review, (run (save_review review) stored_case).2).
Proof.
  pose proof (review_saved_once stored_case review stored_case_wf) as H.
  assert (Hn : reviews_by_id stored_case !! rv_review_id review = None) by reflexivity. rewrite Hn in H.
  destruct (run (save_review review) stored_case) as [res s1]. destruct H as (r0 & _ & _ & _ & _ & Hlatest & _).
  apply Hlatest. exists supplier_case. reflexivity.
Defined.

Example audit_trail_example :
  (run (_ ← append_audit_event (fresh 1) event; list_audit_events (uuid 10)) stored_case).1
    = Ok [{| event_create := event; event_id := new_event_id (fresh 1); event_created_at := now (fresh 1) |}] /\
  (run (append_audit_event (fresh 1) event) empty) = (Raise (case_not_found (uuid 10)), empty).
Proof. split; vm_compute; reflexivity. Qed.

Definition sample : GovernedAction := {|
  ga_id := uuid 1; ga_case_id := uuid 10; ga_review_id := uuid 20; ga_tenant_id := tenant;
  ga_tool_name := SUPPLIER_SET_ONBOARDING_DECISION;
  ga_arguments := {| args_supplier_case_id := uuid 10; args_review_id := uuid 20; args_decision := REMEDIATE;
    args_rationale := u "Open findings"; args_required_actions := [] |};
  ga_status := PENDING_APPROVAL; ga_proposer_id := u "ana"; ga_approver_id := None; ga_approval_comment := [];
  ga_idempotency_key := key; ga_workflow_execution_arn := None; ga_execution_receipt := None;
  ga_created_at := 3%Z; ga_decided_at := None; ga_executed_at := None |}.

Definition sample_finding : Finding := {|
  finding_id := uuid 50; category := SECURITY; severity := HIGH; finding_title := u "Shared accounts";
  summary := u "Credentials are shared";
  evidence := [{| ev_document_title := u "Policy"; ev_quote := u "shared credentials"; ev_source_uri := None |}];
  remediation := u "Individual accounts"; finding_confidence := float_one |}.




Lemma action_row_round_trip_witness :
  SqlAlchemyActionRepository.action_from_record (SqlAlchemyActionRepository.record_from_action sample) = Ok sample /\
  SqlAlchemyActionRepository.action_from_record
    (SqlAlchemyActionRepository.update_record (SqlAlchemyActionRepository.record_from_action sample)
       (with_decision sample APPROVED (u "bob") (u "ok") 4%Z))
    = Ok (apply_transition sample (with_decision sample APPROVED (u "bob") (u "ok") 4%Z)).
Proof.
  apply (action_row_round_trip sample (with_decision sample APPROVED (u "bob") (u "ok") 4%Z)); vm_compute; reflexivity.
Defined.

(** A session on the empty database: a case with two documents, a review with two
    findings, its replay, a status change, two audit events and the queries. *)
Definition draws (i : UUID) (n : nat) : UUID := uuid (1000 + N.of_nat n).

Definition in_key_order : RowOrder := {|
  finding_order l := l; document_order l := l; review_order l := l; event_order l := l |}.
Definition backwards : RowOrder := {|
  finding_order l := reverse l; document_order l := reverse l; review_order l := reverse l;
  event_order l := reverse l |}.

Lemma in_key_order_permuting : permuting in_key_order.
Proof. by split. Qed.
Lemma backwards_permuting : permuting backwards.
Proof. split; intros l; apply reverse_Permutation. Qed.

Definition two_documents : SupplierCase := {|
  case_id := uuid 10; case_tenant_id := tenant; supplier_name := u "Widgets"; description := [];
  case_status := NEW;
  documents := [{| doc_title := u "Policy"; doc_content := u "shared credentials"; doc_source_uri := None |};
                {| doc_title := u "Contract"; doc_content := u "no audit right"; doc_source_uri := None |}];
  case_created_at := 0%Z; case_updated_at := 0%Z |}.

Definition second_finding : Finding := {|
  finding_id := uuid 51; category := LEGAL; severity := LOW; finding_title := u "Audit right";
  summary := u "No audit right"; evidence := []; remediation := u "Amend"; finding_confidence := float_one |}.

Definition full_review : ReviewResult := {|
  rv_review_id := uuid 20; rv_case_id := uuid 10; rv_findings := [sample_finding; second_finding];
  rv_recommendation := rv_recommendation review; rv_model_backend := u "deterministic";
  rv_started_at := 1%Z; rv_completed_at := 2%Z |}.

Definition session : list (RowOrder * Mem.call) :=
  [(in_key_order, Mem.Get (uuid 10)); (in_key_order, Mem.Create two_documents);
   (in_key_order, Mem.SaveReview full_review); (backwards, Mem.SaveReview full_review);
   (backwards, Mem.SetStatus (fresh 5) (uuid 10) IN_REVIEW); (backwards, Mem.GetLatestReview (uuid 10));
   (in_key_order, Mem.AppendAuditEvent (fresh 6) event); (in_key_order, Mem.AppendAuditEvent (fresh 7) event);
   (backwards, Mem.ListAuditEvents (uuid 10)); (backwards, Mem.Get (uuid 10))].

(** Side conditions of a concrete session, after evaluation. *)
Ltac session_side_conditions :=
  repeat match goal with
    | |- _ /\ _ => split
    | |- True => exact I
    | |- permuting _ => first [exact in_key_order_permuting | exact backwards_permuting]
    | |- NoDup _ => apply (bool_decide_unpack _); vm_compute; exact I
    | |- exists _, _ => eexists; reflexivity
    | |- Forall _ _ => constructor
    | |- _ = _ => reflexivity
    | |- _ -> _ => first [intros ?; discriminate | intros _]
    end.

Lemma session_ok : session_allowed draws session db_empty Mem.empty.
Proof. vm_compute. session_side_conditions. Qed.

Definition reversed_review : ReviewResult := {|
  rv_review_id := uuid 20; rv_case_id := uuid 10; rv_findings := [second_finding; sample_finding];
  rv_recommendation := rv_recommendation review; rv_model_backend := u "deterministic";
  rv_started_at := 1%Z; rv_completed_at := 2%Z |}.

(** The replay meets the findings in the other order; everything else agrees. *)
Lemma sql_repository_refines_witness :
  let sql := sql_session draws session db_empty in
  let mem := mem_session session.*2 Mem.empty in
  Forall2 same_answer sql.1 mem.1 /\ represents sql.2 mem.2 /\
  sql.1 !! 3 = Some (Ok (AReview reversed_review)) /\ mem.1 !! 3 = Some (Ok (AReview full_review)) /\
  sql.1 !! 8 = mem.1 !! 8 /\ sql.1 !! 9 = mem.1 !! 9.
Proof.
  destruct (sql_repository_refines draws session db_empty Mem.empty represents_empty session_ok) as [Hall Hrep].
  split; [exact Hall|]. split; [exact Hrep|]. split; [vm_compute; reflexivity|]. split; [vm_compute; reflexivity|].
  split; vm_compute; reflexivity.
Defined.

Definition stored_only : Db := (sql_session draws (take 2 session) db_empty).2.
Definition stored_only_mem : Mem.t := (mem_session (take 2 session).*2 Mem.empty).2.

Lemma racing_saves_conflict_witness :
  exists d', t_reviews d' !! uuid 20 = Some (Sql.review_record full_review) /\
    rtc pool_step ([Sql.save_review in_key_order full_review; Sql.save_review in_key_order full_review], stored_only)
      ([Ret full_review; Throw integrity_error], d').
Proof.
  assert (represents stored_only stored_only_mem) as Hrep.
  { apply (session_represents draws (take 2 session) db_empty Mem.empty represents_empty).
    vm_compute. session_side_conditions. }
  assert (allowed draws stored_only stored_only_mem (Mem.SaveReview full_review)) as Ha.
  { vm_compute. session_side_conditions. }
  destruct (racing_saves_conflict draws in_key_order full_review stored_only stored_only_mem Hrep Ha eq_refl)
    as (d' & Hd' & Hrace).
  exists d'. split; [|exact Hrace]. exact (proj1 (proj2 (proj2 (rp_review _ _ Hd' (uuid 20))))).
Defined.
End witnesses.
