(* ===== verification/PgVectorTheorems.v ===== *)
(** * What the pgvector service guarantees

    However calls interleave, each case has no chunks or the complete chunks of its
    documents; searches answer from one complete index; the service indexes what the
    in-memory one does; and two inputs the in-memory service accepts are refused. *)
From S2P Require Import Prelude PyStr Uuid Effects Json Schemas SchemaJson Cases Ledger Database Governance.
From S2P Require Import Chunking Retrieval RetrievalTheorems SqlCases PgVector CaseRefinement JsonTextCode GovernanceTheorems CaseTheorems.
From Corelib Require Import SpecFloat.
Import SqlAlchemyCaseRepository PgVectorRetrievalService.
Local Open Scope py_scope.

(** ** The rows of a flush *)

Definition keyed (rs : list DocumentChunkRecord) : gmap UUID DocumentChunkRecord :=
  list_to_map ((fun r => (chr_id r, r)) <$> rs).

Lemma keyed_keys rs : ((fun r => (chr_id r, r)) <$> rs).*1 = chr_id <$> rs.
Proof. rewrite <- list_fmap_compose. done. Qed.

Lemma keyed_None rs k : keyed rs !! k = None <-> k ∉ chr_id <$> rs.
Proof. unfold keyed. by rewrite <- not_elem_of_list_to_map, keyed_keys. Qed.

Lemma keyed_Some rs k r : NoDup (chr_id <$> rs) -> keyed rs !! k = Some r <-> r ∈ rs /\ chr_id r = k.
Proof.
  intros Hnd. unfold keyed. rewrite <- elem_of_list_to_map by (by rewrite keyed_keys).
  rewrite list_elem_of_fmap. split; [intros (r' & [= -> ->] & ?); done|intros [? <-]; eauto].
Qed.

Lemma flush_chunks rs d d' :
  flush (RowChunk <$> rs) d = Ok d' ->
  d' = set_chunks (keyed rs ∪ t_chunks d) d /\ NoDup (chr_id <$> rs) /\
  Forall (fun r => t_chunks d !! chr_id r = None) rs.
Proof.
  revert d. induction rs as [|r rs IH]; intros d; cbn [fmap list_fmap flush].
  - intros [= <-]. split; [|split; constructor]. unfold keyed. cbn. rewrite (left_id_L ∅ (∪)). by destruct d.
  - unfold flush_row. destruct (column_fits _); [|done]. cbn [insert_row].
    destruct (absent _ _ && _ && _) eqn:Hc; [|done]. cbn [of_option mbind result_bind]. intros Hf.
    apply andb_true_iff in Hc as [[Habs%absent_true _]%andb_true_iff _].
    destruct (IH _ Hf) as (-> & Hnd & Hall). cbn [put_chunk set_chunks t_chunks] in *.
    assert (chr_id r ∉ chr_id <$> rs) as Hr.
    { intros (r' & He & Hr')%list_elem_of_fmap. rewrite Forall_forall in Hall. specialize (Hall r' Hr').
      rewrite <- He, lookup_insert_eq in Hall. done. }
    split; [|split].
    + unfold keyed. cbn [fmap list_fmap list_to_map foldr]. rewrite <- insert_union_l, <- insert_union_r; [done|].
      by apply keyed_None.
    + by constructor.
    + constructor; [done|]. rewrite Forall_forall in *. intros r' Hr'. specialize (Hall r' Hr').
      by apply lookup_insert_None in Hall as [? _].
Qed.

Lemma flush_chunks_ok rs d :
  Forall (fun r => column_fits (RowChunk r) = true /\ t_chunks d !! chr_id r = None /\
            is_Some (t_documents d !! chr_document_id r) /\ is_Some (t_cases d !! chr_case_id r)) rs ->
  NoDup (chr_id <$> rs) -> flush (RowChunk <$> rs) d = Ok (set_chunks (keyed rs ∪ t_chunks d) d).
Proof.
  intros Hall Hnd. enough (exists d', flush (RowChunk <$> rs) d = Ok d') as [d' Hd'].
  { destruct (flush_chunks _ _ _ Hd') as [-> _]. done. }
  revert d Hall. induction rs as [|r rs IH]; intros d Hall; [by exists d|].
  apply Forall_cons in Hall as [(Hfit & Habs & Hdoc & Hcase) Hall]. apply NoDup_cons in Hnd as [Hr Hnd].
  cbn [fmap list_fmap flush]. unfold flush_row. rewrite Hfit. cbn [insert_row].
  rewrite (proj2 (absent_true _ _) Habs), (proj2 (present_true _ _) Hdoc), (proj2 (present_true _ _) Hcase).
  cbn [andb of_option mbind result_bind]. apply IH; [done|]. rewrite Forall_forall in *. intros r' Hr'.
  destruct (Hall r' Hr') as (? & ? & ? & ?). split_and!; try done. cbn. rewrite lookup_insert_ne; [done|].
  intros He. apply Hr, list_elem_of_fmap. by exists r'.
Qed.

(** A record that does not fit its columns fails the flush when the constraints hold. *)
Lemma flush_chunks_misfit rs d r :
  Forall (fun r => t_chunks d !! chr_id r = None /\
            is_Some (t_documents d !! chr_document_id r) /\ is_Some (t_cases d !! chr_case_id r)) rs ->
  NoDup (chr_id <$> rs) -> r ∈ rs -> column_fits (RowChunk r) = false -> flush (RowChunk <$> rs) d = Raise data_error.
Proof.
  intros Hall Hnd Hr Hbad. revert d Hall. induction rs as [|r' rs IH]; intros d Hall; [by apply elem_of_nil in Hr|].
  apply Forall_cons in Hall as [(Habs & Hdoc & Hcase) Hall]. apply NoDup_cons in Hnd as [Hr' Hnd].
  cbn [fmap list_fmap flush]. unfold flush_row. destruct (column_fits (RowChunk r')) eqn:Hfit; [|done].
  cbn [insert_row]. rewrite (proj2 (absent_true _ _) Habs), (proj2 (present_true _ _) Hdoc), (proj2 (present_true _ _) Hcase).
  cbn [andb of_option mbind result_bind]. apply elem_of_cons in Hr as [->|Hr]; [congruence|].
  apply IH; [done..|]. rewrite Forall_forall in *. intros r'' Hr''. destruct (Hall r'' Hr'') as (? & ? & ?).
  split_and!; try done. cbn. rewrite lookup_insert_ne; [done|]. intros He. apply Hr', list_elem_of_fmap. by exists r''.
Qed.

(** ** The index of a case *)

Section index.
Context (uuid5 : UUID -> pystr -> UUID) (chunker : StructuralChunker).
(** The cases on record and the identifiers drawn for their documents. *)
Context (cases : gmap UUID SupplierCase) (draw : UUID -> nat -> UUID).
Hypothesis keyed_cases : forall i c, cases !! i = Some c -> case_id c = i.

(** The chunks of a case. *)
Definition chunks_of (i : UUID) (c : SupplierCase) (chunks : list DocumentChunk) : Prop :=
  case_chunks uuid5 chunker i (document_records (draw i) c) = Ok chunks.

(** Every chunk of the case with one vector, and nothing else. *)
Definition complete (i : UUID) (d : Db) : Prop :=
  exists c chunks vectors, cases !! i = Some c /\ chunks_of i c chunks /\ NoDup (dc_id <$> chunks) /\
    length vectors = length chunks /\ chunk_rows_of i d = keyed (chunk_record <$> zip chunks vectors).

Record index_inv (d : Db) : Prop := {
  ii_keys : forall k r, t_documents d !! k = Some r -> dr_id r = k;
  ii_documents : forall i c, cases !! i = Some c -> documents_of i d ≡ₚ document_records (draw i) c;
  ii_index : forall i c, cases !! i = Some c -> chunk_rows_of i d = ∅ \/ complete i d;
}.

(** A complete index stays complete. *)
Definition index_rel (d d' : Db) : Prop := forall i, complete i d -> complete i d'.

#[export] Instance index_rel_preorder : PreOrder index_rel.
Proof. split; [by intros d i|]. intros d1 d2 d3 H1 H2 i Hi. by apply H2, H1. Qed.

#[local] Abbreviation wi := (wp index_inv index_rel index_rel).

Lemma case_chunks_of_case i docs chunks :
  leaves_room chunker -> case_chunks uuid5 chunker i docs = Ok chunks ->
  Forall (fun ch => dc_case_id ch = i /\ valid_DocumentChunk ch = true /\ exists doc, doc ∈ docs /\ dc_document_id ch = dr_id doc) chunks.
Proof.
  intros Hroom. unfold case_chunks. revert chunks. induction docs as [|doc docs IH]; intros chunks; cbn [mapR].
  - intros [= <-]. constructor.
  - assert (document_chunks uuid5 chunker i doc = of_option InMemoryRetrievalService.diverges
      (chunk chunker uuid5 i (dr_id doc) (dr_content doc) [(u "document_position", JInt (dr_position doc))])) as -> by done.
    destruct (chunk_spec chunker uuid5 i (dr_id doc) [(u "document_position", JInt (dr_position doc))] (dr_content doc) Hroom)
      as (cs & -> & Hok). cbn [of_option mbind result_bind].
    destruct (mapR _ docs) as [css|e] eqn:E; [|done]. cbn [fmap result_fmap mbind result_bind]. intros [= <-].
    cbn [concat]. apply Forall_app. split.
    + apply Forall_forall. intros ch Hch. apply list_elem_of_lookup in Hch as (k & Hk).
      apply Hok in Hk as (_ & Hv & _ & _ & Hcase & Hdoc & _ & _). split; [done|]. split; [done|]. exists doc. by split; [left|].
    + eapply Forall_impl; [by apply IH|]. intros ch (? & ? & doc' & ? & ?). split; [done|]. split; [done|].
      exists doc'. by split; [right|].
Qed.

Lemma chunk_record_ids chunks vectors :
  length vectors = length chunks -> chr_id <$> (chunk_record <$> zip chunks vectors) = dc_id <$> chunks.
Proof.
  intros Hl. rewrite <- list_fmap_compose. transitivity (dc_id <$> (fst <$> zip chunks vectors)).
  - rewrite <- list_fmap_compose. apply list_fmap_ext. by intros k [c v] _.
  - rewrite fst_zip by lia. done.
Qed.

Lemma complete_dom i c chunks d :
  cases !! i = Some c -> chunks_of i c chunks -> complete i d -> dom (chunk_rows_of i d) = list_to_set (dc_id <$> chunks).
Proof.
  intros Hc Hch (c' & chunks' & vectors & Hc' & Hch' & _ & Hl & ->). rewrite Hc in Hc'. injection Hc' as <-.
  unfold chunks_of in *. rewrite Hch in Hch'. injection Hch' as <-.
  unfold keyed. rewrite dom_list_to_map_L, keyed_keys, chunk_record_ids by done. done.
Qed.

(** The rows of a case after a replacement. *)
Lemma chunk_rows_union i rs (kept : gmap UUID DocumentChunkRecord) d :
  NoDup (chr_id <$> rs) -> Forall (fun r => kept !! chr_id r = None) rs -> Forall (fun r => chr_case_id r = i) rs ->
  chunk_rows_of i (set_chunks (keyed rs ∪ kept) d) = keyed rs ∪ filter (fun kr : UUID * DocumentChunkRecord => chr_case_id kr.2 = i) kept /\
  (forall j, j <> i -> chunk_rows_of j (set_chunks (keyed rs ∪ kept) d) = filter (fun kr : UUID * DocumentChunkRecord => chr_case_id kr.2 = j) kept).
Proof.
  intros Hnd Hkept Hcase.
  assert (keyed rs ##ₘ kept) as Hdisj.
  { apply map_disjoint_spec. intros k r r' Hr Hr'. apply keyed_Some in Hr as [Hr <-]; [|done].
    rewrite Forall_forall in Hkept. by rewrite Hkept in Hr'. }
  assert (forall k r, keyed rs !! k = Some r -> chr_case_id r = i) as Hall.
  { intros k r Hr. apply keyed_Some in Hr as [Hr _]; [|done]. rewrite Forall_forall in Hcase. by apply Hcase. }
  unfold chunk_rows_of. cbn [t_chunks set_chunks]. split.
  - rewrite map_filter_union by done. f_equal. apply map_filter_id. exact Hall.
  - intros j Hj. rewrite map_filter_union by done.
    assert (filter (fun kr : UUID * DocumentChunkRecord => chr_case_id kr.2 = j) (keyed rs) = ∅) as ->; [|by rewrite (left_id_L ∅ (∪))].
    apply map_empty_filter_2. intros k r Hr. cbn. rewrite (Hall _ _ Hr). congruence.
Qed.

(** Rows that stay when the rows [seen] go. *)
Lemma kept_rows j (seen : gset UUID) (m : gmap UUID DocumentChunkRecord) :
  filter (fun kr : UUID * DocumentChunkRecord => chr_case_id kr.2 = j) (filter (fun kr : UUID * DocumentChunkRecord => kr.1 ∉ seen) m)
  = filter (fun kr : UUID * DocumentChunkRecord => kr.1 ∉ seen) (filter (fun kr : UUID * DocumentChunkRecord => chr_case_id kr.2 = j) m).
Proof. apply map_filter_comm. Qed.

Lemma filter_none (seen : gset UUID) (m : gmap UUID DocumentChunkRecord) :
  seen ## dom m -> filter (fun kr : UUID * DocumentChunkRecord => kr.1 ∉ seen) m = m.
Proof.
  intros H. apply map_filter_id. intros k r Hk. cbn. intros Hs. apply (H k Hs). apply elem_of_dom. eauto.
Qed.

Lemma filter_every (m : gmap UUID DocumentChunkRecord) : filter (fun kr : UUID * DocumentChunkRecord => kr.1 ∉ dom m) m = ∅.
Proof. apply map_empty_filter_2. intros k r Hk. cbn. intros H. apply H, elem_of_dom. eauto. Qed.

(** What replacing the rows of a case does at the commit, whatever rows were seen. *)
Lemma replace_spec waited i c chunks vectors (seen : gset UUID) d :
  leaves_room chunker -> index_inv d -> cases !! i = Some c -> chunks_of i c chunks -> length vectors = length chunks ->
  (seen = ∅ \/ (seen = list_to_set (dc_id <$> chunks) /\ complete i d)) ->
  let kept := if waited : bool then t_chunks d else filter (fun kr : UUID * DocumentChunkRecord => kr.1 ∉ seen) (t_chunks d) in
  match flush (RowChunk <$> (chunk_record <$> zip chunks vectors)) (set_chunks kept d) with
  | Ok d' => index_inv d' /\ index_rel d d' /\ complete i d'
  | Raise _ => True
  end.
Proof.
  intros Hroom [Hkeys Hdocs Hix] Hc Hch Hl Hseen kept. set (rs := chunk_record <$> zip chunks vectors).
  destruct (flush _ _) as [d'|e] eqn:Hf; [|done].
  assert (chr_id <$> rs = dc_id <$> chunks) as Hids by (by apply chunk_record_ids).
  apply flush_chunks in Hf as (-> & Hnd & Habs). cbn [t_chunks set_chunks] in Habs. change (t_chunks (set_chunks kept d)) with kept.
  change (set_chunks (keyed rs ∪ kept) (set_chunks kept d)) with (set_chunks (keyed rs ∪ kept) d).
  assert (Forall (fun r => chr_case_id r = i) rs) as Hcase.
  { apply Forall_fmap, Forall_forall. intros [ch v] Hin. cbn.
    pose proof (case_chunks_of_case _ _ _ Hroom Hch) as Hall. rewrite Forall_forall in Hall.
    by apply Hall, (elem_of_zip_l _ _ _ _ Hin). }
  destruct (chunk_rows_union i rs kept d Hnd Habs Hcase) as [Hi Hother].
  (* rows of the case that stay *)
  assert (filter (fun kr : UUID * DocumentChunkRecord => chr_case_id kr.2 = i) kept = ∅) as Hnone.
  { assert (filter (fun kr : UUID * DocumentChunkRecord => chr_case_id kr.2 = i) kept = ∅ \/
            filter (fun kr : UUID * DocumentChunkRecord => chr_case_id kr.2 = i) kept = chunk_rows_of i d) as [?|Hsame].
    { subst kept. destruct waited; [by right|]. rewrite kept_rows. fold (chunk_rows_of i d).
      destruct Hseen as [->|[-> Hcomp]].
      - right. apply filter_none. set_solver.
      - left. rewrite <- (complete_dom _ _ _ _ Hc Hch Hcomp). apply filter_every. }
    { done. }
    destruct (Hix i c Hc) as [He|Hcomp]; [congruence|]. destruct chunks as [|ch chunks].
    - rewrite Hsame. apply dom_empty_inv_L. by rewrite (complete_dom _ _ _ _ Hc Hch Hcomp).
    - exfalso. pose proof (complete_dom _ _ _ _ Hc Hch Hcomp) as Hdom. rewrite <- Hsame in Hdom.
      destruct vectors as [|v vectors]; [done|]. apply Forall_cons in Habs as [Habs _]. cbn in Habs.
      assert (dc_id ch ∈ dom (filter (fun kr : UUID * DocumentChunkRecord => chr_case_id kr.2 = i) kept)) as Hin.
      { rewrite Hdom. cbn. apply elem_of_union_l, elem_of_singleton. done. }
      apply elem_of_dom in Hin as [r Hr]. apply map_lookup_filter_Some_1_1 in Hr. congruence. }
  rewrite Hnone, (right_id_L ∅ (∪)) in Hi.
  assert (complete i (set_chunks (keyed rs ∪ kept) d)) as Hcomp.
  { exists c, chunks, vectors. split_and!; try done. by rewrite <- Hids. }
  assert (forall j, j <> i -> chunk_rows_of j (set_chunks (keyed rs ∪ kept) d) = chunk_rows_of j d) as Hsame.
  { intros j Hj. rewrite Hother by done. subst kept. destruct waited; [done|]. rewrite kept_rows. apply filter_none.
    destruct Hseen as [->|[-> Hci]]; [set_solver|]. rewrite <- (complete_dom _ _ _ _ Hc Hch Hci).
    intros k [r Hr]%elem_of_dom [r' Hr']%elem_of_dom. unfold chunk_rows_of in *.
    apply map_lookup_filter_Some in Hr as [Hr Hri]. apply map_lookup_filter_Some in Hr' as [Hr' Hrj]. cbn in *. congruence. }
  assert (forall j, complete j d -> complete j (set_chunks (keyed rs ∪ kept) d)) as Hrel.
  { intros j Hj. destruct (base.decide (j = i)) as [->|Hne]; [done|].
    destruct Hj as (c' & cs & vs & ? & ? & ? & ? & He). exists c', cs, vs. split_and!; try done. by rewrite Hsame. }
  split; [|split]; [|exact Hrel|exact Hcomp]. split; [exact Hkeys|exact Hdocs|].
  intros j c' Hc'. destruct (base.decide (j = i)) as [->|Hne]; [by right|].
  destruct (Hix j c' Hc') as [He|Hj]; [left; by rewrite Hsame|right; by apply Hrel].
Qed.

Lemma wp_replace waited i c chunks vectors d :
  leaves_room chunker -> cases !! i = Some c -> chunks_of i c chunks -> length vectors = length chunks ->
  wi (replace_chunks waited i (chunk_record <$> zip chunks vectors))
     (fun r d' => match r with Ok _ => complete i d' | Raise _ => True end) d.
Proof.
  intros Hroom Hc Hch Hl. unfold replace_chunks. cbn [mbind prog_bind prog_bind_def reads atomic of_result wp].
  intros d1 _ H1. split; [done|]. split; [done|]. cbn [wp]. intros d2 H12 H2.
  pose proof (replace_spec waited i c chunks vectors (dom (chunk_rows_of i d1)) d2 Hroom H2 Hc Hch Hl) as Hspec.
  cbv zeta in Hspec |- *.
  assert (dom (chunk_rows_of i d1) = ∅ \/ (dom (chunk_rows_of i d1) = list_to_set (dc_id <$> chunks) /\ complete i d2)) as Hseen.
  { destruct (ii_index _ H1 i c Hc) as [->|Hcomp]; [left; by rewrite dom_empty_L|].
    right. split; [by eapply complete_dom|]. by apply H12. }
  specialize (Hspec Hseen). destruct (flush _ _) as [d'|e]; [|done].
  destruct Hspec as (? & ? & ?). split; [done|]. split; [done|]. done.
Qed.

Lemma documents_sorted order i c d :
  (forall l, document_order order l ≡ₚ l) -> index_inv d -> cases !! i = Some c ->
  merge_sort by_position (document_order order (documents_of i d)) = document_records (draw i) c.
Proof.
  intros Hord [_ Hdocs _] Hc. apply sorted_documents. rewrite Hord. by apply Hdocs.
Qed.

(** What a finished call of [index_case] answered. *)
Definition index_answer (embeddings : EmbeddingProvider) (i : UUID) (r : IndexResult) : Prop :=
  exists c chunks, cases !! i = Some c /\ chunks_of i c chunks /\
    r = {| ix_case_id := i; ix_document_count := Z.of_nat (length (documents c));
           ix_chunk_count := Z.of_nat (length chunks); ix_embedding_backend := embedding_name embeddings |}.

Lemma document_records_length dr c : length (document_records dr c) = length (documents c).
Proof. apply length_imap. Qed.

Lemma index_result_valid i n m name :
  construct valid_IndexResult {| ix_case_id := i; ix_document_count := Z.of_nat n; ix_chunk_count := Z.of_nat m; ix_embedding_backend := name |}
  = Ok {| ix_case_id := i; ix_document_count := Z.of_nat n; ix_chunk_count := Z.of_nat m; ix_embedding_backend := name |}.
Proof. apply construct_valid. unfold valid_IndexResult. cbn. apply andb_true_iff. rewrite !Z.leb_le. lia. Qed.

Lemma wp_index embeddings order waited c i d :
  leaves_room chunker -> (forall l, document_order order l ≡ₚ l) -> cases !! i = Some c ->
  wi (index_case uuid5 embeddings chunker order waited c)
     (fun r d' => match r with Ok res => index_answer embeddings i res /\ complete i d' | Raise _ => True end) d.
Proof.
  intros Hroom Hord Hc. pose proof (keyed_cases i c Hc) as Hid. unfold index_case. rewrite Hid.
  cbn [mbind prog_bind prog_bind_def reads atomic of_result wp].
  intros d1 _ H1. split; [done|]. split; [done|]. rewrite (documents_sorted order i c d1 Hord H1 Hc).
  destruct (case_chunks uuid5 chunker i (document_records (draw i) c)) as [chunks|e] eqn:Hch; [|done].
  cbn [of_result mbind prog_bind prog_bind_def]. destruct (embed embeddings (dc_content <$> chunks)) as [vectors|e]; [|exact I]. cbn [of_result mbind prog_bind prog_bind_def].
  unfold zip_strict. destruct (length chunks =? length vectors)%nat eqn:Hl; [|exact I]. apply Nat.eqb_eq in Hl.
  cbn [of_result mbind prog_bind prog_bind_def].
  change (wi (replace_chunks waited i (chunk_record <$> zip chunks vectors) ≫= fun _ => of_result (construct valid_IndexResult
    {| ix_case_id := i; ix_document_count := Z.of_nat (length (document_records (draw i) c));
       ix_chunk_count := Z.of_nat (length chunks); ix_embedding_backend := embedding_name embeddings |}))
    (fun r d' => match r with Ok res => index_answer embeddings i res /\ complete i d' | Raise _ => True end) d1).
  apply wp_bind. eapply wp_mono; [|by apply (wp_replace waited i c)].
  intros [[]|e] d'; [|done]. intros Hcomp. rewrite index_result_valid. cbn [of_result wp].
  split; [|done]. exists c, chunks. split_and!; try done. by rewrite document_records_length.
Qed.

(** ** Searching *)

(** What any plan of the query keeps to, index or none: rows of the join, in order, as
    many as asked for at most. *)
Record plan_law (plan : list Match -> nat -> list Match) : Prop := {
  pl_rows : forall l n, plan l n ⊆+ l;
  pl_limit : forall l n, length (plan l n) <= n;
  pl_sorted : forall l n, StronglySorted (fun a b => sorts_before a.2 b.2 = true) (plan l n);
}.

(** A result of a search of a case is one of its chunks with the title and source of
    the document it was cut from. *)
Definition result_of (i : UUID) (r : RetrievedChunk) : Prop :=
  exists c chunks position doc, cases !! i = Some c /\ chunks_of i c chunks /\ rt_chunk r ∈ chunks /\
    documents c !! position = Some doc /\ dc_document_id (rt_chunk r) = draw i position /\
    rt_document_title r = doc_title doc /\ rt_source_uri r = doc_source_uri doc.

Definition search_answer (i : UUID) (limit : Z) (out : list RetrievedChunk) : Prop :=
  length out <= Z.to_nat limit /\ Forall (result_of i) out /\ NoDup (dc_id <$> (rt_chunk <$> out)) /\
  StronglySorted (fun a b => fle (rt_distance a) (rt_distance b) = true) out.

Lemma matches_elem cosine i q d row :
  row ∈ matches cosine i q d -> exists k, chunk_rows_of i d !! k = Some row.1.1 /\
    t_documents d !! chr_document_id row.1.1 = Some row.1.2 /\ row.2 = cosine (chr_embedding row.1.1) q.
Proof.
  intros ([k r] & Hin & Heq)%list_elem_of_omap. apply elem_of_map_to_list in Hin. cbn in Heq.
  destruct (t_documents d !! chr_document_id r) as [doc|] eqn:Ed; [|done]. injection Heq as <-. by exists k.
Qed.

(** The document row behind an identifier drawn for a case. *)
Lemma document_row i c k doc d :
  index_inv d -> cases !! i = Some c -> doc ∈ document_records (draw i) c -> t_documents d !! dr_id doc = Some k -> k = doc.
Proof.
  intros [Hkeys Hdocs _] Hc Hin Hk. rewrite <- (Hdocs i c Hc) in Hin. unfold documents_of in Hin.
  apply list_elem_of_filter in Hin as [_ Hin]. apply list_elem_of_fmap in Hin as ([k' doc'] & -> & Hin). cbn in *.
  apply elem_of_map_to_list in Hin. rewrite (Hkeys _ _ Hin) in Hk. congruence.
Qed.

Lemma retrieved_Ok row r :
  retrieved row = Ok r -> r = {|
    rt_chunk := {|
      dc_id := chr_id row.1.1; dc_document_id := chr_document_id row.1.1; dc_case_id := chr_case_id row.1.1;
      dc_position := chr_position row.1.1; dc_heading := chr_heading row.1.1; dc_content := chr_content row.1.1;
      dc_token_count := chr_token_count row.1.1; dc_metadata := chr_metadata_json row.1.1 |};
    rt_document_title := dr_title row.1.2; rt_source_uri := dr_source_uri row.1.2; rt_distance := row.2 |} /\
  fle float_zero row.2 = true.
Proof.
  destruct row as [[c doc] x]. cbn. intros [Hv ->]%construct_Ok. split; [done|].
  unfold valid_RetrievedChunk in Hv. by apply andb_true_iff in Hv as [_ ?].
Qed.

Lemma match_result cosine i c q d row r :
  leaves_room chunker -> index_inv d -> cases !! i = Some c -> row ∈ matches cosine i q d -> retrieved row = Ok r -> result_of i r.
Proof.
  intros Hroom HI Hc Hrow Hr. apply matches_elem in Hrow as (k & Hk & Hdoc & _). apply retrieved_Ok in Hr as [-> _].
  destruct (ii_index _ HI i c Hc) as [He|(c' & chunks & vectors & Hc' & Hch & Hnd & Hl & He)]; [by rewrite He in Hk|].
  rewrite Hc in Hc'. injection Hc' as <-. rewrite He in Hk. apply keyed_Some in Hk as [Hk _];
    [|rewrite chunk_record_ids by done; done].
  apply list_elem_of_fmap in Hk as ([ch v] & Hk & Hin). pose proof (elem_of_zip_l _ _ _ _ Hin) as Hchin.
  pose proof (case_chunks_of_case _ _ _ Hroom Hch) as Hall. rewrite Forall_forall in Hall.
  destruct (Hall ch Hchin) as (_ & _ & doc & Hdocin & Hid).
  rewrite Hk in Hdoc |- *. cbn [chunk_record chr_id chr_document_id chr_case_id chr_position chr_heading chr_content chr_token_count chr_metadata_json] in *.
  rewrite Hid in Hdoc. pose proof (document_row i c _ _ _ HI Hc Hdocin Hdoc) as Hrow.
  unfold document_records in Hdocin. apply elem_of_lookup_imap in Hdocin as (position & x & -> & Hx).
  exists c, chunks, position, x. cbn. rewrite Hrow. split_and!; try done. by destruct ch.
Qed.

Lemma mapR_Forall2 {A B} (f : A -> result B) l out : mapR f l = Ok out -> Forall2 (fun a b => f a = Ok b) l out.
Proof.
  revert out. induction l as [|a l IH]; intros out; cbn [mapR]; [intros [= <-]; constructor|].
  destruct (f a) as [b|e] eqn:E; [|done]. cbn [mbind result_bind]. destruct (mapR f l) as [bs|e]; [|done].
  cbn [mbind result_bind]. intros [= <-]. constructor; auto.
Qed.

Lemma retrieved_sorted rows out :
  Forall2 (fun a b => retrieved a = Ok b) rows out ->
  StronglySorted (fun a b => sorts_before a.2 b.2 = true) rows ->
  StronglySorted (fun a b => fle (rt_distance a) (rt_distance b) = true) out.
Proof.
  induction 1 as [|row r rows out Hr Hrs IH]; intros Hs; [constructor|].
  apply StronglySorted_inv in Hs as [Hs Hrow]. constructor; [by apply IH|].
  apply retrieved_Ok in Hr as [-> Hd]. cbn. clear Hs IH. induction Hrs as [|row' r' rows out Hr' _ IH]; [constructor|].
  apply Forall_cons in Hrow as [Hb Hrow]. constructor; [|by apply IH]. apply retrieved_Ok in Hr' as [-> Hd']. cbn.
  unfold sorts_before in Hb. destruct (is_nan row'.2) eqn:E; [by destruct row'.2|].
  apply andb_true_iff in Hb as [_ ?]. done.
Qed.

Lemma retrieved_ids rows out :
  Forall2 (fun a b => retrieved a = Ok b) rows out -> dc_id <$> (rt_chunk <$> out) = (fun m : Match => chr_id m.1.1) <$> rows.
Proof.
  induction 1 as [|row r rows out Hr _ IH]; [done|]. cbn. f_equal; [|exact IH]. by apply retrieved_Ok in Hr as [-> _].
Qed.

Lemma matches_ids cosine i c q d :
  index_inv d -> cases !! i = Some c -> NoDup ((fun m : Match => chr_id m.1.1) <$> matches cosine i q d).
Proof.
  intros HI Hc.
  assert (forall k r, chunk_rows_of i d !! k = Some r -> chr_id r = k) as Hkey.
  { intros k r Hk. destruct (ii_index _ HI i c Hc) as [He|(c' & chunks & vectors & _ & _ & Hnd & Hl & He)]; [by rewrite He in Hk|].
    rewrite He in Hk. apply keyed_Some in Hk as [_ ?]; [done|]. by rewrite chunk_record_ids. }
  unfold matches. pose proof (NoDup_fst_map_to_list (chunk_rows_of i d)) as Hnd.
  assert (forall kr, kr ∈ map_to_list (chunk_rows_of i d) -> chr_id kr.2 = kr.1) as Hall.
  { intros [k r] Hin%elem_of_map_to_list. by apply Hkey. }
  revert Hnd Hall. generalize (map_to_list (chunk_rows_of i d)). intros l. induction l as [|[k r] l IH]; intros Hnd Hall; [constructor|].
  apply NoDup_cons in Hnd as [Hk Hnd]. cbn [omap list_omap]. cbn [fst snd].
  assert (forall kr, kr ∈ l -> chr_id kr.2 = kr.1) as Hall' by (intros kr ?; apply Hall; by right).
  destruct (t_documents d !! chr_document_id r) as [doc|]; cbn [fmap option_fmap option_map]; [|by apply IH].
  cbn. constructor; [|by apply IH]. intros (m & Hm & Hin)%list_elem_of_fmap.
  apply list_elem_of_omap in Hin as ([k' r'] & Hin & Heq). cbn in Heq.
  destruct (t_documents d !! chr_document_id r') as [doc'|]; [|done]. injection Heq as <-. cbn in Hm.
  apply Hk, list_elem_of_fmap. exists (k', r'). split; [|done]. cbn.
  pose proof (Hall (k, r) ltac:(by left)) as H1. pose proof (Hall (k', r') ltac:(by right)) as H2. cbn in H1, H2. congruence.
Qed.

Lemma submseteq_nodup {A} (l k : list A) : l ⊆+ k -> NoDup k -> NoDup l.
Proof. intros [k' ->]%submseteq_Permutation Hnd. by apply NoDup_app in Hnd as [? _]. Qed.

(** The answer of the query of one database state. *)
Lemma query_answer plan cosine i c q limit d out :
  leaves_room chunker -> plan_law plan -> index_inv d -> cases !! i = Some c ->
  mapR retrieved (plan (matches cosine i q d) (Z.to_nat limit)) = Ok out -> search_answer i limit out.
Proof.
  intros Hroom [Hrows Hlimit Hsorted] HI Hc Hout. apply mapR_Forall2 in Hout. unfold search_answer. split_and!.
  - rewrite <- (Forall2_length _ _ _ Hout). apply Hlimit.
  - apply Forall_forall. intros r Hr. destruct (list_elem_of_lookup_1 _ _ Hr) as [n Hn].
    destruct (Forall2_lookup_r _ _ _ _ _ Hout Hn) as (row & Hrow & Hok).
    eapply (match_result cosine i c q d row); try done.
    apply list_elem_of_lookup_2 in Hrow. by apply (elem_of_submseteq _ _ _ Hrow).
  - rewrite (retrieved_ids _ _ Hout). apply (submseteq_nodup _ ((fun m : Match => chr_id m.1.1) <$> matches cosine i q d)).
    + apply fmap_submseteq, Hrows.
    + by eapply matches_ids.
  - eapply retrieved_sorted; [exact Hout|apply Hsorted].
Qed.

Lemma wp_search embeddings plan cosine i c query limit d :
  leaves_room chunker -> plan_law plan -> cases !! i = Some c ->
  wi (search embeddings cosine plan i query limit)
     (fun r _ => match r with Ok out => search_answer i limit out | Raise _ => True end) d.
Proof.
  intros Hroom Hplan Hc. unfold search. destruct (embed embeddings [query]) as [vs|e]; [|exact I].
  cbn [of_result mbind prog_bind prog_bind_def]. destruct vs as [|q vs]; [exact I|].
  cbn [head of_option of_result mbind prog_bind prog_bind_def reads atomic wp].
  intros d1 _ H1. split; [done|]. split; [done|]. destruct (_ && _ && _); [|exact I]. cbn [of_result prog_bind_def].
  destruct (mapR retrieved _) as [out|e] eqn:E; [|exact I]. cbn [of_result wp]. by eapply query_answer.
Qed.

(** ** Calls *)

(** A call of the service by some process, with the provider and the database's choices
    it meets. *)
Inductive retrieval_call :=
  | Index (embeddings : EmbeddingProvider) (order : RowOrder) (waited : bool) (i : UUID)
  | Search (embeddings : EmbeddingProvider) (cosine : list float64 -> list float64 -> float64)
           (plan : list Match -> nat -> list Match) (i : UUID) (query : pystr) (limit : Z).

Inductive retrieval_reply :=
  | Indexed (r : IndexResult)
  | Found (out : list RetrievedChunk).

Definition call_program (k : retrieval_call) : prog Db retrieval_reply :=
  match k with
  | Index embeddings order waited i =>
      match cases !! i with
      | Some c => Indexed <$> index_case uuid5 embeddings chunker order waited c
      | None => Throw (case_not_found i)
      end
  | Search embeddings cosine plan i query limit => Found <$> search embeddings cosine plan i query limit
  end.

Definition call_allowed (k : retrieval_call) : Prop :=
  match k with
  | Index _ order _ i => (forall l, document_order order l ≡ₚ l) /\ is_Some (cases !! i)
  | Search _ _ plan i _ _ => plan_law plan /\ is_Some (cases !! i)
  end.

(** What a reply says, for good. *)
Definition reply_true (k : retrieval_call) (r : retrieval_reply) (d : Db) : Prop :=
  match k, r with
  | Index embeddings _ _ i, Indexed res => index_answer embeddings i res /\ complete i d
  | Search _ _ _ i _ limit, Found out => search_answer i limit out
  | _, _ => False
  end.

Definition call_post (k : retrieval_call) (r : result retrieval_reply) (d : Db) : Prop :=
  match r with Ok res => reply_true k res d | Raise _ => True end.

Lemma wp_call k d : leaves_room chunker -> call_allowed k -> wi (call_program k) (call_post k) d.
Proof.
  intros Hroom. destruct k as [emb order waited i|emb cos plan i query limit]; intros [Hlaw [c Hc]]; cbn [call_program].
  - rewrite Hc. apply wp_bind. eapply wp_mono; [|by apply (wp_index emb order waited c i)].
    by intros [res|e] d'.
  - apply wp_bind. eapply wp_mono; [|by apply (wp_search emb plan cos i c query limit)].
    by intros [res|e] d'.
Qed.

Lemma calls_safe calls d ts d' :
  leaves_room chunker -> Forall call_allowed calls -> index_inv d ->
  rtc pool_step (call_program <$> calls, d) (ts, d') ->
  index_inv d' /\ (forall i, complete i d -> complete i d') /\
  forall n k r, calls !! n = Some k -> ts !! n = Some (Ret r) -> reply_true k r d'.
Proof.
  intros Hroom Hcalls HI Hsteps.
  destruct (pool_safe index_inv index_rel index_rel (call_post <$> calls) (call_program <$> calls, d) (ts, d'))
    as (HI' & HR & HF); try done.
  - apply Forall_fmap, Forall_true. intros k [r|e] t t'; [|done]. destruct k, r; cbn; try done.
    intros [? ?] HR. split; [done|by apply HR].
  - cbn. apply Forall2_fmap, Forall_Forall2_diag. eapply Forall_impl; [exact Hcalls|]. intros k Hk. by apply wp_call.
  - split; [done|]. split; [done|]. intros n k r Hk Hr. cbn in HF.
    eapply Forall2_lookup_lr in HF; [|by rewrite list_lookup_fmap, Hk|exact Hr]. exact HF.
Qed.

(** C23. However calls of the service interleave, every case has no chunks or exactly the
    chunks of its documents with a vector each, a complete index stays complete, an
    indexing that returns has left one behind and counted it, and a search that returns
    answers with distinct chunks of the case and their documents, in order of distance and
    as many as asked for at most. *)
Theorem interleaved_indexing_complete calls d ts d' :
  leaves_room chunker -> Forall call_allowed calls -> index_inv d ->
  rtc pool_step (call_program <$> calls, d) (ts, d') ->
  index_inv d' /\ (forall i, complete i d -> complete i d') /\
  forall n k r, calls !! n = Some k -> ts !! n = Some (Ret r) -> reply_true k r d'.
Proof. apply calls_safe. Qed.
End index.

(** ** The same chunks as in memory *)

Section memory.
Context (uuid5 : UUID -> pystr -> UUID) (chunker : StructuralChunker).
Hypothesis Hroom : leaves_room chunker.

(** Equal but for the identifiers of the chunk and of its document. *)
Definition same_chunk (a b : DocumentChunk) : Prop :=
  dc_case_id a = dc_case_id b /\ dc_position a = dc_position b /\ dc_heading a = dc_heading b /\
  dc_content a = dc_content b /\ dc_token_count a = dc_token_count b /\ dc_metadata a = dc_metadata b.

Lemma emit_same i d1 d2 metadata h o1 o2 part :
  Forall2 same_chunk o1 o2 ->
  Forall2 same_chunk (emit uuid5 i d1 metadata h o1 part) (emit uuid5 i d2 metadata h o2 part).
Proof.
  intros Ho. unfold emit. destruct (strip part) as [|x s]; [done|]. apply Forall2_app; [done|].
  constructor; [|constructor]. unfold same_chunk. cbn. by rewrite (Forall2_length _ _ _ Ho).
Qed.

Lemma chunk_sections_same i d1 d2 metadata ss : forall o1 o2, Forall2 same_chunk o1 o2 ->
  option_Forall2 (Forall2 same_chunk) (chunk_sections chunker uuid5 i d1 metadata o1 ss)
    (chunk_sections chunker uuid5 i d2 metadata o2 ss).
Proof.
  induction ss as [|s ss IH]; intros o1 o2 Ho; cbn [chunk_sections]; [by constructor|].
  destruct (bounded_parts _ _ _) as [parts|]; [|constructor]. apply IH.
  revert o1 o2 Ho. induction parts as [|part parts IHp]; intros o1 o2 Ho; [done|]. cbn [fold_left]. by apply IHp, emit_same.
Qed.

(** What the in-memory service stores for a chunk, and the chunk of the database. *)
Definition same_entry (c : SupplierCase) (draws : nat -> UUID) (e : DocumentChunk * pystr * option pystr) (b : DocumentChunk) : Prop :=
  same_chunk e.1.1 b /\ exists position doc, documents c !! position = Some doc /\
    e.1.2 = doc_title doc /\ e.2 = doc_source_uri doc /\ dc_document_id b = draws position.

Lemma document_chunks_same c draws position doc :
  documents c !! position = Some doc ->
  exists es bs, InMemoryRetrievalService.document_chunks uuid5 chunker (case_id c) position doc = Ok es /\
    document_chunks uuid5 chunker (case_id c) (document_record (case_id c) draws position doc) = Ok bs /\
    Forall2 (same_entry c draws) es bs.
Proof.
  intros Hdoc. set (meta := [(u "document_position", JInt (Z.of_nat position))]).
  assert (forall did, exists cs, chunk chunker uuid5 (case_id c) did (doc_content doc) meta = Some cs /\
            Forall (fun ch => dc_document_id ch = did) cs) as Hchunk.
  { intros did. destruct (chunk_spec chunker uuid5 (case_id c) did meta (doc_content doc) Hroom) as (cs & Hcs & Hok).
    exists cs. split; [done|]. apply Forall_forall. intros ch Hch. apply list_elem_of_lookup in Hch as (k & Hk).
    by apply Hok in Hk as (_ & _ & _ & _ & _ & ? & _). }
  destruct (Hchunk (InMemoryRetrievalService.document_id_for uuid5 (case_id c) position doc)) as (es & He & _).
  destruct (Hchunk (draws position)) as (bs & Hb & Hids).
  pose proof (chunk_sections_same (case_id c) (InMemoryRetrievalService.document_id_for uuid5 (case_id c) position doc)
    (draws position) meta (sections (doc_content doc)) [] []) as Hsame.
  change (chunk_sections chunker uuid5 (case_id c) ?x meta [] (sections (doc_content doc)))
    with (chunk chunker uuid5 (case_id c) x (doc_content doc) meta) in Hsame.
  rewrite He, Hb in Hsame. specialize (Hsame ltac:(constructor)). inversion Hsame as [? ? HF|]; subst.
  eexists _, bs. split; [|split].
  - unfold InMemoryRetrievalService.document_chunks. fold meta. rewrite He. cbn [of_option mbind result_bind]. reflexivity.
  - unfold document_chunks. cbn [document_record dr_id dr_content dr_position]. fold meta. by rewrite Hb.
  - apply Forall2_fmap_l. clear -HF Hids Hdoc. revert Hids. induction HF as [|e b es bs Heb _ IH]; [constructor|].
    intros [Hb Hids]%Forall_cons. constructor; [|by apply IH]. split; [done|]. by exists position, doc.
Qed.

Lemma case_chunks_same c draws :
  exists es bs, InMemoryRetrievalService.case_chunks uuid5 chunker c = Ok es /\
    case_chunks uuid5 chunker (case_id c) (document_records draws c) = Ok bs /\ Forall2 (same_entry c draws) es bs.
Proof.
  unfold InMemoryRetrievalService.case_chunks, case_chunks, document_records.
  enough (forall docs n, (forall k doc, docs !! k = Some doc -> documents c !! (n + k) = Some doc) ->
    exists es bs, mapR (fun '(position, doc) => InMemoryRetrievalService.document_chunks uuid5 chunker (case_id c) position doc)
        (imap (fun k => pair (n + k)) docs) = Ok es /\
      mapR (document_chunks uuid5 chunker (case_id c)) (imap (fun k => document_record (case_id c) draws (n + k)) docs) = Ok bs /\
      Forall2 (same_entry c draws) (concat es) (concat bs)) as Hall.
  { destruct (Hall (documents c) 0) as (es & bs & He & Hb & HF); [done|].
    exists (concat es), (concat bs). cbn [Nat.add] in He, Hb.
    split; [|split; [|done]].
    - etrans; [apply (f_equal (fmap (@concat _))), He|done].
    - etrans; [apply (f_equal (fmap (@concat _))), Hb|done]. }
  induction docs as [|doc docs IH]; intros n Hdocs; [by exists [], []|].
  destruct (document_chunks_same c draws n doc) as (e & b & He & Hb & HF).
  { specialize (Hdocs 0 doc). rewrite Nat.add_0_r in Hdocs. by apply Hdocs. }
  destruct (IH (S n)) as (es & bs & Hes & Hbs & HFs).
  { intros k x Hk. specialize (Hdocs (S k) x Hk). by rewrite Nat.add_succ_r in Hdocs. }
  exists (e :: es), (b :: bs). rewrite !imap_cons. cbn [mapR]. rewrite Nat.add_0_r, He, Hb. cbn [mbind result_bind].
  erewrite (imap_ext _ (fun k => pair (S n + k))) by (intros; cbn; by rewrite Nat.add_succ_r).
  erewrite (imap_ext _ (fun k => document_record (case_id c) draws (S n + k))) by (intros; cbn; by rewrite Nat.add_succ_r).
  rewrite Hes, Hbs. split; [done|]. split; [done|]. cbn [concat]. by apply Forall2_app.
Qed.
End memory.

(** ** One indexing, next to the same one in memory *)

Section alone.
Context (uuid5 : UUID -> pystr -> UUID) (chunker : StructuralChunker) (embeddings : EmbeddingProvider).
Hypothesis Hroom : leaves_room chunker.

(** A provider of the dimension the schema has, which [init] asks for, and of components in
    the range of single precision. *)
Definition embeds_vectors : Prop := forall texts, exists vectors,
  embed embeddings texts = Ok vectors /\ length vectors = length texts /\
  Forall (fun v => length v = 1024 /\ forallb is_finite (float4 <$> v) = true) vectors.

(** The heading and the text of a chunk fit their columns. *)
Definition chunk_fits (ch : DocumentChunk) : bool := opt_forallb (varchar 500) (dc_heading ch) && storable (dc_content ch).

(** The stored item and the stored row of one chunk: the row has its vector in single precision. *)
Definition same_item (c : SupplierCase) (draws : nat -> UUID) (it : InMemoryRetrievalService.IndexedChunk) (r : DocumentChunkRecord) : Prop :=
  exists ch, r = chunk_record (ch, InMemoryRetrievalService.ic_embedding it) /\
    chr_embedding r = float4 <$> InMemoryRetrievalService.ic_embedding it /\
    same_entry c draws (InMemoryRetrievalService.ic_chunk it, InMemoryRetrievalService.ic_document_title it,
                        InMemoryRetrievalService.ic_source_uri it) ch.

(** The case is on record, its documents as they were inserted, and the identifiers of
    its chunks are its own. *)
Record indexable (c : SupplierCase) (draws : nat -> UUID) (chunks : list DocumentChunk) (d : Db) : Prop := {
  ib_case : is_Some (t_cases d !! case_id c);
  ib_keys : forall k r, t_documents d !! k = Some r -> dr_id r = k;
  ib_documents : documents_of (case_id c) d ≡ₚ document_records draws c;
  ib_chunks : case_chunks uuid5 chunker (case_id c) (document_records draws c) = Ok chunks;
  ib_distinct : NoDup (dc_id <$> chunks);
  ib_own : forall k r, k ∈ dc_id <$> chunks -> t_chunks d !! k = Some r -> chr_case_id r = case_id c;
}.

Lemma record_fits ch v :
  length v = 1024 -> forallb is_finite (float4 <$> v) = true -> column_fits (RowChunk (chunk_record (ch, v))) = chunk_fits ch.
Proof.
  intros Hl Hf. unfold column_fits, chunk_fits. cbn [chunk_record chr_heading chr_content chr_embedding].
  by rewrite length_fmap, Hl, Nat.eqb_refl, Hf, !andb_true_r.
Qed.

Lemma document_known c draws d doc :
  documents_of (case_id c) d ≡ₚ document_records draws c -> (forall k r, t_documents d !! k = Some r -> dr_id r = k) ->
  doc ∈ document_records draws c -> is_Some (t_documents d !! dr_id doc).
Proof.
  intros Hdocs Hkeys Hin. rewrite <- Hdocs in Hin. unfold documents_of in Hin.
  apply list_elem_of_filter in Hin as [_ ([k doc'] & -> & Hin)%list_elem_of_fmap]. cbn.
  apply elem_of_map_to_list in Hin. rewrite (Hkeys _ _ Hin). eauto.
Qed.

(** The rows the transaction inserts meet the constraints. *)
Lemma rows_admissible c draws chunks vectors d :
  indexable c draws chunks d -> length vectors = length chunks ->
  Forall (fun r => filter (fun kr : UUID * DocumentChunkRecord => kr.1 ∉ dom (chunk_rows_of (case_id c) d)) (t_chunks d) !! chr_id r = None /\
            is_Some (t_documents d !! chr_document_id r) /\ is_Some (t_cases d !! chr_case_id r))
    (chunk_record <$> zip chunks vectors) /\
  NoDup (chr_id <$> (chunk_record <$> zip chunks vectors)) /\
  Forall (fun r => chr_case_id r = case_id c) (chunk_record <$> zip chunks vectors).
Proof.
  intros [Hcase Hkeys Hdocs Hchunks Hnd Hown] Hl.
  pose proof (case_chunks_of_case uuid5 chunker _ _ _ Hroom Hchunks) as Hall. rewrite Forall_forall in Hall.
  assert (forall r, r ∈ chunk_record <$> zip chunks vectors -> exists ch v, r = chunk_record (ch, v) /\ ch ∈ chunks) as Hrow.
  { intros r ([ch v] & -> & Hin)%list_elem_of_fmap. exists ch, v. split; [done|exact (elem_of_zip_l _ _ _ _ Hin)]. }
  split; [|split].
  - apply Forall_forall. intros r Hr. destruct (Hrow r Hr) as (ch & v & -> & Hch). cbn.
    destruct (Hall ch Hch) as (Hcid & _ & doc & Hdoc & Hdid). rewrite Hcid, Hdid. split; [|split; [|done]].
    + apply map_lookup_filter_None. right. intros r Hk Hnin. cbn in Hnin. apply Hnin, elem_of_dom. exists r.
      apply map_lookup_filter_Some. split; [done|]. cbn. apply (Hown (dc_id ch)); [|done]. apply list_elem_of_fmap. by exists ch.
    + by eapply document_known.
  - by rewrite chunk_record_ids.
  - apply Forall_forall. intros r Hr. destruct (Hrow r Hr) as (ch & v & -> & Hch). cbn. by apply Hall.
Qed.

Lemma items_same c draws es chunks vectors :
  Forall2 (same_entry c draws) es chunks -> length vectors = length chunks ->
  Forall2 (same_item c draws) (InMemoryRetrievalService.indexed <$> zip es vectors) (chunk_record <$> zip chunks vectors).
Proof.
  intros HF. revert vectors. induction HF as [|e ch es chunks Hs _ IH]; intros [|v vectors] Hl; try done.
  cbn. constructor; [|apply IH; by injection Hl]. destruct e as [[ch' title] uri]. by exists ch.
Qed.

Lemma replace_alone c draws chunks vectors d :
  indexable c draws chunks d -> length vectors = length chunks ->
  Forall (fun v => length v = 1024 /\ forallb is_finite (float4 <$> v) = true) vectors ->
  let rows := chunk_record <$> zip chunks vectors in
  let kept := filter (fun kr : UUID * DocumentChunkRecord => kr.1 ∉ dom (chunk_rows_of (case_id c) d)) (t_chunks d) in
  run (replace_chunks false (case_id c) rows) d =
    if forallb chunk_fits chunks then (Ok tt, set_chunks (keyed rows ∪ kept) d) else (Raise data_error, d).
Proof.
  intros Hix Hl Hv rows kept. destruct (rows_admissible c draws chunks vectors d Hix Hl) as (Hadm & Hnd & _).
  assert (Forall (fun r => exists ch, ch ∈ chunks /\ column_fits (RowChunk r) = chunk_fits ch) rows) as Hfit.
  { apply Forall_fmap, Forall_forall. intros [ch v] Hin. cbn. exists ch. split; [exact (elem_of_zip_l _ _ _ _ Hin)|].
    rewrite Forall_forall in Hv. destruct (Hv v (elem_of_zip_r _ _ _ _ Hin)). by apply record_fits. }
  unfold replace_chunks. rewrite run_bind, run_reads, run_atomic. cbv zeta. fold kept. fold rows in Hadm, Hnd |- *.
  destruct (forallb chunk_fits chunks) eqn:Hall.
  - rewrite flush_chunks_ok; [done| |done]. apply Forall_forall. intros r Hr. rewrite Forall_forall in Hadm, Hfit.
    destruct (Hadm r Hr) as (? & ? & ?). split_and!; try done. destruct (Hfit r Hr) as (ch & Hch & ->).
    rewrite forallb_forall in Hall. by apply Hall, list_elem_of_In.
  - apply not_true_iff_false in Hall. rewrite forallb_forall in Hall.
    assert (exists ch, ch ∈ chunks /\ chunk_fits ch = false) as (ch & Hch & Hbad).
    { destruct (base.decide (Exists (fun ch => chunk_fits ch = false) chunks)) as [He|Hn].
      - by apply Exists_exists in He.
      - exfalso. apply Hall. intros ch Hch. apply list_elem_of_In in Hch. destruct (chunk_fits ch) eqn:E; [done|].
        exfalso. apply Hn, Exists_exists. by exists ch. }
    apply list_elem_of_lookup in Hch as (k & Hk).
    destruct (lookup_lt_is_Some_2 vectors k) as [v Hkv]; [rewrite Hl; by eapply lookup_lt_Some|].
    assert ((ch, v) ∈ zip chunks vectors) as Hin.
    { apply list_elem_of_lookup. exists k. apply lookup_zip_with_Some. by exists ch, v. }
    rewrite (flush_chunks_misfit _ _ (chunk_record (ch, v))); [done|exact Hadm|done|by apply list_elem_of_fmap_2|].
    rewrite Forall_forall in Hv. destruct (Hv v (elem_of_zip_r _ _ _ _ Hin)). by rewrite record_fits.
Qed.

(** C24. Indexing a case in PostgreSQL answers what indexing it in memory answers, and
    replaces the rows of the case, and of no other, by one row for each stored item, equal
    but for identifiers and for the rounding of the vector to the single precision of its
    column; but when a heading is longer than its column, or a chunk has a character the
    database cannot hold, where the service in memory still answers, it raises and changes
    nothing. *)
Theorem indexes_like_memory order c draws chunks d s :
  embeds_vectors -> (forall l, document_order order l ≡ₚ l) -> indexable c draws chunks d ->
  exists res items,
    run (InMemoryRetrievalService.index_case uuid5 embeddings chunker c) s = (Ok res, <[case_id c := items]> s) /\
    if forallb chunk_fits chunks
    then exists rows d', run (index_case uuid5 embeddings chunker order false c) d = (Ok res, d') /\
      Forall2 (same_item c draws) items rows /\ NoDup (chr_id <$> rows) /\
      chunk_rows_of (case_id c) d' = keyed rows /\
      (forall j, j <> case_id c -> chunk_rows_of j d' = chunk_rows_of j d) /\ d' = set_chunks (t_chunks d') d
    else run (index_case uuid5 embeddings chunker order false c) d = (Raise data_error, d).
Proof.
  intros Hemb Hord Hix. pose proof Hix as [_ _ Hdocs Hchunks _ _].
  destruct (case_chunks_same uuid5 chunker Hroom c draws) as (es & bs & Hes & Hbs & HF).
  rewrite Hchunks in Hbs. injection Hbs as <-.
  assert ((fun e : DocumentChunk * pystr * option pystr => dc_content e.1.1) <$> es = dc_content <$> chunks) as Hcontent.
  { clear -HF. induction HF as [|e b es bs [(_ & _ & _ & Hc & _ & _) _] _ IH]; [done|]. cbn. by rewrite Hc, IH. }
  destruct (Hemb (dc_content <$> chunks)) as (vectors & Hvs & Hl & Hv). rewrite length_fmap in Hl.
  eexists _, (InMemoryRetrievalService.indexed <$> zip es vectors). split.
  - unfold InMemoryRetrievalService.index_case. rewrite run_bind, run_of_result, Hes, run_bind, run_of_result, Hcontent, Hvs.
    rewrite run_bind, run_of_result. unfold zip_strict. rewrite Hl, <- (Forall2_length _ _ _ HF), Nat.eqb_refl.
    by rewrite run_bind, run_atomic, run_of_result, index_result_valid.
  - assert (run (index_case uuid5 embeddings chunker order false c) d
      = match run (replace_chunks false (case_id c) (chunk_record <$> zip chunks vectors)) d with
        | (Ok _, d') => (Ok {| ix_case_id := case_id c; ix_document_count := Z.of_nat (length (documents c));
                               ix_chunk_count := Z.of_nat (length es); ix_embedding_backend := embedding_name embeddings |}, d')
        | (Raise e, d') => (Raise e, d')
        end) as ->.
    { unfold index_case. rewrite run_bind, run_reads, (sorted_documents draws c) by (by rewrite Hord, Hdocs).
      rewrite run_bind, run_of_result, Hchunks, run_bind, run_of_result, Hvs, run_bind, run_of_result.
      unfold zip_strict. rewrite Hl, Nat.eqb_refl. rewrite run_bind.
      destruct (run (replace_chunks _ _ _) d) as [[[]|e] d']; [|done].
      by rewrite run_of_result, index_result_valid, document_records_length, (Forall2_length _ _ _ HF). }
    rewrite (replace_alone c draws chunks vectors d Hix Hl Hv). destruct (forallb chunk_fits chunks); [|done].
    eexists (chunk_record <$> zip chunks vectors), _. split; [done|].
    destruct (rows_admissible c draws chunks vectors d Hix Hl) as (Hadm & Hnd & Hcase).
    set (kept := filter _ (t_chunks d)) in *.
    destruct (chunk_rows_union (case_id c) (chunk_record <$> zip chunks vectors) kept d) as [Hi Hother]; try done.
    { eapply Forall_impl; [exact Hadm|]. by intros r (? & _). }
    split; [by apply items_same|]. split; [done|]. split; [|split; [|done]].
    + rewrite Hi. unfold kept. rewrite kept_rows. fold (chunk_rows_of (case_id c) d). by rewrite filter_every, (right_id_L ∅ (∪)).
    + intros j Hj. rewrite Hother by done. unfold kept. rewrite kept_rows. apply filter_none.
      intros k [r Hr]%elem_of_dom [r' Hr']%elem_of_dom. unfold chunk_rows_of in *.
      apply map_lookup_filter_Some in Hr as [Hr Hri]. apply map_lookup_filter_Some in Hr' as [Hr' Hrj]. cbn in *. congruence.
Qed.
End alone.

(** ** A query without words *)

Section blank.
Context `{UnicodeLower} (sha256 : pystr -> list N).

Abbreviation hash_1024 := (HashEmbeddingProvider.provider sha256 1024).

Lemma fsum_zeros xs : Forall (fun x => is_zero x = true) xs -> fsum xs = float_zero.
Proof.
  destruct 1 as [|x xs Hx Hxs]; [done|]. cbn [fsum].
  assert (fold_left sum_step xs (fadd float_zero x, float_zero) = (float_zero, float_zero)) as ->; [|done].
  assert (fadd float_zero x = float_zero) as -> by (by destruct x as [[]| | |]).
  induction Hxs as [|y xs Hy _ IH]; [done|]. cbn [fold_left].
  by assert (sum_step (float_zero, float_zero) y = (float_zero, float_zero)) as -> by (by destruct y as [[]| | |]).
Qed.

Lemma times_zero x : is_finite x = true -> is_zero (fmul x float_zero) = true.
Proof. by destruct x. Qed.

(** The hash of a text without words is the zero vector. *)
Lemma embed_blank s : split (lower s) = [] -> HashEmbeddingProvider.embed_one sha256 1024 s = replicate (Z.to_nat 1024) float_zero.
Proof.
  intros Hs. unfold HashEmbeddingProvider.embed_one. rewrite Hs. cbn [fold_left]. generalize (Z.to_nat 1024). intros n.
  rewrite !fmap_replicate. change (fmul float_zero float_zero) with float_zero.
  by rewrite fsum_zeros by (by apply Forall_replicate).
Qed.

Lemma blank_in_postgres cosine plan i query limit d :
  split (lower query) = [] -> (1 <= limit)%Z ->
  (forall v, cosine v (replicate (Z.to_nat 1024) float_zero) = S754_nan) ->
  (forall l n, l <> [] -> 1 <= n -> plan l n <> []) -> plan_law plan ->
  (exists k r, chunk_rows_of i d !! k = Some r /\ is_Some (t_documents d !! chr_document_id r)) ->
  exists why, run (search hash_1024 cosine plan i query limit) d = (Raise (ValidationError why), d).
Proof.
  intros Hq Hlimit Hnan Hplan [Hrows _ _] (k & r & Hk & [doc Hdoc]).
  unfold search. cbn [embed HashEmbeddingProvider.provider fmap list_fmap]. rewrite (embed_blank _ Hq).
  rewrite run_bind, run_of_result, run_bind, run_of_result. cbn [head of_option]. rewrite run_bind, run_reads.
  rewrite fmap_replicate. change (float4 float_zero) with float_zero. cbv zeta. rewrite length_replicate. rewrite (proj2 (Z.leb_le 0 limit)) by lia.
  change (Z.to_nat 1024 =? 1024)%nat with true. change (forallb is_finite (replicate (Z.to_nat 1024) float_zero)) with true.
  cbn [andb]. rewrite run_of_result.
  set (rows := matches cosine i (replicate (Z.to_nat 1024) float_zero) d).
  assert (rows <> []) as Hne.
  { intros Hnil. apply (not_elem_of_nil (r, doc, cosine (chr_embedding r) (replicate (Z.to_nat 1024) float_zero))).
    rewrite <- Hnil. apply list_elem_of_omap. exists (k, r). split; [by apply elem_of_map_to_list|]. cbn. by rewrite Hdoc. }
  specialize (Hplan rows (Z.to_nat limit) Hne ltac:(lia)). specialize (Hrows rows (Z.to_nat limit)).
  destruct (plan rows (Z.to_nat limit)) as [|row out] eqn:E; [done|]. cbn [mapR].
  assert (row.2 = S754_nan) as Hrow.
  { assert (row ∈ rows) as Hin by (apply (elem_of_submseteq _ _ row) in Hrows; [done|by left]).
    apply matches_elem in Hin as (_ & _ & _ & ->). apply Hnan. }
  destruct row as [[c doc'] x]. cbn in Hrow. subst x. unfold retrieved, construct, valid_RetrievedChunk. cbn [rt_distance].
  rewrite andb_false_r. cbn [mbind result_bind]. by eexists.
Qed.

Lemma blank_in_memory i query limit s items :
  split (lower query) = [] -> (1 <= limit)%Z -> s !! i = Some items ->
  Forall (fun it => length (InMemoryRetrievalService.ic_embedding it) = 1024 /\
            valid_DocumentChunk (InMemoryRetrievalService.ic_chunk it) = true /\
            forallb is_finite (InMemoryRetrievalService.ic_embedding it) = true) items ->
  exists out, run (InMemoryRetrievalService.search hash_1024 i query limit) s = (Ok out, s) /\
    length out = Z.to_nat limit `min` length items /\ Forall (fun r => rt_distance r = float_one) out.
Proof.
  intros Hq Hlimit Hs Hitems.
  set (q := replicate (Z.to_nat 1024) float_zero).
  unfold InMemoryRetrievalService.search. cbn [embed HashEmbeddingProvider.provider fmap list_fmap]. rewrite (embed_blank _ Hq). fold q.
  rewrite run_bind, run_of_result, run_bind, run_of_result. cbn [head of_option]. rewrite run_reads, Hs. cbn [default from_option id].
  assert (mapR (InMemoryRetrievalService.score q) items = Ok (pair float_one <$> items)) as ->.
  { clear Hs. induction Hitems as [|it items (Hl & _ & Hf) _ IH]; [done|]. cbn [mapR fmap list_fmap].
    assert (InMemoryRetrievalService.score q it = Ok (float_one, it)) as ->; [|cbn [mbind result_bind]; by rewrite IH].
    unfold InMemoryRetrievalService.score, InMemoryRetrievalService.distance, zip_strict. unfold q at 1.
    rewrite Hl, length_replicate. change (1024 =? Z.to_nat 1024)%nat with true. cbn [mbind result_bind].
    rewrite fsum_zeros; [done|]. apply Forall_fmap, Forall_forall. intros [x y] Hin. cbn.
    pose proof (elem_of_zip_r _ _ _ _ Hin) as Hy. apply elem_of_replicate in Hy as [-> _].
    apply times_zero. rewrite forallb_forall in Hf. apply Hf, list_elem_of_In. exact (elem_of_zip_l _ _ _ _ Hin). }
  cbn [mbind result_bind]. unfold first_items. rewrite (proj2 (Z.ltb_ge _ _)) by lia. set (n := Z.to_nat limit).
  set (sorted := sort_by fst (pair float_one <$> items)).
  assert (sorted ≡ₚ pair float_one <$> items) as Hperm by apply sort_by_perm.
  assert (Forall (fun d => d.1 = float_one /\ valid_DocumentChunk (InMemoryRetrievalService.ic_chunk d.2) = true) sorted) as Hall.
  { rewrite Hperm. apply Forall_fmap. eapply Forall_impl; [exact Hitems|]. by intros it (_ & ? & _). }
  rewrite retrieved_spec.
  + eexists. split; [done|]. split; [rewrite length_fmap, length_take, Hperm, length_fmap; lia|].
    apply Forall_fmap, Forall_take. eapply Forall_impl; [exact Hall|]. by intros d' [? _].
  + apply Forall_take. eapply Forall_impl; [exact Hall|]. by intros d' [-> ?].
Qed.

(** A search of an indexed case for a text without words, which the API accepts, is a
    validation error in PostgreSQL, where the distance to the zero vector is not a number,
    while in memory it answers with every distance one. *)
Theorem blank_query_refused cosine plan i query limit d :
  split (lower query) = [] -> (1 <= limit)%Z ->
  (forall v, cosine v (replicate (Z.to_nat 1024) float_zero) = S754_nan) ->
  (forall l n, l <> [] -> 1 <= n -> plan l n <> []) -> plan_law plan ->
  (exists k r, chunk_rows_of i d !! k = Some r /\ is_Some (t_documents d !! chr_document_id r)) ->
  (exists why, run (search hash_1024 cosine plan i query limit) d = (Raise (ValidationError why), d)) /\
  forall s items, s !! i = Some items ->
    Forall (fun it => length (InMemoryRetrievalService.ic_embedding it) = 1024 /\
              valid_DocumentChunk (InMemoryRetrievalService.ic_chunk it) = true /\
              forallb is_finite (InMemoryRetrievalService.ic_embedding it) = true) items ->
    exists out, run (InMemoryRetrievalService.search hash_1024 i query limit) s = (Ok out, s) /\
      length out = Z.to_nat limit `min` length items /\ Forall (fun r => rt_distance r = float_one) out.
Proof.
  intros Hq Hlimit Hnan Hplan Hlaw Hrow. split; [by apply blank_in_postgres|].
  intros s items Hs Hitems. by apply blank_in_memory.
Qed.
End blank.

(** ** A concrete index *)

Module Index.
Import History.
Section example.

Definition ones : EmbeddingProvider := {|
  embedding_name := u "ones"; dimension := 1024; embed texts := Ok ((fun _ => replicate 1024 float_one) <$> texts) |}.

Lemma ones_embeds : embeds_vectors ones.
Proof.
  intros texts. eexists. split; [reflexivity|]. split; [apply length_fmap|]. apply Forall_fmap, Forall_forall.
  intros s _. split; [apply length_replicate|reflexivity].
Qed.

(** A plan that finds the first row it meets, and the documented distance to zero. *)
Definition one_row (l : list Match) (n : nat) : list Match := take (n `min` 1) l.
Definition cosine (_ q : list float64) : float64 := if forallb is_zero q then S754_nan else float_zero.

Lemma one_row_law : plan_law one_row.
Proof.
  split; intros l n; unfold one_row.
  - apply sublist_submseteq, sublist_take.
  - rewrite length_take. lia.
  - destruct n as [|n]; [constructor|]. replace (S n `min` 1) with 1 by lia. destruct l as [|r l]; repeat constructor.
Qed.

Definition on_record : gmap UUID SupplierCase := {[uuid 10 := two_documents]}.

Lemma on_record_Some i c : on_record !! i = Some c -> i = uuid 10 /\ c = two_documents.
Proof. unfold on_record. by intros [<- <-]%lookup_singleton_Some. Qed.

Lemma on_record_keyed i c : on_record !! i = Some c -> case_id c = i.
Proof. by intros [-> ->]%on_record_Some. Qed.

Lemma stored_documents : documents_of (uuid 10) stored_only ≡ₚ document_records (draws (uuid 10)) two_documents.
Proof. vm_compute. first [reflexivity | apply Permutation_swap]. Qed.

Lemma stored_keys k r : t_documents stored_only !! k = Some r -> dr_id r = k.
Proof.
  enough (map_Forall (fun k r => dr_id r = k) (t_documents stored_only)) as H by apply H.
  apply (bool_decide_unpack _). vm_compute. exact I.
Qed.

Lemma stored_chunks : t_chunks stored_only = ∅.
Proof. reflexivity. Qed.

Lemma stored_index_inv : index_inv hash_length default_chunker on_record draws stored_only.
Proof.
  split; [exact stored_keys| |].
  - intros i c Hi. apply on_record_Some in Hi as [-> ->]. exact stored_documents.
  - intros i c Hi. apply on_record_Some in Hi as [-> ->]. left. unfold chunk_rows_of. rewrite stored_chunks. apply map_filter_empty.
Qed.

(** Two processes index the case at once, a third searches. *)
Definition racing : list retrieval_call :=
  [Index ones in_key_order false (uuid 10); Index ones in_key_order false (uuid 10);
   Search ones cosine one_row (uuid 10) (u "credentials") 8].

Definition racing_run (sched : list nat) : list (prog Db retrieval_reply) * Db :=
  run_schedule sched (call_program hash_length default_chunker on_record <$> racing) stored_only.

Lemma racing_allowed : Forall (call_allowed on_record) racing.
Proof.
  repeat (apply Forall_cons; split; [split; [first [exact one_row_law | done]|by exists two_documents]|]). constructor.
Qed.

Lemma interleaved_indexing_complete_witness :
  let '(ts, d) := racing_run [0; 0; 0; 1; 1; 1; 2] in
  index_inv hash_length default_chunker on_record draws d /\
  complete hash_length default_chunker on_record draws (uuid 10) d /\
  exists out, ts !! 2 = Some (Ret (Found out)) /\ search_answer hash_length default_chunker on_record draws (uuid 10) 8 out.
Proof.
  destruct (racing_run [0; 0; 0; 1; 1; 1; 2]) as [ts d] eqn:E.
  destruct (interleaved_indexing_complete hash_length default_chunker on_record draws on_record_keyed racing stored_only ts d
    default_leaves_room racing_allowed stored_index_inv) as (HI & _ & Hreplies).
  { rewrite <- E. apply run_schedule_steps. }
  split; [exact HI|]. assert (exists r, ts !! 0 = Some (Ret (Indexed r))) as [r Hr].
  { eexists. change ts with (ts, d).1. rewrite <- E. vm_compute. reflexivity. }
  split; [exact (proj2 (Hreplies 0 _ _ eq_refl Hr))|].
  assert (exists out, ts !! 2 = Some (Ret (Found out))) as [out Hout].
  { eexists. change ts with (ts, d).1. rewrite <- E. vm_compute. reflexivity. }
  exists out. split; [exact Hout|exact (Hreplies 2 _ _ eq_refl Hout)].
Defined.

(** Both delete before either has committed: the second insertion meets the identifiers
    of the first and its caller gets an [IntegrityError] nobody catches. *)
Example racing_indexing_conflicts :
  (racing_run [0; 1; 0; 1; 0; 1]).1 !! 1 = Some (Throw integrity_error).
Proof. vm_compute. reflexivity. Qed.

Lemma stored_indexable chunks :
  case_chunks hash_length default_chunker (uuid 10) (document_records (draws (uuid 10)) two_documents) = Ok chunks ->
  indexable hash_length default_chunker two_documents (draws (uuid 10)) chunks stored_only.
Proof.
  intros Hchunks. split; [|exact stored_keys|exact stored_documents|exact Hchunks| |].
  - eexists. vm_compute. reflexivity.
  - vm_compute in Hchunks. injection Hchunks as <-. apply (bool_decide_unpack _). vm_compute. exact I.
  - intros k r _ Hk. by rewrite stored_chunks in Hk.
Qed.

Lemma indexes_like_memory_witness :
  exists res items rows d',
    run (InMemoryRetrievalService.index_case hash_length ones default_chunker two_documents) ∅ = (Ok res, <[uuid 10 := items]> ∅) /\
    run (index_case hash_length ones default_chunker in_key_order false two_documents) stored_only = (Ok res, d') /\
    Forall2 (same_item two_documents (draws (uuid 10))) items rows /\ chunk_rows_of (uuid 10) d' = keyed rows.
Proof.
  destruct (case_chunks hash_length default_chunker (uuid 10) (document_records (draws (uuid 10)) two_documents)) as [chunks|e] eqn:E;
    [|vm_compute in E; discriminate E].
  assert (forallb chunk_fits chunks = true) as Hfit by (vm_compute in E; injection E as <-; reflexivity).
  destruct (indexes_like_memory hash_length default_chunker ones default_leaves_room in_key_order two_documents (draws (uuid 10)) chunks
    stored_only ∅ ones_embeds ltac:(done) (stored_indexable chunks E)) as (res & items & Hmem & Hpg).
  rewrite Hfit in Hpg. destruct Hpg as (rows & d' & Hrun & Hsame & _ & Hrows & _).
  exists res, items, rows, d'. split; [exact Hmem|]. split; [exact Hrun|]. split; [exact Hsame|exact Hrows].
Defined.

(** A heading of 501 characters: indexed in memory, refused by PostgreSQL. *)
Definition long_heading : SupplierCase := {|
  case_id := uuid 10; case_tenant_id := tenant; supplier_name := u "Widgets"; description := []; case_status := NEW;
  documents := [{| doc_title := u "Policy"; doc_content := u "# " ++ replicate 501 97%N ++ [newline] ++ u "Body"; doc_source_uri := None |}];
  case_created_at := 0%Z; case_updated_at := 0%Z |}.

Example long_heading_refused :
  let d := (run (create (draws (uuid 10)) long_heading) db_empty).2 in
  (run (index_case hash_length ones default_chunker in_key_order false long_heading) d).1 = Raise data_error /\
  ix_chunk_count <$> (run (InMemoryRetrievalService.index_case hash_length ones default_chunker long_heading) ∅).1 = Ok 1%Z.
Proof. split; vm_compute; reflexivity. Qed.

Lemma blank_query_refused_witness :
  let d := (run (index_case hash_length ones default_chunker in_key_order false two_documents) stored_only).2 in
  exists why, run (search (HashEmbeddingProvider.provider token_bytes 1024) cosine one_row (uuid 10) (u "  ") 8) d
    = (Raise (ValidationError why), d).
Proof.
  intros d.
  destruct (blank_query_refused token_bytes cosine one_row (uuid 10) (u "  ") 8 d) as [H _].
  - vm_compute. reflexivity.
  - apply Z.leb_le. reflexivity.
  - intros v. unfold cosine. reflexivity.
  - intros l n Hl Hn. unfold one_row. rewrite Nat.min_r by lia. by destruct l.
  - exact one_row_law.
  - assert (existsb (fun kr => is_some (t_documents d !! chr_document_id kr.2)) (map_to_list (chunk_rows_of (uuid 10) d)) = true) as Hex
      by (vm_compute; reflexivity).
    apply existsb_exists in Hex as ([k r] & Hin & Hr). exists k, r.
    split; [by apply elem_of_map_to_list, list_elem_of_In|by apply is_some_true].
  - exact H.
Defined.
End example.
End Index.
