(* ===== verification/Container.v ===== *)
(** * The composition root

    [apps/api/dependencies.py]: [create_container] chooses every component from the
    settings, [start] and [close] hold the checkpointer's connection, and the lifespan of
    the API application and of [apps/agent_runtime/main.py] brackets them.  The PostgreSQL
    container has its own state, the database with the receipts of the supplier system
    and the checkpoints of the review graph.  The clients, the token library, the
    checkpointer and the engine are parameters. *)
From S2P Require Import Prelude PyStr Uuid Effects Json Schemas SchemaJson Cases Ledger Database InMemory SqlActions.
From S2P Require Import Governance Workflows Identity ModelGateway JsonTextCode RemoteModels ReviewGraph ReviewRuntime Chunking.
From S2P Require Import Settings Retrieval Embeddings Api ApiProofs ApiWorld SqlCases PgVector Workers.
Import SupplierReviewWorkflow.
Local Open Scope py_scope.

(** ** The PostgreSQL stores *)

Record PgWorld := { pw_sql : SqlWorld; pw_checkpoints : gmap pystr Checkpoint }.

Definition put_pw_sql (w : SqlWorld) (s : PgWorld) : PgWorld := {| pw_sql := w; pw_checkpoints := pw_checkpoints s |}.
Definition put_pw_checkpoints (m : gmap pystr Checkpoint) (s : PgWorld) : PgWorld :=
  {| pw_sql := pw_sql s; pw_checkpoints := m |}.
Definition pw_db (s : PgWorld) : Db := sw_db (pw_sql s).
Definition put_pw_db (d : Db) (s : PgWorld) : PgWorld := put_pw_sql (put_db d (pw_sql s)) s.

(** What the database decides: the identifiers of new documents, the order of rows without
    [ORDER BY], whether a [DELETE] waited for another transaction, the distance and the plan
    of a vector search. *)
Record DatabaseChoices := {
  draw : UUID -> nat -> UUID;
  row_order : RowOrder;
  delete_waited : bool;
  cosine_distance : list float64 -> list float64 -> float64;
  plan : list Match -> nat -> list Match;
}.

Definition pg_cases (db : DatabaseChoices) : CaseRepository PgWorld :=
  let r := SqlAlchemyCaseRepository.repository (draw db) (row_order db) in {|
  create_case c := zoom pw_db put_pw_db (create_case c);
  get_case i := zoom pw_db put_pw_db (get_case i);
  set_status fr i st := zoom pw_db put_pw_db (set_status fr i st);
  save_review rv := zoom pw_db put_pw_db (save_review rv);
  get_latest_review i := zoom pw_db put_pw_db (get_latest_review i);
  get_review i := zoom pw_db put_pw_db (get_review i);
  append_audit_event fr e := zoom pw_db put_pw_db (append_audit_event fr e);
  list_audit_events i := zoom pw_db put_pw_db (list_audit_events i) |}.

Definition pg_actions `{DT : DatetimeText} : ActionRepository PgWorld := {|
  uses_transactional_outbox := @uses_transactional_outbox SqlWorld _;
  create_proposal fr a e m := zoom pw_sql put_pw_sql (create_proposal fr a e m);
  get_action i := zoom pw_sql put_pw_sql (get_action i);
  save_transition fr a e st := zoom pw_sql put_pw_sql (save_transition fr a e st) |}.

Definition pg_supplier : SupplierSystem PgWorld := {|
  set_onboarding_decision fr i key args := zoom pw_sql put_pw_sql (set_onboarding_decision fr i key args) |}.

Definition pg_retrieval (db : DatabaseChoices) (uuid5 : UUID -> pystr -> UUID) (embeddings : EmbeddingProvider) :
    RetrievalService PgWorld :=
  let service := PgVectorRetrievalService.service uuid5 embeddings default_chunker (cosine_distance db) (plan db)
                   (row_order db) (delete_waited db) in {|
  index_case c := zoom pw_db put_pw_db (index_case c);
  search i query limit := zoom pw_db put_pw_db (search i query limit) |}.

Definition pg_runtime (g : StateGraph) : CompiledGraph PgWorld := {|
  aget_state thread := zoom pw_checkpoints put_pw_checkpoints (aget_state (in_memory_runtime g) thread);
  ainvoke env input thread := zoom pw_checkpoints put_pw_checkpoints (ainvoke (in_memory_runtime g) env input thread) |}.

(** ** The container *)

(** The fields of [ApplicationContainer] that have behaviour; [workflow] runs the graph with
    [model_backend]. *)
Record Components (S : Type) := {
  cases : CaseRepository S;
  actions : ActionRepository S;
  workflow : CompiledGraph S;
  retrieval : RetrievalService S;
  authenticator : Authenticator;
  approvals : ApprovalWorkflow S;
  supplier_system : SupplierSystem S;
  model_backend : ModelBackend;
}.
Arguments cases {S}.
Arguments actions {S}.
Arguments workflow {S}.
Arguments retrieval {S}.
Arguments authenticator {S}.
Arguments approvals {S}.
Arguments supplier_system {S}.
Arguments model_backend {S}.

(** [database_engine] is [None] exactly on the memory stores. *)
Inductive ApplicationContainer :=
  | OnMemory (settings : Settings) (c : Components ApiWorld)
  | OnPostgres (settings : Settings) (c : Components PgWorld).

(** What building the clients of the adapters comes to, and the functions of libraries. *)
Record Clients := {
  get_secret_value : pystr -> result (list (pystr * json));
  openai_client : result ResponsesClient;
  litellm_client : result ResponsesClient;
  bedrock_client : result ConverseClient;
  titan_client : pystr -> result InvokeModelClient;
  stepfunctions_client : forall S, result (StepFunctionsClient S);
  token_library : TokenLibrary;
  sha256 : pystr -> list N;
  float_of_text : pystr -> option float64;
}.

Section create.
Context `{JsonText} `{DatetimeText} `{IsoText} `{UnicodeLower}.
Context (uuid5 : UUID -> pystr -> UUID) (finding_batch_schema recommendation_schema : json).
Context (db : DatabaseChoices) (cl : Clients) `{EF : EngineFactory}.

Abbreviation graph := (build_graph uuid5 finding_batch_schema recommendation_schema).

Definition model_settings (s : Settings) : ModelSettings := {|
  RemoteModels.model_backend := Settings.model_backend s; RemoteModels.openai_api_key := Settings.openai_api_key s;
  RemoteModels.openai_model := Settings.openai_model s; RemoteModels.bedrock_model_id := Settings.bedrock_model_id s;
  RemoteModels.model_alias := Settings.model_alias s |}.

Definition oidc_settings (s : Settings) : OIDCAuthenticator.t := {|
  OIDCAuthenticator.issuer := oidc_issuer s; OIDCAuthenticator.audience := oidc_audience s;
  OIDCAuthenticator.jwks_url := oidc_jwks_url s; OIDCAuthenticator.algorithm := oidc_algorithm s |}.

Definition create_authenticator (s : Settings) : result Authenticator :=
  if pystr_eqb (auth_mode s) (u "oidc")
  then c ← OIDCAuthenticator.init (oidc_settings s); Ok (OIDCAuthenticator.authenticator (token_library cl) c)
  else Ok DevelopmentAuthenticator.authenticator.

Definition requires_outbox : exn := ValueError (u "Step Functions requires PostgreSQL transactional outbox persistence").

Definition approval_workflow_of (S : Type) (s : Settings) : result (ApprovalWorkflow S) :=
  create_approval_workflow (approval_workflow_backend s) (step_functions_state_machine_arn s) (stepfunctions_client cl S).

Definition create_container (s0 : Settings) : result ApplicationContainer :=
  s ← resolve_database_settings (get_secret_value cl) s0;
  backend ← create_model_backend uuid5 (openai_client cl) (litellm_client cl) (bedrock_client cl) (model_settings s);
  embeddings ← create_embedding_provider (float_of_text cl) (sha256 cl) (titan_client cl) s;
  let postgres := pystr_eqb (repository_backend s) (u "postgres") in
  _ ← (if postgres
       then _ ← create_database_engine (database_url s); PgVectorRetrievalService.init embeddings else Ok tt);
  authenticator ← create_authenticator s;
  _ ← (if pystr_eqb (approval_workflow_backend s) (u "step_functions") && negb postgres
       then Raise requires_outbox else Ok tt);
  if postgres then
    approvals ← approval_workflow_of PgWorld s;
    Ok (OnPostgres s {|
      cases := pg_cases db; actions := pg_actions; workflow := pg_runtime graph;
      retrieval := pg_retrieval db uuid5 embeddings; authenticator := authenticator; approvals := approvals;
      supplier_system := pg_supplier; model_backend := backend |})
  else
    approvals ← approval_workflow_of ApiWorld s;
    Ok (OnMemory s {|
      cases := api_cases; actions := api_actions; workflow := api_runtime graph;
      retrieval := api_retrieval uuid5 embeddings default_chunker; authenticator := authenticator; approvals := approvals;
      supplier_system := api_supplier; model_backend := backend |}).
End create.

(** ** Start and close *)

(** [AsyncPostgresSaver.from_conn_string(...)]: entering and leaving its context, and [setup]. *)
Class Checkpointer (S : Type) := { aenter : prog S unit; setup : prog S unit; aexit : prog S unit }.

(** What the methods of the container change: whether it holds a checkpointer context,
    whether its workflow runs on that checkpointer, and the outside. *)
Record Live (S : Type) := { checkpoint_context : bool; durable_workflow : bool; outside : S }.
Arguments checkpoint_context {S}.
Arguments durable_workflow {S}.
Arguments outside {S}.

Section live.
Context {S : Type} `{!Checkpointer S, !Engine S} (s : Settings) (database_engine : bool).

Definition put_outside (w : S) (l : Live S) : Live S :=
  {| checkpoint_context := checkpoint_context l; durable_workflow := durable_workflow l; outside := w |}.
Definition call {A} (m : prog S A) : prog (Live S) A := zoom outside put_outside m.

Definition start : prog (Live S) unit :=
  context ← reads (fun l => Ok (checkpoint_context l));
  if negb (pystr_eqb (checkpoint_backend s) (u "postgres")) || context then Ret tt
  else
    _ ← call aenter;
    _ ← (try (call setup) except (fun e => _ ← call aexit; Throw e));
    atomic (fun l => (Ok tt, {| checkpoint_context := true; durable_workflow := true; outside := outside l |})).

Definition close : prog (Live S) unit :=
  context ← reads (fun l => Ok (checkpoint_context l));
  _ ← (if context : bool then
         _ ← call aexit;
         atomic (fun l => (Ok tt, {| checkpoint_context := false; durable_workflow := durable_workflow l; outside := outside l |}))
       else Ret tt);
  if database_engine then call dispose else Ret tt.

(** [await container.start()], then [try: yield finally: await container.close()] *)
Definition lifespan {A} (body : prog (Live S) A) : prog (Live S) A :=
  _ ← start; finally body close.
End live.

(** The two routes of the agent runtime. *)
Module AgentRuntime.
Definition ping : list (pystr * pystr) := [(u "status", u "Healthy")].

(** [invoke]: the workflow of the container on a validated case. *)
Definition invoke `{IsoText} `{JsonText} `{DatetimeText} {S} (c : Components S) (supplier_case : SupplierCase)
    (execution_id : UUID) (clock started_at : datetime) : prog S ReviewResult :=
  run_review (workflow c) supplier_case execution_id {| answers := model_backend c; clock := clock |} started_at.
End AgentRuntime.
