(* ===== verification/ContainerTheorems.v ===== *)
(** * What the composition root guarantees

    Which settings build a container and which, and that the connection of the
    checkpointer is opened once and always given back. *)
From S2P Require Import Prelude PyStr Uuid Effects Json Schemas SchemaJson Cases Ledger Database InMemory SqlActions.
From S2P Require Import Governance Workflows Identity ModelGateway JsonTextCode RemoteModels ReviewGraph ReviewRuntime Chunking.
From S2P Require Import Settings Retrieval Embeddings Api ApiProofs ApiWorld SqlCases PgVector Workers Container WorkerTheorems RetrievalTheorems PgVectorTheorems GovernanceTheorems.
Local Open Scope py_scope.

(** ** The choice of the container *)

Section create.
Context `{JsonText} `{DatetimeText} `{IsoText} `{UnicodeLower}.
Context (uuid5 : UUID -> pystr -> UUID) (finding_batch_schema recommendation_schema : json).
Context (db : DatabaseChoices) (cl : Clients) `{EF : EngineFactory}.

Abbreviation create := (create_container uuid5 finding_batch_schema recommendation_schema db cl).
Abbreviation graph := (SupplierReviewWorkflow.build_graph uuid5 finding_batch_schema recommendation_schema).

(** A library builds the client or the engine it is asked for. *)
Definition builds {A} (r : result A) : Prop := is_Some (to_option r).

(** What the chosen backends require of the other settings, and of the libraries. *)
Record complete (s : Settings) : Prop := {
  needs_openai : Settings.model_backend s = u "openai" -> Settings.openai_api_key s <> [] /\ builds (openai_client cl);
  needs_bedrock : Settings.model_backend s = u "bedrock" -> Settings.bedrock_model_id s <> [] /\ builds (bedrock_client cl);
  needs_litellm : Settings.model_backend s = u "litellm" -> builds (litellm_client cl);
  needs_titan : embedding_backend s = u "bedrock" -> builds (titan_client cl (aws_region s));
  needs_postgres : repository_backend s = u "postgres" ->
    builds (create_database_engine (database_url s)) /\ embedding_dimension s = 1024%Z;
  needs_oidc : auth_mode s = u "oidc" -> oidc_issuer s <> [] /\ oidc_audience s <> [] /\ oidc_jwks_url s <> [];
  needs_outbox : approval_workflow_backend s = u "step_functions" ->
    repository_backend s = u "postgres" /\ builds (stepfunctions_client cl PgWorld) /\ step_functions_state_machine_arn s <> [];
}.

Lemma builds_Ok {A} (a : A) : builds (Ok a) <-> True.
Proof. split; [done|]. by exists a. Qed.
Lemma builds_Raise {A} e : builds (Raise e : result A) <-> False.
Proof. split; [|done]. by intros [? ?]. Qed.

(** A sequence of steps succeeds when each of them does. *)
Lemma builds_bind {A B} (m : result A) (k : A -> result B) :
  builds (m ≫= k) <-> exists a, m = Ok a /\ builds (k a).
Proof. destruct m as [a|e]; cbn [mbind result_bind]; [split; [by exists a|by intros (? & [= ->] & ?)]|]. split; [by intros [? ?]|by intros (? & ? & _)]. Qed.

Lemma pystr_eqb_neq a b : pystr_eqb a b = false <-> a <> b.
Proof. rewrite <- pystr_eqb_eq. by destruct (pystr_eqb a b). Qed.

(** A test of a setting against a constant. *)
Lemma chosen (a b : pystr) : (pystr_eqb a b = true /\ a = b) \/ (pystr_eqb a b = false /\ a <> b).
Proof. destruct (pystr_eqb a b) eqn:E; [left; by apply pystr_eqb_eq in E|right; by apply pystr_eqb_neq in E]. Qed.

Lemma model_backend_ok s :
  builds (create_model_backend uuid5 (openai_client cl) (litellm_client cl) (bedrock_client cl) (model_settings s)) <->
  (Settings.model_backend s = u "openai" -> Settings.openai_api_key s <> [] /\ builds (openai_client cl)) /\
  (Settings.model_backend s = u "bedrock" -> Settings.bedrock_model_id s <> [] /\ builds (bedrock_client cl)) /\
  (Settings.model_backend s = u "litellm" -> builds (litellm_client cl)).
Proof.
  unfold create_model_backend, model_settings, OpenAIResponsesBackend.backend, BedrockConverseBackend.backend, LiteLLMBackend.backend.
  cbn [RemoteModels.model_backend RemoteModels.openai_api_key RemoteModels.bedrock_model_id].
  destruct (chosen (Settings.model_backend s) (u "openai")) as [[-> ->]|[-> Ho]];
    [|destruct (chosen (Settings.model_backend s) (u "bedrock")) as [[-> ->]|[-> Hb]];
      [|destruct (chosen (Settings.model_backend s) (u "litellm")) as [[-> ->]|[-> Hl]]]].
  - destruct (Settings.openai_api_key s), (openai_client cl); cbn [mbind result_bind]; rewrite ?builds_Ok, ?builds_Raise;
      (split; [done || intros _; split_and!; done|by intros (Hn & _); destruct (Hn eq_refl)]).
  - destruct (Settings.bedrock_model_id s), (bedrock_client cl); cbn [mbind result_bind]; rewrite ?builds_Ok, ?builds_Raise;
      (split; [done || intros _; split_and!; done|by intros (_ & Hn & _); destruct (Hn eq_refl)]).
  - destruct (litellm_client cl); cbn [mbind result_bind]; rewrite ?builds_Ok, ?builds_Raise;
      (split; [done || intros _; split_and!; done|by intros (_ & _ & Hn); apply Hn]).
  - rewrite builds_Ok. split; [|done]. intros _. by split_and!.
Qed.

Lemma authenticator_ok s :
  builds (create_authenticator cl s) <->
  (auth_mode s = u "oidc" -> oidc_issuer s <> [] /\ oidc_audience s <> [] /\ oidc_jwks_url s <> []).
Proof.
  unfold create_authenticator, OIDCAuthenticator.init, oidc_settings.
  destruct (chosen (auth_mode s) (u "oidc")) as [[-> ->]|[-> Hne]]; [|by rewrite builds_Ok].
  simpl. destruct (oidc_issuer s), (oidc_audience s), (oidc_jwks_url s); cbn [mbind result_bind bool_decide];
    rewrite ?builds_Ok, ?builds_Raise; (split; [done|intros Hn; destruct (Hn eq_refl) as (? & ? & ?); done]) || done.
Qed.

Lemma approvals_ok S s :
  builds (approval_workflow_of cl S s) <->
  (approval_workflow_backend s = u "step_functions" ->
     builds (stepfunctions_client cl S) /\ step_functions_state_machine_arn s <> []).
Proof.
  unfold approval_workflow_of, create_approval_workflow, StepFunctionsApprovalWorkflow.init.
  destruct (chosen (approval_workflow_backend s) (u "step_functions")) as [[-> ->]|[-> Hne]]; [|by rewrite builds_Ok].
  destruct (stepfunctions_client cl S), (step_functions_state_machine_arn s); cbn [mbind result_bind]; rewrite ?builds_Ok, ?builds_Raise;
    (split; [done|intros Hn; by destruct (Hn eq_refl)]) || done.
Qed.

Lemma Ok_inj {A} (a b : A) : Ok a = Ok b -> a = b.
Proof. congruence. Qed.

Abbreviation embedder := (create_embedding_provider (float_of_text cl) (sha256 cl) (titan_client cl)).

Lemma embeddings_ok s : builds (embedder s) <-> (embedding_backend s = u "bedrock" -> builds (titan_client cl (aws_region s))).
Proof.
  unfold create_embedding_provider.
  destruct (chosen (embedding_backend s) (u "bedrock")) as [[-> ->]|[-> Hne]]; [|by rewrite builds_Ok].
  destruct (titan_client cl (aws_region s)); cbn [mbind result_bind]; rewrite ?builds_Ok, ?builds_Raise; [done|].
  split; [done|intros Hn; by apply Hn].
Qed.

Lemma dimension_ok s embeddings :
  embedder s = Ok embeddings -> builds (PgVectorRetrievalService.init embeddings) <-> embedding_dimension s = 1024%Z.
Proof.
  unfold create_embedding_provider, PgVectorRetrievalService.init. intros He.
  assert (dimension embeddings = embedding_dimension s) as ->.
  { destruct (pystr_eqb _ _); [destruct (titan_client cl (aws_region s)); [|done]|]; by apply Ok_inj in He as <-. }
  rewrite <- Z.eqb_eq. destruct (embedding_dimension s =? 1024)%Z; cbn [negb]; rewrite ?builds_Ok, ?builds_Raise; done.
Qed.

(** What a container built from [s] is. *)
Definition built (s : Settings) (c : ApplicationContainer) : Prop :=
  match c with
  | OnPostgres s' c => s' = s /\ repository_backend s = u "postgres" /\ @uses_transactional_outbox _ (actions c) = true
  | OnMemory s' c => s' = s /\ repository_backend s <> u "postgres" /\ approvals c = LocalApprovalWorkflow.workflow /\
      @container_laws _ _ _ uuid5 finding_batch_schema recommendation_schema _ (cases c) (workflow c) aw_cases aw_checkpoints
  end.

(** A step that fails, fails for one of the reasons. *)
Ltac refused := cbn [mbind result_bind]; rewrite ?builds_Raise, ?builds_Ok in *; split; [tauto|done].

(** C31. [create_container] builds a container exactly when the settings are complete for the
    backends they choose, and the libraries build the clients and the engine these call
    for; each missing credential, another vector dimension and Step Functions without
    the outbox are refused at start.  The container stands on the
    stores the settings name: on PostgreSQL proposals go through the transactional
    outbox, and without it approvals are the local ones and the repositories, the
    checkpoints and the graph keep the laws the review endpoints rely on. *)
Theorem container_built_iff_complete s0 s :
  resolve_database_settings (get_secret_value cl) s0 = Ok s ->
  (builds (create s0) <-> complete s) /\ (forall c, create s0 = Ok c -> built s c).
Proof.
  intros Hs. unfold create_container. rewrite Hs. cbn [mbind result_bind].
  assert (Hcomplete : complete s <->
    builds (create_model_backend uuid5 (openai_client cl) (litellm_client cl) (bedrock_client cl) (model_settings s)) /\
    builds (embedder s) /\ builds (create_authenticator cl s) /\
    (repository_backend s = u "postgres" -> builds (create_database_engine (database_url s)) /\ embedding_dimension s = 1024%Z) /\
    (approval_workflow_backend s = u "step_functions" -> repository_backend s = u "postgres" /\
       builds (stepfunctions_client cl PgWorld) /\ step_functions_state_machine_arn s <> [])).
  { rewrite model_backend_ok, embeddings_ok, authenticator_ok. split; [intros []; tauto|intros ((?&?&?)&?&?&?&?); by constructor]. }
  rewrite Hcomplete. clear Hcomplete.
  destruct (create_model_backend _ _ _ _ _) as [backend|e]; [|refused].
  destruct (embedder s) as [embeddings|e] eqn:Hembed; [|refused].
  pose proof (dimension_ok s _ Hembed) as Hdim. cbn [mbind result_bind].
  destruct (chosen (repository_backend s) (u "postgres")) as [[-> Hb]|[-> Hb]]; cbn [negb]; rewrite ?andb_false_r, ?andb_true_r.
  - destruct (create_database_engine (database_url s)) as [[]|e]; [|refused]. cbn [mbind result_bind].
    destruct (PgVectorRetrievalService.init embeddings) as [[]|e]; [|refused].
    destruct (create_authenticator cl s) as [auth|e]; [|refused].
    pose proof (approvals_ok PgWorld s) as Hpg. cbn [mbind result_bind].
    destruct (approval_workflow_of cl PgWorld s) as [wf|e]; [|refused].
    cbn [mbind result_bind]. rewrite !builds_Ok in *. split; [tauto|]. by intros c <-%Ok_inj.
  - destruct (create_authenticator cl s) as [auth|e]; [|refused]. cbn [mbind result_bind].
    unfold approval_workflow_of, create_approval_workflow.
    destruct (chosen (approval_workflow_backend s) (u "step_functions")) as [[-> Ha]|[-> Ha]]; [refused|].
    cbn [mbind result_bind]. rewrite !builds_Ok. split; [tauto|].
    intros c <-%Ok_inj. split_and!; [done|done|done|]. apply api_laws.
Qed.
End create.

(** ** The checkpointer's connection *)

(** The documented behaviour of the checkpointer's context manager, in terms of its open
    connections: entering opens one or raises, [setup] leaves them open, leaving closes one. *)
Class CheckpointerLaws (S : Type) `{!Checkpointer S} (opened : S -> nat) := {
  enter_law w : exists r w', run aenter w = (r, w') /\
    opened w' = match r with Ok _ => Datatypes.S (opened w) | Raise _ => opened w end;
  setup_law w : exists r w', run setup w = (r, w') /\ opened w' = opened w;
  exit_law w : exists w', run aexit w = (Ok tt, w') /\ opened w' = Nat.pred (opened w);
}.

Section live.
Context {S : Type} `{!Checkpointer S, !Engine S, !EngineLaws S} (opened : S -> nat) `{!CheckpointerLaws S opened}.
Context (s : Settings) (database_engine : bool).

Abbreviation connections l := (opened (outside l)).
Abbreviation wanted := (pystr_eqb (checkpoint_backend s) (u "postgres")).

(** The container holds one connection exactly while it holds a context. *)
Definition balanced (base : nat) (l : Live S) : Prop := connections l = base + Nat.b2n (checkpoint_context l).

Lemma run_call {A} (m : prog S A) l : run (call m) l = let '(r, w) := run m (outside l) in (r, put_outside w l).
Proof. apply run_zoom; [done|by intros []|done]. Qed.

(** [start] opens the connection it lacks, or leaves nothing open. *)
Lemma start_spec base l :
  balanced base l -> exists r l', run (start s) l = (r, l') /\ balanced base l' /\
    match r with
    | Ok _ => checkpoint_context l' = wanted || checkpoint_context l
    | Raise _ => checkpoint_context l' = false /\ wanted = true
    end.
Proof.
  intros H. unfold start. rewrite run_bind, run_reads. destruct (wanted) eqn:Hw; cbn [negb orb];
    [|by exists (Ok tt), l]. destruct (checkpoint_context l) eqn:Hc; [by exists (Ok tt), l|].
  unfold balanced in H. rewrite Hc, Nat.add_0_r in H.
  rewrite run_bind, run_call. destruct (enter_law (outside l)) as (r & w1 & -> & Hopen). destruct r as [[]|e].
  2:{ eexists (Raise e), _. split; [done|]. unfold balanced. cbn [put_outside outside checkpoint_context]. rewrite Hc. split; [simpl; lia|done]. }
  rewrite run_bind, run_catch, run_call. cbn [put_outside outside].
  destruct (setup_law w1) as (r & w2 & -> & Hopen2). destruct r as [[]|e].
  - rewrite run_atomic. eexists (Ok tt), _. split; [done|]. unfold balanced. simpl. split; [lia|done].
  - rewrite run_bind, run_call. cbn [put_outside outside]. destruct (exit_law w2) as (w3 & -> & Hopen3).
    eexists (Raise e), _. split; [done|]. unfold balanced. cbn [put_outside outside checkpoint_context]. rewrite Hc.
    split; [simpl; lia|done].
Qed.

Lemma close_spec base l :
  balanced base l -> exists l', run (close database_engine) l = (Ok tt, l') /\ balanced base l' /\ checkpoint_context l' = false.
Proof.
  intros H. unfold close. rewrite run_bind, run_reads, run_bind.
  assert (Hdispose : forall l', run (if database_engine then call dispose else Ret tt) l' = (Ok tt, l')).
  { intros l'. destruct database_engine; [|done]. rewrite run_call, run_dispose. by destruct l'. }
  destruct (checkpoint_context l) eqn:Hc; [|cbn [run]; rewrite Hdispose; by exists l].
  rewrite run_bind, run_call. destruct (exit_law (outside l)) as (w & -> & Hopen). rewrite run_atomic, Hdispose.
  eexists. split; [done|]. unfold balanced in *. rewrite Hc in H. simpl in *. split; [lia|done].
Qed.

(** Calls of the two methods, one after the other; an exception ends its call only. *)
Inductive call_of := Start | Close.
Definition perform_call (c : call_of) : prog (Live S) unit := match c with Start => start s | Close => close database_engine end.
Fixpoint run_calls (cs : list call_of) (l : Live S) : Live S :=
  match cs with [] => l | c :: cs => run_calls cs (run (perform_call c) l).2 end.

Lemma run_calls_balanced base cs l : balanced base l -> balanced base (run_calls cs l).
Proof.
  revert l. induction cs as [|[|] cs IH]; intros l H; [done|..]; cbn [run_calls perform_call]; apply IH.
  - destruct (start_spec base l H) as (r & l' & -> & ? & _). done.
  - destruct (close_spec base l H) as (l' & -> & ? & _). done.
Qed.

(** C32. The container never leaks the checkpointer's connection: whatever sequence of
    [start] and [close] is called and whichever of them fail, it holds one connection
    exactly while it holds a context.  A lifespan gives back what it opened, whether its
    body returns or raises; it runs the body on the PostgreSQL checkpointer exactly when
    the settings ask for it, and not at all when [start] fails. *)
Theorem connections_balanced base cs l {A} (body : prog (Live S) A) :
  balanced base l -> (forall l', checkpoint_context (run body l').2 = checkpoint_context l' /\
    connections (run body l').2 = connections l') ->
  balanced base (run_calls cs l) /\
  exists r l1, run (start s) l = (r, l1) /\ balanced base l1 /\
    match r with
    | Raise e => exists l', run (lifespan s database_engine body) l = (Raise e, l') /\ connections l' = base
    | Ok _ => checkpoint_context l1 = wanted || checkpoint_context l /\
        exists l', run (lifespan s database_engine body) l = ((run body l1).1, l') /\ connections l' = base /\
          checkpoint_context l' = false
    end.
Proof.
  intros H Hbody. split; [by apply run_calls_balanced|].
  destruct (start_spec base l H) as (r & l1 & Hrun & Hb & Hr). exists r, l1. split; [done|]. split; [done|].
  unfold lifespan. rewrite run_bind, Hrun. destruct r as [[]|e].
  - split; [done|]. rewrite run_finally. destruct (Hbody l1) as [Hctx Hconn].
    destruct (run body l1) as [r l2]. cbn [fst snd] in *.
    destruct (close_spec base l2) as (l3 & -> & Hb3 & Hc3); [unfold balanced in *; congruence|].
    exists l3. split; [done|]. split; [|done]. unfold balanced in Hb3. rewrite Hc3 in Hb3. simpl in Hb3. lia.
  - exists l1. split; [done|]. destruct Hr as [Hc _]. unfold balanced in Hb. rewrite Hc in Hb. simpl in Hb. lia.
Qed.
End live.

(** ** Concrete containers *)

Module Deployment.
Section example.
Import GovernanceTheorems.History.

(** The clients are never reached; the database takes rows as they come. *)
Definition offline : Clients := {|
  get_secret_value _ := Raise (ClientError None); openai_client := Ok (fun _ => Raise (RuntimeError []));
  litellm_client := Ok (fun _ => Raise (RuntimeError [])); bedrock_client := Ok (fun _ => Raise (RuntimeError []));
  titan_client _ := Ok (fun _ => Raise (RuntimeError [])); stepfunctions_client := fun S => Ok refusing_client; token_library := test_library; sha256 := token_bytes;
  float_of_text _ := None |}.

Definition as_stored : RowOrder := {|
  finding_order l := l; document_order l := l; review_order l := l; event_order l := l |}.

Definition choices : DatabaseChoices := {|
  draw i n := uuid (1000 + N.of_nat n); row_order := as_stored; delete_waited := true;
  cosine_distance a b := PgVectorTheorems.Index.cosine a b; plan l n := take n l |}.

#[local] Existing Instance WorkerTheorems.lazy_engines.

Definition deploy (s : Settings) : result ApplicationContainer := create_container hash JNull JNull choices offline s.

Lemma container_built_iff_complete_witness :
  builds (deploy WorkerTheorems.worker_settings) /\
  forall c, deploy WorkerTheorems.worker_settings = Ok c -> built hash JNull JNull WorkerTheorems.worker_settings c.
Proof.
  destruct (container_built_iff_complete hash JNull JNull choices offline WorkerTheorems.worker_settings
    WorkerTheorems.worker_settings eq_refl) as [Hiff Hbuilt].
  split; [|exact Hbuilt]. apply Hiff. split; (intros H; discriminate H) || (intros _; split; [by exists tt|reflexivity]).
Defined.

(** A checkpointer that counts its connections. *)
#[local] Instance counting : Checkpointer nat := {|
  aenter := atomic (fun n => (Ok tt, Datatypes.S n)); setup := Ret tt; aexit := atomic (fun n => (Ok tt, Nat.pred n)) |}.
#[local] Instance counting_laws : CheckpointerLaws nat id.
Proof. split; intros w; [exists (Ok tt), (Datatypes.S w)|exists (Ok tt), w|exists (Nat.pred w)]; by split. Qed.
#[local] Instance no_pool : Engine nat := {| dispose := Ret tt |}.
#[local] Instance no_pool_laws : EngineLaws nat.
Proof. constructor. intros Inv R G Q s _ HR HQ. apply HQ. reflexivity. Qed.

Definition idle : Live nat := {| checkpoint_context := false; durable_workflow := false; outside := 3 |}.

Lemma connections_balanced_witness :
  balanced id 3 (run_calls WorkerTheorems.worker_settings true [Start; Start; Close; Start] idle) /\
  exists l', run (lifespan WorkerTheorems.worker_settings true (Throw (ValueError []) : prog (Live nat) unit)) idle
    = (Raise (ValueError []), l') /\ outside l' = 3.
Proof.
  destruct (connections_balanced id WorkerTheorems.worker_settings true 3 [Start; Start; Close; Start] idle
    (Throw (ValueError []) : prog (Live nat) unit) eq_refl ltac:(by intros l')) as (Hb & r & l1 & Hrun & _ & H).
  split; [exact Hb|]. vm_compute in Hrun. assert (r = Ok tt) as -> by congruence.
  destruct H as (_ & l' & Hl & Hc & _). exists l'. split; [exact Hl|exact Hc].
Defined.
End example.
End Deployment.
