(* ===== verification/Smoke.v ===== *)
(** * The end-to-end smoke script

    [main] of [scripts/smoke.py] against a container of [Container]: every HTTP request is
    authenticated from its headers and served by the handler of its route, the MCP client
    calls the tool, and [time.sleep] lets the rest of the deployment run.  The script
    reads the documents of the responses; the model reads the values they are made of. *)
From S2P Require Import Prelude PyStr Uuid Effects Json Schemas SchemaJson Cases Ledger Database InMemory SqlActions.
From S2P Require Import Governance ModelGateway JsonTextCode ReviewGraph Chunking Retrieval Identity Settings Api Container EntryPoints.
From Corelib Require Import SpecFloat.
Import SupplierReviewWorkflow.
Local Open Scope py_scope.

(** Equality of the documents of a review execution. *)
#[export] Instance spec_float_eq_dec : EqDecision spec_float.
Proof. solve_decision. Defined.
#[export] Instance Evidence_eq_dec : EqDecision Evidence.
Proof. solve_decision. Defined.
#[export] Instance Finding_eq_dec : EqDecision Finding.
Proof. solve_decision. Defined.
#[export] Instance Recommendation_eq_dec : EqDecision Recommendation.
Proof. solve_decision. Defined.
#[export] Instance ReviewResult_eq_dec : EqDecision ReviewResult.
Proof. solve_decision. Defined.
#[export] Instance ReviewInterrupt_eq_dec : EqDecision ReviewInterrupt.
Proof. solve_decision. Defined.
#[export] Instance ReviewExecution_eq_dec : EqDecision ReviewExecution.
Proof. solve_decision. Defined.

(** What the script prints. *)
Record Report := {
  rp_case_id : UUID;
  rp_execution_id : UUID;
  rp_review_id : UUID;
  rp_action_id : UUID;
  rp_action_status : ActionStatus;
  rp_workflow_reference : option pystr;
  rp_external_reference : pystr;
  rp_chunks : Z;
  rp_evidence_hits : nat;
  rp_audit_events : nat;
}.

Definition assertion_error : exn := OtherError (u "AssertionError") [].

Definition smoke_headers : headers :=
  [(u "content-type", u "application/json"); (u "x-actor-id", u "smoke-analyst@example.com");
   (u "x-tenant-id", u "tenant-smoke"); (u "x-roles", u "analyst")].
Definition approver_headers : headers :=
  [(u "content-type", u "application/json"); (u "x-actor-id", u "smoke-approver@example.com");
   (u "x-tenant-id", u "tenant-smoke"); (u "x-roles", u "approver")].

Definition smoke_case : SupplierCaseCreate := {|
  scc_supplier_name := u "Northstar Smoke Test";
  scc_description := u "Synthetic case used by the local end-to-end smoke test.";
  scc_documents := [
    {| doc_title := u "Security questionnaire";
       doc_content := u "# Access control" ++ [newline] ++ u "Administrators may use shared credentials."; doc_source_uri := None |};
    {| doc_title := u "Master services agreement";
       doc_content := u "# Liability" ++ [newline] ++ u "The customer accepts unlimited liability."; doc_source_uri := None |}] |}.

Definition expected_events : list pystr :=
  [u "case.created"; u "documents.indexed"; u "review.started"; u "review.completed"; u "action.proposed";
   u "action.approved"; u "action.executed"].

Section smoke.
Context `{JsonText} `{DatetimeText} `{IsoText} (uuid5 : UUID -> pystr -> UUID).
Context {S : Type} (settings : Settings) (c : Components S).
(** The tool of the MCP server, the rest of the deployment while the script sleeps, and
    the clock, identifiers and model of each request. *)
Context (execute_tool : UUID -> Fresh -> prog S ExecutionReceipt) (elsewhere : prog S unit).
Context (readings : nat -> Readings) (time : nat -> datetime) (uuid4 : nat -> UUID).

#[local] Instance the_cases : CaseRepository S := cases c.
#[local] Instance the_actions : ActionRepository S := actions c.
#[local] Instance the_approvals : ApprovalWorkflow S := approvals c.
#[local] Instance the_supplier : SupplierSystem S := supplier_system c.
#[local] Instance the_retrieval : RetrievalService S := retrieval c.

(** [assert] *)
Definition assert_ (b : bool) : prog S unit := raise_if (negb b) assertion_error.

(** [_request]: the handler of the route, for the principal the headers give. *)
Definition request {A} (h : headers) (handler : Principal -> prog S A) : prog S A :=
  p ← of_result (get_principal (@authenticate (authenticator c) h)); handler p.

(** [_wait_for_workflow_reference]; [fuel] bounds the polls before the deadline. *)
Fixpoint wait_for_workflow_reference (fuel : nat) (action_id : UUID) : prog S GovernedAction :=
  match fuel with
  | O => Throw (OtherError (u "TimeoutError") (u "Outbox delivery did not start workflow for action " ++ str_uuid action_id))
  | Datatypes.S fuel =>
      action ← request smoke_headers (get_action_handler action_id);
      match ga_workflow_execution_arn action with
      | Some (_ :: _) => Ret action
      | _ => _ ← elsewhere; wait_for_workflow_reference fuel action_id
      end
  end.

Definition starts_with (prefix : pystr) (s : option pystr) : bool :=
  match s with Some s => pystr_eqb (take (length prefix) s) prefix | None => false end.

Definition main (polls : nat) : prog S Report :=
  _ ← assert_ (bool_decide (health (Settings.model_backend settings) (repository_backend settings) =
        [(u "status", u "ok"); (u "model_backend", u "deterministic"); (u "repository_backend", u "postgres")]));
  supplier_case ← request smoke_headers (fun p => create_case_handler smoke_case p (uuid4 0) (time 0) (readings 0));
  let i := case_id supplier_case in
  index_result ← request smoke_headers (fun p => index_case_documents i p (readings 1));
  _ ← assert_ (ix_document_count index_result =? 2)%Z;
  _ ← assert_ (2 <=? ix_chunk_count index_result)%Z;
  evidence ← request smoke_headers (fun p =>
    search_case_evidence i (u "shared administrator credentials") p (retrieval_limit settings));
  _ ← assert_ (negb (Nat.eqb (length (evidence : list RetrievedChunk)) 0));
  _ ← assert_ (forallb (fun item => bool_decide (dc_case_id (rt_chunk item) = i)) evidence);
  execution ← request smoke_headers (fun p => start_review_execution uuid5 (workflow c) i
    {| es_idempotency_key := uuid4 1; es_require_evidence_confirmation := true |} p (readings 2));
  _ ← assert_ (bool_decide (ex_status execution = AWAITING_INPUT));
  let execution_id := ex_execution_id execution in
  recovered ← request smoke_headers (get_review_execution (workflow c) i execution_id);
  _ ← assert_ (bool_decide (recovered = execution));
  execution ← request smoke_headers (fun p => resume_review_execution (workflow c) i execution_id
    {| ec_decision := EC_CONFIRM; ec_comment := u "Smoke-test evidence confirmation." |} p (readings 3));
  _ ← assert_ (bool_decide (ex_status execution = COMPLETED));
  review ← of_result (of_option (OtherError (u "TypeError") (u "'NoneType' object is not subscriptable")) (ex_result execution));
  latest_review ← request smoke_headers (get_latest_review_handler i);
  _ ← assert_ (bool_decide (rv_review_id latest_review = rv_review_id review));
  _ ← assert_ (bool_decide (rv_case_id latest_review = i));
  _ ← assert_ (negb (Nat.eqb (length (rv_findings latest_review)) 0));
  action ← request smoke_headers (fun p =>
    propose_case_action uuid5 i {| apr_idempotency_key := uuid4 2 |} p (time 1) (readings 4));
  _ ← assert_ (bool_decide (ga_status action = PENDING_APPROVAL));
  _ ← assert_ (bool_decide (args_review_id (ga_arguments action) = rv_review_id review));
  action ← wait_for_workflow_reference polls (ga_id action);
  _ ← assert_ (starts_with (u "local://approval/") (ga_workflow_execution_arn action));
  approved ← request approver_headers (fun p => decide_action (ga_id action)
    {| ar_decision := AD_APPROVE; ar_comment := u "Smoke-test approval" |} p (time 2) (readings 5));
  _ ← assert_ (bool_decide (ga_status approved = APPROVED));
  receipt ← execute_tool (ga_id action) (fresh (readings 6) 0);
  _ ← assert_ (bool_decide (rc_action_id receipt = ga_id action));
  _ ← assert_ (bool_decide (rc_applied_decision receipt = args_decision (ga_arguments approved)));
  executed ← request smoke_headers (get_action_handler (ga_id action));
  _ ← assert_ (bool_decide (ga_status executed = EXECUTED));
  audit_events ← request smoke_headers (list_audit_events_handler i);
  _ ← assert_ (forallb (fun et => existsb (fun e => pystr_eqb (ae_event_type (event_create e)) et) (audit_events : list AuditEvent))
        expected_events);
  Ret {| rp_case_id := i; rp_execution_id := execution_id; rp_review_id := rv_review_id review; rp_action_id := ga_id action;
         rp_action_status := ga_status executed; rp_workflow_reference := ga_workflow_execution_arn action;
         rp_external_reference := rc_external_reference receipt; rp_chunks := ix_chunk_count index_result;
         rp_evidence_hits := length evidence; rp_audit_events := length audit_events |}.
End smoke.
