(* ===== verification/SmokeTheorems.v ===== *)
(** * The smoke script passes

    The script of [Smoke] run against the container [create_container] builds for
    PostgreSQL and the deterministic backends, on an empty database, with the outbox worker
    making one turn whenever the script sleeps and the MCP server's tool on the same
    database: every assertion of the script holds. *)
From S2P Require Import Prelude PyStr Uuid Effects Json Schemas SchemaJson Cases Ledger Database InMemory SqlActions.
From S2P Require Import Governance GovernanceTheorems Outbox SystemTheorems ModelGateway JsonTextCode ReviewGraph ReviewRuntime ReviewTheorems.
From S2P Require Import Chunking Retrieval RetrievalTheorems Settings Workers WorkerTheorems SqlCases PgVector Api EntryPoints Container ContainerTheorems Smoke.
From Corelib Require Import SpecFloat.
Import History.
Local Open Scope py_scope.

Section run.

(** A name-based identifier: the name read as a number in base 2^21 of code points, modulo 2^128. *)
Definition name_id (_ : UUID) (n : pystr) : UUID :=
  default NAMESPACE_URL (UUID_of_N (fold_left (fun acc c => (acc * 1000003 + c + 1) mod (2 ^ 128)) n 7)%N).

Definition distance_of (a b : list float64) : float64 :=
  fsub float_one (fsum (zip_with fmul a b)).

Definition nearest (l : list Match) (n : nat) : list Match :=
  take n (merge_sort (fun a b : Match => Is_true (sorts_before a.2 b.2)) l).

Definition smoke_choices : DatabaseChoices := {|
  draw i n := uuid (1000 + N.of_nat n); row_order := Deployment.as_stored; delete_waited := true;
  cosine_distance := distance_of; plan := nearest |}.

#[local] Existing Instance lazy_engines.

Definition deployed : result ApplicationContainer :=
  create_container name_id JNull JNull smoke_choices Deployment.offline worker_settings.

(** The clock and identifiers of the [k]th request. *)
Definition smoke_readings (c : Components PgWorld) (k : nat) : Readings := {|
  Api.fresh := fun n => {| now := Z.of_nat (100 * k + n); new_event_id := uuid (5000 + 100 * N.of_nat k + N.of_nat n);
                           new_message_id := uuid (9000 + 100 * N.of_nat k + N.of_nat n) |};
  environment := {| ReviewGraph.answers := model_backend c; ReviewGraph.clock := Z.of_nat (100 * k) |}; Api.started := Z.of_nat (100 * k) |}.

Definition smoke_worker : prog PgWorld unit :=
  _ ← zoom pw_sql put_pw_sql
        (@poll SqlWorld _ LocalApprovalWorkflow.workflow _ (dispatcher_of worker_settings (worker_name (u "host") 7))
          {| turn_scan := in_key_order; turn_time := 1000000 |});
  Ret tt.

Definition smoke_tool (i : UUID) (fr : Fresh) : prog PgWorld ExecutionReceipt :=
  zoom pw_sql put_pw_sql (MCPServer.execute_supplier_decision i fr).

Definition empty_world : PgWorld := {| pw_sql := {| sw_db := db_empty; sw_receipts := ∅ |}; pw_checkpoints := ∅ |}.

Definition smoke_run (worker : prog PgWorld unit) : option (result Report * PgWorld) :=
  match deployed with
  | Ok (OnPostgres s c) =>
      Some (run (main name_id s c smoke_tool worker (smoke_readings c) (fun k => Z.of_nat (300 + 10 * k))
                  (fun k => uuid (20 + N.of_nat k)) 3) empty_world)
  | _ => None
  end.
End run.


(** Every message of the outbox is published. *)
Definition outbox_drained (d : Db) : bool :=
  bool_decide (map_Forall (fun _ r => is_some (omr_published_at r) = true) (t_outbox d)).

(** What the run must show beyond the assertions of the script. *)
Definition as_reported (o : option (result Report * PgWorld)) : bool :=
  match o with
  | Some (Ok r, w) =>
      bool_decide (rp_action_status r = EXECUTED)
      && bool_decide (rp_workflow_reference r = Some (u "local://approval/" ++ str_uuid (rp_action_id r)))
      && bool_decide (size (t_actions (pw_db w)) = 1) && outbox_drained (pw_db w)
      && bool_decide (rp_audit_events r = size (t_audit (pw_db w)))
  | _ => false
  end.

Lemma smoke_as_reported : as_reported (smoke_run smoke_worker) = true.
Proof. vm_cast_no_check (eq_refl true). Qed.

Lemma as_reported_Some o : as_reported o = true -> exists r w, o = Some (Ok r, w) /\ rp_action_status r = EXECUTED /\
  rp_workflow_reference r = Some (u "local://approval/" ++ str_uuid (rp_action_id r)) /\
  size (t_actions (pw_db w)) = 1 /\ outbox_drained (pw_db w) = true /\ rp_audit_events r = size (t_audit (pw_db w)).
Proof.
  destruct o as [[[r|e] w]|]; try done. unfold as_reported. rewrite !andb_true_iff, !bool_decide_eq_true.
  intros [[[[? ?] ?] ?] ?]. by exists r, w.
Qed.

(** The parts work together: on an empty database the container built for PostgreSQL takes
    a new case through indexing, evidence search, a review with its confirmation, a
    proposal, delivery by the outbox worker, the decision of another principal and the
    execution by the MCP tool, and every assertion of the smoke script holds; the one
    action ends executed under the reference the worker recorded. *)
Theorem smoke_passes : exists r w, smoke_run smoke_worker = Some (Ok r, w) /\ rp_action_status r = EXECUTED /\
  rp_workflow_reference r = Some (u "local://approval/" ++ str_uuid (rp_action_id r)) /\
  size (t_actions (pw_db w)) = 1 /\ outbox_drained (pw_db w) = true /\ rp_audit_events r = size (t_audit (pw_db w)).
Proof. apply as_reported_Some, smoke_as_reported. Qed.

(** Without the worker nothing delivers the proposal and the script gives up waiting. *)
Example smoke_needs_worker :
  match smoke_run (Ret tt) with Some (Raise (OtherError name _), _) => pystr_eqb name (u "TimeoutError") | _ => false end = true.
Proof. vm_compute. reflexivity. Qed.
