(* ===== verification/SchemaTheorems.v ===== *)
(** * The store keeps the migrated schema

    The rows and constraints of [Database] next to the catalogue the scripts of
    [Migrations] create: an insertion is accepted exactly when the keys, the unique
    constraints and the foreign keys of the catalogue allow it, and the rows the
    repositories write fit the types and widths of its columns. *)
From S2P Require Import Prelude PyStr Uuid Effects Json Schemas SchemaJson Cases Ledger Database Migrations SqlActions Outbox Chunking SqlCases PgVector GovernanceTheorems.
Local Open Scope py_scope.

(** ** Records as rows *)

Definition opt_value {A} (f : A -> value_) (o : option A) : value_ := match o with Some a => f a | None => VNull end.
Abbreviation vstr := (opt_value VStr).
Abbreviation vtime := (opt_value VTime).
Abbreviation obj := (fun fields => VJson (JObj fields)).

Definition case_row (r : SupplierCaseRecord) : Row :=
  [(u "id", VUuid (scr_id r)); (u "tenant_id", VStr (scr_tenant_id r)); (u "supplier_name", VStr (scr_supplier_name r));
   (u "description", VStr (scr_description r)); (u "status", VStr (scr_status r)); (u "created_at", VTime (scr_created_at r));
   (u "updated_at", VTime (scr_updated_at r))].

Definition document_row (r : DocumentRecord) : Row :=
  [(u "id", VUuid (dr_id r)); (u "case_id", VUuid (dr_case_id r)); (u "title", VStr (dr_title r)); (u "position", VInt (dr_position r));
   (u "content", VStr (dr_content r)); (u "source_uri", vstr (dr_source_uri r)); (u "checksum", vstr (dr_checksum r));
   (u "metadata_json", obj (dr_metadata_json r))].

Definition chunk_row (r : DocumentChunkRecord) : Row :=
  [(u "id", VUuid (chr_id r)); (u "document_id", VUuid (chr_document_id r)); (u "case_id", VUuid (chr_case_id r));
   (u "position", VInt (chr_position r)); (u "heading", vstr (chr_heading r)); (u "content", VStr (chr_content r));
   (u "token_count", VInt (chr_token_count r)); (u "metadata_json", obj (chr_metadata_json r)); (u "embedding", VVector (chr_embedding r))].

Definition review_row (r : ReviewRunRecord) : Row :=
  [(u "id", VUuid (rrr_id r)); (u "case_id", VUuid (rrr_case_id r)); (u "model_backend", VStr (rrr_model_backend r));
   (u "decision", vstr (rrr_decision r)); (u "rationale", vstr (rrr_rationale r));
   (u "required_actions_json", VJson (JArr (JStr <$> rrr_required_actions_json r))); (u "confidence", opt_value VFloat (rrr_confidence r));
   (u "started_at", VTime (rrr_started_at r)); (u "completed_at", vtime (rrr_completed_at r))].

Definition finding_row (r : FindingRecord) : Row :=
  [(u "id", VUuid (fr_id r)); (u "review_run_id", VUuid (fr_review_run_id r)); (u "category", VStr (fr_category r));
   (u "severity", VStr (fr_severity r)); (u "title", VStr (fr_title r)); (u "summary", VStr (fr_summary r));
   (u "evidence_json", VJson (JArr (fr_evidence_json r))); (u "remediation", VStr (fr_remediation r)); (u "confidence", VFloat (fr_confidence r))].

Definition action_row (r : GovernedActionRecord) : Row :=
  [(u "id", VUuid (gar_id r)); (u "case_id", VUuid (gar_case_id r)); (u "review_id", VUuid (gar_review_id r));
   (u "tenant_id", VStr (gar_tenant_id r)); (u "tool_name", VStr (gar_tool_name r)); (u "arguments_json", VJson (gar_arguments_json r));
   (u "status", VStr (gar_status r)); (u "proposer_id", VStr (gar_proposer_id r)); (u "approver_id", vstr (gar_approver_id r));
   (u "approval_comment", VStr (gar_approval_comment r)); (u "idempotency_key", VUuid (gar_idempotency_key r));
   (u "workflow_execution_arn", vstr (gar_workflow_execution_arn r));
   (u "execution_receipt_json", opt_value VJson (gar_execution_receipt_json r)); (u "created_at", VTime (gar_created_at r));
   (u "decided_at", vtime (gar_decided_at r)); (u "executed_at", vtime (gar_executed_at r))].

Definition audit_row (r : AuditEventRecord) : Row :=
  [(u "id", VUuid (aer_id r)); (u "case_id", VUuid (aer_case_id r)); (u "event_type", VStr (aer_event_type r));
   (u "actor_id", VStr (aer_actor_id r)); (u "payload_json", obj (aer_payload_json r)); (u "created_at", VTime (aer_created_at r))].

Definition outbox_row (r : OutboxMessageRecord) : Row :=
  [(u "id", VUuid (omr_id r)); (u "aggregate_type", VStr (omr_aggregate_type r)); (u "aggregate_id", VUuid (omr_aggregate_id r));
   (u "event_type", VStr (omr_event_type r)); (u "payload_json", VJson (omr_payload_json r)); (u "attempt_count", VInt (omr_attempt_count r));
   (u "available_at", VTime (omr_available_at r)); (u "locked_at", vtime (omr_locked_at r)); (u "locked_by", vstr (omr_locked_by r));
   (u "published_at", vtime (omr_published_at r)); (u "dead_lettered_at", vtime (omr_dead_lettered_at r)); (u "last_error", vstr (omr_last_error r));
   (u "delivery_result_json", opt_value (fun kvs => VJson (JObj ((fun kv => (kv.1, JStr kv.2)) <$> kvs))) (omr_delivery_result_json r));
   (u "created_at", VTime (omr_created_at r))].

(** The table of a record and its row. *)
Definition encode_row (r : row) : pystr * Row :=
  match r with
  | RowCase r => (u "supplier_cases", case_row r)
  | RowDocument r => (u "documents", document_row r)
  | RowChunk r => (u "document_chunks", chunk_row r)
  | RowReview r => (u "review_runs", review_row r)
  | RowFinding r => (u "findings", finding_row r)
  | RowAction r => (u "governed_actions", action_row r)
  | RowAudit r => (u "audit_events", audit_row r)
  | RowOutbox r => (u "outbox_messages", outbox_row r)
  end.

Definition all_rows {V} (f : V -> Row) (m : gmap UUID V) : list Row := f <$> (map_to_list m).*2.

(** The rows of every table. *)
Definition rows_of (d : Db) : list (pystr * list Row) :=
  [(u "supplier_cases", all_rows case_row (t_cases d)); (u "documents", all_rows document_row (t_documents d));
   (u "document_chunks", all_rows chunk_row (t_chunks d)); (u "review_runs", all_rows review_row (t_reviews d));
   (u "findings", all_rows finding_row (t_findings d)); (u "governed_actions", all_rows action_row (t_actions d));
   (u "audit_events", all_rows audit_row (t_audit d)); (u "outbox_messages", all_rows outbox_row (t_outbox d))].

Definition rows_in (n : pystr) (rs : list (pystr * list Row)) : list Row := default [] (assoc n rs).

(** ** The constraints of a catalogue *)

(** Equality of key values; a null equals nothing. *)
Definition same_value (v w : option value_) : bool :=
  match v, w with
  | Some (VUuid i), Some (VUuid j) => bool_decide (i = j)
  | Some (VStr s), Some (VStr t) => bool_decide (s = t)
  | _, _ => false
  end.

Definition agree (columns : list pystr) (r r' : Row) : bool :=
  forallb (fun c => same_value (assoc c r) (assoc c r')) columns.

Definition refers (rows : list Row) (column : pystr) (v : option value_) : bool :=
  match v with Some VNull => true | _ => existsb (fun r' => same_value v (assoc column r')) rows end.

(** What PostgreSQL checks of an inserted row besides its types. *)
Definition admits (schema : gmap pystr Table) (rs : list (pystr * list Row)) (name : pystr) (r : Row) : bool :=
  match schema !! name with
  | None => false
  | Some t =>
      negb (existsb (agree (tb_primary_key t) r) (rows_in name rs))
      && forallb (fun nc => negb (existsb (agree nc.2 r) (rows_in name rs))) (map_to_list (tb_unique t))
      && forallb (fun fk => refers (rows_in fk.2.1.1 rs) fk.2.1.2 (assoc fk.1 r)) (map_to_list (tb_foreign_keys t))
  end.

(** A text that fits [VARCHAR(n)], and a null or such a text. *)
Definition short (n : N) (s : pystr) : bool := (N.of_nat (length s) <=? n)%N && storable s.
Definition opt_short (n : N) (o : option pystr) : bool := opt_forallb (short n) o.
Definition opt_storable (o : option pystr) : bool := opt_forallb storable o.

Definition int32 (z : Z) : bool := (- 2 ^ 31 <=? z)%Z && (z <? 2 ^ 31)%Z.

Definition vector_fits (n : N) (v : list float64) : bool := (N.of_nat (length v) =? n)%N && forallb is_finite v.

Definition fits (ty : column_type) (nullable : bool) (v : value_) : bool :=
  match v, ty with
  | VNull, _ => nullable
  | VUuid _, Uuid | VFloat _, Float_ | VTime _, DateTimeTz | VJson _, JSON_ => true
  | VStr s, String_ n => short n s
  | VStr s, Text => storable s
  | VInt z, Integer => int32 z
  | VVector v, VECTOR n => vector_fits n v
  | _, _ => false
  end.

(** A row has a value of the type of each column, and no other values. *)
Definition typed (schema : gmap pystr Table) (name : pystr) (r : Row) : bool :=
  match schema !! name with
  | None => false
  | Some t =>
      (length r =? size (tb_columns t))%nat
      && forallb (fun '(n, (ty, nullable, _)) => match assoc n r with Some v => fits ty nullable v | None => false end)
           (map_to_list (tb_columns t))
  end.

(** ** Insertions *)

(** Primary key, unique constraints and foreign keys of a table at the head. *)
Definition keys_of (n : pystr) : option (list pystr * list (list pystr) * list (pystr * (pystr * pystr))) :=
  (fun t => (tb_primary_key t, (map_to_list (tb_unique t)).*2, (fun fk => (fk.1, fk.2.1)) <$> map_to_list (tb_foreign_keys t)))
  <$> tables head_schema !! n.

Lemma forallb_fmap {A B} (f : A -> B) p l : forallb p (f <$> l) = forallb (fun a => p (f a)) l.
Proof. induction l as [|a l IH]; [done|]. cbn. by f_equal. Qed.

Lemma admits_keys n pk uq fks rs r :
  keys_of n = Some (pk, uq, fks) ->
  admits (tables head_schema) rs n r
  = negb (existsb (agree pk r) (rows_in n rs))
    && forallb (fun cs => negb (existsb (agree cs r) (rows_in n rs))) uq
    && forallb (fun fk => refers (rows_in fk.2.1 rs) fk.2.2 (assoc fk.1 r)) fks.
Proof.
  unfold keys_of, admits. destruct (tables head_schema !! n) as [t|]; [|done]. intros [= <- <- <-].
  by rewrite !forallb_fmap.
Qed.

(** A table keyed by the identifiers of its rows. *)
Definition keyed_by {V} (id : V -> UUID) (m : gmap UUID V) : Prop := forall k r, m !! k = Some r -> id r = k.

Record db_keyed (d : Db) : Prop := {
  dk_cases : keyed_by scr_id (t_cases d);
  dk_documents : keyed_by dr_id (t_documents d);
  dk_chunks : keyed_by chr_id (t_chunks d);
  dk_reviews : keyed_by rrr_id (t_reviews d);
  dk_findings : keyed_by fr_id (t_findings d);
  dk_actions : keyed_by gar_id (t_actions d);
  dk_audit : keyed_by aer_id (t_audit d);
  dk_outbox : keyed_by omr_id (t_outbox d);
}.

Section keyed.
Context {V : Type} (f : V -> Row) (id : V -> UUID) (m : gmap UUID V).
Hypothesis Hid : forall r, assoc (u "id") (f r) = Some (VUuid (id r)).
Hypothesis Hm : keyed_by id m.

Lemma existsb_rows (p : Row -> bool) : existsb p (all_rows f m) = true <-> exists k r, m !! k = Some r /\ p (f r) = true.
Proof.
  rewrite existsb_exists. unfold all_rows. split.
  - intros (r' & Hin%list_elem_of_In & Hp). apply list_elem_of_fmap in Hin as (r & -> & Hin).
    apply list_elem_of_fmap in Hin as ([k r1] & -> & Hin%elem_of_map_to_list). by exists k, r1.
  - intros (k & r & Hr & Hp). exists (f r). split; [|done]. apply list_elem_of_In, list_elem_of_fmap_2, list_elem_of_fmap.
    exists (k, r). by rewrite elem_of_map_to_list.
Qed.

Lemma same_uuid i j : same_value (Some (VUuid i)) (Some (VUuid j)) = true <-> i = j.
Proof. cbn. by rewrite bool_decide_eq_true. Qed.

Lemma primary_key_free r : negb (existsb (agree [u "id"] (f r)) (all_rows f m)) = absent (id r) m.
Proof.
  apply eq_true_iff_eq. rewrite negb_true_iff, <- not_true_iff_false, existsb_rows, absent_true. unfold agree. cbn [forallb].
  setoid_rewrite Hid. setoid_rewrite andb_true_r. setoid_rewrite same_uuid. split.
  - intros H. apply eq_None_not_Some. intros [r' Hr']. apply H. exists (id r), r'. split; [done|]. symmetry. by apply Hm.
  - intros H (k & r' & Hr' & Heq). rewrite (Hm _ _ Hr') in Heq. subst k. by rewrite H in Hr'.
Qed.

Lemma refers_present k : refers (all_rows f m) (u "id") (Some (VUuid k)) = present k m.
Proof.
  apply eq_true_iff_eq. unfold refers. rewrite existsb_rows, present_true. setoid_rewrite Hid. setoid_rewrite same_uuid. split.
  - intros (k' & r & Hr & ->). rewrite (Hm _ _ Hr). by exists r.
  - intros [r Hr]. exists k, r. split; [done|]. symmetry. by apply Hm.
Qed.
End keyed.

Lemma unique_rows {V K} (f : V -> Row) (key : V -> K) `{EqDecision K} cols (m : gmap UUID V) r :
  (forall r', agree cols (f r) (f r') = true <-> key r' = key r) ->
  negb (existsb (agree cols (f r)) (all_rows f m)) = forallb (fun '(_, r') => negb (bool_decide (key r' = key r))) (map_to_list m).
Proof.
  intros Hkey. unfold all_rows. induction (map_to_list m) as [|[k r'] l IH]; [done|]. cbn. rewrite negb_orb. f_equal; [|exact IH].
  f_equal. apply eq_true_iff_eq. by rewrite bool_decide_eq_true.
Qed.

Abbreviation id_key := [u "id"].
Abbreviation refers_to t := (t, u "id").

Lemma keys_cases : keys_of (u "supplier_cases") = Some (id_key, [], []).
Proof. vm_compute. reflexivity. Qed.
Lemma keys_documents : keys_of (u "documents") = Some (id_key, [], [(u "case_id", refers_to (u "supplier_cases"))]).
Proof. vm_compute. reflexivity. Qed.
Lemma keys_chunks : keys_of (u "document_chunks")
  = Some (id_key, [], [(u "document_id", refers_to (u "documents")); (u "case_id", refers_to (u "supplier_cases"))]).
Proof. vm_compute. reflexivity. Qed.
Lemma keys_reviews : keys_of (u "review_runs") = Some (id_key, [], [(u "case_id", refers_to (u "supplier_cases"))]).
Proof. vm_compute. reflexivity. Qed.
Lemma keys_findings : keys_of (u "findings") = Some (id_key, [], [(u "review_run_id", refers_to (u "review_runs"))]).
Proof. vm_compute. reflexivity. Qed.
Lemma keys_actions : keys_of (u "governed_actions")
  = Some (id_key, [[u "tenant_id"; u "idempotency_key"]],
          [(u "review_id", refers_to (u "review_runs")); (u "case_id", refers_to (u "supplier_cases"))]).
Proof. vm_compute. reflexivity. Qed.
Lemma keys_audit : keys_of (u "audit_events") = Some (id_key, [], [(u "case_id", refers_to (u "supplier_cases"))]).
Proof. vm_compute. reflexivity. Qed.
Lemma keys_outbox : keys_of (u "outbox_messages") = Some (id_key, [[u "aggregate_type"; u "aggregate_id"; u "event_type"]], []).
Proof. vm_compute. reflexivity. Qed.

Lemma rows_cases d : rows_in (u "supplier_cases") (rows_of d) = all_rows case_row (t_cases d).
Proof. reflexivity. Qed.
Lemma rows_documents d : rows_in (u "documents") (rows_of d) = all_rows document_row (t_documents d).
Proof. reflexivity. Qed.
Lemma rows_chunks d : rows_in (u "document_chunks") (rows_of d) = all_rows chunk_row (t_chunks d).
Proof. reflexivity. Qed.
Lemma rows_reviews d : rows_in (u "review_runs") (rows_of d) = all_rows review_row (t_reviews d).
Proof. reflexivity. Qed.
Lemma rows_findings d : rows_in (u "findings") (rows_of d) = all_rows finding_row (t_findings d).
Proof. reflexivity. Qed.
Lemma rows_actions d : rows_in (u "governed_actions") (rows_of d) = all_rows action_row (t_actions d).
Proof. reflexivity. Qed.
Lemma rows_audit d : rows_in (u "audit_events") (rows_of d) = all_rows audit_row (t_audit d).
Proof. reflexivity. Qed.
Lemma rows_outbox d : rows_in (u "outbox_messages") (rows_of d) = all_rows outbox_row (t_outbox d).
Proof. reflexivity. Qed.

Create Rewrite HintDb tables_of.
#[export] Hint Rewrite rows_cases rows_documents rows_chunks rows_reviews rows_findings rows_actions rows_audit rows_outbox : tables_of.

(** Rewrites the keys of one table, then decides the remaining conjunction. *)
Ltac by_constraints H :=
  autorewrite with tables_of;
  repeat first
    [ rewrite (primary_key_free case_row scr_id) by (reflexivity || by destruct H)
    | rewrite (primary_key_free document_row dr_id) by (reflexivity || by destruct H)
    | rewrite (primary_key_free chunk_row chr_id) by (reflexivity || by destruct H)
    | rewrite (primary_key_free review_row rrr_id) by (reflexivity || by destruct H)
    | rewrite (primary_key_free finding_row fr_id) by (reflexivity || by destruct H)
    | rewrite (primary_key_free action_row gar_id) by (reflexivity || by destruct H)
    | rewrite (primary_key_free audit_row aer_id) by (reflexivity || by destruct H)
    | rewrite (primary_key_free outbox_row omr_id) by (reflexivity || by destruct H)
    | rewrite (refers_present case_row scr_id) by (reflexivity || by destruct H)
    | rewrite (refers_present document_row dr_id) by (reflexivity || by destruct H)
    | rewrite (refers_present review_row rrr_id) by (reflexivity || by destruct H) ];
  cbn [insert_row];
  repeat match goal with |- context [absent ?k ?m] => destruct (absent k m) end;
  repeat match goal with |- context [present ?k ?m] => destruct (present k m) end; try done.

Lemma same_action_key r r' : agree [u "tenant_id"; u "idempotency_key"] (action_row r) (action_row r') = true <-> row_key r' = row_key r.
Proof.
  change (agree _ _ _) with (bool_decide (gar_tenant_id r = gar_tenant_id r') && (bool_decide (gar_idempotency_key r = gar_idempotency_key r') && true)).
  rewrite !andb_true_iff, !bool_decide_eq_true. unfold row_key. split; [by intros (-> & -> & _)|by intros [= -> ->]].
Qed.

Lemma same_outbox_key r r' :
  agree [u "aggregate_type"; u "aggregate_id"; u "event_type"] (outbox_row r) (outbox_row r') = true <-> outbox_key r' = outbox_key r.
Proof.
  change (agree _ _ _) with (bool_decide (omr_aggregate_type r = omr_aggregate_type r')
    && (bool_decide (omr_aggregate_id r = omr_aggregate_id r') && (bool_decide (omr_event_type r = omr_event_type r') && true))).
  rewrite !andb_true_iff, !bool_decide_eq_true. unfold outbox_key. split; [by intros (-> & -> & -> & _)|by intros [= -> -> ->]].
Qed.

Lemma insert_admitted r d : db_keyed d ->
  is_some (insert_row r d) = admits (tables head_schema) (rows_of d) (encode_row r).1 (encode_row r).2.
Proof.
  intros H. destruct r as [r|r|r|r|r|r|r|r]; cbn [encode_row fst snd].
  - rewrite (admits_keys _ _ _ _ _ _ keys_cases). cbn [forallb]. by_constraints H.
  - rewrite (admits_keys _ _ _ _ _ _ keys_documents). cbn [forallb fst snd].
    change (assoc (u "case_id") (document_row r)) with (Some (VUuid (dr_case_id r))). by_constraints H.
  - rewrite (admits_keys _ _ _ _ _ _ keys_chunks). cbn [forallb fst snd].
    change (assoc (u "case_id") (chunk_row r)) with (Some (VUuid (chr_case_id r))).
    change (assoc (u "document_id") (chunk_row r)) with (Some (VUuid (chr_document_id r))). by_constraints H.
  - rewrite (admits_keys _ _ _ _ _ _ keys_reviews). cbn [forallb fst snd].
    change (assoc (u "case_id") (review_row r)) with (Some (VUuid (rrr_case_id r))). by_constraints H.
  - rewrite (admits_keys _ _ _ _ _ _ keys_findings). cbn [forallb fst snd].
    change (assoc (u "review_run_id") (finding_row r)) with (Some (VUuid (fr_review_run_id r))). by_constraints H.
  - rewrite (admits_keys _ _ _ _ _ _ keys_actions). cbn [forallb fst snd].
    change (assoc (u "case_id") (action_row r)) with (Some (VUuid (gar_case_id r))).
    change (assoc (u "review_id") (action_row r)) with (Some (VUuid (gar_review_id r))).
    rewrite rows_actions, (unique_rows action_row row_key [u "tenant_id"; u "idempotency_key"]) by apply same_action_key. fold (unique_action_key r (t_actions d)).
    destruct (unique_action_key r (t_actions d)) eqn:E; by_constraints H; by rewrite E.
  - rewrite (admits_keys _ _ _ _ _ _ keys_audit). cbn [forallb fst snd].
    change (assoc (u "case_id") (audit_row r)) with (Some (VUuid (aer_case_id r))). by_constraints H.
  - rewrite (admits_keys _ _ _ _ _ _ keys_outbox). cbn [forallb fst snd].
    rewrite rows_outbox, (unique_rows outbox_row outbox_key [u "aggregate_type"; u "aggregate_id"; u "event_type"]) by apply same_outbox_key. fold (unique_outbox_key r (t_outbox d)).
    destruct (unique_outbox_key r (t_outbox d)) eqn:E; by_constraints H; by rewrite E.
Qed.

(** An accepted insertion adds its row and nothing else. *)
Lemma all_rows_insert {V} (f : V -> Row) k r (m : gmap UUID V) : m !! k = None -> all_rows f (<[k := r]> m) ≡ₚ f r :: all_rows f m.
Proof. intros Hk. unfold all_rows. by rewrite map_to_list_insert. Qed.

Lemma keyed_insert {V} (id : V -> UUID) r (m : gmap UUID V) : keyed_by id m -> keyed_by id (<[id r := r]> m).
Proof. intros H k r' [[<- <-]|[_ Hk]]%lookup_insert_Some; [done|by apply H]. Qed.

Lemma insert_row_effect r d d' : insert_row r d = Some d' ->
  d' = match r with
       | RowCase r => put_case r d | RowDocument r => put_document r d | RowChunk r => put_chunk r d
       | RowReview r => put_review r d | RowFinding r => put_finding r d | RowAction r => put_action r d
       | RowAudit r => put_audit r d | RowOutbox r => put_outbox r d
       end /\
  match r with
  | RowCase r => t_cases d !! scr_id r = None | RowDocument r => t_documents d !! dr_id r = None
  | RowChunk r => t_chunks d !! chr_id r = None | RowReview r => t_reviews d !! rrr_id r = None
  | RowFinding r => t_findings d !! fr_id r = None | RowAction r => t_actions d !! gar_id r = None
  | RowAudit r => t_audit d !! aer_id r = None | RowOutbox r => t_outbox d !! omr_id r = None
  end.
Proof.
  destruct r; cbn [insert_row]; case_match; intros [= <-]; (split; [done|]); apply absent_true;
    repeat match goal with H : _ && _ = true |- _ => apply andb_true_iff in H as [H _] end; done.
Qed.

Lemma other_tables n r d d' : insert_row r d = Some d' -> n <> (encode_row r).1 -> rows_in n (rows_of d') = rows_in n (rows_of d).
Proof.
  intros [-> _]%insert_row_effect Hn.
  destruct (pystr_eqb n (encode_row r).1) eqn:E; [by apply pystr_eqb_eq in E|].
  unfold rows_in, rows_of. destruct r; cbn [encode_row fst] in E; cbn [assoc]; rewrite E; reflexivity.
Qed.

Lemma insertion_adds r d d' : db_keyed d -> insert_row r d = Some d' ->
  db_keyed d' /\ rows_in (encode_row r).1 (rows_of d') ≡ₚ (encode_row r).2 :: rows_in (encode_row r).1 (rows_of d).
Proof.
  intros H [-> Hfree]%insert_row_effect. split.
  - destruct H. destruct r; split; try done; by apply keyed_insert.
  - destruct r; cbn [encode_row fst snd]; autorewrite with tables_of; by apply all_rows_insert.
Qed.

(** C26. The modelled tables keep the schema the migrations create: an insertion is accepted
    exactly when the primary key, unique and foreign key constraints of the migrated
    catalogue admit its row, and then adds that row to that table and changes no other. *)
Theorem insertions_keep_schema r d :
  db_keyed d ->
  match insert_row r d with
  | Some d' =>
      admits (tables head_schema) (rows_of d) (encode_row r).1 (encode_row r).2 = true /\ db_keyed d' /\
      rows_in (encode_row r).1 (rows_of d') ≡ₚ (encode_row r).2 :: rows_in (encode_row r).1 (rows_of d) /\
      forall n, n <> (encode_row r).1 -> rows_in n (rows_of d') = rows_in n (rows_of d)
  | None => admits (tables head_schema) (rows_of d) (encode_row r).1 (encode_row r).2 = false
  end.
Proof.
  intros H. pose proof (insert_admitted r d H) as Hadm. destruct (insert_row r d) as [d'|] eqn:E; [|done].
  destruct (insertion_adds r d d' H E) as [? ?]. split; [done|]. split; [done|]. split; [done|].
  intros n Hn. by eapply other_tables.
Qed.

(** ** Types and widths *)

(** Number, names and types of the columns of a table at the head. *)
Definition columns_of (n : pystr) : option (nat * list (pystr * (column_type * bool))) :=
  (fun t => (size (tb_columns t), (fun c => (c.1, c.2.1)) <$> map_to_list (tb_columns t))) <$> tables head_schema !! n.

Definition cells_fit (cols : list (pystr * (column_type * bool))) (r : Row) : bool :=
  forallb (fun '(n, (ty, nullable)) => match assoc n r with Some v => fits ty nullable v | None => false end) cols.

Lemma typed_columns n k cols r :
  columns_of n = Some (k, cols) -> typed (tables head_schema) n r = (length r =? k)%nat && cells_fit cols r.
Proof.
  unfold columns_of, typed, cells_fit. destruct (tables head_schema !! n) as [t|]; [|done]. intros [= <- <-].
  f_equal. rewrite forallb_fmap.
  induction (map_to_list _) as [|[c [[ty nl] df]] l IH]; [done|]. cbn [forallb fst snd]. by rewrite IH.
Qed.

Definition cols_cases := Eval vm_compute in columns_of (u "supplier_cases").
Lemma columns_cases : columns_of (u "supplier_cases") = cols_cases.
Proof. vm_compute. reflexivity. Qed.
Definition cols_documents := Eval vm_compute in columns_of (u "documents").
Lemma columns_documents : columns_of (u "documents") = cols_documents.
Proof. vm_compute. reflexivity. Qed.
Definition cols_chunks := Eval vm_compute in columns_of (u "document_chunks").
Lemma columns_chunks : columns_of (u "document_chunks") = cols_chunks.
Proof. vm_compute. reflexivity. Qed.
Definition cols_reviews := Eval vm_compute in columns_of (u "review_runs").
Lemma columns_reviews : columns_of (u "review_runs") = cols_reviews.
Proof. vm_compute. reflexivity. Qed.
Definition cols_findings := Eval vm_compute in columns_of (u "findings").
Lemma columns_findings : columns_of (u "findings") = cols_findings.
Proof. vm_compute. reflexivity. Qed.
Definition cols_actions := Eval vm_compute in columns_of (u "governed_actions").
Lemma columns_actions : columns_of (u "governed_actions") = cols_actions.
Proof. vm_compute. reflexivity. Qed.
Definition cols_audit := Eval vm_compute in columns_of (u "audit_events").
Lemma columns_audit : columns_of (u "audit_events") = cols_audit.
Proof. vm_compute. reflexivity. Qed.
Definition cols_outbox := Eval vm_compute in columns_of (u "outbox_messages").
Lemma columns_outbox : columns_of (u "outbox_messages") = cols_outbox.
Proof. vm_compute. reflexivity. Qed.

Lemma fits_text n o : fits (String_ n) true (opt_value VStr o) = opt_short n o.
Proof. by destruct o. Qed.
Lemma fits_long_text o : fits Text true (opt_value VStr o) = opt_storable o.
Proof. by destruct o. Qed.
Lemma fits_time o : fits DateTimeTz true (opt_value VTime o) = true.
Proof. by destruct o. Qed.
Lemma fits_float o : fits Float_ true (opt_value VFloat o) = true.
Proof. by destruct o. Qed.
Lemma fits_json {A} (f : A -> json) o : fits JSON_ true (opt_value (fun a => VJson (f a)) o) = true.
Proof. by destruct o. Qed.

(** Conjunctions of the same conjuncts. *)
Ltac by_conjuncts := apply eq_true_iff_eq; rewrite !andb_true_iff; tauto.

(** The columns of a row of the goal against the widths of its table. *)
Ltac by_columns H :=
  rewrite (typed_columns _ _ _ _ H);
  match goal with r : _ |- _ => destruct r end;
  cbv -[fits short opt_short storable opt_storable opt_value int32 vector_fits];
  rewrite ?fits_text, ?fits_long_text, ?fits_time, ?fits_float, ?fits_json; cbn [fits];
  repeat match goal with |- context [short ?n ?s] => destruct (short n s) end;
  repeat match goal with |- context [opt_storable ?s] => destruct (opt_storable s) end;
  repeat match goal with |- context [storable ?s] => destruct (storable s) end;
  repeat match goal with |- context [opt_short ?n ?s] => destruct (opt_short n s) end;
  repeat match goal with |- context [int32 ?z] => destruct (int32 z) end;
  repeat match goal with |- context [vector_fits ?n ?v] => destruct (vector_fits n v) end; try reflexivity.

Lemma typed_case r :
  typed (tables head_schema) (u "supplier_cases") (case_row r)
  = short 32 (scr_status r) && short 255 (scr_tenant_id r) && short 255 (scr_supplier_name r) && storable (scr_description r).
Proof. by_columns columns_cases. Qed.

Lemma typed_document r :
  typed (tables head_schema) (u "documents") (document_row r)
  = short 255 (dr_title r) && int32 (dr_position r) && opt_short 2048 (dr_source_uri r) && opt_short 64 (dr_checksum r)
    && storable (dr_content r).
Proof. by_columns columns_documents. Qed.

Lemma typed_review r :
  typed (tables head_schema) (u "review_runs") (review_row r)
  = short 64 (rrr_model_backend r) && opt_short 32 (rrr_decision r) && opt_storable (rrr_rationale r).
Proof. by_columns columns_reviews. Qed.

Lemma typed_finding r :
  typed (tables head_schema) (u "findings") (finding_row r)
  = short 32 (fr_category r) && short 16 (fr_severity r) && short 255 (fr_title r)
    && storable (fr_summary r) && storable (fr_remediation r).
Proof. by_columns columns_findings. Qed.

Lemma typed_action r :
  typed (tables head_schema) (u "governed_actions") (action_row r)
  = short 255 (gar_tenant_id r) && short 128 (gar_tool_name r) && short 32 (gar_status r) && short 255 (gar_proposer_id r)
    && opt_short 255 (gar_approver_id r) && opt_short 2048 (gar_workflow_execution_arn r) && storable (gar_approval_comment r).
Proof. by_columns columns_actions. Qed.

Lemma typed_audit r :
  typed (tables head_schema) (u "audit_events") (audit_row r) = short 128 (aer_event_type r) && short 255 (aer_actor_id r).
Proof. by_columns columns_audit. Qed.

Lemma typed_outbox r :
  typed (tables head_schema) (u "outbox_messages") (outbox_row r)
  = short 64 (omr_aggregate_type r) && short 128 (omr_event_type r) && int32 (omr_attempt_count r)
    && opt_short 255 (omr_locked_by r) && opt_short 255 (omr_last_error r).
Proof. by_columns columns_outbox. Qed.

Lemma typed_chunk r :
  typed (tables head_schema) (u "document_chunks") (chunk_row r)
  = int32 (chr_position r) && int32 (chr_token_count r) && opt_short 500 (chr_heading r)
    && storable (chr_content r) && vector_fits 1024 (chr_embedding r).
Proof. by_columns columns_chunks. Qed.

Lemma short_between k n s : N.of_nat k = n -> short n s = varchar k s.
Proof.
  intros <-. unfold short, varchar, len_between. f_equal. apply eq_true_iff_eq. rewrite andb_true_iff, N.leb_le, !Nat.leb_le. lia.
Qed.

Lemma opt_short_between k n o : N.of_nat k = n -> opt_short n o = opt_forallb (varchar k) o.
Proof. intros H. destruct o; [by apply short_between|done]. Qed.

Lemma varchar_within lo k s : len_between lo k (length s) = true -> storable s = true -> varchar k s = true.
Proof. unfold varchar, len_between. intros [_ Hk]%andb_true_iff ->. by rewrite Hk. Qed.

Lemma opt_varchar_within k o :
  opt_forallb (fun s => len_between 0 k (length s)) o = true -> opt_storable o = true -> opt_forallb (varchar k) o = true.
Proof. destruct o as [s|]; [apply varchar_within|done]. Qed.

Lemma storable_take n s : storable s = true -> storable (take n s) = true.
Proof.
  revert n. induction s as [|c s IH]; intros [|n]; try done. cbn. intros [-> Hs]%andb_true_iff. by apply (IH n) in Hs.
Qed.

Lemma vector_width v : vector_fits 1024 v = ((length v =? 1024)%nat && forallb is_finite v).
Proof. unfold vector_fits. f_equal. apply eq_true_iff_eq. rewrite N.eqb_eq, Nat.eqb_eq. lia. Qed.

(** The row fits the columns of its migrated table. *)
Definition fits_table (r : row) : bool := typed (tables head_schema) (encode_row r).1 (encode_row r).2.

(** The rows the repositories insert. *)
Inductive inserted `{DatetimeText} : row -> Prop :=
  | inserted_case c : inserted (RowCase (SqlAlchemyCaseRepository.case_record c))
  | inserted_document i draw k doc : int32 (Z.of_nat k) = true ->
      inserted (RowDocument (SqlAlchemyCaseRepository.document_record i draw k doc))
  | inserted_chunk ch v : int32 (dc_position ch) = true -> int32 (dc_token_count ch) = true ->
      inserted (RowChunk (PgVectorRetrievalService.chunk_record (ch, v)))
  | inserted_review r : inserted (RowReview (SqlAlchemyCaseRepository.review_record r))
  | inserted_finding i f : inserted (RowFinding (SqlAlchemyCaseRepository.finding_record i f))
  | inserted_action a : inserted (RowAction (SqlAlchemyActionRepository.record_from_action a))
  | inserted_audit fr e : inserted (RowAudit (SqlAlchemyActionRepository.audit_record fr e))
  | inserted_event e : inserted (RowAudit (SqlAlchemyCaseRepository.event_record e))
  | inserted_message fr m : inserted (RowOutbox (SqlAlchemyActionRepository.outbox_record fr m)).

(** What the repositories make of a stored row. *)
Inductive updated `{DatetimeText} : row -> row -> Prop :=
  | updated_status read st t r : updated (RowCase r) (RowCase (SqlAlchemyCaseRepository.update_status read st t r))
  | updated_transition r a : valid_GovernedAction a = true -> SqlAlchemyActionRepository.changes_fit r a = true ->
      updated (RowAction r) (RowAction (SqlAlchemyActionRepository.update_record r a))
  | updated_reference ref r : varchar 2048 ref = true ->
      updated (RowAction r) (RowAction (SqlAlchemyOutboxRepository.set_arn ref r))
  | updated_lease now worker r : varchar 255 worker = true ->
      updated (RowOutbox r) (RowOutbox (SqlAlchemyOutboxRepository.lease now worker r))
  | updated_publish now result r : updated (RowOutbox r) (RowOutbox (SqlAlchemyOutboxRepository.publish now result r))
  | updated_release error_type retry_at max_attempts now r :
      storable error_type = true -> int32 (omr_attempt_count r + 1) = true ->
      updated (RowOutbox r) (RowOutbox (SqlAlchemyOutboxRepository.release error_type retry_at max_attempts now r)).

Lemma inserted_fits `{DatetimeText} r : inserted r -> fits_table r = column_fits r.
Proof.
  unfold fits_table. destruct 1 as [c|i draw k doc Hk|ch v Hp Ht|rv|i f|a|fr e|e|fr m]; cbn [encode_row fst snd].
  - rewrite typed_case. cbn. rewrite !(short_between 255 255) by reflexivity. by destruct (case_status c).
  - rewrite typed_document. cbn. rewrite Hk, (short_between 255 255), (opt_short_between 2048 2048) by reflexivity.
    by_conjuncts.
  - rewrite typed_chunk. cbn [PgVectorRetrievalService.chunk_record chr_position chr_token_count chr_heading chr_content chr_embedding column_fits].
    rewrite Hp, Ht, (opt_short_between 500 500), vector_width by reflexivity. by_conjuncts.
  - rewrite typed_review. cbn. rewrite (short_between 64 64) by reflexivity.
    destruct (rec_decision (rv_recommendation rv)); by_conjuncts.
  - rewrite typed_finding. cbn. rewrite (short_between 255 255) by reflexivity. by destruct (category f), (severity f).
  - rewrite typed_action. cbn. rewrite !(short_between 255 255), (opt_short_between 255 255), (opt_short_between 2048 2048) by reflexivity.
    destruct (ga_tool_name a), (ga_status a); cbn; by_conjuncts.
  - rewrite typed_audit. cbn. by rewrite (short_between 128 128), (short_between 255 255).
  - rewrite typed_audit. cbn. by rewrite (short_between 128 128), (short_between 255 255).
  - rewrite typed_outbox. cbn. by destruct (omc_event_type m).
Qed.

Lemma updated_fits `{DatetimeText} r r' : updated r r' -> fits_table r = true -> fits_table r' = true.
Proof.
  unfold fits_table. destruct 1 as [read st t r|r a Hv Hfit|ref r Href|now w r Hw|now res r|err at_ n now r Herr Hn]; cbn [encode_row fst snd].
  - rewrite !typed_case, !andb_true_iff. cbn. intros [[[Hst ?] ?] ?]. split_and!; try done. destruct (pystr_eqb _ _); [done|by destruct st].
  - unfold valid_GovernedAction in Hv. rewrite !andb_true_iff in Hv. destruct Hv as ((((((_ & _) & _) & Ha) & _) & _) & _).
    unfold SqlAlchemyActionRepository.changes_fit in Hfit. rewrite andb_true_iff, !orb_true_iff, !bool_decide_eq_true in Hfit.
    destruct Hfit as [Hap Hco].
    rewrite !typed_action, !andb_true_iff. cbn. intros ((((((? & ?) & _) & ?) & Hap') & ?) & Hco'). split_and!; try done.
    + by destruct (ga_status a).
    + destruct Hap as [<-|Hap]; [done|]. by rewrite (opt_short_between 255 255).
    + destruct Hco as [<-|Hco]; done.
  - rewrite !typed_action, !andb_true_iff. cbn. intros ((((((? & ?) & ?) & ?) & ?) & _) & ?). split_and!; try done.
    by rewrite (short_between 2048 2048).
  - rewrite !typed_outbox, !andb_true_iff. cbn. intros ((((? & ?) & ?) & _) & ?). split_and!; try done. by rewrite (short_between 255 255).
  - rewrite !typed_outbox, !andb_true_iff. cbn. by intros ((((? & ?) & ?) & _) & _).
  - rewrite !typed_outbox, !andb_true_iff. cbn. intros ((((? & ?) & _) & _) & _). split_and!; try done.
    unfold short. rewrite (storable_take 255 err Herr), andb_true_r. apply N.leb_le. rewrite length_take. lia.
Qed.

Lemma valid_action_fits a :
  valid_GovernedAction a = true -> forallb storable [ga_tenant_id a; ga_proposer_id a; ga_approval_comment a] = true ->
  opt_storable (ga_approver_id a) = true -> opt_storable (ga_workflow_execution_arn a) = true ->
  forall `{DatetimeText}, column_fits (RowAction (SqlAlchemyActionRepository.record_from_action a)) = true.
Proof.
  intros Hv Hs Hsa Hsw ?. unfold valid_GovernedAction in Hv. rewrite !andb_true_iff in Hv.
  destruct Hv as ((((((Ht & _) & Hp) & Ha) & _) & Hw) & _). cbn [forallb] in Hs. rewrite !andb_true_iff in Hs. destruct Hs as (? & ? & Hc & _).
  cbn [column_fits SqlAlchemyActionRepository.record_from_action gar_tenant_id gar_proposer_id gar_approver_id
    gar_approval_comment gar_workflow_execution_arn]. by rewrite Hc, (varchar_within 1), (varchar_within 1), !opt_varchar_within.
Qed.

(** C28. Every row the repositories insert (cases, documents, chunks, reviews, findings,
    actions, audit events, messages) has the columns of its migrated table with values of
    their types and widths exactly when the model's check of its columns, which decides
    between storing it and an error, passes; for actions and audit events, whose Pydantic
    models bound the lengths, that is whenever the database can hold their characters. Every
    row they update (the status of a case, the transition or the workflow reference of an
    action, the lease, the publication and the failure of a message) still fits: an error
    type of any length is cut to its column. *)
Theorem written_rows_fit `{DatetimeText} :
  (forall r, inserted r -> fits_table r = column_fits r) /\
  (forall r r', updated r r' -> fits_table r = true -> fits_table r' = true) /\
  (forall a, valid_GovernedAction a = true -> forallb storable [ga_tenant_id a; ga_proposer_id a; ga_approval_comment a] = true ->
     opt_storable (ga_approver_id a) = true -> opt_storable (ga_workflow_execution_arn a) = true ->
     column_fits (RowAction (SqlAlchemyActionRepository.record_from_action a)) = true) /\
  (forall fr e, valid_AuditEventCreate e = true -> storable (ae_event_type e) = true -> storable (ae_actor_id e) = true ->
     column_fits (RowAudit (SqlAlchemyActionRepository.audit_record fr e)) = true).
Proof.
  split_and!.
  - apply inserted_fits.
  - apply updated_fits.
  - intros a Hv Hs Hsa Hsw. by apply valid_action_fits.
  - intros fr e [Ht Ha]%andb_true_iff Hst Hsa. cbn [column_fits SqlAlchemyActionRepository.audit_record aer_event_type aer_actor_id].
    by rewrite (varchar_within 1), (varchar_within 1).
Qed.

Section witnesses.
Definition some_case : SupplierCaseRecord := {|
  scr_id := mkUUID 1 eq_refl; scr_tenant_id := u "acme"; scr_supplier_name := u "Widgets"; scr_description := [];
  scr_status := u "new"; scr_created_at := 0; scr_updated_at := 0 |}.
Definition some_document (i : UUID) : DocumentRecord := {|
  dr_id := mkUUID 2 eq_refl; dr_case_id := i; dr_title := u "Policy"; dr_position := 0; dr_content := u "text";
  dr_source_uri := None; dr_checksum := None; dr_metadata_json := [] |}.

Lemma empty_keyed : db_keyed db_empty.
Proof. by split; intros k r; cbn; rewrite lookup_empty. Qed.

(** A document is refused without its case and admitted with it. *)
Lemma insertions_keep_schema_witness :
  admits (tables head_schema) (rows_of db_empty) (u "documents") (document_row (some_document (scr_id some_case))) = false /\
  admits (tables head_schema) (rows_of (put_case some_case db_empty)) (u "documents") (document_row (some_document (scr_id some_case))) = true.
Proof.
  split.
  - exact (insertions_keep_schema (RowDocument (some_document (scr_id some_case))) db_empty empty_keyed).
  - pose proof (insertions_keep_schema (RowCase some_case) db_empty empty_keyed) as H.
    change (insert_row (RowCase some_case) db_empty) with (Some (put_case some_case db_empty)) in H. destruct H as (_ & Hk & _ & _).
    exact (proj1 (insertions_keep_schema (RowDocument (some_document (scr_id some_case))) (put_case some_case db_empty) Hk)).
Defined.

Definition some_message : OutboxMessageRecord := {|
  omr_id := mkUUID 3 eq_refl; omr_aggregate_type := aggregate_type_literal; omr_aggregate_id := mkUUID 4 eq_refl;
  omr_event_type := value APPROVAL_WORKFLOW_START; omr_payload_json := JNull; omr_attempt_count := 0; omr_available_at := 0;
  omr_locked_at := None; omr_locked_by := None; omr_published_at := None; omr_dead_lettered_at := None;
  omr_last_error := None; omr_delivery_result_json := None; omr_created_at := 0 |}.

(** A title that is too long does not fit; an error type of 300 characters is cut. *)
Lemma written_rows_fit_witness :
  fits_table (RowDocument (SqlAlchemyCaseRepository.document_record (scr_id some_case) (fun _ => scr_id some_case) 0
    {| doc_title := replicate 300 97%N; doc_content := u "text"; doc_source_uri := None |})) = false /\
  fits_table (RowOutbox (SqlAlchemyOutboxRepository.release (replicate 300 97%N) 5 3 4 some_message)) = true.
Proof.
  destruct (@written_rows_fit History.timestamps) as (Hin & Hup & _ & _). split.
  - rewrite (Hin _ (inserted_document (scr_id some_case) (fun _ => scr_id some_case) 0
      {| doc_title := replicate 300 97%N; doc_content := u "text"; doc_source_uri := None |} eq_refl)).
    vm_compute. reflexivity.
  - refine (Hup (RowOutbox some_message) _ (updated_release _ _ _ _ _ _ _) _); vm_compute; reflexivity.
Defined.
End witnesses.
